(** * A shallow embedding of libmodbus' [modbus.c]

    The C functions of [src/modbus/modbus.c] are transcribed as Rocq
    functions over [Z].  Narrowing conversions to [uint8_t] and [uint16_t]
    are written out ([u8], [u16]); wider integers are left unbounded.
    Arrays are lists; an access outside an array (undefined in C) is a
    fault of the small state-and-fault monad [M].  System calls are
    recorded in a trace and answered from a script held in the [world]. *)

From Stdlib Require Import ZArith List Bool Lia.
Import ListNotations.
Open Scope Z_scope.

(** ** Machine integers *)

Definition u8 (z : Z) : Z := z mod 256.
Definition u16 (z : Z) : Z := z mod 65536.
Definition UINT16_MAX : Z := 65535.
Definition USHRT_MAX : Z := 65535.

Definition is_byte (z : Z) : Prop := 0 <= z < 256.
Definition bytes (l : list Z) : Prop := Forall is_byte l.
Definition len (l : list Z) : Z := Z.of_nat (length l).

(** ** Arrays *)

(** [buf[i]] as an rvalue; [None] outside the array. *)
Definition load (buf : list Z) (i : Z) : option Z :=
  if i <? 0 then None else nth_error buf (Z.to_nat i).

Fixpoint upd (n : nat) (v : Z) (l : list Z) : option (list Z) :=
  match l, n with
  | [], _ => None
  | _ :: t, O => Some (v :: t)
  | h :: t, S n' =>
      match upd n' v t with Some t' => Some (h :: t') | None => None end
  end.

(** [buf[i] = v] as is; [None] outside the array. *)
Definition store (buf : list Z) (i v : Z) : option (list Z) :=
  if i <? 0 then None else upd (Z.to_nat i) v buf.

(** [buf[i] = v] for a [uint8_t] array: the value is converted on the way. *)
Definition store8 (buf : list Z) (i v : Z) : option (list Z) :=
  store buf i (u8 v).

(** [buf[i] = v] for a [uint16_t] array. *)
Definition store16 (buf : list Z) (i v : Z) : option (list Z) :=
  store buf i (u16 v).

(** [n] bytes landing at [buf + pos], as [read], [recv] and [memcpy] do. *)
Definition blit (buf : list Z) (pos : Z) (data : list Z) : option (list Z) :=
  if (0 <=? pos) && (pos + len data <=? len buf)
  then Some (firstn (Z.to_nat pos) buf ++ data
             ++ skipn (Z.to_nat pos + length data) buf)
  else None.

(** ** The two monads

    Pure array code lives in [option]; code that talks to the transport or
    keeps a [static] counter lives in [M].  The world survives a fault, so
    the trace up to the faulting access stays observable. *)

Definition obind {A B : Type} (m : option A) (k : A -> option B) : option B :=
  match m with Some a => k a | None => None end.

Notation "'do' x <- m ; k" := (obind m (fun x => k))
  (at level 10, x name, m at level 100, k at level 200).
Notation "'do' ' p <- m ; k" := (obind m (fun p => k))
  (at level 10, p pattern, m at level 100, k at level 200).

(** What the peer and the operating system do, as seen by [select] and
    [read]/[recv]: a segment of data becomes readable, nothing arrives
    before the timeout, the peer closes, [read] fails, [select] fails. *)
Inductive io_event : Type :=
  | Chunk (data : list Z)
  | Silence
  | Eof
  | ReadError
  | SelectError.

(** System calls with an effect outside the process. *)
Inductive syscall : Type :=
  | SysWrite (frame : list Z)   (* write / send of these bytes *)
  | SysFlush                    (* tcflush (fd, TCIOFLUSH) *)
  | SysReconnect.               (* modbus_close; modbus_connect *)

Record world : Type := mkWorld {
  t_id_query : Z;               (* static t_id of build_query_packet_tcp *)
  t_id_response : Z;            (* static t_id of build_response_packet_tcp *)
  incoming : list io_event;     (* what select and read will see, in order *)
  write_script : list Z;        (* results of the next write calls; when
                                   exhausted a write takes the whole buffer *)
  trace : list syscall;         (* system calls made so far, oldest first *)
  stack_garbage : nat -> Z;     (* contents of uninitialised automatic
                                   storage *)
  input_after_reset : list io_event -> list io_event
                                (* what select and read will see once the
                                   input is flushed or the connection
                                   replaced, given what they would have
                                   seen: the bytes that had arrived are
                                   lost, whichever they are *)
}.

Definition M (A : Type) : Type := world -> option A * world.

Definition ret {A : Type} (a : A) : M A := fun w => (Some a, w).
Definition fault {A : Type} : M A := fun w => (None, w).
Definition lift {A : Type} (o : option A) : M A := fun w => (o, w).
Definition bind {A B : Type} (m : M A) (k : A -> M B) : M B :=
  fun w => match m w with
           | (Some a, w') => k a w'
           | (None, w') => (None, w')
           end.

Notation "x <- m ;; k" := (bind m (fun x => k))
  (at level 61, m at next level, right associativity).
Notation "' p <- m ;; k" := (bind m (fun p => k))
  (at level 61, p pattern, m at next level, right associativity).
Notation "m ;; k" := (bind m (fun _ => k))
  (at level 61, right associativity).

Definition set_incoming (l : list io_event) (w : world) : world :=
  mkWorld (t_id_query w) (t_id_response w) l (write_script w) (trace w)
          (stack_garbage w) (input_after_reset w).
Definition set_trace (tr : list syscall) (w : world) : world :=
  mkWorld (t_id_query w) (t_id_response w) (incoming w) (write_script w) tr
          (stack_garbage w) (input_after_reset w).
Definition set_write_script (s : list Z) (w : world) : world :=
  mkWorld (t_id_query w) (t_id_response w) (incoming w) s (trace w)
          (stack_garbage w) (input_after_reset w).
Definition set_t_id_query (t : Z) (w : world) : world :=
  mkWorld t (t_id_response w) (incoming w) (write_script w) (trace w)
          (stack_garbage w) (input_after_reset w).
Definition set_t_id_response (t : Z) (w : world) : world :=
  mkWorld (t_id_query w) t (incoming w) (write_script w) (trace w)
          (stack_garbage w) (input_after_reset w).

Definition emit (c : syscall) : M unit :=
  fun w => (Some tt, set_trace (trace w ++ [c]) w).

(** The input once [tcflush] has discarded what was received and not
    read, or once the connection has been closed and opened again. *)
Definition reset_input : M unit :=
  fun w => (Some tt, set_incoming (input_after_reset w (incoming w)) w).

(** An automatic [uint8_t] array of [n] elements before its first write. *)
Definition uninit (g : nat -> Z) (n : nat) : list Z :=
  map (fun i => u8 (g i)) (seq 0 n).
Definition local_array (n : nat) : M (list Z) :=
  fun w => (Some (uninit (stack_garbage w) n), w).
(** An automatic [int] before its first write. *)
Definition local_int : M Z := fun w => (Some (stack_garbage w O), w).

(** The frames handed to [write]/[send], in order. *)
Fixpoint writes (tr : list syscall) : list (list Z) :=
  match tr with
  | [] => []
  | SysWrite f :: tr' => f :: writes tr'
  | _ :: tr' => writes tr'
  end.

(** ** Constants of [modbus.h]

    The header is not part of the sources at hand.  Constants whose value
    the specification states are definitions; the others are fields of
    [modbus_h], constrained only by what the specification says of them. *)

(** Modelled from the spec: [modbus.h] is absent; the function codes are
    those of the table in section 4.3. *)
Definition FC_READ_COIL_STATUS : Z := 0x01.
Definition FC_READ_INPUT_STATUS : Z := 0x02.
Definition FC_READ_HOLDING_REGISTERS : Z := 0x03.
Definition FC_READ_INPUT_REGISTERS : Z := 0x04.
Definition FC_FORCE_SINGLE_COIL : Z := 0x05.
Definition FC_PRESET_SINGLE_REGISTER : Z := 0x06.
Definition FC_READ_EXCEPTION_STATUS : Z := 0x07.
Definition FC_FORCE_MULTIPLE_COILS : Z := 0x0F.
Definition FC_PRESET_MULTIPLE_REGISTERS : Z := 0x10.

(** Modelled from the spec: [modbus.h] is absent; section 6 gives the
    envelope sizes and the packet bound. *)
Definition HEADER_LENGTH_RTU : Z := 0.
Definition CHECKSUM_SIZE_RTU : Z := 2.
Definition HEADER_LENGTH_TCP : Z := 6.
Definition CHECKSUM_SIZE_TCP : Z := 0.
Definition MAX_PACKET_SIZE : Z := 260.

(** Modelled from the spec: [modbus.h] is absent; section 4.2 has the RTU
    request preset at six bytes and the MBAP one at twelve, section 4.3 has
    a response start with unit, function code and byte count, which
    [build_response_packet_rtu] writes at 0, 1, 2 before returning
    [PRESET_RESPONSE_SIZE_RTU + 1].  [MIN_QUERY_SIZE] is the size of the
    request buffers of the read operations: the larger preset. *)
Definition PRESET_QUERY_SIZE_RTU : Z := 6.
Definition PRESET_QUERY_SIZE_TCP : Z := 12.
Definition PRESET_RESPONSE_SIZE_RTU : Z := 2.
Definition PRESET_RESPONSE_SIZE_TCP : Z := 8.
Definition MIN_QUERY_SIZE : Z := 12.

(** Modelled from the spec: [modbus.h] is absent; section 4.5 gives the
    quantity caps of the master. *)
Definition MAX_READ_HOLD_REGS : Z := 125.
Definition MAX_READ_INPUT_REGS : Z := 125.
Definition MAX_WRITE_REGS : Z := 123.
Definition MAX_WRITE_COILS : Z := 1968.

(** Modelled from the spec: [modbus.h] is absent; section 4.5 has the
    decoders write 1 and 0. *)
Definition ON : Z := 1.
Definition OFF : Z := 0.
Definition TRUE : Z := 1.
Definition FALSE : Z := 0.

Definition NB_TAB_ERROR_MSG : Z := 12.

(** Modelled from the spec: [modbus.h] is absent; section 6 only says that
    the error codes are distinct negative integers, disjoint from the
    negated exception codes, and section 4.4 that the undefined size is a
    sentinel.  Report Slave ID is a function of its own that the table of
    section 4.3 leaves out. *)
Class modbus_h : Type := {
  INVALID_CRC : Z;
  COMM_TIME_OUT : Z;
  PORT_SOCKET_FAILURE : Z;
  SELECT_FAILURE : Z;
  CONNECTION_CLOSED : Z;
  TOO_MANY_DATAS : Z;
  INVALID_EXCEPTION_CODE : Z;
  MSG_SIZE_UNDEFINED : Z;
  FC_REPORT_SLAVE_ID : Z;
  error_codes_distinct :
    NoDup [INVALID_CRC; COMM_TIME_OUT; PORT_SOCKET_FAILURE; SELECT_FAILURE;
           CONNECTION_CLOSED; TOO_MANY_DATAS; INVALID_EXCEPTION_CODE];
  error_codes_negative :
    Forall (fun e => e < - 0x0B)
          [INVALID_CRC; COMM_TIME_OUT; PORT_SOCKET_FAILURE; SELECT_FAILURE;
           CONNECTION_CLOSED; TOO_MANY_DATAS; INVALID_EXCEPTION_CODE];
  MSG_SIZE_UNDEFINED_sentinel : MSG_SIZE_UNDEFINED < 0;
  FC_REPORT_SLAVE_ID_own :
    0 <= FC_REPORT_SLAVE_ID < 0x80 /\
    ~ In FC_REPORT_SLAVE_ID
         [FC_READ_COIL_STATUS; FC_READ_INPUT_STATUS; FC_READ_HOLDING_REGISTERS;
          FC_READ_INPUT_REGISTERS; FC_FORCE_SINGLE_COIL;
          FC_PRESET_SINGLE_REGISTER; FC_READ_EXCEPTION_STATUS;
          FC_FORCE_MULTIPLE_COILS; FC_PRESET_MULTIPLE_REGISTERS]
}.

(** ** The handle *)

Inductive type_com_t : Type := RTU | TCP.
Inductive error_handling_t : Type := RECONNECT_ON_ERROR | NOP_ON_ERROR.

Record modbus_param_t : Type := mkParam {
  type_com : type_com_t;
  debug : bool;
  header_length : Z;
  checksum_size : Z;
  error_handling : error_handling_t
}.

(** [modbus_init_rtu]; the serial settings play no part below.  The
    [memset] leaves [error_handling] at its zero enumerator, which RTU
    never consults. *)
Definition modbus_init_rtu : modbus_param_t :=
  mkParam RTU false HEADER_LENGTH_RTU CHECKSUM_SIZE_RTU RECONNECT_ON_ERROR.

Definition modbus_init_tcp : modbus_param_t :=
  mkParam TCP false HEADER_LENGTH_TCP CHECKSUM_SIZE_TCP RECONNECT_ON_ERROR.

Definition modbus_set_error_handling (mb : modbus_param_t)
    (e : error_handling_t) : modbus_param_t :=
  mkParam (type_com mb) (debug mb) (header_length mb) (checksum_size mb) e.

Definition is_rtu (mb : modbus_param_t) : bool :=
  match type_com mb with RTU => true | TCP => false end.

(** ** The register map *)

Record modbus_mapping_t : Type := mkMapping {
  nb_coil_status : Z;
  nb_input_status : Z;
  nb_input_registers : Z;
  nb_holding_registers : Z;
  tab_coil_status : list Z;
  tab_input_status : list Z;
  tab_input_registers : list Z;
  tab_holding_registers : list Z
}.

(** [modbus_mapping_new] when the four allocations succeed. *)
Definition modbus_mapping_new (nb_coil_status nb_input_status
    nb_holding_registers nb_input_registers : Z) : modbus_mapping_t :=
  mkMapping nb_coil_status nb_input_status nb_input_registers
            nb_holding_registers
            (repeat 0 (Z.to_nat nb_coil_status))
            (repeat 0 (Z.to_nat nb_input_status))
            (repeat 0 (Z.to_nat nb_input_registers))
            (repeat 0 (Z.to_nat nb_holding_registers)).

Definition set_tab_coil_status (t : list Z) (m : modbus_mapping_t)
    : modbus_mapping_t :=
  mkMapping (nb_coil_status m) (nb_input_status m) (nb_input_registers m)
            (nb_holding_registers m) t (tab_input_status m)
            (tab_input_registers m) (tab_holding_registers m).

(** ** CRC-16 *)

(** Table of CRC values for high-order byte *)
Definition table_crc_hi : list Z := [
0x00; 0xC1; 0x81; 0x40; 0x01; 0xC0; 0x80; 0x41; 0x01; 0xC0; 0x80; 0x41; 
0x00; 0xC1; 0x81; 0x40; 0x01; 0xC0; 0x80; 0x41; 0x00; 0xC1; 0x81; 0x40; 
0x00; 0xC1; 0x81; 0x40; 0x01; 0xC0; 0x80; 0x41; 0x01; 0xC0; 0x80; 0x41; 
0x00; 0xC1; 0x81; 0x40; 0x00; 0xC1; 0x81; 0x40; 0x01; 0xC0; 0x80; 0x41; 
0x00; 0xC1; 0x81; 0x40; 0x01; 0xC0; 0x80; 0x41; 0x01; 0xC0; 0x80; 0x41; 
0x00; 0xC1; 0x81; 0x40; 0x01; 0xC0; 0x80; 0x41; 0x00; 0xC1; 0x81; 0x40; 
0x00; 0xC1; 0x81; 0x40; 0x01; 0xC0; 0x80; 0x41; 0x00; 0xC1; 0x81; 0x40; 
0x01; 0xC0; 0x80; 0x41; 0x01; 0xC0; 0x80; 0x41; 0x00; 0xC1; 0x81; 0x40; 
0x00; 0xC1; 0x81; 0x40; 0x01; 0xC0; 0x80; 0x41; 0x01; 0xC0; 0x80; 0x41; 
0x00; 0xC1; 0x81; 0x40; 0x01; 0xC0; 0x80; 0x41; 0x00; 0xC1; 0x81; 0x40; 
0x00; 0xC1; 0x81; 0x40; 0x01; 0xC0; 0x80; 0x41; 0x01; 0xC0; 0x80; 0x41; 
0x00; 0xC1; 0x81; 0x40; 0x00; 0xC1; 0x81; 0x40; 0x01; 0xC0; 0x80; 0x41; 
0x00; 0xC1; 0x81; 0x40; 0x01; 0xC0; 0x80; 0x41; 0x01; 0xC0; 0x80; 0x41; 
0x00; 0xC1; 0x81; 0x40; 0x00; 0xC1; 0x81; 0x40; 0x01; 0xC0; 0x80; 0x41; 
0x01; 0xC0; 0x80; 0x41; 0x00; 0xC1; 0x81; 0x40; 0x01; 0xC0; 0x80; 0x41; 
0x00; 0xC1; 0x81; 0x40; 0x00; 0xC1; 0x81; 0x40; 0x01; 0xC0; 0x80; 0x41; 
0x00; 0xC1; 0x81; 0x40; 0x01; 0xC0; 0x80; 0x41; 0x01; 0xC0; 0x80; 0x41; 
0x00; 0xC1; 0x81; 0x40; 0x01; 0xC0; 0x80; 0x41; 0x00; 0xC1; 0x81; 0x40; 
0x00; 0xC1; 0x81; 0x40; 0x01; 0xC0; 0x80; 0x41; 0x01; 0xC0; 0x80; 0x41; 
0x00; 0xC1; 0x81; 0x40; 0x00; 0xC1; 0x81; 0x40; 0x01; 0xC0; 0x80; 0x41; 
0x00; 0xC1; 0x81; 0x40; 0x01; 0xC0; 0x80; 0x41; 0x01; 0xC0; 0x80; 0x41; 
0x00; 0xC1; 0x81; 0x40].

(** Table of CRC values for low-order byte *)
Definition table_crc_lo : list Z := [
0x00; 0xC0; 0xC1; 0x01; 0xC3; 0x03; 0x02; 0xC2; 0xC6; 0x06; 0x07; 0xC7; 
0x05; 0xC5; 0xC4; 0x04; 0xCC; 0x0C; 0x0D; 0xCD; 0x0F; 0xCF; 0xCE; 0x0E; 
0x0A; 0xCA; 0xCB; 0x0B; 0xC9; 0x09; 0x08; 0xC8; 0xD8; 0x18; 0x19; 0xD9; 
0x1B; 0xDB; 0xDA; 0x1A; 0x1E; 0xDE; 0xDF; 0x1F; 0xDD; 0x1D; 0x1C; 0xDC; 
0x14; 0xD4; 0xD5; 0x15; 0xD7; 0x17; 0x16; 0xD6; 0xD2; 0x12; 0x13; 0xD3; 
0x11; 0xD1; 0xD0; 0x10; 0xF0; 0x30; 0x31; 0xF1; 0x33; 0xF3; 0xF2; 0x32; 
0x36; 0xF6; 0xF7; 0x37; 0xF5; 0x35; 0x34; 0xF4; 0x3C; 0xFC; 0xFD; 0x3D; 
0xFF; 0x3F; 0x3E; 0xFE; 0xFA; 0x3A; 0x3B; 0xFB; 0x39; 0xF9; 0xF8; 0x38; 
0x28; 0xE8; 0xE9; 0x29; 0xEB; 0x2B; 0x2A; 0xEA; 0xEE; 0x2E; 0x2F; 0xEF; 
0x2D; 0xED; 0xEC; 0x2C; 0xE4; 0x24; 0x25; 0xE5; 0x27; 0xE7; 0xE6; 0x26; 
0x22; 0xE2; 0xE3; 0x23; 0xE1; 0x21; 0x20; 0xE0; 0xA0; 0x60; 0x61; 0xA1; 
0x63; 0xA3; 0xA2; 0x62; 0x66; 0xA6; 0xA7; 0x67; 0xA5; 0x65; 0x64; 0xA4; 
0x6C; 0xAC; 0xAD; 0x6D; 0xAF; 0x6F; 0x6E; 0xAE; 0xAA; 0x6A; 0x6B; 0xAB; 
0x69; 0xA9; 0xA8; 0x68; 0x78; 0xB8; 0xB9; 0x79; 0xBB; 0x7B; 0x7A; 0xBA; 
0xBE; 0x7E; 0x7F; 0xBF; 0x7D; 0xBD; 0xBC; 0x7C; 0xB4; 0x74; 0x75; 0xB5; 
0x77; 0xB7; 0xB6; 0x76; 0x72; 0xB2; 0xB3; 0x73; 0xB1; 0x71; 0x70; 0xB0; 
0x50; 0x90; 0x91; 0x51; 0x93; 0x53; 0x52; 0x92; 0x96; 0x56; 0x57; 0x97; 
0x55; 0x95; 0x94; 0x54; 0x9C; 0x5C; 0x5D; 0x9D; 0x5F; 0x9F; 0x9E; 0x5E; 
0x5A; 0x9A; 0x9B; 0x5B; 0x99; 0x59; 0x58; 0x98; 0x88; 0x48; 0x49; 0x89; 
0x4B; 0x8B; 0x8A; 0x4A; 0x4E; 0x8E; 0x8F; 0x4F; 0x8D; 0x4D; 0x4C; 0x8C; 
0x44; 0x84; 0x85; 0x45; 0x87; 0x47; 0x46; 0x86; 0x82; 0x42; 0x43; 0x83; 
0x41; 0x81; 0x80; 0x40].

Definition tab (t : list Z) (i : Z) : Z := nth (Z.to_nat i) t 0.

(** One turn of the loop of [crc16] on the pair [(crc_hi, crc_lo)]. *)
Definition crc16_step (st : Z * Z) (b : Z) : Z * Z :=
  let '(crc_hi, crc_lo) := st in
  let i := Z.lxor crc_hi b in
  (Z.lxor crc_lo (tab table_crc_hi i), tab table_crc_lo i).

Definition crc16_state (buffer : list Z) (buffer_length : Z) : Z * Z :=
  fold_left crc16_step (firstn (Z.to_nat (u16 buffer_length)) buffer)
            (0xFF, 0xFF).

(** [crc16]: the length is a [uint16_t] parameter. *)
Definition crc16 (buffer : list Z) (buffer_length : Z) : Z :=
  let '(crc_hi, crc_lo) := crc16_state buffer buffer_length in
  Z.lor (Z.shiftl crc_hi 8) crc_lo.

Section Modbus.

Context {hdr : modbus_h}.

(** ** Errors *)

(** Treats errors and flush or close connection if necessary.  The messages
    go to the standard output and are left out.  [tcflush] discards the
    input that was received and not read, and a reconnection leaves the
    input of the old connection behind: from there on the input is
    [input_after_reset]. *)
Definition error_treat (mb : modbus_param_t) : M unit :=
  match type_com mb with
  | RTU => emit SysFlush ;; reset_input
  | TCP =>
      match error_handling mb with
      | RECONNECT_ON_ERROR => emit SysReconnect ;; reset_input
      | NOP_ON_ERROR => ret tt
      end
  end.

(** ** Expected size of a response *)

Definition bool01 (b : bool) : Z := if b then 1 else 0.

(** Computes the size of the expected response.  The sum is an [int]
    returned as [unsigned int]; it is not negative for a header length and
    a checksum size that are not. *)
Definition compute_response_size (mb : modbus_param_t) (query : list Z)
    : option Z :=
  let offset := header_length mb in
  do fc <- load query (offset + 1);
  do response_size_computed <-
    (if (fc =? FC_READ_COIL_STATUS) || (fc =? FC_READ_INPUT_STATUS) then
       do hi <- load query (offset + 4);
       do lo <- load query (offset + 5);
       let coil_count := Z.lor (Z.shiftl hi 8) lo in
       Some (3 + Z.quot coil_count 8
               + bool01 (negb (Z.rem coil_count 8 =? 0)))
     else if (fc =? FC_READ_HOLDING_REGISTERS)
             || (fc =? FC_READ_INPUT_REGISTERS) then
       do hi <- load query (offset + 4);
       do lo <- load query (offset + 5);
       Some (3 + 2 * Z.lor (Z.shiftl hi 8) lo)
     else if fc =? FC_READ_EXCEPTION_STATUS then Some 4
     else Some 6);
  Some (response_size_computed + offset + checksum_size mb).

(** ** Building requests and responses *)

(** Buils a RTU header *)
Definition build_query_packet_rtu (slave function start_addr count : Z)
    (packet : list Z) : option (Z * list Z) :=
  let slave := u8 slave in
  let function := u8 function in
  let start_addr := u16 start_addr in
  let count := u16 count in
  do packet <- store8 packet 0 slave;
  do packet <- store8 packet 1 function;
  do packet <- store8 packet 2 (Z.shiftr start_addr 8);
  do packet <- store8 packet 3 (Z.land start_addr 0x00ff);
  do packet <- store8 packet 4 (Z.shiftr count 8);
  do packet <- store8 packet 5 (Z.land count 0x00ff);
  Some (PRESET_QUERY_SIZE_RTU, packet).

(** The transaction identifier after the [if] of the two TCP builders. *)
Definition next_t_id (t_id : Z) : Z :=
  if t_id <? UINT16_MAX then t_id + 1 else 0.

(** Builds a TCP header *)
Definition build_query_packet_tcp (slave function start_addr count : Z)
    (packet : list Z) : M (Z * list Z) :=
  fun w =>
    let slave := u8 slave in
    let function := u8 function in
    let start_addr := u16 start_addr in
    let count := u16 count in
    let t_id := next_t_id (t_id_query w) in
    (do packet <- store8 packet 0 (Z.shiftr t_id 8);
     do packet <- store8 packet 1 (Z.land t_id 0x00ff);
     do packet <- store8 packet 2 0;
     do packet <- store8 packet 3 0;
     do packet <- store8 packet 6 slave;
     do packet <- store8 packet 7 function;
     do packet <- store8 packet 8 (Z.shiftr start_addr 8);
     do packet <- store8 packet 9 (Z.land start_addr 0x00ff);
     do packet <- store8 packet 10 (Z.shiftr count 8);
     do packet <- store8 packet 11 (Z.land count 0x00ff);
     Some (PRESET_QUERY_SIZE_TCP, packet),
     set_t_id_query t_id w).

Definition build_query_packet (mb : modbus_param_t)
    (slave function start_addr count : Z) (packet : list Z)
    : M (Z * list Z) :=
  match type_com mb with
  | RTU => lift (build_query_packet_rtu slave function start_addr count packet)
  | TCP => build_query_packet_tcp slave function start_addr count packet
  end.

Definition build_response_packet_rtu (slave function byte_count : Z)
    (packet : list Z) : option (Z * list Z) :=
  do packet <- store8 packet 0 slave;
  do packet <- store8 packet 1 function;
  do packet <- store8 packet 2 byte_count;
  Some (PRESET_RESPONSE_SIZE_RTU + 1, packet).

Definition build_response_packet_tcp (slave function byte_count : Z)
    (packet : list Z) : M (Z * list Z) :=
  fun w =>
    let t_id := if t_id_response w <? USHRT_MAX
                then t_id_response w + 1 else 0 in
    (do packet <- store8 packet 0 (Z.shiftr t_id 8);
     do packet <- store8 packet 1 (Z.land t_id 0x00ff);
     do packet <- store8 packet 2 0;
     do packet <- store8 packet 3 0;
     do packet <- store8 packet 6 slave;
     do packet <- store8 packet 7 function;
     do packet <- store8 packet 8 byte_count;
     Some (PRESET_RESPONSE_SIZE_TCP + 1, packet),
     set_t_id_response t_id w).

Definition build_response_packet (mb : modbus_param_t)
    (slave function byte_count : Z) (packet : list Z) : M (Z * list Z) :=
  match type_com mb with
  | RTU => lift (build_response_packet_rtu slave function byte_count packet)
  | TCP => build_response_packet_tcp slave function byte_count packet
  end.

(** Sets the length of TCP message in the message *)
Definition set_packet_length_tcp (packet : list Z) (packet_size : Z)
    : option (list Z) :=
  let mbap_length := u16 (packet_size - 6) in
  do packet <- store8 packet 4 (Z.shiftr mbap_length 8);
  store8 packet 5 (Z.land mbap_length 0x00FF).

(** ** Checking and sending *)

(** If CRC is correct returns 0 else returns INVALID_CRC *)
Definition check_crc16 (mb : modbus_param_t) (msg : list Z) (msg_size : Z)
    : M Z :=
  match type_com mb with
  | RTU =>
      let crc_calc := crc16 msg (msg_size - 2) in
      hi <- lift (load msg (msg_size - 2)) ;;
      lo <- lift (load msg (msg_size - 1)) ;;
      let crc_received := u16 (Z.lor (Z.shiftl hi 8) lo) in
      if crc_calc =? crc_received then ret 0
      else (error_treat mb ;; ret INVALID_CRC)
  | TCP => ret 0
  end.

(** [write] or [send] of the first [size] bytes of [buf]. *)
Definition sys_write (buf : list Z) (size : Z) : M Z :=
  fun w =>
    if (0 <=? size) && (size <=? len buf) then
      let frame := firstn (Z.to_nat size) buf in
      let w' := set_trace (trace w ++ [SysWrite frame]) w in
      match write_script w with
      | [] => (Some size, w')
      | r :: s => (Some r, set_write_script s w')
      end
    else (None, w).

(** The first [if] of [modbus_send]: the CRC appended on a serial line, the
    MBAP length set on TCP; the buffer and [query_size] after it. *)
Definition modbus_send_envelope (mb : modbus_param_t) (query : list Z)
    (query_size : Z) : option (list Z * Z) :=
  match type_com mb with
  | RTU =>
      let s_crc := crc16 query query_size in
      do query <- store8 query query_size (Z.shiftr s_crc 8);
      do query <- store8 query (query_size + 1) (Z.land s_crc 0x00FF);
      Some (query, query_size + 2)
  | TCP =>
      do query <- set_packet_length_tcp query query_size;
      Some (query, query_size)
  end.

(** Sends a query/response over a serial or a TCP communication *)
Definition modbus_send (mb : modbus_param_t) (query : list Z)
    (query_size : Z) : M (Z * list Z) :=
  '(query, query_size) <- lift (modbus_send_envelope mb query query_size) ;;
  write_ret <- sys_write query query_size ;;
  if (write_ret =? -1) || negb (write_ret =? query_size) then
    error_treat mb ;; ret (PORT_SOCKET_FAILURE, query)
  else ret (write_ret, query).

(** ** Receiving *)

(** Computes the size of the header following the function code *)
Definition compute_query_size_header (function : Z) : Z :=
  if function <=? FC_FORCE_SINGLE_COIL then 4
  else if (function =? FC_FORCE_MULTIPLE_COILS)
          || (function =? FC_PRESET_MULTIPLE_REGISTERS) then 5
  else 0.

(** Computes the size of the data to write in the query *)
Definition compute_query_size_data (mb : modbus_param_t) (msg : list Z)
    : option Z :=
  do function <- load msg (header_length mb + 1);
  do byte <-
    (if (function =? FC_FORCE_MULTIPLE_COILS)
        || (function =? FC_PRESET_MULTIPLE_REGISTERS)
     then load msg (header_length mb + 6)
     else Some 0);
  Some (u8 (byte + checksum_size mb)).

(** [WAIT_DATA ()]: [Some r] when the macro makes [receive_msg] return [r],
    [None] when [select] reports data.  A [select] interrupted by a signal
    is called again and leaves no mark. *)
Definition wait_data (mb : modbus_param_t) : M (option Z) :=
  fun w =>
    match incoming w with
    | [] => (Some (Some COMM_TIME_OUT), w)
    | Silence :: rest => (Some (Some COMM_TIME_OUT), set_incoming rest w)
    | SelectError :: rest =>
        (error_treat mb ;; ret (Some SELECT_FAILURE)) (set_incoming rest w)
    | _ => (Some None, w)
    end.

(** [read (fd, msg + p_msg, size_to_read)] or its [recv] twin: the result
    of the call and the buffer after it.  A negative [size_to_read] becomes
    a huge [size_t], which asks for everything. *)
Definition sys_read (msg : list Z) (p_msg size_to_read : Z)
    : M (Z * list Z) :=
  fun w =>
    match incoming w with
    | Chunk data :: rest =>
        let n := if size_to_read <? 0 then length data
                 else Nat.min (Z.to_nat size_to_read) (length data) in
        let left := skipn n data in
        let w' := set_incoming (match left with
                                | [] => rest
                                | _ => Chunk left :: rest
                                end) w in
        match blit msg p_msg (firstn n data) with
        | Some msg' => (Some (Z.of_nat n, msg'), w')
        | None => (None, w')
        end
    | ReadError :: rest => (Some (-1, msg), set_incoming rest w)
    | _ => (Some (0, msg), w)
    end.

Inductive receive_state : Type := FUNCTION | BYTE | COMPLETE.

(** The [while (select_ret)] loop of [receive_msg], one turn per unit of
    fuel; the result is the returned code, the buffer and [*msg_size]. *)
Fixpoint receive_loop (fuel : nat) (mb : modbus_param_t)
    (state : receive_state) (msg_size_computed size_to_read : Z)
    (msg : list Z) (msg_size p_msg : Z) {struct fuel} : M (Z * list Z * Z) :=
  match fuel with
  | O => fault
  | S fuel' =>
    '(read_ret, msg) <- sys_read msg p_msg size_to_read ;;
    if read_ret =? -1 then
      error_treat mb ;; ret (PORT_SOCKET_FAILURE, msg, msg_size)
    else if read_ret =? 0 then ret (CONNECTION_CLOSED, msg, msg_size)
    else
      let msg_size := msg_size + read_ret in
      if msg_size >? MAX_PACKET_SIZE then
        error_treat mb ;; ret (TOO_MANY_DATAS, msg, msg_size)
      else
        '(state, msg_size_computed, size_to_read) <-
          lift (if msg_size <? msg_size_computed then
                  Some (state, msg_size_computed, msg_size_computed - msg_size)
                else
                  match state with
                  | FUNCTION =>
                      do fc <- load msg (header_length mb + 1);
                      let size_to_read := compute_query_size_header fc in
                      Some (BYTE, msg_size_computed + size_to_read,
                            size_to_read)
                  | BYTE =>
                      do size_to_read <- compute_query_size_data mb msg;
                      Some (COMPLETE, msg_size_computed + size_to_read,
                            size_to_read)
                  | COMPLETE => Some (COMPLETE, msg_size_computed, 0)
                  end) ;;
        let p_msg := p_msg + read_ret in
        if size_to_read >? 0 then
          r <- wait_data mb ;;
          match r with
          | Some code => ret (code, msg, msg_size)
          | None =>
              receive_loop fuel' mb state msg_size_computed size_to_read
                           msg msg_size p_msg
          end
        else ret (0, msg, msg_size)
  end.

(** Every turn of the loop that goes on has taken at least one byte, or a
    whole event, off [incoming]. *)
Fixpoint pending (l : list io_event) : nat :=
  match l with
  | [] => O
  | Chunk data :: l' => S (length data + pending l')
  | _ :: l' => S (pending l')
  end.

(** Monitors for the reply from the modbus slave or to receive query from
    a modbus master.  [msg_size] is the value of [*msg_size] on entry: it
    is only reset once the first wait has succeeded. *)
Definition receive_msg (mb : modbus_param_t) (msg_size_computed : Z)
    (msg : list Z) (msg_size : Z) : M (Z * list Z * Z) :=
  let '(msg_size_computed, state) :=
    if msg_size_computed =? MSG_SIZE_UNDEFINED
    then (header_length mb + 2, FUNCTION)
    else (msg_size_computed, COMPLETE) in
  let size_to_read := msg_size_computed in
  r <- wait_data mb ;;
  match r with
  | Some code => ret (code, msg, msg_size)
  | None =>
      fun w => receive_loop (S (pending (incoming w))) mb state
                            msg_size_computed size_to_read msg 0 0 w
  end.

(** Checks whether the right response is returned with good checksum. *)
Definition modbus_check_response (mb : modbus_param_t)
    (query response : list Z) : M (Z * list Z) :=
  let offset := header_length mb in
  response_size <- local_int ;;
  response_size_computed <- lift (compute_response_size mb query) ;;
  '(ret_, response, response_size) <-
    receive_msg mb response_size_computed response response_size ;;
  if ret_ =? 0 then
    ret_ <- check_crc16 mb response response_size ;;
    if negb (ret_ =? 0) then ret (ret_, response)
    else
      fc <- lift (load response (offset + 1)) ;;
      if (fc =? FC_READ_COIL_STATUS) || (fc =? FC_READ_INPUT_STATUS) then
        n <- lift (load response (offset + 2)) ;; ret (n, response)
      else if (fc =? FC_READ_HOLDING_REGISTERS)
              || (fc =? FC_READ_INPUT_REGISTERS) then
        n <- lift (load response (offset + 2)) ;;
        ret (Z.quot n 2, response)
      else if (fc =? FC_FORCE_MULTIPLE_COILS)
              || (fc =? FC_PRESET_MULTIPLE_REGISTERS) then
        hi <- lift (load response (offset + 4)) ;;
        lo <- lift (load response (offset + 5)) ;;
        ret (Z.lor (Z.shiftl hi 8) lo, response)
      else if fc =? FC_REPORT_SLAVE_ID then ret (response_size, response)
      else ret (1, response)
  else if (ret_ =? COMM_TIME_OUT)
          && (response_size =? offset + 3 + checksum_size mb) then
    ret_ <- check_crc16 mb response response_size ;;
    if negb (ret_ =? 0) then ret (ret_, response)
    else
      qfc <- lift (load query (offset + 1)) ;;
      rfc <- lift (load response (offset + 1)) ;;
      if 0x80 + qfc =? rfc then
        code <- lift (load response (offset + 2)) ;;
        if code <? NB_TAB_ERROR_MSG then
          error_treat mb ;; ret (- code, response)
        else
          (* free () of the automatic array s_error *)
          error_treat mb ;; fault
      else ret (response_size, response)
  else if ret_ =? COMM_TIME_OUT then
    error_treat mb ;; ret (COMM_TIME_OUT, response)
  else ret (ret_, response).

(** ** Server side *)

(** The [for] loop of [response_io_status] with [n] turns left: the
    buffer, [offset], [shift] and [byte] after it. *)
Fixpoint response_io_status_loop (n : nat) (i : Z)
    (tab_io_status response : list Z) (offset shift byte : Z)
    : option (list Z * Z * Z * Z) :=
  match n with
  | O => Some (response, offset, shift, byte)
  | S n' =>
      do v <- load tab_io_status i;
      let byte := u8 (Z.lor byte (Z.shiftl v shift)) in
      if shift =? 7 then
        (* Byte is full *)
        do response <- store8 response offset byte;
        response_io_status_loop n' (i + 1) tab_io_status response
                                (offset + 1) 0 0
      else
        response_io_status_loop n' (i + 1) tab_io_status response
                                offset (shift + 1) byte
  end.

(** [address] is a [uint8_t] parameter and [count] a [uint16_t] one. *)
Definition response_io_status (address count : Z)
    (tab_io_status response : list Z) (offset : Z) : option (Z * list Z) :=
  let address := u8 address in
  let count := u16 count in
  do '(response, offset, shift, byte) <-
    response_io_status_loop (Z.to_nat count) address tab_io_status response
                            offset 0 0;
  if negb (shift =? 0) then
    do response <- store8 response offset byte;
    Some (offset + 1, response)
  else Some (offset, response).

(** The [for] loops of the two register reads of [manage_query]. *)
Fixpoint response_registers_loop (n : nat) (i : Z)
    (tab_registers response : list Z) (offset : Z) : option (Z * list Z) :=
  match n with
  | O => Some (offset, response)
  | S n' =>
      do v <- load tab_registers i;
      do response <- store8 response offset (Z.shiftr v 8);
      do response <- store8 response (offset + 1) (Z.land v 0xFF);
      response_registers_loop n' (i + 1) tab_registers response (offset + 2)
  end.

(** Manages the received query.
    Analyses the query and constructs a response.  The result is the
    register map after the call; the response goes to [modbus_send]. *)
Definition manage_query (mb : modbus_param_t) (query : list Z)
    (query_size : Z) (mb_mapping : modbus_mapping_t) : M modbus_mapping_t :=
  let offset := header_length mb in
  slave <- lift (load query offset) ;;
  function <- lift (load query (offset + 1)) ;;
  a_hi <- lift (load query (offset + 2)) ;;
  a_lo <- lift (load query (offset + 3)) ;;
  let address := Z.shiftl a_hi 8 + a_lo in
  response <- local_array (Z.to_nat MAX_PACKET_SIZE) ;;
  let count_of_query :=
    (do hi <- load query (offset + 4);
     do lo <- load query (offset + 5);
     Some (Z.shiftl hi 8 + lo)) in
  let read_status (tab_io_status : list Z) :=
    count <- lift count_of_query ;;
    let byte_count := Z.quot count 8 + bool01 (negb (Z.rem count 8 =? 0)) in
    '(offset, response) <-
      build_response_packet mb slave function byte_count response ;;
    '(offset, response) <-
      lift (response_io_status address count tab_io_status response offset) ;;
    ret (offset, response, mb_mapping) in
  let read_registers (tab_registers : list Z) :=
    count <- lift count_of_query ;;
    let byte_count := 2 * count in
    '(offset, response) <-
      build_response_packet mb slave function byte_count response ;;
    '(offset, response) <-
      lift (response_registers_loop (Z.to_nat count) address tab_registers
                                    response offset) ;;
    ret (offset, response, mb_mapping) in
  '(offset, response, mb_mapping) <-
    (if function =? FC_READ_COIL_STATUS then
       read_status (tab_coil_status mb_mapping)
     else if function =? FC_READ_INPUT_STATUS then
       read_status (tab_input_status mb_mapping)
     else if function =? FC_READ_HOLDING_REGISTERS then
       read_registers (tab_holding_registers mb_mapping)
     else if function =? FC_READ_INPUT_REGISTERS then
       read_registers (tab_input_registers mb_mapping)
     else if function =? FC_FORCE_SINGLE_COIL then
       data <- lift count_of_query ;;
       mb_mapping <-
         lift (if data =? 0xFF00 then
                 do t <- store8 (tab_coil_status mb_mapping) address ON;
                 Some (set_tab_coil_status t mb_mapping)
               else if data =? 0x0 then
                 do t <- store8 (tab_coil_status mb_mapping) address OFF;
                 Some (set_tab_coil_status t mb_mapping)
               else
                 (* printf ("FIXME Error %d\n", data) *)
                 Some mb_mapping) ;;
       (* memcpy (response, query, query_size) *)
       response <-
         lift (if (0 <=? query_size) && (query_size <=? len query)
               then blit response 0 (firstn (Z.to_nat query_size) query)
               else None) ;;
       ret (query_size, response, mb_mapping)
     else
       (* the cases that print "Not implemented", and the codes the switch
          has no case for *)
       ret (offset, response, mb_mapping)) ;;
  modbus_send mb response offset ;;
  ret mb_mapping.

(** Listens any message on a socket or file descriptor.  [query_size] is
    the caller's [*query_size] on entry. *)
Definition modbus_listen (mb : modbus_param_t) (query : list Z)
    (query_size : Z) : M (Z * list Z * Z) :=
  '(ret_, query, query_size) <-
    receive_msg mb MSG_SIZE_UNDEFINED query query_size ;;
  if ret_ =? 0 then
    ret_ <- check_crc16 mb query query_size ;;
    ret (ret_, query, query_size)
  else ret (ret_, query, query_size).

(** ** Master side *)

(** The masks that [bit] runs through while [bit & 0xff] holds. *)
Definition bit_masks : list Z :=
  [0x01; 0x02; 0x04; 0x08; 0x10; 0x20; 0x40; 0x80].

(** The inner [for (bit = 0x01; (bit & 0xff) && (processed < count);)] of
    [read_io_status], over the masks still to come. *)
Fixpoint read_io_status_bits (masks : list Z) (temp count : Z)
    (data_dest : list Z) (pos processed : Z) : option (list Z * Z * Z) :=
  match masks with
  | [] => Some (data_dest, pos, processed)
  | bit :: masks' =>
      if processed <? count then
        do data_dest <-
          store8 data_dest pos (if Z.land temp bit =? 0 then FALSE else TRUE);
        read_io_status_bits masks' temp count data_dest (pos + 1)
                            (processed + 1)
      else Some (data_dest, pos, processed)
  end.

Fixpoint read_io_status_loop (n : nat) (i count : Z)
    (response data_dest : list Z) (pos processed : Z) : option (list Z) :=
  match n with
  | O => Some data_dest
  | S n' =>
      do temp <- load response (3 + i);
      do '(data_dest, pos, processed) <-
        read_io_status_bits bit_masks temp count data_dest pos processed;
      read_io_status_loop n' (i + 1) count response data_dest pos processed
  end.

(** Reads IO status *)
Definition read_io_status (mb : modbus_param_t)
    (slave function start_addr count : Z) (data_dest : list Z)
    : M (Z * list Z) :=
  query <- local_array (Z.to_nat MIN_QUERY_SIZE) ;;
  response <- local_array (Z.to_nat MAX_PACKET_SIZE) ;;
  '(query_size, query) <-
    build_query_packet mb slave function start_addr count query ;;
  '(query_ret, query) <- modbus_send mb query query_size ;;
  if query_ret >? 0 then
    '(response_ret, response) <- modbus_check_response mb query response ;;
    let offset := header_length mb in
    data_dest <-
      lift (read_io_status_loop (Z.to_nat response_ret) offset count
                                response data_dest 0 0) ;;
    ret (response_ret, data_dest)
  else ret (query_ret, data_dest).

(** Reads the boolean status of coils and sets the array elements
    in the destination to TRUE or FALSE. *)
Definition read_coil_status (mb : modbus_param_t)
    (slave start_addr count : Z) (data_dest : list Z) : M (Z * list Z) :=
  '(status, data_dest) <-
    read_io_status mb slave FC_READ_COIL_STATUS start_addr count data_dest ;;
  ret (if status >? 0 then count else status, data_dest).

(** Same as read_coil_status but reads the slaves input table *)
Definition read_input_status (mb : modbus_param_t)
    (slave start_addr count : Z) (data_dest : list Z) : M (Z * list Z) :=
  '(status, data_dest) <-
    read_io_status mb slave FC_READ_INPUT_STATUS start_addr count data_dest ;;
  ret (if status >? 0 then count else status, data_dest).

Fixpoint read_reg_response_loop (n : nat) (i offset : Z)
    (response data_dest : list Z) : option (list Z) :=
  match n with
  | O => Some data_dest
  | S n' =>
      do hi <- load response (offset + 3 + Z.shiftl i 1);
      do lo <- load response (offset + 4 + Z.shiftl i 1);
      do data_dest <- store16 data_dest i (Z.lor (Z.shiftl hi 8) lo);
      read_reg_response_loop n' (i + 1) offset response data_dest
  end.

(** Reads the response data from a slave and puts the data into an
    array *)
Definition read_reg_response (mb : modbus_param_t) (data_dest query : list Z)
    : M (Z * list Z) :=
  response <- local_array (Z.to_nat MAX_PACKET_SIZE) ;;
  '(response_ret, response) <- modbus_check_response mb query response ;;
  let offset := header_length mb in
  (* If response_ret is negative, the loop is jumped ! *)
  data_dest <-
    lift (read_reg_response_loop (Z.to_nat response_ret) 0 offset
                                 response data_dest) ;;
  ret (response_ret, data_dest).

(** Reads the data from a modbus slave and put that data into an array *)
Definition read_registers (mb : modbus_param_t)
    (slave function start_addr count : Z) (data_dest : list Z)
    : M (Z * list Z) :=
  query <- local_array (Z.to_nat MIN_QUERY_SIZE) ;;
  '(query_size, query) <-
    build_query_packet mb slave function start_addr count query ;;
  '(query_ret, query) <- modbus_send mb query query_size ;;
  if query_ret >? 0 then read_reg_response mb data_dest query
  else ret (query_ret, data_dest).

(** Reads the holding registers in a slave and put the data into an
    array *)
Definition read_holding_registers (mb : modbus_param_t)
    (slave start_addr count : Z) (data_dest : list Z) : M (Z * list Z) :=
  let count := if count >? MAX_READ_HOLD_REGS
               then MAX_READ_HOLD_REGS else count in
  read_registers mb slave FC_READ_HOLDING_REGISTERS start_addr count
                 data_dest.

(** Reads the input registers in a slave and put the data into
    an array *)
Definition read_input_registers (mb : modbus_param_t)
    (slave start_addr count : Z) (data_dest : list Z) : M (Z * list Z) :=
  let count := if count >? MAX_READ_INPUT_REGS
               then MAX_READ_INPUT_REGS else count in
  read_registers mb slave FC_READ_INPUT_REGISTERS start_addr count
                 data_dest.

(** Gets the raw data from the input stream *)
Definition preset_response (mb : modbus_param_t) (query : list Z) : M Z :=
  response <- local_array (Z.to_nat MAX_PACKET_SIZE) ;;
  '(ret_, _) <- modbus_check_response mb query response ;;
  ret ret_.

(** Sends a value to a register in a slave *)
Definition set_single (mb : modbus_param_t) (slave function addr value : Z)
    : M Z :=
  query <- local_array (Z.to_nat MAX_PACKET_SIZE) ;;
  '(query_size, query) <-
    build_query_packet mb slave function addr value query ;;
  '(query_ret, query) <- modbus_send mb query query_size ;;
  if query_ret >? 0 then preset_response mb query
  else ret query_ret.

(** Turns on or off a single coil on the slave device *)
Definition force_single_coil (mb : modbus_param_t)
    (slave coil_addr state : Z) : M Z :=
  let state := if negb (state =? 0) then 0xFF00 else state in
  set_single mb slave FC_FORCE_SINGLE_COIL coil_addr state.

(** Sets a value in one holding register in the slave device *)
Definition preset_single_register (mb : modbus_param_t)
    (slave reg_addr value : Z) : M Z :=
  set_single mb slave FC_PRESET_SINGLE_REGISTER reg_addr value.

(** The [while ((bit & 0xFF) && (coil_check++ < coil_count))] of
    [force_multiple_coils] on the byte [cur] at [query[query_size]]:
    the byte, [coil_check] and [pos] after it. *)
Fixpoint force_multiple_coils_bits (masks : list Z) (coil_count : Z)
    (data_src : list Z) (cur coil_check pos : Z) : option (Z * Z * Z) :=
  match masks with
  | [] => Some (cur, coil_check, pos)
  | bit :: masks' =>
      if coil_check <? coil_count then
        do v <- load data_src pos;
        let cur := if negb (v =? 0) then u8 (Z.lor cur bit)
                   else u8 (Z.land cur (Z.lnot bit)) in
        force_multiple_coils_bits masks' coil_count data_src cur
                                  (coil_check + 1) (pos + 1)
      else Some (cur, coil_check + 1, pos)
  end.

Fixpoint force_multiple_coils_loop (n : nat) (coil_count : Z)
    (data_src query : list Z) (query_size coil_check pos : Z)
    : option (list Z * Z) :=
  match n with
  | O => Some (query, query_size)
  | S n' =>
      do query <- store8 query query_size 0;
      do '(cur, coil_check, pos) <-
        force_multiple_coils_bits bit_masks coil_count data_src 0
                                  coil_check pos;
      do query <- store8 query query_size cur;
      force_multiple_coils_loop n' coil_count data_src query
                                (query_size + 1) coil_check pos
  end.

(** Takes an array of ints and sets or resets the coils on a slave
    appropriatly *)
Definition force_multiple_coils (mb : modbus_param_t)
    (slave start_addr coil_count : Z) (data_src : list Z) : M Z :=
  query <- local_array (Z.to_nat MAX_PACKET_SIZE) ;;
  let coil_count := if coil_count >? MAX_WRITE_COILS
                    then MAX_WRITE_COILS else coil_count in
  '(query_size, query) <-
    build_query_packet mb slave FC_FORCE_MULTIPLE_COILS start_addr
                       coil_count query ;;
  let byte_count :=
    Z.quot coil_count 8 + bool01 (negb (Z.rem coil_count 8 =? 0)) in
  query <- lift (store8 query query_size byte_count) ;;
  let query_size := query_size + 1 in
  '(query, query_size) <-
    lift (force_multiple_coils_loop (Z.to_nat byte_count) coil_count
                                    data_src query query_size 0 0) ;;
  '(query_ret, query) <- modbus_send mb query query_size ;;
  if query_ret >? 0 then preset_response mb query
  else ret query_ret.

Fixpoint preset_multiple_registers_loop (n : nat) (i : Z)
    (data_src query : list Z) (query_size : Z) : option (list Z * Z) :=
  match n with
  | O => Some (query, query_size)
  | S n' =>
      do v <- load data_src i;
      do query <- store8 query query_size (Z.shiftr v 8);
      do query <- store8 query (query_size + 1) (Z.land v 0x00FF);
      preset_multiple_registers_loop n' (i + 1) data_src query
                                     (query_size + 2)
  end.

(** Copies the values in an array to an array on the slave *)
Definition preset_multiple_registers (mb : modbus_param_t)
    (slave start_addr reg_count : Z) (data_src : list Z) : M Z :=
  query <- local_array (Z.to_nat MAX_PACKET_SIZE) ;;
  let reg_count := if reg_count >? MAX_WRITE_REGS
                   then MAX_WRITE_REGS else reg_count in
  '(query_size, query) <-
    build_query_packet mb slave FC_PRESET_MULTIPLE_REGISTERS start_addr
                       reg_count query ;;
  let byte_count := reg_count * 2 in
  query <- lift (store8 query query_size byte_count) ;;
  let query_size := query_size + 1 in
  '(query, query_size) <-
    lift (preset_multiple_registers_loop (Z.to_nat reg_count) 0 data_src
                                         query query_size) ;;
  '(query_ret, query) <- modbus_send mb query query_size ;;
  if query_ret >? 0 then preset_response mb query
  else ret query_ret.

Fixpoint report_slave_id_loop (n : nat) (i : Z) (response data_dest : list Z)
    : option (list Z) :=
  match n with
  | O => Some data_dest
  | S n' =>
      do v <- load response i;
      do data_dest <- store8 data_dest i v;
      report_slave_id_loop n' (i + 1) response data_dest
  end.

(** Returns the slave id ! *)
Definition report_slave_id (mb : modbus_param_t) (slave : Z)
    (data_dest : list Z) : M (Z * list Z) :=
  query <- local_array (Z.to_nat MIN_QUERY_SIZE) ;;
  response <- local_array (Z.to_nat MAX_PACKET_SIZE) ;;
  '(query_size, query) <-
    build_query_packet mb slave FC_REPORT_SLAVE_ID 0 0 query ;;
  (* start_addr and count are not used *)
  let query_size := query_size - 4 in
  '(query_ret, query) <- modbus_send mb query query_size ;;
  if query_ret >? 0 then
    '(response_ret, response) <- modbus_check_response mb query response ;;
    let offset := header_length mb in
    data_dest <-
      lift (report_slave_id_loop (Z.to_nat response_ret) offset
                                 response data_dest) ;;
    ret (response_ret, data_dest)
  else ret (query_ret, data_dest).

End Modbus.

(** ** Utils *)

(** Set many inputs/coils form a single byte value (all 8 bits of the
    byte value are setted) *)
Definition set_bits_from_byte (dest : list Z) (address value : Z)
    : option (list Z) :=
  let address := u16 address in
  let value := u8 value in
  fold_left (fun d i =>
               do dest <- d;
               store8 dest (address + i)
                      (if Z.land value (Z.shiftl 1 i) =? 0 then OFF else ON))
            [0; 1; 2; 3; 4; 5; 6; 7] (Some dest).

Fixpoint set_bits_from_bytes_loop (n : nat) (i address shift : Z)
    (dest tab_byte : list Z) : option (list Z) :=
  match n with
  | O => Some dest
  | S n' =>
      do b <- load tab_byte (Z.quot (i - address) 8);
      do dest <-
        store8 dest i (if Z.land b (Z.shiftl 1 shift) =? 0 then OFF else ON);
      set_bits_from_bytes_loop n' (i + 1) address (Z.rem (shift + 1) 8)
                               dest tab_byte
  end.

(** Set many inputs/coils from a table of bytes (only the bits between
    address and address + nb_bits are setted) *)
Definition set_bits_from_bytes (dest : list Z) (address nb_bits : Z)
    (tab_byte : list Z) : option (list Z) :=
  let address := u16 address in
  let nb_bits := u16 nb_bits in
  set_bits_from_bytes_loop (Z.to_nat nb_bits) address address 0 dest tab_byte.

Fixpoint get_byte_from_bits_loop (n : nat) (i : Z) (src : list Z)
    (address value : Z) : option Z :=
  match n with
  | O => Some value
  | S n' =>
      do v <- load src (address + i);
      get_byte_from_bits_loop n' (i + 1) src address
                              (u8 (Z.lor value (Z.shiftl v i)))
  end.

(** Get the byte value from many inputs/coils.
    To obtain a full byte, set nb_bits to 8. *)
Definition get_byte_from_bits (src : list Z) (address nb_bits : Z)
    : option Z :=
  let address := u16 address in
  let nb_bits := if nb_bits >? 8 then 8 else nb_bits in
  get_byte_from_bits_loop (Z.to_nat nb_bits) 0 src address 0.

(** * Specification-level definitions *)

(** A 16-bit field sent high byte first. *)
Definition word_of (hi lo : Z) : Z := 256 * hi + lo.

Definition ceil_div8 (qty : Z) : Z := (qty + 7) / 8.

(** The table of section 4.3 of the specification, in its words: the size
    of the response body for a function code and a quantity. *)
Definition response_body_size (fc qty : Z) : Z :=
  if (fc =? 0x01) || (fc =? 0x02) then 1 + 1 + 1 + ceil_div8 qty
  else if (fc =? 0x03) || (fc =? 0x04) then 1 + 1 + 1 + 2 * qty
  else if fc =? 0x07 then 4
  else 6.

(** One admissible header, for the examples: the error codes follow the
    exception codes, the undefined size is -1, Report Slave ID is 0x11. *)
Definition example_h : modbus_h.
Proof.
  refine {| INVALID_CRC := -0x10;
            COMM_TIME_OUT := -0x0C;
            PORT_SOCKET_FAILURE := -0x0D;
            SELECT_FAILURE := -0x0E;
            CONNECTION_CLOSED := -0x12;
            TOO_MANY_DATAS := -0x0F;
            INVALID_EXCEPTION_CODE := -0x11;
            MSG_SIZE_UNDEFINED := -1;
            FC_REPORT_SLAVE_ID := 0x11 |}.
  - repeat (constructor;
            [cbn; intros H; repeat destruct H as [H | H];
             try discriminate H; exact H |]).
    constructor.
  - repeat constructor; reflexivity.
  - lia.
  - split; [lia |].
    cbv. intros H. repeat destruct H as [H | H]; try discriminate H; exact H.
Defined.

(** A process that has sent nothing yet, with [l] about to arrive; a flush
    or a reconnection leaves nothing of it. *)
Definition idle_world (l : list io_event) : world :=
  mkWorld 0 0 l [] [] (fun _ => 0) (fun _ => []).

(** The size table of section 4.4 of the specification for the bytes that
    follow the function code of a request. *)
Definition query_header_size_spec (fc : Z) : Z :=
  if fc <=? 0x06 then 4
  else if (fc =? 0x0F) || (fc =? 0x10) then 5
  else 0.

(** The transaction identifier that a built MBAP request carries. *)
Definition emitted_t_id (packet : list Z) : option Z :=
  do hi <- load packet 0;
  do lo <- load packet 1;
  Some (word_of hi lo).

(** The MBAP requests [reqs], each given by slave, function, address and
    count, built one after the other in a fresh request buffer. *)
Fixpoint mbap_requests (reqs : list (Z * Z * Z * Z)) (w : world) : world :=
  match reqs with
  | [] => w
  | (slave, function, start_addr, count) :: reqs' =>
      mbap_requests reqs'
        (snd (build_query_packet_tcp slave function start_addr count
                (uninit (stack_garbage w) (Z.to_nat MIN_QUERY_SIZE)) w))
  end.

(** What [modbus_init_rtu] and [modbus_init_tcp] establish, and the setters
    keep: the envelope sizes that go with the transport. *)
Definition initialised (mb : modbus_param_t) : Prop :=
  match type_com mb with
  | RTU => header_length mb = HEADER_LENGTH_RTU
           /\ checksum_size mb = CHECKSUM_SIZE_RTU
  | TCP => header_length mb = HEADER_LENGTH_TCP
           /\ checksum_size mb = CHECKSUM_SIZE_TCP
  end.

(** A computation that hands nothing to [write]/[send]. *)
Definition keeps_writes {A : Type} (m : M A) : Prop :=
  forall w, writes (trace (snd (m w))) = writes (trace w).

(** The 16-bit quantity field of a request frame. *)
Definition quantity_field (mb : modbus_param_t) (frame : list Z) : option Z :=
  do hi <- load frame (header_length mb + 4);
  do lo <- load frame (header_length mb + 5);
  Some (word_of hi lo).

(** A quantity capped at [limit], then passed as a [uint16_t]. *)
Definition clamped (limit count : Z) : Z :=
  if count >? limit then limit else u16 count.

(** A serial frame as [modbus_send] completes it: the byte string, then
    [crc16 >> 8], then [crc16 & 0xFF]. *)
Definition rtu_frame (s : list Z) : list Z :=
  s ++ [Z.shiftr (crc16 s (len s)) 8; Z.land (crc16 s (len s)) 0x00FF].




(** Auxiliary notions for the CRC proofs. *)
Definition byte_pair (st : Z * Z) : Prop :=
  is_byte (fst st) /\ is_byte (snd st).

Definition all_bytes (t : list Z) : bool :=
  forallb (fun z => (0 <=? z) && (z <? 256)) t.

(** The [n] integers from [start] on. *)
Fixpoint zseq (start : Z) (n : nat) : list Z :=
  match n with
  | O => []
  | S n' => start :: zseq (start + 1) n'
  end.






(** Bit [p] of a sequence of booleans. *)
Definition bit_at (bits : list bool) (p : Z) : bool :=
  if p <? 0 then false else nth (Z.to_nat p) bits false.

(** The first [n] bits of [f] are in the bytes of [resp] from [off0] on,
    least significant bit first. *)
Definition packed_upto (f : Z -> bool) (resp : list Z) (off0 n : Z) : Prop :=
  forall p, 0 <= p < n ->
    exists B, load resp (off0 + p / 8) = Some B
              /\ Z.testbit B (p mod 8) = f p.

(** [byte] holds the [s] bits that follow the first [j] bytes, and nothing
    above them. *)
Definition partial_byte (f : Z -> bool) (byte j s : Z) : Prop :=
  forall q, 0 <= q -> Z.testbit byte q = (q <? s) && f (8 * j + q).

(** The exception PDU for a request with function code [fc]. *)
Definition exception_pdu (unit fc k : Z) : list Z := [unit; Z.lor fc 0x80; k].

(** The reply of a peer that refuses a request: the exception PDU, closed
    by its CRC on a serial line, preceded by the six bytes of an MBAP
    header on TCP. *)
Definition exception_reply (mb : modbus_param_t) (mbap : list Z)
    (unit fc k : Z) : list Z :=
  match type_com mb with
  | RTU => rtu_frame (exception_pdu unit fc k)
  | TCP => mbap ++ exception_pdu unit fc k
  end.

(** A request as the protocol allows it: a function code below 0x80 at its
    place and, for the four reads, a quantity of at least one. *)
Definition well_formed_request (mb : modbus_param_t) (query : list Z)
    (fc : Z) : Prop :=
  load query (header_length mb + 1) = Some fc
  /\ 0 <= fc < 0x80
  /\ (In fc [FC_READ_COIL_STATUS; FC_READ_INPUT_STATUS;
             FC_READ_HOLDING_REGISTERS; FC_READ_INPUT_REGISTERS] ->
      exists hi lo,
        load query (header_length mb + 4) = Some hi
        /\ load query (header_length mb + 5) = Some lo
        /\ is_byte hi /\ is_byte lo
        /\ 1 <= word_of hi lo).

(** Nothing more arrives before the next timeout. *)
Definition quiet (l : list io_event) : Prop :=
  match l with
  | [] | Silence :: _ => True
  | _ => False
  end.

Definition nonempty (c : list Z) : Prop := c <> [].

(** A register map with sixteen entries in each table, all zero. *)
Definition small_map : modbus_mapping_t := modbus_mapping_new 16 16 16 16.

(** * Further specification-level definitions *)

(** What is left of the segments [chunks] once their first [n] bytes have
    been read. *)
Fixpoint drop_bytes (n : nat) (chunks : list (list Z)) : list (list Z) :=
  match chunks with
  | [] => []
  | c :: cs =>
      if (n =? 0)%nat then chunks
      else if (length c <=? n)%nat then drop_bytes (n - length c) cs
      else skipn n c :: cs
  end.

(** The [switch (state)] of [receive_msg], taken when the frame has reached
    the expected size: the next state, the next expected size and the
    number of bytes to read. *)
Definition receive_step (mb : modbus_param_t) (state : receive_state)
    (msg_size_computed : Z) (msg : list Z)
    : option (receive_state * Z * Z) :=
  match state with
  | FUNCTION =>
      do fc <- load msg (header_length mb + 1);
      Some (BYTE, msg_size_computed + compute_query_size_header fc,
            compute_query_size_header fc)
  | BYTE =>
      do size_to_read <- compute_query_size_data mb msg;
      Some (COMPLETE, msg_size_computed + size_to_read, size_to_read)
  | COMPLETE => Some (COMPLETE, msg_size_computed, 0)
  end.

(** The end of the turn of the loop of [receive_msg] in which the frame
    reaches the expected size [msg_size_computed]: the [switch], then either
    the next wait and turn or the return of 0. *)
Definition receive_resume {hdr : modbus_h} (fuel : nat) (mb : modbus_param_t)
    (state : receive_state) (msg_size_computed : Z) (msg : list Z)
    : M (Z * list Z * Z) :=
  '(state', msg_size_computed', size_to_read) <-
    lift (receive_step mb state msg_size_computed msg) ;;
  if size_to_read >? 0 then
    r <- wait_data mb ;;
    match r with
    | Some code => ret (code, msg, msg_size_computed)
    | None =>
        receive_loop fuel mb state' msg_size_computed' size_to_read msg
                     msg_size_computed msg_size_computed
    end
  else ret (0, msg, msg_size_computed).

(** What [receive_msg] can return. *)
Definition receive_codes {hdr : modbus_h} : list Z :=
  [0; PORT_SOCKET_FAILURE; CONNECTION_CLOSED; TOO_MANY_DATAS; COMM_TIME_OUT;
   SELECT_FAILURE].

(** The largest frame that the receive loop can come to expect of a peer:
    header, unit, function code, five more bytes and what a byte can
    count. *)
Definition request_room (mb : modbus_param_t) : Z :=
  header_length mb + 2 + 5 + 255.

(** A frame on the wire: the PDU closed by its CRC on a serial line,
    preceded by the six bytes of an MBAP header on TCP. *)
Definition adu (mb : modbus_param_t) (mbap pdu : list Z) : list Z :=
  match type_com mb with
  | RTU => rtu_frame pdu
  | TCP => mbap ++ pdu
  end.

(** The two bytes of a 16-bit value, high byte first. *)
Definition be16 (v : Z) : list Z := [Z.shiftr v 8; Z.land v 255].

(** Registers as they travel: two bytes each, high byte first. *)
Definition registers_bytes (regs : list Z) : list Z := flat_map be16 regs.

Definition is_word (v : Z) : Prop := 0 <= v < 65536.

(** The [switch] of [modbus_check_response] on a response that has arrived
    whole and passed the check. *)
Definition good_response {hdr : modbus_h} (mb : modbus_param_t)
    (response : list Z) (response_size : Z) : M (Z * list Z) :=
  let offset := header_length mb in
  fc <- lift (load response (offset + 1)) ;;
  if (fc =? FC_READ_COIL_STATUS) || (fc =? FC_READ_INPUT_STATUS) then
    n <- lift (load response (offset + 2)) ;; ret (n, response)
  else if (fc =? FC_READ_HOLDING_REGISTERS)
          || (fc =? FC_READ_INPUT_REGISTERS) then
    n <- lift (load response (offset + 2)) ;;
    ret (Z.quot n 2, response)
  else if (fc =? FC_FORCE_MULTIPLE_COILS)
          || (fc =? FC_PRESET_MULTIPLE_REGISTERS) then
    hi <- lift (load response (offset + 4)) ;;
    lo <- lift (load response (offset + 5)) ;;
    ret (Z.lor (Z.shiftl hi 8) lo, response)
  else if fc =? FC_REPORT_SLAVE_ID then ret (response_size, response)
  else ret (1, response).

(** What [modbus_send] hands to the transport for the [body] it is given:
    on a serial line the body and its CRC, on TCP the body with the length
    of what follows its first six bytes written at 4 and 5. *)
Definition sent_frame (mb : modbus_param_t) (body : list Z) : list Z :=
  match type_com mb with
  | RTU => rtu_frame body
  | TCP => firstn 4 body ++ be16 (u16 (len body - 6)) ++ skipn 6 body
  end.

(** The transaction id that the next response of the server carries. *)
Definition next_response_t_id (w : world) : Z :=
  if t_id_response w <? USHRT_MAX then t_id_response w + 1 else 0.

(** The MBAP header of a response: transaction id, protocol 0 and the
    length of the PDU. *)
Definition mbap_of (t_id pdu_len : Z) : list Z :=
  [u8 (Z.shiftr t_id 8); u8 (Z.land t_id 255); 0; 0]
  ++ be16 (u16 pdu_len).

(** The PDU of a request of six bytes: unit, function code, address and
    quantity or value, the two last ones high byte first. *)
Definition request_pdu (slave function start_addr count : Z) : list Z :=
  [u8 slave; u8 function] ++ be16 (u16 start_addr) ++ be16 (u16 count).

(** The frame that carries it, under the next transaction id of the
    master on TCP. *)
Definition request_frame (mb : modbus_param_t) (w : world)
    (slave function start_addr count : Z) : list Z :=
  adu mb (mbap_of (next_t_id (t_id_query w)) 6)
      (request_pdu slave function start_addr count).

(** The eight coils that [set_bits_from_byte] makes of a byte, least
    significant bit first. *)
Definition byte_bits (value : Z) : list Z :=
  map (fun i => if Z.land value (Z.shiftl 1 i) =? 0 then OFF else ON)
      [0; 1; 2; 3; 4; 5; 6; 7].

(** [get_byte_from_bits] gives back the low [k] bits of every byte, for
    every [k] up to 8: a check by enumeration. *)
Definition byte_bits_read_back (value : Z) : bool :=
  forallb (fun k =>
             match get_byte_from_bits_loop (Z.to_nat k) 0 (byte_bits value)
                                           0 0 with
             | Some r => r =? Z.land value (Z.ones k)
             | None => false
             end)
          (zseq 0 9).

(** The end of the operations that write: the request goes out and, when
    the transport took it, the confirmation is awaited. *)
Definition send_and_confirm {hdr : modbus_h} (mb : modbus_param_t)
    (query : list Z) (query_size : Z) : M Z :=
  '(query_ret, query) <- modbus_send mb query query_size ;;
  if query_ret >? 0 then preset_response mb query
  else ret query_ret.

(** The PDU of Preset Multiple Registers: the six bytes of a request, the
    number of data bytes and the values, high byte first. *)
Definition preset_multiple_registers_pdu (slave start_addr n : Z)
    (regs : list Z) : list Z :=
  request_pdu slave FC_PRESET_MULTIPLE_REGISTERS start_addr n
  ++ [2 * n] ++ registers_bytes regs.

(** The number that a sequence of bits writes, least significant bit
    first. *)
Fixpoint bits_value (bits : list bool) : Z :=
  match bits with
  | [] => 0
  | b :: bits' => Z.b2z b + 2 * bits_value bits'
  end.

(** Coil [k] of [count] coils in the array of a caller: set when the
    element is not zero. *)
Definition coil_set (data_src : list Z) (count k : Z) : bool :=
  (k <? count) && negb (nth (Z.to_nat k) data_src 0 =? 0).

(** Data byte [j] of Force Multiple Coils: the coils from [8 * j] on,
    least significant bit first, with zeros past the last coil. *)
Definition coil_byte (data_src : list Z) (count j : Z) : Z :=
  bits_value (map (fun i => coil_set data_src count (8 * j + i)) (zseq 0 8)).

Definition coils_bytes (data_src : list Z) (count : Z) : list Z :=
  map (coil_byte data_src count) (zseq 0 (Z.to_nat (ceil_div8 count))).

(** The PDU of Force Multiple Coils. *)
Definition force_multiple_coils_pdu (slave start_addr n : Z)
    (data_src : list Z) : list Z :=
  request_pdu slave FC_FORCE_MULTIPLE_COILS start_addr n
  ++ [ceil_div8 n] ++ coils_bytes data_src n.

(** The input that is left when an error has been treated: on a serial
    line the port is flushed, on TCP the connection is replaced when the
    handle asks for it. *)
Definition input_after_error (mb : modbus_param_t) (w : world)
    : list io_event :=
  match type_com mb, error_handling mb with
  | TCP, NOP_ON_ERROR => incoming w
  | _, _ => input_after_reset w (incoming w)
  end.

(** * Proofs *)

(** ** Arithmetic of bytes and words *)

Lemma land_shiftl_byte (hi lo : Z) :
  is_byte lo -> Z.land (Z.shiftl hi 8) lo = 0.
Proof.
  intros [Hlo Hhi]. apply Z.bits_inj'. intros n Hn.
  rewrite Z.land_spec, Z.bits_0.
  destruct (Z.ltb_spec n 8) as [Hlt | Hge].
  - rewrite Z.shiftl_spec_low by lia. reflexivity.
  - destruct (Z.eq_dec lo 0) as [-> | Hnz].
    + rewrite Z.bits_0. apply andb_false_r.
    + rewrite (Z.bits_above_log2 lo n); [apply andb_false_r | lia |].
      assert (Z.log2 lo < 8) by (apply Z.log2_lt_pow2; lia). lia.
Qed.

Lemma lor_shiftl_byte (hi lo : Z) :
  is_byte lo -> Z.lor (Z.shiftl hi 8) lo = word_of hi lo.
Proof.
  intros Hlo. unfold word_of.
  rewrite <- Z.lxor_lor by (apply land_shiftl_byte; exact Hlo).
  rewrite <- Z.add_nocarry_lxor by (apply land_shiftl_byte; exact Hlo).
  rewrite Z.shiftl_mul_pow2 by lia. change (2 ^ 8) with 256. lia.
Qed.

Lemma word_of_range (hi lo : Z) :
  is_byte hi -> is_byte lo -> 0 <= word_of hi lo < 65536.
Proof. unfold is_byte, word_of. lia. Qed.

Lemma quot_rem_ceil_div8 (q : Z) :
  0 <= q ->
  Z.quot q 8 + bool01 (negb (Z.rem q 8 =? 0)) = ceil_div8 q.
Proof.
  intros Hq. unfold ceil_div8.
  rewrite Z.quot_div_nonneg, Z.rem_mod_nonneg by lia.
  pose proof (Z.div_mod q 8 ltac:(lia)) as Hdm.
  pose proof (Z.mod_pos_bound q 8 ltac:(lia)) as Hm.
  destruct (Z.eqb_spec (q mod 8) 0) as [E | E]; cbn [negb bool01].
  - apply Z.div_unique with (r := 7); lia.
  - apply Z.div_unique with (r := q mod 8 - 1); lia.
Qed.

Lemma is_byte_u8 (z : Z) : is_byte (u8 z).
Proof. unfold is_byte, u8. apply Z.mod_pos_bound. lia. Qed.

Lemma u8_byte (z : Z) : is_byte z -> u8 z = z.
Proof. unfold is_byte, u8. intros H. apply Z.mod_small. exact H. Qed.

Lemma u16_small (z : Z) : 0 <= z < 65536 -> u16 z = z.
Proof. unfold u16. intros H. apply Z.mod_small. exact H. Qed.

Lemma shiftr8_byte (z : Z) : 0 <= z < 65536 -> is_byte (Z.shiftr z 8).
Proof.
  intros H. unfold is_byte. rewrite Z.shiftr_div_pow2 by lia.
  change (2 ^ 8) with 256. split.
  - apply Z.div_pos; lia.
  - apply Z.div_lt_upper_bound; lia.
Qed.

Lemma land255_byte (z : Z) : 0 <= z -> is_byte (Z.land z 255).
Proof.
  intros H. unfold is_byte. change 255 with (Z.ones 8).
  rewrite Z.land_ones by lia. apply Z.mod_pos_bound. lia.
Qed.

Lemma word_of_split (z : Z) :
  0 <= z -> word_of (Z.shiftr z 8) (Z.land z 255) = z.
Proof.
  intros H. unfold word_of. rewrite Z.shiftr_div_pow2 by lia.
  change 255 with (Z.ones 8). rewrite Z.land_ones by lia.
  change (2 ^ 8) with 256. symmetry. apply Z.div_mod. lia.
Qed.


(** ** Arrays *)

Lemma len_nonneg (l : list Z) : 0 <= len l.
Proof. unfold len. lia. Qed.

Lemma len_cons (x : Z) (l : list Z) : len (x :: l) = 1 + len l.
Proof. unfold len. cbn [length]. lia. Qed.

Lemma len_app (l1 l2 : list Z) : len (l1 ++ l2) = len l1 + len l2.
Proof. unfold len. rewrite length_app. lia. Qed.

Lemma upd_length (n : nat) (v : Z) (l l' : list Z) :
  upd n v l = Some l' -> length l' = length l.
Proof.
  revert n l'. induction l as [| h t IH]; intros [| n] l' H; cbn in H;
    try discriminate.
  - injection H as <-. reflexivity.
  - destruct (upd n v t) as [t' |] eqn:E; [| discriminate].
    injection H as <-. cbn [length]. f_equal. eapply IH. exact E.
Qed.

Lemma upd_ok (n : nat) (v : Z) (l : list Z) :
  (n < length l)%nat -> exists l', upd n v l = Some l'.
Proof.
  revert n. induction l as [| h t IH]; intros [| n] H; cbn [length] in H;
    try lia.
  - eexists. reflexivity.
  - destruct (IH n ltac:(lia)) as [t' E]. exists (h :: t'). cbn [upd].
    rewrite E. reflexivity.
Qed.

Lemma upd_nth_error_same (n : nat) (v : Z) (l l' : list Z) :
  upd n v l = Some l' -> nth_error l' n = Some v.
Proof.
  revert n l'. induction l as [| h t IH]; intros [| n] l' H; cbn in H;
    try discriminate.
  - injection H as <-. reflexivity.
  - destruct (upd n v t) as [t' |] eqn:E; [| discriminate].
    injection H as <-. cbn [nth_error]. eapply IH. exact E.
Qed.

Lemma upd_nth_error_other (n m : nat) (v : Z) (l l' : list Z) :
  upd n v l = Some l' -> m <> n -> nth_error l' m = nth_error l m.
Proof.
  revert n m l'. induction l as [| h t IH]; intros [| n] m l' H Hm;
    cbn in H; try discriminate.
  - injection H as <-. destruct m; [congruence | reflexivity].
  - destruct (upd n v t) as [t' |] eqn:E; [| discriminate].
    injection H as <-. destruct m; [reflexivity |].
    cbn [nth_error]. eapply IH; [exact E | congruence].
Qed.

Lemma store_len (buf buf' : list Z) (i v : Z) :
  store buf i v = Some buf' -> len buf' = len buf.
Proof.
  unfold store, len. destruct (i <? 0); [discriminate |].
  intros H. f_equal. eapply upd_length. exact H.
Qed.

Lemma store_ok (buf : list Z) (i v : Z) :
  0 <= i < len buf -> exists buf', store buf i v = Some buf'.
Proof.
  unfold store, len. intros H.
  destruct (Z.ltb_spec i 0) as [Hi | Hi]; [lia |]. apply upd_ok. lia.
Qed.

Lemma store_load_same (buf buf' : list Z) (i v : Z) :
  store buf i v = Some buf' -> load buf' i = Some v.
Proof.
  unfold store, load. destruct (i <? 0); [discriminate |].
  apply upd_nth_error_same.
Qed.

Lemma store_load_other (buf buf' : list Z) (i j v : Z) :
  store buf i v = Some buf' -> j <> i -> load buf' j = load buf j.
Proof.
  unfold store, load. destruct (Z.ltb_spec i 0) as [Hi | Hi]; [discriminate |].
  intros H Hj. destruct (Z.ltb_spec j 0) as [Hj0 | Hj0]; [reflexivity |].
  eapply upd_nth_error_other; [exact H | lia].
Qed.

Lemma load_Some_range (buf : list Z) (i v : Z) :
  load buf i = Some v -> 0 <= i < len buf.
Proof.
  unfold load, len. destruct (Z.ltb_spec i 0) as [Hi | Hi]; [discriminate |].
  intros H. assert (Hn : nth_error buf (Z.to_nat i) <> None) by congruence.
  apply nth_error_Some in Hn. lia.
Qed.

Lemma load_ok (buf : list Z) (i : Z) :
  0 <= i < len buf -> exists v, load buf i = Some v.
Proof.
  unfold load, len. intros H. destruct (Z.ltb_spec i 0) as [Hi | Hi]; [lia |].
  destruct (nth_error buf (Z.to_nat i)) as [v |] eqn:E; [eauto |].
  apply nth_error_None in E. lia.
Qed.

Lemma load_nth (buf : list Z) (i : Z) (n : nat) :
  Z.to_nat i = n -> 0 <= i -> load buf i = nth_error buf n.
Proof.
  intros <- Hi. unfold load. destruct (Z.ltb_spec i 0); [lia | reflexivity].
Qed.

Lemma load_firstn (buf : list Z) (n j : Z) :
  j < n -> load (firstn (Z.to_nat n) buf) j = load buf j.
Proof.
  unfold load. intros H.
  destruct (Z.ltb_spec j 0) as [Hj0 | Hj0]; [reflexivity |].
  rewrite nth_error_firstn.
  destruct (Nat.ltb_spec (Z.to_nat j) (Z.to_nat n)); [reflexivity | lia].
Qed.

Lemma load_app_l (l1 l2 : list Z) (j : Z) :
  j < len l1 -> load (l1 ++ l2) j = load l1 j.
Proof.
  unfold load, len. intros H.
  destruct (Z.ltb_spec j 0) as [Hj0 | Hj0]; [reflexivity |].
  apply nth_error_app1. lia.
Qed.

Lemma len_uninit (g : nat -> Z) (n : nat) : len (uninit g n) = Z.of_nat n.
Proof. unfold len, uninit. rewrite length_map, length_seq. reflexivity. Qed.

Lemma bytes_uninit (g : nat -> Z) (n : nat) : bytes (uninit g n).
Proof.
  unfold bytes, uninit. apply Forall_map, Forall_forall.
  intros i _. apply is_byte_u8.
Qed.

(** ** What a computation hands to the transport *)

Lemma writes_app (tr1 tr2 : list syscall) :
  writes (tr1 ++ tr2) = writes tr1 ++ writes tr2.
Proof.
  induction tr1 as [| c tr1 IH]; [reflexivity |].
  destruct c; cbn [app writes]; rewrite IH; reflexivity.
Qed.

Section Keeps.

Context {hdr : modbus_h}.

Lemma keeps_ret (A : Type) (a : A) : keeps_writes (ret a).
Proof. intros w. reflexivity. Qed.

Lemma keeps_fault (A : Type) : keeps_writes (@fault A).
Proof. intros w. reflexivity. Qed.

Lemma keeps_lift (A : Type) (o : option A) : keeps_writes (lift o).
Proof. intros w. reflexivity. Qed.

Lemma keeps_bind (A B : Type) (m : M A) (k : A -> M B) :
  keeps_writes m -> (forall a, keeps_writes (k a)) -> keeps_writes (bind m k).
Proof.
  intros Hm Hk w. unfold bind. specialize (Hm w).
  destruct (m w) as [[a |] w']; cbn [snd] in *.
  - rewrite Hk. exact Hm.
  - exact Hm.
Qed.

Lemma keeps_local_array (n : nat) : keeps_writes (local_array n).
Proof. intros w. reflexivity. Qed.

Lemma keeps_local_int : keeps_writes local_int.
Proof. intros w. reflexivity. Qed.

Lemma keeps_error_treat (mb : modbus_param_t) : keeps_writes (error_treat mb).
Proof.
  intros w. unfold error_treat, emit, reset_input, bind.
  destruct (type_com mb); [| destruct (error_handling mb)];
    cbn [snd set_trace set_incoming trace ret];
    rewrite ?writes_app, ?app_nil_r; reflexivity.
Qed.

Ltac keeps_step :=
  match goal with
  | |- keeps_writes (bind _ _) => apply keeps_bind; [| intros ?]
  | |- keeps_writes (ret _) => apply keeps_ret
  | |- keeps_writes fault => apply keeps_fault
  | |- keeps_writes (lift _) => apply keeps_lift
  | |- keeps_writes local_int => apply keeps_local_int
  | |- keeps_writes (local_array _) => apply keeps_local_array
  | |- keeps_writes (error_treat _) => apply keeps_error_treat
  | |- keeps_writes (if ?b then _ else _) => destruct b
  | |- keeps_writes (match ?x with _ => _ end) => destruct x
  end.

Lemma keeps_wait_data (mb : modbus_param_t) : keeps_writes (wait_data mb).
Proof.
  intros w. unfold wait_data.
  destruct (incoming w) as [| [] rest]; try reflexivity.
  pose proof (keeps_bind _ _ (error_treat mb)
                (fun _ => ret (Some SELECT_FAILURE))
                (keeps_error_treat mb) (fun _ => keeps_ret _ _)) as H.
  rewrite (H (set_incoming rest w)). reflexivity.
Qed.

Lemma keeps_sys_read (msg : list Z) (p_msg size_to_read : Z) :
  keeps_writes (sys_read msg p_msg size_to_read).
Proof.
  intros w. unfold sys_read.
  destruct (incoming w) as [| [] rest]; try reflexivity.
  destruct (blit _ _ _); reflexivity.
Qed.

Lemma keeps_check_crc16 (mb : modbus_param_t) (msg : list Z) (msg_size : Z) :
  keeps_writes (check_crc16 mb msg msg_size).
Proof. unfold check_crc16. repeat keeps_step. Qed.

Lemma keeps_receive_loop (fuel : nat) (mb : modbus_param_t)
    (state : receive_state) (msg_size_computed size_to_read : Z)
    (msg : list Z) (msg_size p_msg : Z) :
  keeps_writes (receive_loop fuel mb state msg_size_computed size_to_read
                             msg msg_size p_msg).
Proof.
  revert state msg_size_computed size_to_read msg msg_size p_msg.
  induction fuel as [| fuel IH]; intros; cbn [receive_loop].
  - apply keeps_fault.
  - apply keeps_bind; [apply keeps_sys_read |]. intros [read_ret msg'].
    repeat first [ apply keeps_wait_data | apply IH | keeps_step ].
Qed.

Lemma keeps_receive_msg (mb : modbus_param_t) (msg_size_computed : Z)
    (msg : list Z) (msg_size : Z) :
  keeps_writes (receive_msg mb msg_size_computed msg msg_size).
Proof.
  unfold receive_msg.
  destruct (msg_size_computed =? MSG_SIZE_UNDEFINED);
    (apply keeps_bind; [apply keeps_wait_data |]); intros [code |];
    try apply keeps_ret; intros w; apply keeps_receive_loop.
Qed.

Lemma keeps_modbus_check_response (mb : modbus_param_t)
    (query response : list Z) :
  keeps_writes (modbus_check_response mb query response).
Proof.
  unfold modbus_check_response.
  repeat first [ apply keeps_receive_msg | apply keeps_check_crc16
               | keeps_step ].
Qed.

Lemma keeps_preset_response (mb : modbus_param_t) (query : list Z) :
  keeps_writes (preset_response mb query).
Proof.
  unfold preset_response.
  repeat first [ apply keeps_modbus_check_response | keeps_step ].
Qed.

Lemma keeps_read_reg_response (mb : modbus_param_t)
    (data_dest query : list Z) :
  keeps_writes (read_reg_response mb data_dest query).
Proof.
  unfold read_reg_response.
  repeat first [ apply keeps_modbus_check_response | keeps_step ].
Qed.

End Keeps.

(** ** Requests on their way out *)

Section Send.

Context {hdr : modbus_h}.

Lemma initialised_cases (mb : modbus_param_t) :
  initialised mb ->
  (type_com mb = RTU /\ header_length mb = 0 /\ checksum_size mb = 2)
  \/ (type_com mb = TCP /\ header_length mb = 6 /\ checksum_size mb = 0).
Proof.
  unfold initialised. destruct (type_com mb); intros [H1 H2]; auto.
Qed.

(** A request buffer of twelve bytes or more takes the whole MBAP preset. *)
Lemma build_query_packet_tcp_ok (slave function start_addr count : Z)
    (packet : list Z) (w : world) :
  12 <= len packet ->
  exists p4 p5 rest,
    build_query_packet_tcp slave function start_addr count packet w
    = (Some (PRESET_QUERY_SIZE_TCP,
             u8 (Z.shiftr (next_t_id (t_id_query w)) 8)
             :: u8 (Z.land (next_t_id (t_id_query w)) 255)
             :: u8 0 :: u8 0 :: p4 :: p5
             :: u8 (u8 slave) :: u8 (u8 function)
             :: u8 (Z.shiftr (u16 start_addr) 8)
             :: u8 (Z.land (u16 start_addr) 255)
             :: u8 (Z.shiftr (u16 count) 8)
             :: u8 (Z.land (u16 count) 255) :: rest),
       set_t_id_query (next_t_id (t_id_query w)) w)
    /\ len packet = 12 + len rest.
Proof.
  intros Hlen. unfold len in *.
  do 12 (destruct packet as [| ? packet]; [cbn [length] in Hlen; lia |]).
  eexists _, _, packet. split; [reflexivity |].
  cbn [length]. lia.
Qed.

(** The preset request: where it ends, and the fields the claims need. *)
Lemma build_query_packet_fields (mb : modbus_param_t)
    (slave function start_addr count : Z) (packet : list Z) (w : world) :
  initialised mb ->
  12 <= len packet ->
  exists packet' w',
    build_query_packet mb slave function start_addr count packet w
    = (Some (header_length mb + 6, packet'), w')
    /\ trace w' = trace w
    /\ stack_garbage w' = stack_garbage w
    /\ len packet' = len packet
    /\ load packet' (header_length mb + 1) = Some (u8 function)
    /\ load packet' (header_length mb + 4) = Some (Z.shiftr (u16 count) 8)
    /\ load packet' (header_length mb + 5) = Some (Z.land (u16 count) 255).
Proof.
  intros Hmb Hlen.
  assert (Hhi : u8 (Z.shiftr (u16 count) 8) = Z.shiftr (u16 count) 8).
  { apply u8_byte, shiftr8_byte. apply Z.mod_pos_bound. lia. }
  assert (Hlo : u8 (Z.land (u16 count) 255) = Z.land (u16 count) 255).
  { apply u8_byte, land255_byte. apply Z.mod_pos_bound. lia. }
  assert (Hfc : u8 (u8 function) = u8 function).
  { apply u8_byte, is_byte_u8. }
  unfold build_query_packet.
  destruct (initialised_cases mb Hmb) as [(Ht & Hh & _) | (Ht & Hh & _)];
    rewrite Ht, Hh.
  - unfold len in Hlen.
    do 6 (destruct packet as [| ? packet]; [cbn [length] in Hlen; lia |]).
    eexists _, w. split; [reflexivity |].
    repeat split; try reflexivity;
      (erewrite load_nth; [| vm_compute; reflexivity | lia]);
      cbn [nth_error]; f_equal; assumption.
  - destruct (build_query_packet_tcp_ok slave function start_addr count
                packet w Hlen) as (p4 & p5 & rest & E & Hl).
    rewrite E. eexists _, _. split; [reflexivity |].
    split; [reflexivity | split; [reflexivity | split]].
    + rewrite Hl. unfold len. cbn [length]. lia.
    + repeat split;
        (erewrite load_nth; [| vm_compute; reflexivity | lia]);
        cbn [nth_error]; f_equal; assumption.
Qed.

Lemma sys_write_trace (buf : list Z) (size : Z) (w : world) :
  0 <= size <= len buf ->
  exists r w',
    sys_write buf size w = (Some r, w')
    /\ trace w' = trace w ++ [SysWrite (firstn (Z.to_nat size) buf)]
    /\ stack_garbage w' = stack_garbage w.
Proof.
  intros H. unfold sys_write.
  destruct (Z.leb_spec 0 size); [| lia].
  destruct (Z.leb_spec size (len buf)); [| lia]. cbn [andb].
  destruct (write_script w); eexists _, _; repeat split; reflexivity.
Qed.

Lemma set_packet_length_tcp_fields (packet : list Z) (packet_size : Z) :
  6 <= len packet ->
  exists packet',
    set_packet_length_tcp packet packet_size = Some packet'
    /\ len packet' = len packet
    /\ forall j, 6 <= j -> load packet' j = load packet j.
Proof.
  intros H. unfold set_packet_length_tcp, store8.
  destruct (store_ok packet 4 (u8 (Z.shiftr (u16 (packet_size - 6)) 8))
              ltac:(lia)) as [p1 E1].
  pose proof (store_len _ _ _ _ E1) as L1.
  destruct (store_ok p1 5 (u8 (Z.land (u16 (packet_size - 6)) 255))
              ltac:(lia)) as [p2 E2].
  pose proof (store_len _ _ _ _ E2) as L2.
  exists p2. rewrite E1. cbn [obind]. split; [exact E2 | split; [lia |]].
  intros j Hj.
  rewrite (store_load_other _ _ _ j _ E2) by lia.
  apply (store_load_other _ _ _ j _ E1). lia.
Qed.

(** [modbus_send] hands exactly one frame to the transport; between the
    envelope header and [query_size] it holds what the caller built. *)
Lemma modbus_send_frame (mb : modbus_param_t) (query : list Z)
    (query_size : Z) (w : world) :
  initialised mb ->
  header_length mb <= query_size ->
  query_size + checksum_size mb <= len query ->
  exists r query' w' frame,
    modbus_send mb query query_size w = (Some (r, query'), w')
    /\ writes (trace w') = writes (trace w) ++ [frame]
    /\ stack_garbage w' = stack_garbage w
    /\ len frame = query_size + checksum_size mb
    /\ forall j, header_length mb <= j < query_size ->
                 load frame j = load query j.
Proof.
  intros Hmb Hlo Hhi. unfold modbus_send, modbus_send_envelope.
  assert (Hfin : forall (q : list Z) (size : Z) (w0 : world),
             0 <= size <= len q ->
             exists r w',
               (write_ret <- sys_write q size ;;
                if (write_ret =? -1) || negb (write_ret =? size)
                then error_treat mb ;; ret (PORT_SOCKET_FAILURE, q)
                else ret (write_ret, q)) w0 = (Some (r, q), w')
               /\ writes (trace w')
                  = writes (trace w0) ++ [firstn (Z.to_nat size) q]
               /\ stack_garbage w' = stack_garbage w0).
  { intros q size w0 Hs.
    destruct (sys_write_trace q size w0 Hs) as (r & w1 & E & Ht & Hg).
    unfold bind at 1. rewrite E.
    assert (Hw1 : writes (trace w1)
                  = writes (trace w0) ++ [firstn (Z.to_nat size) q])
      by (rewrite Ht, writes_app; reflexivity).
    destruct ((r =? -1) || negb (r =? size)).
    - unfold bind, error_treat, emit, reset_input, ret.
      destruct (type_com mb); [| destruct (error_handling mb)];
        eexists _, _; (split; [reflexivity |]);
        cbn [set_trace set_incoming trace stack_garbage];
        rewrite ?writes_app, ?app_nil_r; auto.
    - eexists _, _. split; [reflexivity | auto]. }
  destruct (initialised_cases mb Hmb) as [(Ht & Hh & Hc) | (Ht & Hh & Hc)];
    rewrite Ht; rewrite Hh in *; rewrite Hc in *.
  - unfold store8.
    destruct (store_ok query query_size
                (u8 (Z.shiftr (crc16 query query_size) 8)) ltac:(lia))
      as [q1 E1].
    pose proof (store_len _ _ _ _ E1) as L1.
    destruct (store_ok q1 (query_size + 1)
                (u8 (Z.land (crc16 query query_size) 255)) ltac:(lia))
      as [q2 E2].
    pose proof (store_len _ _ _ _ E2) as L2.
    unfold bind at 1, lift. rewrite E1. cbn [obind]. rewrite E2. cbn [obind].
    destruct (Hfin q2 (query_size + 2) w ltac:(lia)) as (r & w' & E & Hw & Hg).
    exists r, q2, w', (firstn (Z.to_nat (query_size + 2)) q2).
    split; [exact E | split; [exact Hw | split; [exact Hg | split]]].
    + unfold len in *. rewrite length_firstn. lia.
    + intros j Hj. rewrite load_firstn by lia.
      rewrite (store_load_other _ _ _ j _ E2) by lia.
      apply (store_load_other _ _ _ j _ E1). lia.
  - destruct (set_packet_length_tcp_fields query query_size ltac:(lia))
      as (q1 & E1 & L1 & K1).
    unfold bind at 1, lift. rewrite E1. cbn [obind].
    destruct (Hfin q1 query_size w ltac:(lia)) as (r & w' & E & Hw & Hg).
    exists r, q1, w', (firstn (Z.to_nat query_size) q1).
    split; [exact E | split; [exact Hw | split; [exact Hg | split]]].
    + unfold len in *. rewrite length_firstn. lia.
    + intros j Hj. rewrite load_firstn by lia. apply K1. lia.
Qed.

End Send.

(** ** CRC-16 *)

Lemma lxor_byte (a b : Z) : is_byte a -> is_byte b -> is_byte (Z.lxor a b).
Proof.
  unfold is_byte. intros Ha Hb.
  assert (H0 : 0 <= Z.lxor a b) by (apply Z.lxor_nonneg; lia).
  split; [exact H0 |].
  destruct (Z.eq_dec (Z.lxor a b) 0) as [-> | Hnz]; [lia |].
  change 256 with (2 ^ 8). apply Z.log2_lt_pow2; [lia |].
  pose proof (Z.log2_lxor a b ltac:(lia) ltac:(lia)) as Hl.
  assert (La : Z.log2 a < 8).
  { destruct (Z.eq_dec a 0) as [-> | ?]; [cbv; reflexivity |].
    apply Z.log2_lt_pow2; [lia | change (2 ^ 8) with 256; lia]. }
  assert (Lb : Z.log2 b < 8).
  { destruct (Z.eq_dec b 0) as [-> | ?]; [cbv; reflexivity |].
    apply Z.log2_lt_pow2; [lia | change (2 ^ 8) with 256; lia]. }
  lia.
Qed.




Lemma all_bytes_tab (t : list Z) (i : Z) :
  all_bytes t = true -> is_byte (tab t i).
Proof.
  intros H. unfold tab.
  destruct (nth_in_or_default (Z.to_nat i) t 0) as [Hin | ->].
  - unfold all_bytes in H. rewrite forallb_forall in H.
    specialize (H _ Hin). unfold is_byte. lia.
  - unfold is_byte. lia.
Qed.

Lemma tab_crc_hi_byte (i : Z) : is_byte (tab table_crc_hi i).
Proof. apply all_bytes_tab. vm_compute. reflexivity. Qed.

Lemma tab_crc_lo_byte (i : Z) : is_byte (tab table_crc_lo i).
Proof. apply all_bytes_tab. vm_compute. reflexivity. Qed.


Lemma in_zseq (start : Z) (n : nat) (i : Z) :
  start <= i < start + Z.of_nat n -> In i (zseq start n).
Proof.
  revert start. induction n as [| n IH]; intros start H; [lia |].
  cbn [zseq]. destruct (Z.eq_dec start i) as [-> | Hne]; [left; reflexivity |].
  right. apply IH. lia.
Qed.

Lemma in_zseq_Z (start m i : Z) :
  start <= i < start + m -> In i (zseq start (Z.to_nat m)).
Proof. intros H. apply in_zseq. lia. Qed.




Lemma crc16_step_byte_pair (st : Z * Z) (b : Z) :
  byte_pair st -> byte_pair (crc16_step st b).
Proof.
  destruct st as [crc_hi crc_lo]. unfold byte_pair, crc16_step. cbn [fst snd].
  intros [_ Hlo]. split.
  - apply lxor_byte; [exact Hlo | apply tab_crc_hi_byte].
  - apply tab_crc_lo_byte.
Qed.

Lemma fold_crc16_step_byte_pair (s : list Z) (st : Z * Z) :
  byte_pair st -> byte_pair (fold_left crc16_step s st).
Proof.
  revert st. induction s as [| b s IH]; intros st H; [exact H |].
  cbn [fold_left]. apply IH, crc16_step_byte_pair, H.
Qed.

Lemma crc16_state_byte_pair (buffer : list Z) (n : Z) :
  byte_pair (crc16_state buffer n).
Proof.
  unfold crc16_state. apply fold_crc16_step_byte_pair.
  split; cbn [fst snd]; unfold is_byte; lia.
Qed.

Lemma crc16_word (buffer : list Z) (n : Z) :
  crc16 buffer n
  = word_of (fst (crc16_state buffer n)) (snd (crc16_state buffer n)).
Proof.
  unfold crc16. pose proof (crc16_state_byte_pair buffer n) as [_ Hlo].
  destruct (crc16_state buffer n) as [crc_hi crc_lo]. cbn [fst snd] in *.
  apply lor_shiftl_byte, Hlo.
Qed.

Lemma crc16_range (buffer : list Z) (n : Z) : 0 <= crc16 buffer n < 65536.
Proof.
  rewrite crc16_word.
  pose proof (crc16_state_byte_pair buffer n) as [Hhi Hlo].
  apply word_of_range; assumption.
Qed.




(** [crc16] only looks at the first [n] bytes. *)
Lemma crc16_firstn (buffer : list Z) (n : Z) :
  0 <= n < 65536 ->
  crc16 buffer n = crc16 (firstn (Z.to_nat n) buffer) n.
Proof.
  intros H. unfold crc16, crc16_state. rewrite u16_small by exact H.
  rewrite firstn_firstn, Nat.min_id. reflexivity.
Qed.

Lemma crc16_app (s rest : list Z) :
  len s < 65536 -> crc16 (s ++ rest) (len s) = crc16 s (len s).
Proof.
  intros H. pose proof (len_nonneg s) as H0.
  rewrite (crc16_firstn (s ++ rest)), (crc16_firstn s) by lia.
  unfold len. rewrite Nat2Z.id, firstn_app, Nat.sub_diag, firstn_all.
  cbn [firstn]. rewrite app_nil_r. reflexivity.
Qed.

(** *** One turn of the loop is injective *)





(** ** The receive loop ends *)

Section Fuel.

Context {hdr : modbus_h}.

(** The input that an error leaves: flushed on a serial line, that of the
    new connection on TCP when the handle asks for a reconnection. *)
Lemma incoming_error_treat (mb : modbus_param_t) (w : world) :
  incoming (snd (error_treat mb w))
  = match type_com mb, error_handling mb with
    | TCP, NOP_ON_ERROR => incoming w
    | _, _ => input_after_reset w (incoming w)
    end.
Proof.
  unfold error_treat.
  destruct (type_com mb); destruct (error_handling mb); reflexivity.
Qed.

(** A read that brings something takes it off what is pending. *)
Lemma sys_read_pending (msg : list Z) (p_msg size_to_read : Z) (w w' : world)
    (read_ret : Z) (msg' : list Z) :
  sys_read msg p_msg size_to_read w = (Some (read_ret, msg'), w') ->
  read_ret <> -1 -> read_ret <> 0 ->
  (pending (incoming w') < pending (incoming w))%nat.
Proof.
  unfold sys_read. intros E H1 H0.
  destruct (incoming w) as [| [data | | | |] rest] eqn:Ein;
    try (injection E as <- _ _; congruence).
  set (n := if size_to_read <? 0 then length data
            else Nat.min (Z.to_nat size_to_read) (length data)) in *.
  destruct (blit msg p_msg (firstn n data)); [| discriminate].
  injection E as <- _ <-.
  assert (Hn : (0 < n <= length data)%nat).
  { subst n. destruct (size_to_read <? 0); lia. }
  pose proof (length_skipn n data) as Hs.
  cbn [incoming set_incoming pending].
  destruct (skipn n data) as [| x left]; cbn [pending length] in *; lia.
Qed.

Lemma wait_data_pending (mb : modbus_param_t) (w w' : world) :
  wait_data mb w = (Some None, w') -> w' = w.
Proof.
  unfold wait_data. intros E.
  destruct (incoming w) as [| [] rest]; try (injection E as <-; reflexivity);
    try discriminate.
  unfold bind, ret in E.
  destruct (error_treat mb (set_incoming rest w)) as [[[] |] w1];
    discriminate.
Qed.

Lemma bind_ext_on (A B : Type) (m : M A) (k1 k2 : A -> M B) (w : world) :
  (forall a w', m w = (Some a, w') -> k1 a w' = k2 a w') ->
  bind m k1 w = bind m k2 w.
Proof.
  intros H. unfold bind. destruct (m w) as [[a |] w']; [| reflexivity].
  apply H. reflexivity.
Qed.

(** With more fuel than there is pending, the result of the loop does not
    depend on the fuel: [receive_msg] never stops for want of it. *)
Lemma receive_loop_fuel (fuel1 : nat) :
  forall (fuel2 : nat) (mb : modbus_param_t) (state : receive_state)
         (msg_size_computed size_to_read : Z) (msg : list Z)
         (msg_size p_msg : Z) (w : world),
    (pending (incoming w) < fuel1)%nat ->
    (pending (incoming w) < fuel2)%nat ->
    receive_loop fuel1 mb state msg_size_computed size_to_read msg msg_size
                 p_msg w
    = receive_loop fuel2 mb state msg_size_computed size_to_read msg
                   msg_size p_msg w.
Proof.
  induction fuel1 as [| fuel1 IH]; intros fuel2 mb state msc str msg msg_size
    p_msg w H1 H2; [lia |].
  destruct fuel2 as [| fuel2]; [lia |].
  cbn [receive_loop].
  apply bind_ext_on. intros [read_ret msg'] w1 Er.
  destruct (Z.eqb_spec read_ret (-1)); [reflexivity |].
  destruct (Z.eqb_spec read_ret 0); [reflexivity |].
  pose proof (sys_read_pending _ _ _ _ _ _ _ Er ltac:(assumption)
                ltac:(assumption)) as Hdec.
  destruct (msg_size + read_ret >? MAX_PACKET_SIZE); [reflexivity |].
  apply bind_ext_on. intros [[st' msc'] str'] w1' El.
  assert (w1' = w1) by (unfold lift in El; congruence). subst w1'.
  destruct (str' >? 0); [| reflexivity].
  apply bind_ext_on. intros [code |] w2 Ew; [reflexivity |].
  apply wait_data_pending in Ew. subst w2.
  apply IH; lia.
Qed.

End Fuel.

(** ** The expected-size oracle *)

(** C3.  For a request whose function code [fc] and big-endian quantity
    bytes [hi], [lo] sit at the standard offsets, [compute_response_size]
    returns the envelope header length plus the checksum size plus the body
    size of the table: 3 + ceil(qty/8) for 0x01 and 0x02, 3 + 2*qty for 0x03
    and 0x04, 4 for 0x07 and 6 for every other function code. *)
Theorem compute_response_size_table (mb : modbus_param_t) (query : list Z)
    (fc hi lo : Z) :
  load query (header_length mb + 1) = Some fc ->
  load query (header_length mb + 4) = Some hi ->
  load query (header_length mb + 5) = Some lo ->
  is_byte hi -> is_byte lo ->
  compute_response_size mb query
  = Some (header_length mb + checksum_size mb
          + response_body_size fc (word_of hi lo)).
Proof.
  intros Hfc Hhi Hlo Bhi Blo.
  unfold compute_response_size, response_body_size.
  rewrite Hfc. cbn [obind].
  change FC_READ_COIL_STATUS with 1. change FC_READ_INPUT_STATUS with 2.
  change FC_READ_HOLDING_REGISTERS with 3.
  change FC_READ_INPUT_REGISTERS with 4.
  change FC_READ_EXCEPTION_STATUS with 7.
  pose proof (word_of_range hi lo Bhi Blo) as Hw.
  destruct ((fc =? 1) || (fc =? 2)).
  - rewrite Hhi, Hlo. cbn [obind].
    rewrite lor_shiftl_byte by exact Blo.
    pose proof (quot_rem_ceil_div8 (word_of hi lo) ltac:(lia)) as Hc.
    f_equal. lia.
  - destruct ((fc =? 3) || (fc =? 4)).
    + rewrite Hhi, Hlo. cbn [obind].
      rewrite lor_shiftl_byte by exact Blo. f_equal. lia.
    + destruct (fc =? 7); cbn [obind]; f_equal; lia.
Qed.

(** The theorem at a Read Coils request for 19 coils on a serial line. *)
Lemma compute_response_size_table_witness :
  compute_response_size modbus_init_rtu [0x11; 0x01; 0x00; 0x13; 0x00; 0x13]
  = Some (0 + 2 + (3 + 3)).
Proof.
  apply (compute_response_size_table modbus_init_rtu
           [0x11; 0x01; 0x00; 0x13; 0x00; 0x13] 0x01 0x00 0x13);
    try reflexivity; unfold is_byte; lia.
Defined.

(** ** Progressive receive: the header that follows the function code *)

Lemma compute_query_size_header_cases (fc : Z) :
  compute_query_size_header fc
  = if fc <=? 0x05 then 4
    else if (fc =? 0x0F) || (fc =? 0x10) then 5 else 0.
Proof. reflexivity. Qed.

Lemma compute_query_size_header_agrees (fc : Z) :
  fc <> 0x06 ->
  compute_query_size_header fc = query_header_size_spec fc.
Proof.
  intros Hfc. unfold compute_query_size_header, query_header_size_spec.
  change FC_FORCE_SINGLE_COIL with 5.
  change FC_FORCE_MULTIPLE_COILS with 15.
  change FC_PRESET_MULTIPLE_REGISTERS with 16.
  destruct (Z.leb_spec fc 5), (Z.leb_spec fc 6); try reflexivity; lia.
Qed.

(** C4.  At function code 0x06, Write Single Register, the code extends the
    expected length by 0 bytes where the table of the specification says 4:
    the test is [function <= FC_FORCE_SINGLE_COIL], that is 0x05, under
    the comment "Read and single write".  A server that listens on a
    serial line therefore stops after the two bytes of unit and function
    code of such a request, returns from [receive_msg] with 0 and fails
    the CRC check on what it has. *)
Theorem compute_query_size_header_preset_single_register :
  compute_query_size_header FC_PRESET_SINGLE_REGISTER = 0
  /\ query_header_size_spec FC_PRESET_SINGLE_REGISTER = 4
  /\ forall hdr : modbus_h,
       let request := [0x11; 0x06; 0x00; 0x01; 0x00; 0x03; 0x9A; 0x9B] in
       let w := idle_world [Chunk request] in
       let query := repeat 0 (Z.to_nat MAX_PACKET_SIZE) in
       check_crc16 modbus_init_rtu request 8 w = (Some 0, w)
       /\ fst (receive_msg modbus_init_rtu MSG_SIZE_UNDEFINED query 0 w)
          = Some (0, 0x11 :: 0x06 :: skipn 2 query, 2)
       /\ fst (modbus_listen modbus_init_rtu query 0 w)
          = Some (INVALID_CRC, 0x11 :: 0x06 :: skipn 2 query, 2).
Proof.
  split; [reflexivity | split; [reflexivity |]].
  intros hdr request w query. split; [reflexivity |].
  unfold modbus_listen, receive_msg. rewrite Z.eqb_refl.
  split; reflexivity.
Qed.

(** ** The MBAP transaction identifier *)

Lemma load_cons_0 (x : Z) (l : list Z) : load (x :: l) 0 = Some x.
Proof. reflexivity. Qed.

Lemma next_t_id_range (t : Z) :
  0 <= t <= 65535 -> 0 <= next_t_id t <= 65535.
Proof.
  unfold next_t_id, UINT16_MAX. intros H.
  destruct (Z.ltb_spec t 65535); lia.
Qed.

Lemma next_t_id_mod (t : Z) :
  0 <= t <= 65535 -> next_t_id t = (t + 1) mod 65536.
Proof.
  unfold next_t_id, UINT16_MAX. intros H.
  destruct (Z.ltb_spec t 65535).
  - rewrite Z.mod_small; lia.
  - replace t with 65535 by lia. reflexivity.
Qed.

Lemma emitted_t_id_cons (hi lo : Z) (l : list Z) :
  emitted_t_id (hi :: lo :: l) = Some (word_of hi lo).
Proof. reflexivity. Qed.

Lemma t_id_query_mbap_requests (reqs : list (Z * Z * Z * Z)) (w : world) :
  0 <= t_id_query w <= 65535 ->
  t_id_query (mbap_requests reqs w)
  = (t_id_query w + Z.of_nat (length reqs)) mod 65536.
Proof.
  revert w. induction reqs as [| [[[s f] a] c] reqs IH]; intros w Hw.
  - cbn [mbap_requests length Z.of_nat]. rewrite Z.add_0_r, Z.mod_small; lia.
  - cbn [mbap_requests length].
    destruct (build_query_packet_tcp_ok s f a c
                (uninit (stack_garbage w) (Z.to_nat MIN_QUERY_SIZE)) w)
      as (p4 & p5 & rest & E & _); [cbv; discriminate |].
    rewrite E. cbn [snd]. rewrite IH.
    + cbn [set_t_id_query t_id_query]. rewrite next_t_id_mod by exact Hw.
      rewrite Zplus_mod_idemp_l. f_equal. lia.
    + cbn [set_t_id_query t_id_query]. apply next_t_id_range. exact Hw.
Qed.

(** C9.  [build_query_packet_tcp] advances a 16-bit counter: the
    identifier it writes, high byte first, is the previous one plus one
    modulo 65536, so 0 follows 0xFFFF; and after 0xFFFF requests issued
    from a fresh counter the next request carries identifier 0. *)
Theorem transaction_id_counter :
  (forall (slave function start_addr count : Z) (packet : list Z) (w : world),
      12 <= len packet ->
      0 <= t_id_query w <= 65535 ->
      exists packet',
        build_query_packet_tcp slave function start_addr count packet w
        = (Some (PRESET_QUERY_SIZE_TCP, packet'),
           set_t_id_query ((t_id_query w + 1) mod 65536) w)
        /\ emitted_t_id packet' = Some ((t_id_query w + 1) mod 65536))
  /\ (forall (slave function start_addr count : Z) (packet : list Z)
        (w : world),
      12 <= len packet ->
      t_id_query w = 0xFFFF ->
      exists packet',
        fst (build_query_packet_tcp slave function start_addr count packet w)
        = Some (PRESET_QUERY_SIZE_TCP, packet')
        /\ emitted_t_id packet' = Some 0)
  /\ (forall (reqs : list (Z * Z * Z * Z)) (slave function start_addr count : Z)
        (packet : list Z) (w : world),
      12 <= len packet ->
      t_id_query w = 0 ->
      Z.of_nat (length reqs) = 0xFFFF ->
      exists packet',
        fst (build_query_packet_tcp slave function start_addr count packet
               (mbap_requests reqs w))
        = Some (PRESET_QUERY_SIZE_TCP, packet')
        /\ emitted_t_id packet' = Some 0).
Proof.
  assert (Hone : forall slave function start_addr count packet w,
             12 <= len packet ->
             0 <= t_id_query w <= 65535 ->
             exists packet',
               build_query_packet_tcp slave function start_addr count packet w
               = (Some (PRESET_QUERY_SIZE_TCP, packet'),
                  set_t_id_query ((t_id_query w + 1) mod 65536) w)
               /\ emitted_t_id packet' = Some ((t_id_query w + 1) mod 65536)).
  { intros s f a c packet w Hlen Ht.
    destruct (build_query_packet_tcp_ok s f a c packet w Hlen)
      as (p4 & p5 & rest & E & _).
    eexists. split.
    - rewrite E, next_t_id_mod by exact Ht. reflexivity.
    - rewrite emitted_t_id_cons.
      pose proof (Z.mod_pos_bound (t_id_query w + 1) 65536 ltac:(lia)) as Hr.
      rewrite (u8_byte (Z.shiftr _ 8)) by (apply shiftr8_byte; lia).
      rewrite (u8_byte (Z.land _ 255)) by (apply land255_byte; lia).
      rewrite word_of_split by lia. reflexivity. }
  split; [exact Hone | split].
  - intros s f a c packet w Hlen Ht.
    destruct (Hone s f a c packet w Hlen ltac:(lia)) as (packet' & E & Hid).
    exists packet'. rewrite E, Ht in *. split; [reflexivity | exact Hid].
  - intros reqs s f a c packet w Hlen Ht Hn.
    pose proof (t_id_query_mbap_requests reqs w ltac:(lia)) as Hreqs.
    rewrite Ht, Hn in Hreqs. change ((0 + 0xFFFF) mod 65536)
      with 65535 in Hreqs.
    destruct (Hone s f a c packet (mbap_requests reqs w) Hlen ltac:(lia))
      as (packet' & E & Hid).
    exists packet'. rewrite E, Hreqs in *. split; [reflexivity | exact Hid].
Qed.

(** The third part of the theorem for 0xFFFF Read Holding Registers
    requests issued by a fresh process. *)
Lemma transaction_id_counter_witness :
  exists packet',
    fst (build_query_packet_tcp 0x11 0x03 0x6B 3 (repeat 0 12)
           (mbap_requests (repeat (0x11, 0x03, 0x6B, 3) (Z.to_nat 0xFFFF))
                          (idle_world [])))
    = Some (PRESET_QUERY_SIZE_TCP, packet')
    /\ emitted_t_id packet' = Some 0.
Proof.
  apply (proj2 (proj2 transaction_id_counter)).
  - cbv. discriminate.
  - reflexivity.
  - rewrite repeat_length. apply Z2Nat.id. cbv. discriminate.
Defined.

(** ** Write Single Coil on the master side *)

Section SingleCoil.

Context {hdr : modbus_h}.

(** What [set_single] hands to the transport: one frame, carrying the
    function code and the 16-bit [value] it was given. *)
Lemma set_single_frame (mb : modbus_param_t) (slave function addr value : Z)
    (w : world) :
  initialised mb ->
  exists frame,
    writes (trace (snd (set_single mb slave function addr value w)))
    = writes (trace w) ++ [frame]
    /\ load frame (header_length mb + 1) = Some (u8 function)
    /\ load frame (header_length mb + 4) = Some (Z.shiftr (u16 value) 8)
    /\ load frame (header_length mb + 5) = Some (Z.land (u16 value) 255).
Proof.
  intros Hmb. unfold set_single.
  unfold bind at 1, local_array.
  destruct (build_query_packet_fields mb slave function addr value
              (uninit (stack_garbage w) (Z.to_nat MAX_PACKET_SIZE)) w Hmb)
    as (q & w1 & E1 & T1 & G1 & L1 & F1 & F4 & F5).
  { rewrite len_uninit. cbv. discriminate. }
  unfold bind at 1. rewrite E1.
  rewrite len_uninit in L1.
  destruct (modbus_send_frame mb q (header_length mb + 6) w1 Hmb)
    as (r & q' & w2 & frame & E2 & T2 & G2 & L2 & K2).
  { lia. }
  { rewrite L1.
    destruct (initialised_cases mb Hmb) as [(_ & -> & ->) | (_ & -> & ->)];
      cbv; discriminate. }
  unfold bind at 1. rewrite E2.
  exists frame. split.
  - rewrite <- T1, <- T2.
    destruct (r >? 0); [apply keeps_preset_response | reflexivity].
  - rewrite !K2 by lia. auto.
Qed.

(** C10.  Whatever integer [state] the caller passes, the one frame that
    [force_single_coil] hands to the transport is a Write Single Coil
    request whose value field is 0xFF00 when [state] is not zero and
    0x0000 when it is zero. *)
Theorem force_single_coil_value (mb : modbus_param_t)
    (slave coil_addr state : Z) (w : world) :
  initialised mb ->
  exists frame,
    writes (trace (snd (force_single_coil mb slave coil_addr state w)))
    = writes (trace w) ++ [frame]
    /\ load frame (header_length mb + 1) = Some FC_FORCE_SINGLE_COIL
    /\ load frame (header_length mb + 4)
       = Some (if state =? 0 then 0x00 else 0xFF)
    /\ load frame (header_length mb + 5) = Some 0x00.
Proof.
  intros Hmb. unfold force_single_coil.
  destruct (set_single_frame mb slave FC_FORCE_SINGLE_COIL coil_addr
              (if negb (state =? 0) then 65280 else state) w Hmb)
    as (frame & Hw & F1 & F4 & F5).
  exists frame. split; [exact Hw | split; [exact F1 |]].
  rewrite F4, F5.
  destruct (Z.eqb_spec state 0) as [-> | Hs]; cbn [negb]; split; reflexivity.
Qed.

End SingleCoil.

(** The theorem on a serial line, for the coil 0x00AC of slave 0x11 and
    the state 7. *)
Lemma force_single_coil_value_witness :
  exists frame,
    writes (trace (snd (@force_single_coil example_h modbus_init_rtu
                          0x11 0x00AC 7 (idle_world []))))
    = writes (trace (idle_world [])) ++ [frame]
    /\ load frame (header_length modbus_init_rtu + 1)
       = Some FC_FORCE_SINGLE_COIL
    /\ load frame (header_length modbus_init_rtu + 4)
       = Some (if 7 =? 0 then 0x00 else 0xFF)
    /\ load frame (header_length modbus_init_rtu + 5) = Some 0x00.
Proof.
  apply (@force_single_coil_value example_h modbus_init_rtu 0x11 0x00AC 7
           (idle_world [])).
  split; reflexivity.
Defined.

(** ** Clamping of quantities on the master side *)

Section Clamping.

Context {hdr : modbus_h}.

Lemma quantity_field_of_bytes (mb : modbus_param_t) (frame : list Z)
    (count : Z) :
  load frame (header_length mb + 4) = Some (Z.shiftr (u16 count) 8) ->
  load frame (header_length mb + 5) = Some (Z.land (u16 count) 255) ->
  quantity_field mb frame = Some (u16 count).
Proof.
  intros H4 H5. unfold quantity_field. rewrite H4, H5. cbn [obind].
  rewrite word_of_split; [reflexivity |].
  apply Z.mod_pos_bound. lia.
Qed.

(** The frame of a register read carries the count that [read_registers]
    was given. *)
Lemma read_registers_frame (mb : modbus_param_t)
    (slave function start_addr count : Z) (data_dest : list Z) (w : world) :
  initialised mb ->
  exists frame,
    writes (trace (snd (read_registers mb slave function start_addr count
                                       data_dest w)))
    = writes (trace w) ++ [frame]
    /\ quantity_field mb frame = Some (u16 count).
Proof.
  intros Hmb. unfold read_registers.
  unfold bind at 1, local_array.
  destruct (build_query_packet_fields mb slave function start_addr count
              (uninit (stack_garbage w) (Z.to_nat MIN_QUERY_SIZE)) w Hmb)
    as (q & w1 & E1 & T1 & G1 & L1 & F1 & F4 & F5).
  { rewrite len_uninit. cbv. discriminate. }
  unfold bind at 1. rewrite E1.
  rewrite len_uninit in L1.
  destruct (modbus_send_frame mb q (header_length mb + 6) w1 Hmb)
    as (r & q' & w2 & frame & E2 & T2 & G2 & L2 & K2).
  { lia. }
  { rewrite L1.
    destruct (initialised_cases mb Hmb) as [(_ & -> & ->) | (_ & -> & ->)];
      cbv; discriminate. }
  unfold bind at 1. rewrite E2.
  exists frame. split.
  - rewrite <- T1, <- T2.
    destruct (r >? 0); [apply keeps_read_reg_response | reflexivity].
  - apply quantity_field_of_bytes; rewrite K2 by lia; assumption.
Qed.

Lemma preset_multiple_registers_loop_ok (n : nat) (i : Z)
    (data_src query : list Z) (query_size : Z) :
  0 <= i -> i + Z.of_nat n <= len data_src ->
  0 <= query_size -> query_size + 2 * Z.of_nat n <= len query ->
  exists query',
    preset_multiple_registers_loop n i data_src query query_size
    = Some (query', query_size + 2 * Z.of_nat n)
    /\ len query' = len query
    /\ forall j, j < query_size -> load query' j = load query j.
Proof.
  revert i query query_size.
  induction n as [| n IH]; intros i query qs Hi Hsrc Hqs Hq.
  - exists query. cbn [preset_multiple_registers_loop].
    rewrite Z.add_0_r. auto.
  - cbn [preset_multiple_registers_loop].
    destruct (load_ok data_src i ltac:(lia)) as [v Ev]. rewrite Ev.
    cbn [obind]. unfold store8.
    destruct (store_ok query qs (u8 (Z.shiftr v 8)) ltac:(lia)) as [q1 E1].
    pose proof (store_len _ _ _ _ E1) as L1. rewrite E1. cbn [obind].
    destruct (store_ok q1 (qs + 1) (u8 (Z.land v 255)) ltac:(lia))
      as [q2 E2].
    pose proof (store_len _ _ _ _ E2) as L2. rewrite E2. cbn [obind].
    destruct (IH (i + 1) q2 (qs + 2) ltac:(lia) ltac:(lia) ltac:(lia)
                 ltac:(lia)) as (q' & E & L & K).
    exists q'. rewrite E. split; [f_equal; f_equal; lia | split; [lia |]].
    intros j Hj. rewrite K by lia.
    rewrite (store_load_other _ _ _ j _ E2) by lia.
    apply (store_load_other _ _ _ j _ E1). lia.
Qed.

Lemma force_multiple_coils_bits_ok (masks : list Z) (coil_count : Z)
    (data_src : list Z) (cur coil_check pos : Z) :
  0 <= pos <= coil_check -> coil_count <= len data_src ->
  exists cur' coil_check' pos',
    force_multiple_coils_bits masks coil_count data_src cur coil_check pos
    = Some (cur', coil_check', pos')
    /\ 0 <= pos' <= coil_check'.
Proof.
  revert cur coil_check pos.
  induction masks as [| bit masks IH]; intros cur cc pos Hp Hsrc;
    cbn [force_multiple_coils_bits].
  - eauto.
  - destruct (Z.ltb_spec cc coil_count).
    + destruct (load_ok data_src pos ltac:(lia)) as [v Ev]. rewrite Ev.
      cbn [obind]. apply IH; lia.
    + eexists _, _, _. split; [reflexivity | lia].
Qed.

Lemma force_multiple_coils_loop_ok (n : nat) (coil_count : Z)
    (data_src query : list Z) (query_size coil_check pos : Z) :
  0 <= pos <= coil_check -> coil_count <= len data_src ->
  0 <= query_size -> query_size + Z.of_nat n <= len query ->
  exists query',
    force_multiple_coils_loop n coil_count data_src query query_size
                              coil_check pos
    = Some (query', query_size + Z.of_nat n)
    /\ len query' = len query
    /\ forall j, j < query_size -> load query' j = load query j.
Proof.
  revert query query_size coil_check pos.
  induction n as [| n IH]; intros query qs cc pos Hp Hsrc Hqs Hq.
  - exists query. cbn [force_multiple_coils_loop].
    rewrite Z.add_0_r. auto.
  - cbn [force_multiple_coils_loop]. unfold store8.
    destruct (store_ok query qs (u8 0) ltac:(lia)) as [q1 E1].
    pose proof (store_len _ _ _ _ E1) as L1. rewrite E1. cbn [obind].
    destruct (force_multiple_coils_bits_ok bit_masks coil_count data_src 0
                cc pos Hp Hsrc) as (cur & cc' & pos' & Eb & Hp').
    rewrite Eb. cbn [obind].
    destruct (store_ok q1 qs (u8 cur) ltac:(lia)) as [q2 E2].
    pose proof (store_len _ _ _ _ E2) as L2. rewrite E2. cbn [obind].
    destruct (IH q2 (qs + 1) cc' pos' Hp' Hsrc ltac:(lia) ltac:(lia))
      as (q' & E & L & K).
    exists q'. rewrite E. split; [f_equal; f_equal; lia | split; [lia |]].
    intros j Hj. rewrite K by lia.
    rewrite (store_load_other _ _ _ j _ E2) by lia.
    apply (store_load_other _ _ _ j _ E1). lia.
Qed.

Lemma byte_count_bound (coil_count : Z) :
  coil_count <= 1968 ->
  Z.quot coil_count 8 + bool01 (negb (Z.rem coil_count 8 =? 0)) <= 246.
Proof.
  intros H. destruct (Z.eq_dec coil_count 1968) as [-> | Hne].
  - cbv. discriminate.
  - assert (Hq : Z.quot coil_count 8 <= Z.quot 1967 8)
      by (apply Z.quot_le_mono; lia).
    change (Z.quot 1967 8) with 245 in Hq.
    destruct (negb _); cbn [bool01]; lia.
Qed.

Lemma preset_multiple_registers_frame (mb : modbus_param_t)
    (slave start_addr reg_count : Z) (data_src : list Z) (w : world) :
  initialised mb ->
  (if reg_count >? MAX_WRITE_REGS then MAX_WRITE_REGS else reg_count)
  <= len data_src ->
  exists frame,
    writes (trace (snd (preset_multiple_registers mb slave start_addr
                          reg_count data_src w)))
    = writes (trace w) ++ [frame]
    /\ quantity_field mb frame = Some (clamped MAX_WRITE_REGS reg_count).
Proof.
  intros Hmb Hsrc. unfold preset_multiple_registers, clamped.
  pose proof (len_nonneg data_src) as Hsrc0.
  set (n := if reg_count >? MAX_WRITE_REGS then MAX_WRITE_REGS
            else reg_count) in *.
  assert (Hn : n <= 123)
    by (subst n; unfold MAX_WRITE_REGS;
        destruct (Z.gtb_spec reg_count 123); lia).
  assert (Hq : (if reg_count >? MAX_WRITE_REGS then MAX_WRITE_REGS
                else u16 reg_count) = u16 n).
  { subst n. destruct (reg_count >? MAX_WRITE_REGS); reflexivity. }
  rewrite Hq. clear Hq.
  unfold bind at 1, local_array.
  destruct (build_query_packet_fields mb slave FC_PRESET_MULTIPLE_REGISTERS
              start_addr n
              (uninit (stack_garbage w) (Z.to_nat MAX_PACKET_SIZE)) w Hmb)
    as (q & w1 & E1 & T1 & G1 & L1 & F1 & F4 & F5).
  { rewrite len_uninit. cbv. discriminate. }
  unfold bind at 1. rewrite E1. rewrite len_uninit in L1.
  change (Z.of_nat (Z.to_nat MAX_PACKET_SIZE)) with 260 in L1.
  assert (Hh : 0 <= header_length mb <= 6 /\
               header_length mb + checksum_size mb <= 6).
  { destruct (initialised_cases mb Hmb) as [(_ & -> & ->) | (_ & -> & ->)];
      lia. }
  unfold store8.
  destruct (store_ok q (header_length mb + 6) (u8 (n * 2)) ltac:(lia))
    as [q1 Es].
  pose proof (store_len _ _ _ _ Es) as Ls.
  unfold bind at 1, lift. rewrite Es.
  destruct (preset_multiple_registers_loop_ok (Z.to_nat n) 0 data_src q1
              (header_length mb + 6 + 1) ltac:(lia) ltac:(lia) ltac:(lia)
              ltac:(lia)) as (q2 & El & Ll & Kl).
  unfold bind at 1. rewrite El.
  destruct (modbus_send_frame mb q2
              (header_length mb + 6 + 1 + 2 * Z.of_nat (Z.to_nat n)) w1 Hmb
              ltac:(lia) ltac:(lia))
    as (r & q' & w2 & frame & E2 & T2 & G2 & L2 & K2).
  unfold bind at 1. rewrite E2.
  exists frame. split.
  - rewrite <- T1, <- T2.
    destruct (r >? 0); [apply keeps_preset_response | reflexivity].
  - apply quantity_field_of_bytes; rewrite K2 by lia; rewrite Kl by lia;
      rewrite (store_load_other _ _ _ _ _ Es) by lia; assumption.
Qed.

Lemma force_multiple_coils_frame (mb : modbus_param_t)
    (slave start_addr coil_count : Z) (data_src : list Z) (w : world) :
  initialised mb ->
  (if coil_count >? MAX_WRITE_COILS then MAX_WRITE_COILS else coil_count)
  <= len data_src ->
  exists frame,
    writes (trace (snd (force_multiple_coils mb slave start_addr coil_count
                          data_src w)))
    = writes (trace w) ++ [frame]
    /\ quantity_field mb frame = Some (clamped MAX_WRITE_COILS coil_count).
Proof.
  intros Hmb Hsrc. unfold force_multiple_coils, clamped.
  pose proof (len_nonneg data_src) as Hsrc0.
  set (n := if coil_count >? MAX_WRITE_COILS then MAX_WRITE_COILS
            else coil_count) in *.
  assert (Hn : n <= 1968)
    by (subst n; unfold MAX_WRITE_COILS;
        destruct (Z.gtb_spec coil_count 1968); lia).
  assert (Hq : (if coil_count >? MAX_WRITE_COILS then MAX_WRITE_COILS
                else u16 coil_count) = u16 n).
  { subst n. destruct (coil_count >? MAX_WRITE_COILS); reflexivity. }
  rewrite Hq. clear Hq.
  pose proof (byte_count_bound n Hn) as Hbc.
  set (bc := Z.quot n 8 + bool01 (negb (Z.rem n 8 =? 0))) in *.
  unfold bind at 1, local_array.
  destruct (build_query_packet_fields mb slave FC_FORCE_MULTIPLE_COILS
              start_addr n
              (uninit (stack_garbage w) (Z.to_nat MAX_PACKET_SIZE)) w Hmb)
    as (q & w1 & E1 & T1 & G1 & L1 & F1 & F4 & F5).
  { rewrite len_uninit. cbv. discriminate. }
  unfold bind at 1. rewrite E1. rewrite len_uninit in L1.
  change (Z.of_nat (Z.to_nat MAX_PACKET_SIZE)) with 260 in L1.
  assert (Hh : 0 <= header_length mb <= 6 /\
               header_length mb + checksum_size mb <= 6).
  { destruct (initialised_cases mb Hmb) as [(_ & -> & ->) | (_ & -> & ->)];
      lia. }
  unfold store8.
  destruct (store_ok q (header_length mb + 6) (u8 bc) ltac:(lia))
    as [q1 Es].
  pose proof (store_len _ _ _ _ Es) as Ls.
  unfold bind at 1, lift. rewrite Es.
  destruct (force_multiple_coils_loop_ok (Z.to_nat bc) n data_src q1
              (header_length mb + 6 + 1) 0 0 ltac:(lia) Hsrc ltac:(lia)
              ltac:(lia)) as (q2 & El & Ll & Kl).
  unfold bind at 1. rewrite El.
  destruct (modbus_send_frame mb q2
              (header_length mb + 6 + 1 + Z.of_nat (Z.to_nat bc)) w1 Hmb
              ltac:(lia) ltac:(lia))
    as (r & q' & w2 & frame & E2 & T2 & G2 & L2 & K2).
  unfold bind at 1. rewrite E2.
  exists frame. split.
  - rewrite <- T1, <- T2.
    destruct (r >? 0); [apply keeps_preset_response | reflexivity].
  - apply quantity_field_of_bytes; rewrite K2 by lia; rewrite Kl by lia;
      rewrite (store_load_other _ _ _ _ _ Es) by lia; assumption.
Qed.

End Clamping.

(** C7.  The master caps a quantity before it builds the request, and
    leaves a quantity that does not exceed the cap alone:
    [read_holding_registers] and [read_input_registers] at 125,
    [preset_multiple_registers] at 123, [force_multiple_coils] at 1968.
    Each call hands exactly one frame to the transport and its quantity
    field holds the capped count; a call of [read_holding_registers] with
    count 200 sends one request for 125 registers.  The two writes read
    the caller's values, so their source array must hold as many as are
    sent. *)
Theorem master_clamps_quantities {hdr : modbus_h} (mb : modbus_param_t)
    (slave start_addr count : Z) (w : world) :
  initialised mb ->
  (forall data_dest, exists frame,
      writes (trace (snd (read_holding_registers mb slave start_addr count
                            data_dest w)))
      = writes (trace w) ++ [frame]
      /\ quantity_field mb frame = Some (clamped 125 count))
  /\ (forall data_dest, exists frame,
      writes (trace (snd (read_input_registers mb slave start_addr count
                            data_dest w)))
      = writes (trace w) ++ [frame]
      /\ quantity_field mb frame = Some (clamped 125 count))
  /\ (forall data_src,
      (if count >? 123 then 123 else count) <= len data_src ->
      exists frame,
        writes (trace (snd (preset_multiple_registers mb slave start_addr
                              count data_src w)))
        = writes (trace w) ++ [frame]
        /\ quantity_field mb frame = Some (clamped 123 count))
  /\ (forall data_src,
      (if count >? 1968 then 1968 else count) <= len data_src ->
      exists frame,
        writes (trace (snd (force_multiple_coils mb slave start_addr
                              count data_src w)))
        = writes (trace w) ++ [frame]
        /\ quantity_field mb frame = Some (clamped 1968 count))
  /\ (forall data_dest, exists frame,
      writes (trace (snd (read_holding_registers mb slave start_addr 200
                            data_dest w)))
      = writes (trace w) ++ [frame]
      /\ quantity_field mb frame = Some 125).
Proof.
  intros Hmb.
  assert (Hread : forall function limit c data_dest, exists frame,
             writes (trace (snd (read_registers mb slave function start_addr
                                   (if c >? limit then limit else c)
                                   data_dest w)))
             = writes (trace w) ++ [frame]
             /\ quantity_field mb frame
                = Some (u16 (if c >? limit then limit else c))).
  { intros. apply read_registers_frame. exact Hmb. }
  assert (Hclamp : forall c, u16 (if c >? 125 then 125 else c)
                             = clamped 125 c).
  { intros c. unfold clamped. destruct (c >? 125); reflexivity. }
  split; [| split; [| split; [| split]]].
  - intros data_dest. rewrite <- Hclamp. apply Hread.
  - intros data_dest. rewrite <- Hclamp. apply Hread.
  - intros data_src Hsrc.
    apply preset_multiple_registers_frame; assumption.
  - intros data_src Hsrc.
    apply force_multiple_coils_frame; assumption.
  - intros data_dest.
    apply (Hread FC_READ_HOLDING_REGISTERS 125 200 data_dest).
Qed.

(** The theorem for a handle on a serial line: one request, for 125
    registers, when 200 are asked for. *)
Lemma master_clamps_quantities_witness :
  exists frame,
    writes (trace (snd (@read_holding_registers example_h modbus_init_rtu
                          0x11 0x6B 200 (repeat 0 125) (idle_world []))))
    = writes (trace (idle_world [])) ++ [frame]
    /\ quantity_field modbus_init_rtu frame = Some 125.
Proof.
  apply (@master_clamps_quantities example_h modbus_init_rtu 0x11 0x6B 0
           (idle_world [])).
  split; reflexivity.
Defined.

(** ** CRC round trip *)

Section CrcRoundTrip.

Context {hdr : modbus_h}.

Lemma load_app_r (l1 l2 : list Z) (j : Z) :
  0 <= j -> load (l1 ++ l2) (len l1 + j) = load l2 j.
Proof.
  intros Hj. unfold load, len.
  destruct (Z.ltb_spec (Z.of_nat (length l1) + j) 0); [lia |].
  destruct (Z.ltb_spec j 0); [lia |].
  rewrite nth_error_app2 by lia. f_equal. lia.
Qed.

Lemma error_treat_total (mb : modbus_param_t) (w : world) :
  fst (error_treat mb w) = Some tt.
Proof.
  unfold error_treat.
  destruct (type_com mb); [| destruct (error_handling mb)]; reflexivity.
Qed.

(** [check_crc16] on a serial line, for a buffer that starts with [s] and
    two more bytes. *)
Lemma check_crc16_rtu (mb : modbus_param_t) (s rest : list Z) (hi lo : Z) :
  type_com mb = RTU -> is_byte hi -> is_byte lo -> len s < 65536 ->
  check_crc16 mb (s ++ hi :: lo :: rest) (len s + 2)
  = if crc16 s (len s) =? word_of hi lo then ret 0
    else (error_treat mb ;; ret INVALID_CRC).
Proof.
  intros Ht Hhi Hlo Hs. unfold check_crc16. rewrite Ht.
  replace (len s + 2 - 2) with (len s) by lia.
  replace (len s + 2 - 1) with (len s + 1) by lia.
  rewrite crc16_app by exact Hs.
  assert (L0 : load (s ++ hi :: lo :: rest) (len s) = Some hi).
  { rewrite <- (Z.add_0_r (len s)), load_app_r by lia. reflexivity. }
  assert (L1 : load (s ++ hi :: lo :: rest) (len s + 1) = Some lo).
  { rewrite load_app_r by lia. reflexivity. }
  rewrite L0, L1. unfold lift, bind. cbv beta iota.
  rewrite lor_shiftl_byte by exact Hlo.
  rewrite u16_small by (apply word_of_range; assumption).
  destruct (crc16 s (len s) =? word_of hi lo); reflexivity.
Qed.

Lemma crc16_trailer_bytes (s : list Z) :
  is_byte (Z.shiftr (crc16 s (len s)) 8)
  /\ is_byte (Z.land (crc16 s (len s)) 255)
  /\ word_of (Z.shiftr (crc16 s (len s)) 8) (Z.land (crc16 s (len s)) 255)
     = crc16 s (len s).
Proof.
  pose proof (crc16_range s (len s)) as Hr.
  split; [apply shiftr8_byte; exact Hr |].
  split; [apply land255_byte; lia | apply word_of_split; lia].
Qed.

Lemma check_crc16_accepts (mb : modbus_param_t) (s rest : list Z) :
  type_com mb = RTU -> len s < 65536 ->
  check_crc16 mb (rtu_frame s ++ rest) (len s + 2) = ret 0.
Proof.
  intros Ht Hs. unfold rtu_frame. rewrite <- app_assoc. cbn [app].
  destruct (crc16_trailer_bytes s) as (Hhi & Hlo & Hw).
  rewrite check_crc16_rtu by assumption.
  rewrite Hw, Z.eqb_refl. reflexivity.
Qed.

(** *** Flipping a bit *)









End CrcRoundTrip.

(** *** The tables against the bitwise CRC *)

Lemma forallb_zseq (f : Z -> bool) (m : Z) :
  forallb f (zseq 0 (Z.to_nat m)) = true ->
  forall y, 0 <= y < m -> f y = true.
Proof.
  intros H y Hy. rewrite forallb_forall in H. apply H, in_zseq_Z. lia.
Qed.








Lemma upd_app (l1 l2 : list Z) (x v : Z) :
  upd (length l1) v (l1 ++ x :: l2) = Some (l1 ++ v :: l2).
Proof.
  induction l1 as [| h t IH]; [reflexivity |].
  cbn [app length upd]. rewrite IH. reflexivity.
Qed.

Lemma store_app (l1 l2 : list Z) (x v : Z) :
  store (l1 ++ x :: l2) (len l1) v = Some (l1 ++ v :: l2).
Proof.
  unfold store, len. destruct (Z.ltb_spec (Z.of_nat (length l1)) 0); [lia |].
  rewrite Nat2Z.id. apply upd_app.
Qed.



(** ** Packing and unpacking bits *)

Lemma partial_byte_next (f : Z -> bool) (byte j s : Z) :
  0 <= s < 8 ->
  partial_byte f byte j s ->
  partial_byte f (u8 (Z.lor byte (Z.shiftl (Z.b2z (f (8 * j + s))) s)))
               j (s + 1).
Proof.
  intros Hs H q Hq. unfold u8. change 256 with (2 ^ 8).
  destruct (Z.ltb_spec q 8) as [Hq8 | Hq8].
  - rewrite Z.mod_pow2_bits_low by lia. rewrite Z.lor_spec, (H q Hq).
    assert (Hbit : Z.testbit (Z.shiftl (Z.b2z (f (8 * j + s))) s) q
                   = (s =? q) && f (8 * j + s)).
    { destruct (f (8 * j + s)); cbn [Z.b2z].
      - rewrite Z.shiftl_1_l, Z.pow2_bits_eqb by lia. rewrite andb_true_r.
        reflexivity.
      - rewrite Z.shiftl_0_l, Z.bits_0, andb_false_r. reflexivity. }
    rewrite Hbit.
    destruct (Z.ltb_spec q s), (Z.eqb_spec s q), (Z.ltb_spec q (s + 1));
      try lia; cbn [andb orb]; try reflexivity.
    + rewrite orb_false_r. reflexivity.
    + subst q. reflexivity.
  - rewrite Z.mod_pow2_bits_high by lia.
    destruct (Z.ltb_spec q (s + 1)); [lia | reflexivity].
Qed.

Lemma u8_u8 (z : Z) : u8 (u8 z) = u8 z.
Proof. apply u8_byte, is_byte_u8. Qed.

Lemma response_io_status_loop_inv (f : Z -> bool) (tab : list Z)
    (a off0 : Z) (n : nat) :
  forall (j s : Z) (resp : list Z) (byte : Z),
    0 <= j -> 0 <= s < 8 -> 0 <= off0 ->
    (forall k, 0 <= k < 8 * j + s + Z.of_nat n ->
               load tab (a + k) = Some (Z.b2z (f k))) ->
    partial_byte f byte j s ->
    packed_upto f resp off0 (8 * j) ->
    off0 + (8 * j + s + Z.of_nat n + 7) / 8 <= len resp ->
    exists resp' j' s' byte',
      response_io_status_loop n (a + (8 * j + s)) tab resp (off0 + j) s byte
      = Some (resp', off0 + j', s', byte')
      /\ 8 * j' + s' = 8 * j + s + Z.of_nat n
      /\ 0 <= j' /\ 0 <= s' < 8
      /\ partial_byte f byte' j' s'
      /\ packed_upto f resp' off0 (8 * j')
      /\ len resp' = len resp.
Proof.
  induction n as [| n IH]; intros j s resp byte Hj Hs Hoff Htab Hbyte Hresp
    Hroom.
  - exists resp, j, s, byte. cbn [response_io_status_loop].
    repeat split; try assumption; lia.
  - cbn [response_io_status_loop].
    rewrite (Htab (8 * j + s)) by lia. cbn [obind].
    pose proof (partial_byte_next f byte j s Hs Hbyte) as Hnext.
    set (byte1 := u8 (Z.lor byte (Z.shiftl (Z.b2z (f (8 * j + s))) s))) in *.
    destruct (Z.eqb_spec s 7) as [-> | Hs7].
    + assert (Hin : off0 + j < len resp).
      { assert (j + 1 <= (8 * j + 7 + Z.of_nat (S n) + 7) / 8)
          by (apply Z.div_le_lower_bound; lia).
        lia. }
      unfold store8.
      destruct (store_ok resp (off0 + j) (u8 byte1) ltac:(lia)) as [r1 E1].
      rewrite E1. cbn [obind].
      pose proof (store_len _ _ _ _ E1) as L1.
      destruct (IH (j + 1) 0 r1 0) as (r' & j' & s' & b' & E & Hsum & Hj'
                                        & Hs' & Hb' & Hp' & Hl'); try lia.
      * intros k Hk. apply Htab. lia.
      * intros q Hq. rewrite Z.bits_0.
        destruct (Z.ltb_spec q 0); [lia | reflexivity].
      * intros p Hp.
        destruct (Z.ltb_spec p (8 * j)) as [Hold | Hnew].
        -- destruct (Hresp p ltac:(lia)) as (B & HB & Ht).
           exists B. split; [| exact Ht].
           rewrite (store_load_other _ _ _ _ _ E1); [exact HB |].
           assert (p / 8 < j) by (apply Z.div_lt_upper_bound; lia). lia.
        -- exists byte1.
           assert (Hd : p / 8 = j)
             by (symmetry; apply Z.div_unique with (r := p - 8 * j); lia).
           assert (Hm : p mod 8 = p - 8 * j)
             by (symmetry; apply Z.mod_unique with (q := j); lia).
           rewrite Hd, Hm. split.
           ++ subst byte1. rewrite u8_u8 in E1.
              apply (store_load_same _ _ _ _ E1).
           ++ rewrite (Hnext (p - 8 * j)) by lia.
              destruct (Z.ltb_spec (p - 8 * j) (7 + 1)); [| lia].
              cbn [andb]. f_equal. lia.
      * rewrite L1.
        replace (8 * (j + 1) + 0 + Z.of_nat n + 7)
          with (8 * j + 7 + Z.of_nat (S n) + 7) by lia. exact Hroom.
      * replace (a + (8 * j + 7) + 1) with (a + (8 * (j + 1) + 0)) by lia.
        replace (off0 + j + 1) with (off0 + (j + 1)) by lia.
        exists r', j', s', b'. rewrite E.
        repeat split; try assumption; try lia.
    + destruct (IH j (s + 1) resp byte1) as (r' & j' & s' & b' & E & Hsum
                                              & Hj' & Hs' & Hb' & Hp' & Hl');
        try assumption; try lia.
      * intros k Hk. apply Htab. lia.
      * replace (8 * j + (s + 1) + Z.of_nat n + 7)
          with (8 * j + s + Z.of_nat (S n) + 7) by lia. exact Hroom.
      * replace (a + (8 * j + s) + 1) with (a + (8 * j + (s + 1))) by lia.
        exists r', j', s', b'. rewrite E.
        repeat split; try assumption; try lia.
Qed.

Lemma land_bit (B s : Z) :
  0 <= s -> (Z.land B (Z.shiftl 1 s) =? 0) = negb (Z.testbit B s).
Proof.
  intros Hs. rewrite Z.shiftl_1_l.
  destruct (Z.testbit B s) eqn:Hb; cbn [negb].
  - apply Z.eqb_neq. intros E.
    apply (f_equal (fun x => Z.testbit x s)) in E.
    rewrite Z.land_spec, Hb, Z.pow2_bits_eqb, Z.eqb_refl, Z.bits_0 in E by lia.
    discriminate.
  - apply Z.eqb_eq, Z.bits_inj'. intros n Hn.
    rewrite Z.land_spec, Z.pow2_bits_eqb, Z.bits_0 by lia.
    destruct (Z.eqb_spec s n) as [<- | ?];
      [rewrite Hb; reflexivity | apply andb_false_r].
Qed.

Lemma set_bits_from_bytes_loop_inv (f : Z -> bool) (tab_byte : list Z)
    (address : Z) (n : nat) :
  forall (i : Z) (dest : list Z),
    0 <= address <= i ->
    (forall k, i - address <= k < i - address + Z.of_nat n ->
               exists B, load tab_byte (k / 8) = Some B
                         /\ Z.testbit B (k mod 8) = f k) ->
    i + Z.of_nat n <= len dest ->
    exists dest',
      set_bits_from_bytes_loop n i address ((i - address) mod 8) dest tab_byte
      = Some dest'
      /\ len dest' = len dest
      /\ (forall x, x < i -> load dest' x = load dest x)
      /\ (forall k, i <= k < i + Z.of_nat n ->
                    load dest' k = Some (Z.b2z (f (k - address)))).
Proof.
  induction n as [| n IH]; intros i dest Hi Hbits Hroom.
  - exists dest. cbn [set_bits_from_bytes_loop].
    repeat split; try reflexivity. intros k Hk. lia.
  - cbn [set_bits_from_bytes_loop].
    rewrite Z.quot_div_nonneg by lia.
    destruct (Hbits (i - address) ltac:(lia)) as (B & HB & Ht).
    rewrite HB. cbn [obind].
    pose proof (Z.mod_pos_bound (i - address) 8 ltac:(lia)) as Hm.
    rewrite land_bit, Ht by lia.
    assert (Hv : u8 (if negb (f (i - address)) then OFF else ON)
                 = Z.b2z (f (i - address)))
      by (destruct (f (i - address)); reflexivity).
    unfold store8. rewrite Hv.
    destruct (store_ok dest i (Z.b2z (f (i - address))) ltac:(lia))
      as [d1 E1].
    rewrite E1. cbn [obind].
    pose proof (store_len _ _ _ _ E1) as L1.
    assert (Hshift : Z.rem ((i - address) mod 8 + 1) 8
                     = (i + 1 - address) mod 8).
    { rewrite Z.rem_mod_nonneg by lia.
      rewrite Zplus_mod_idemp_l. f_equal. lia. }
    rewrite Hshift.
    destruct (IH (i + 1) d1) as (d' & E & L & Hold & Hnew); try lia.
    { intros k Hk. apply Hbits. lia. }
    exists d'. rewrite E. split; [reflexivity | split; [lia | split]].
    + intros x Hx. rewrite Hold by lia.
      apply (store_load_other _ _ _ _ _ E1). lia.
    + intros k Hk. destruct (Z.eq_dec k i) as [-> | Hne].
      * rewrite Hold by lia. apply (store_load_same _ _ _ _ E1).
      * apply Hnew. lia.
Qed.

Lemma load_map_bits (bits : list bool) (k : Z) :
  0 <= k < Z.of_nat (length bits) ->
  load (map Z.b2z bits) k = Some (Z.b2z (bit_at bits k)).
Proof.
  intros Hk. unfold load, bit_at. destruct (Z.ltb_spec k 0); [lia |].
  rewrite nth_error_map, (nth_error_nth' bits false) by lia. reflexivity.
Qed.

Lemma load_of_nat (buf : list Z) (n : nat) :
  load buf (Z.of_nat n) = nth_error buf n.
Proof. apply load_nth; lia. Qed.

Lemma load_skipn (buf : list Z) (o x : Z) :
  0 <= o -> 0 <= x -> load (skipn (Z.to_nat o) buf) x = load buf (o + x).
Proof.
  intros Ho Hx. unfold load.
  destruct (Z.ltb_spec x 0); [lia |]. destruct (Z.ltb_spec (o + x) 0); [lia |].
  rewrite nth_error_skipn. f_equal. lia.
Qed.

Lemma div8_lt_ceil (k n : Z) : 0 <= k < n -> k / 8 < ceil_div8 n.
Proof.
  intros H. unfold ceil_div8.
  apply Z.div_lt_upper_bound; [lia |].
  pose proof (Z.div_mod (n + 7) 8 ltac:(lia)).
  pose proof (Z.mod_pos_bound (n + 7) 8 ltac:(lia)). lia.
Qed.

Lemma ceil_div8_split (j s : Z) :
  0 <= s < 8 -> ceil_div8 (8 * j + s) = j + (if s =? 0 then 0 else 1).
Proof.
  intros Hs. unfold ceil_div8. symmetry.
  destruct (Z.eqb_spec s 0) as [-> | Hnz].
  - apply Z.div_unique with (r := 7); lia.
  - apply Z.div_unique with (r := s - 1); lia.
Qed.

(** What [response_io_status] leaves in the response: the bits of the
    table, eight to a byte, least significant bit first. *)
Lemma response_io_status_packed (bits : list bool) (response : list Z)
    (offset : Z) :
  Z.of_nat (length bits) < 65536 ->
  0 <= offset ->
  offset + ceil_div8 (Z.of_nat (length bits)) <= len response ->
  exists response',
    response_io_status 0 (Z.of_nat (length bits)) (map Z.b2z bits)
                       response offset
    = Some (offset + ceil_div8 (Z.of_nat (length bits)), response')
    /\ packed_upto (bit_at bits) response' offset (Z.of_nat (length bits))
    /\ len response' = len response.
Proof.
  intros HN Hoff Hroom. set (N := Z.of_nat (length bits)) in *.
  unfold response_io_status. change (u8 0) with 0.
  rewrite u16_small by lia. subst N. rewrite Nat2Z.id.
  set (N := Z.of_nat (length bits)) in *.
  destruct (response_io_status_loop_inv (bit_at bits) (map Z.b2z bits) 0
              offset (length bits) 0 0 response 0)
    as (r' & j' & s' & b' & E & Hsum & Hj' & Hs' & Hb' & Hp' & Hl');
    try lia.
  { intros k Hk. apply load_map_bits. lia. }
  { intros q Hq. rewrite Z.bits_0.
    destruct (Z.ltb_spec q 0); [lia | reflexivity]. }
  { intros p Hp. lia. }
  { exact Hroom. }
  change (0 + (8 * 0 + 0)) with 0 in E. rewrite Z.add_0_r in E.
  rewrite E. cbn [obind].
  assert (HN' : N = 8 * j' + s') by (subst N; lia).
  pose proof (ceil_div8_split j' s' Hs') as Hceil. rewrite <- HN' in Hceil.
  destruct (Z.eqb_spec s' 0) as [-> | Hnz]; cbn [negb].
  - exists r'. rewrite Hceil, Z.add_0_r.
    split; [reflexivity | split; [| exact Hl']].
    replace N with (8 * j') by lia. exact Hp'.
  - unfold store8.
    destruct (store_ok r' (offset + j') (u8 b') ltac:(lia)) as [r2 E2].
    rewrite E2. cbn [obind]. exists r2. rewrite Hceil.
    split; [f_equal; f_equal; lia | split].
    + intros p Hp.
      destruct (Z.ltb_spec p (8 * j')) as [Hold | Hnew].
      * destruct (Hp' p ltac:(lia)) as (B & HB & Ht).
        exists B. split; [| exact Ht].
        rewrite (store_load_other _ _ _ _ _ E2); [exact HB |].
        assert (p / 8 < j') by (apply Z.div_lt_upper_bound; lia). lia.
      * exists (u8 b').
        assert (Hd : p / 8 = j')
          by (symmetry; apply Z.div_unique with (r := p - 8 * j'); lia).
        assert (Hm : p mod 8 = p - 8 * j')
          by (symmetry; apply Z.mod_unique with (q := j'); lia).
        rewrite Hd, Hm. split; [apply (store_load_same _ _ _ _ E2) |].
        unfold u8. change 256 with (2 ^ 8).
        rewrite Z.mod_pow2_bits_low by lia.
        rewrite (Hb' (p - 8 * j')) by lia.
        destruct (Z.ltb_spec (p - 8 * j') s'); [| lia].
        cbn [andb]. f_equal. lia.
    + rewrite (store_len _ _ _ _ E2). exact Hl'.
Qed.

(** What [set_bits_from_bytes] makes of packed bits. *)
Lemma set_bits_from_bytes_unpacked (f : Z -> bool) (response dest : list Z)
    (offset N : Z) :
  0 <= N < 65536 -> 0 <= offset ->
  packed_upto f response offset N ->
  N <= len dest ->
  exists dest',
    set_bits_from_bytes dest 0 N
      (firstn (Z.to_nat (ceil_div8 N)) (skipn (Z.to_nat offset) response))
    = Some dest'
    /\ len dest' = len dest
    /\ forall k, 0 <= k < N -> load dest' k = Some (Z.b2z (f k)).
Proof.
  intros HN Hoff Hpacked Hroom. unfold set_bits_from_bytes.
  change (u16 0) with 0. rewrite u16_small by lia.
  destruct (set_bits_from_bytes_loop_inv f
              (firstn (Z.to_nat (ceil_div8 N))
                      (skipn (Z.to_nat offset) response))
              0 (Z.to_nat N) 0 dest)
    as (d' & E & L & _ & Hnew); try lia.
  { intros k Hk. destruct (Hpacked k ltac:(lia)) as (B & HB & Ht).
    exists B. split; [| exact Ht].
    rewrite load_firstn by (apply div8_lt_ceil; lia).
    rewrite load_skipn by (try apply Z.div_pos; lia). exact HB. }
  change ((0 - 0) mod 8) with 0 in E.
  exists d'. split; [exact E | split; [exact L |]].
  intros k Hk. rewrite Hnew by lia. f_equal. f_equal. f_equal. lia.
Qed.

(** C8.  A sequence of at most 2000 booleans, held in a coil table as ON
    and OFF, packed by [response_io_status] into ceil(N/8) bytes of a
    response and unpacked from those bytes by [set_bits_from_bytes], comes
    back as it was. *)
Theorem pack_unpack_inverse (bits : list bool) (response dest : list Z)
    (offset : Z) :
  let N := Z.of_nat (length bits) in
  N <= 2000 ->
  0 <= offset ->
  offset + ceil_div8 N <= len response ->
  N <= len dest ->
  exists response' dest',
    response_io_status 0 N (map Z.b2z bits) response offset
    = Some (offset + ceil_div8 N, response')
    /\ set_bits_from_bytes dest 0 N
         (firstn (Z.to_nat (ceil_div8 N))
                 (skipn (Z.to_nat offset) response'))
       = Some dest'
    /\ firstn (length bits) dest' = map Z.b2z bits.
Proof.
  intros N HN Hoff Hroom Hdest.
  destruct (response_io_status_packed bits response offset)
    as (r' & E & Hpacked & Hl); try (fold N; lia).
  fold N in E, Hpacked.
  destruct (set_bits_from_bytes_unpacked (bit_at bits) r' dest offset N)
    as (d' & E' & L' & Hbits); try (subst N; lia); try assumption.
  exists r', d'. split; [exact E | split; [exact E' |]].
  apply nth_error_ext. intros n.
  rewrite nth_error_firstn.
  destruct (Nat.ltb_spec n (length bits)) as [Hn | Hn].
  - rewrite <- !load_of_nat, (Hbits (Z.of_nat n)) by (subst N; lia).
    symmetry. apply load_map_bits. lia.
  - symmetry. apply nth_error_None. rewrite length_map. exact Hn.
Qed.

(** The theorem for eleven coils sent after a three-byte header. *)
Lemma pack_unpack_inverse_witness :
  let bits := [true; false; true; true; false; false; true; true;
               true; true; false] in
  exists response' dest',
    response_io_status 0 11 (map Z.b2z bits) (repeat 0 260) 3
    = Some (3 + ceil_div8 11, response')
    /\ set_bits_from_bytes (repeat 0 11) 0 11
         (firstn (Z.to_nat (ceil_div8 11)) (skipn (Z.to_nat 3) response'))
       = Some dest'
    /\ firstn (length bits) dest' = map Z.b2z bits.
Proof.
  intros bits.
  apply (pack_unpack_inverse bits (repeat 0 260) (repeat 0 11) 3);
    cbv; discriminate.
Defined.

(** ** Receiving a frame shorter than expected *)

Section Receive.

Context {hdr : modbus_h}.

Lemma error_codes_below :
  INVALID_CRC < -11 /\ COMM_TIME_OUT < -11 /\ PORT_SOCKET_FAILURE < -11
  /\ SELECT_FAILURE < -11 /\ CONNECTION_CLOSED < -11
  /\ TOO_MANY_DATAS < -11 /\ INVALID_EXCEPTION_CODE < -11.
Proof.
  pose proof error_codes_negative as H.
  repeat (apply Forall_cons_iff in H; destruct H as [? H]).
  repeat split; assumption.
Qed.

(** Bytes landing right after the part [done] of a buffer. *)
Lemma blit_app (done room data : list Z) :
  len data <= len room ->
  blit (done ++ room) (len done) data
  = Some (done ++ data ++ skipn (length data) room).
Proof.
  intros H. unfold blit. pose proof (len_nonneg done).
  destruct (Z.leb_spec 0 (len done)); [| lia].
  destruct (Z.leb_spec (len done + len data) (len (done ++ room)));
    [| rewrite len_app in *; lia].
  cbn [andb]. unfold len. rewrite Nat2Z.id.
  rewrite firstn_app, firstn_all, Nat.sub_diag. cbn [firstn].
  rewrite app_nil_r, skipn_app, skipn_all2 by lia.
  replace (length done + length data - length done)%nat
    with (length data) by lia.
  reflexivity.
Qed.

Lemma pending_chunks (chunks : list (list Z)) (rest : list io_event) :
  (length chunks <= pending (map Chunk chunks ++ rest))%nat.
Proof.
  induction chunks as [| c chunks IH]; cbn [map app pending length]; lia.
Qed.

(** One turn of the loop in its last state: a whole segment is taken
    and the frame is still short of the expected size. *)
Lemma receive_loop_turn (mb : modbus_param_t) (msg_size_computed : Z)
    (fuel : nat) (c done room : list Z) (l : list io_event) (w : world) :
  incoming w = Chunk c :: l ->
  nonempty c ->
  len done + len c < msg_size_computed ->
  len done + len c <= MAX_PACKET_SIZE ->
  len c <= len room ->
  receive_loop (S fuel) mb COMPLETE msg_size_computed
               (msg_size_computed - len done) (done ++ room)
               (len done) (len done) w
  = (r <- wait_data mb ;;
     match r with
     | Some code =>
         ret (code, done ++ c ++ skipn (length c) room, len done + len c)
     | None =>
         receive_loop fuel mb COMPLETE msg_size_computed
                      (msg_size_computed - (len done + len c))
                      (done ++ c ++ skipn (length c) room)
                      (len done + len c) (len done + len c)
     end) (set_incoming l w).
Proof.
  intros Hin Hc Hlt Hmax Hroom.
  pose proof (len_nonneg done) as Hd0.
  assert (Hc1 : 0 < len c).
  { unfold len. destruct c; [exfalso; apply Hc; reflexivity |].
    cbn [length]. lia. }
  cbn [receive_loop]. unfold bind at 1. unfold sys_read. rewrite Hin.
  destruct (Z.ltb_spec (msg_size_computed - len done) 0); [lia |].
  replace (Nat.min (Z.to_nat (msg_size_computed - len done)) (length c))
    with (length c) by (unfold len in *; lia).
  rewrite firstn_all, skipn_all, blit_app by lia.
  fold (len c).
  destruct (Z.eqb_spec (len c) (-1)); [lia |].
  destruct (Z.eqb_spec (len c) 0); [lia |].
  destruct (Z.gtb_spec (len done + len c) MAX_PACKET_SIZE); [lia |].
  destruct (Z.ltb_spec (len done + len c) msg_size_computed); [| lia].
  unfold bind at 1, lift.
  destruct (Z.gtb_spec (msg_size_computed - (len done + len c)) 0); [| lia].
  reflexivity.
Qed.

(** In the last state and short of the expected size, the loop takes the
    segments as they come and ends on the timeout that follows them. *)
Lemma receive_loop_short (mb : modbus_param_t) (msg_size_computed : Z)
    (rest : list io_event) (chunks : list (list Z)) :
  quiet rest ->
  forall (c : list Z) (fuel : nat) (done room : list Z) (w : world),
    Forall nonempty (c :: chunks) ->
    incoming w = map Chunk (c :: chunks) ++ rest ->
    len done + len (concat (c :: chunks)) < msg_size_computed ->
    len done + len (concat (c :: chunks)) <= MAX_PACKET_SIZE ->
    len (concat (c :: chunks)) <= len room ->
    (length (c :: chunks) <= fuel)%nat ->
    exists w',
      receive_loop fuel mb COMPLETE msg_size_computed
                   (msg_size_computed - len done) (done ++ room)
                   (len done) (len done) w
      = (Some (COMM_TIME_OUT,
               done ++ concat (c :: chunks)
               ++ skipn (length (concat (c :: chunks))) room,
               len done + len (concat (c :: chunks))), w').
Proof.
  intros Hquiet.
  induction chunks as [| c' chunks IH];
    intros c fuel done room w Hne Hin Hlt Hmax Hbuf Hfuel;
    (destruct fuel as [| fuel]; [cbn [length] in Hfuel; lia |]);
    inversion Hne as [| ? ? Hc Hne']; subst;
    cbn [concat map app] in *; rewrite ?len_app in *.
  - rewrite app_nil_r in *. change (len []) with 0 in *.
    rewrite (receive_loop_turn mb msg_size_computed fuel c done room rest w)
      by (try assumption; lia).
    unfold bind, wait_data. cbn [incoming set_incoming].
    rewrite Z.add_0_r.
    destruct rest as [| [] rest]; cbn in Hquiet; try contradiction;
      eexists; reflexivity.
  - pose proof (len_nonneg c') as Hc'0.
    pose proof (len_nonneg (concat chunks)) as Hcc0.
    pose proof (len_nonneg c) as Hc0.
    rewrite (receive_loop_turn mb msg_size_computed fuel c done room
               (Chunk c' :: map Chunk chunks ++ rest) w)
      by (try assumption; lia).
    unfold bind, wait_data. cbn [incoming set_incoming].
    rewrite app_assoc. rewrite <- len_app.
    assert (Hroom : len (skipn (length c) room) = len room - len c).
    { unfold len in *. rewrite length_skipn. lia. }
    edestruct (IH c' fuel (done ++ c) (skipn (length c) room)) as [w' E];
      [exact Hne' | | | | | | ].
    6: { rewrite E. cbn [concat]. eexists. f_equal. f_equal.
         f_equal; [f_equal |].
         - rewrite <- !app_assoc. f_equal. f_equal. f_equal.
           rewrite skipn_skipn, !length_app.
           f_equal. f_equal. lia.
         - rewrite !len_app. lia. }
    + cbn [incoming set_incoming map app]. reflexivity.
    + cbn [concat]. rewrite !len_app.
      lia.
    + cbn [concat]. rewrite !len_app. lia.
    + cbn [concat]. rewrite len_app. lia.
    + cbn [length] in *. lia.
Qed.

End Receive.

(** ** Exception responses *)

Section ExceptionCapture.

Context {hdr : modbus_h}.

Lemma lor_0x80 (fc : Z) : 0 <= fc < 0x80 -> 0x80 + fc = Z.lor fc 0x80.
Proof.
  intros H. apply Z.eqb_eq.
  apply (forallb_zseq (fun fc => 0x80 + fc =? Z.lor fc 0x80) 0x80);
    [vm_compute; reflexivity | exact H].
Qed.

Lemma ceil_div8_pos (q : Z) : 1 <= q -> 1 <= ceil_div8 q.
Proof.
  intros H. unfold ceil_div8. apply Z.div_le_lower_bound; lia.
Qed.

(** The response to a well-formed request is expected to be longer than an
    exception response. *)
Lemma compute_response_size_longer (mb : modbus_param_t) (query : list Z)
    (fc : Z) :
  well_formed_request mb query fc ->
  exists c,
    compute_response_size mb query = Some c
    /\ header_length mb + 3 + checksum_size mb < c.
Proof.
  intros (Hfc & Hrange & Hqty). unfold compute_response_size.
  rewrite Hfc. cbn [obind].
  change FC_READ_COIL_STATUS with 1 in *.
  change FC_READ_INPUT_STATUS with 2 in *.
  change FC_READ_HOLDING_REGISTERS with 3 in *.
  change FC_READ_INPUT_REGISTERS with 4 in *.
  change FC_READ_EXCEPTION_STATUS with 7.
  destruct (Z.eqb_spec fc 1) as [E1 | N1];
    [| destruct (Z.eqb_spec fc 2) as [E2 | N2]]; cbn [orb].
  1, 2: destruct Hqty as (hi & lo & Hhi & Hlo & Bhi & Blo & Hq);
        [subst fc; cbn [In]; auto |];
        rewrite Hhi, Hlo; cbn [obind];
        rewrite lor_shiftl_byte by exact Blo;
        pose proof (quot_rem_ceil_div8 (word_of hi lo) ltac:(lia)) as Hc;
        pose proof (ceil_div8_pos _ Hq);
        eexists; split; [reflexivity | lia].
  destruct (Z.eqb_spec fc 3) as [E3 | N3];
    [| destruct (Z.eqb_spec fc 4) as [E4 | N4]]; cbn [orb].
  1, 2: destruct Hqty as (hi & lo & Hhi & Hlo & Bhi & Blo & Hq);
        [subst fc; cbn [In]; auto |];
        rewrite Hhi, Hlo; cbn [obind];
        rewrite lor_shiftl_byte by exact Blo;
        eexists; split; [reflexivity | lia].
  destruct (fc =? 7); cbn [obind]; eexists; (split; [reflexivity | lia]).
Qed.

(** A reply that is shorter than expected: [receive_msg] reports the
    timeout, with the reply at the start of the buffer. *)
Lemma receive_msg_short (mb : modbus_param_t) (msg_size_computed : Z)
    (msg : list Z) (msg_size : Z) (chunks : list (list Z))
    (rest : list io_event) (w : world) :
  quiet rest ->
  Forall nonempty chunks ->
  concat chunks <> [] ->
  incoming w = map Chunk chunks ++ rest ->
  len (concat chunks) < msg_size_computed ->
  len (concat chunks) <= MAX_PACKET_SIZE ->
  len (concat chunks) <= len msg ->
  exists w',
    receive_msg mb msg_size_computed msg msg_size w
    = (Some (COMM_TIME_OUT,
             concat chunks ++ skipn (length (concat chunks)) msg,
             len (concat chunks)), w').
Proof.
  intros Hquiet Hne Hfr Hin Hlt Hmax Hbuf.
  destruct chunks as [| c chunks]; [exfalso; apply Hfr; reflexivity |].
  pose proof (len_nonneg (concat (c :: chunks))) as H0.
  unfold receive_msg.
  destruct (Z.eqb_spec msg_size_computed MSG_SIZE_UNDEFINED) as [E | _].
  { pose proof MSG_SIZE_UNDEFINED_sentinel. lia. }
  assert (Hwait : wait_data mb w = (Some None, w))
    by (unfold wait_data; rewrite Hin; reflexivity).
  unfold bind at 1. rewrite Hwait.
  destruct (receive_loop_short mb msg_size_computed rest chunks Hquiet c
              (S (pending (incoming w))) [] msg w Hne Hin)
    as [w' E]; try (change (len []) with 0; lia).
  { rewrite Hin. pose proof (pending_chunks (c :: chunks) rest). lia. }
  change (len []) with 0 in E. rewrite Z.sub_0_r in E.
  cbn [app] in E. rewrite Z.add_0_l in E.
  exists w'. exact E.
Qed.

(** The exception response to a well-formed request, as
    [modbus_check_response] sees it. *)
Lemma modbus_check_response_exception (mb : modbus_param_t)
    (query response : list Z)
    (fc unit k : Z) (mbap : list Z) (chunks : list (list Z))
    (rest : list io_event) (w : world) :
  initialised mb ->
  well_formed_request mb query fc ->
  0 <= k <= 0x0B ->
  len mbap = 6 ->
  len response = MAX_PACKET_SIZE ->
  concat chunks = exception_reply mb mbap unit fc k ->
  Forall nonempty chunks ->
  incoming w = map Chunk chunks ++ rest ->
  quiet rest ->
  exists response',
    fst (modbus_check_response mb query response w) = Some (- k, response').
Proof.
  intros Hmb Hwf Hk Hmbap Hresp Hreply Hne Hin Hquiet.
  destruct (compute_response_size_longer mb query fc Hwf) as (c & Ec & Hc).
  destruct Hwf as (Hfc & Hrange & _).
  pose proof error_codes_below as (_ & Hto & _).
  assert (Hframe : len (concat chunks)
                   = header_length mb + 3 + checksum_size mb
                   /\ load (concat chunks) (header_length mb + 1)
                      = Some (Z.lor fc 0x80)
                   /\ load (concat chunks) (header_length mb + 2) = Some k).
  { rewrite Hreply. unfold exception_reply.
    destruct (initialised_cases mb Hmb) as [(Ht & Hh & Hs) | (Ht & Hh & Hs)];
      rewrite Ht, Hh, Hs.
    - repeat split; reflexivity.
    - rewrite len_app, Hmbap. split; [reflexivity |].
      rewrite <- Hmbap, !load_app_r by lia. split; reflexivity. }
  destruct Hframe as (Hlen & Hl1 & Hl2).
  assert (Hh : 0 <= header_length mb /\ 0 <= checksum_size mb
               /\ header_length mb + 3 + checksum_size mb <= 9).
  { destruct (initialised_cases mb Hmb) as [(_ & -> & ->) | (_ & -> & ->)];
      lia. }
  destruct (receive_msg_short mb c response (stack_garbage w O) chunks rest w)
    as [w1 Er]; try assumption; try (unfold MAX_PACKET_SIZE in *; lia).
  { intros E. rewrite E in Hlen. change (len []) with 0 in Hlen. lia. }
  set (response' := concat chunks ++ skipn (length (concat chunks)) response)
    in *.
  assert (Hcrc : check_crc16 mb response' (len (concat chunks)) w1
                 = (Some 0, w1)).
  { subst response'.
    destruct (initialised_cases mb Hmb) as [(Ht & Hhl & Hs) | (Ht & Hhl & Hs)].
    - rewrite Hreply. unfold exception_reply. rewrite Ht.
      change (len (rtu_frame (exception_pdu unit fc k)))
        with (len (exception_pdu unit fc k) + 2).
      rewrite check_crc16_accepts; [reflexivity | exact Ht |].
      cbv. reflexivity.
    - unfold check_crc16. rewrite Ht. reflexivity. }
  unfold modbus_check_response.
  unfold bind at 1, local_int. unfold bind at 1, lift. rewrite Ec.
  unfold bind at 1. rewrite Er.
  destruct (Z.eqb_spec COMM_TIME_OUT 0); [lia |].
  rewrite Z.eqb_refl, Hlen, Z.eqb_refl. cbn [andb].
  unfold bind at 1. rewrite <- Hlen, Hcrc. cbn [Z.eqb negb].
  assert (Hr1 : load response' (header_length mb + 1) = Some (Z.lor fc 0x80)).
  { subst response'. rewrite load_app_l by lia. exact Hl1. }
  assert (Hr2 : load response' (header_length mb + 2) = Some k).
  { subst response'. rewrite load_app_l by lia. exact Hl2. }
  unfold bind at 1, lift. rewrite Hfc.
  unfold bind at 1. rewrite Hr1.
  rewrite lor_0x80, Z.eqb_refl by exact Hrange.
  unfold bind at 1. rewrite Hr2.
  destruct (Z.ltb_spec k NB_TAB_ERROR_MSG);
    [| unfold NB_TAB_ERROR_MSG in *; lia].
  unfold bind. pose proof (error_treat_total mb w1) as Het.
  destruct (error_treat mb w1) as [[[] |] w2]; cbn [fst] in Het;
    [| discriminate].
  exists response'. reflexivity.
Qed.

End ExceptionCapture.

(** Where the hypothesis on the quantity matters: a read of zero registers
    expects five bytes on a serial line, as many as the exception response
    has, so no timeout occurs and the call returns 1. *)
Remark exception_reply_to_empty_read :
  fst (@modbus_check_response example_h modbus_init_rtu
         [0x11; 0x03; 0x00; 0x6B; 0x00; 0x00; 0; 0; 0; 0; 0; 0]
         (repeat 0 260)
         (idle_world [Chunk (rtu_frame [0x11; 0x83; 0x03])]))
  = Some (1, rtu_frame [0x11; 0x83; 0x03] ++ repeat 0 255).
Proof. vm_compute. reflexivity. Qed.

(** *** A public operation end to end *)

Section PublicOperation.

Context {hdr : modbus_h}.

Lemma build_query_packet_io (mb : modbus_param_t)
    (slave function start_addr count : Z) (packet : list Z) (w : world) :
  incoming (snd (build_query_packet mb slave function start_addr count
                                    packet w)) = incoming w
  /\ write_script (snd (build_query_packet mb slave function start_addr count
                                           packet w)) = write_script w.
Proof.
  unfold build_query_packet. destruct (type_com mb); split; reflexivity.
Qed.

(** When the transport takes the whole frame, [modbus_send] returns its
    size and leaves the request where it was in the buffer. *)
Lemma modbus_send_ok (mb : modbus_param_t) (query : list Z) (query_size : Z)
    (w : world) :
  initialised mb ->
  header_length mb <= query_size ->
  query_size + checksum_size mb <= len query ->
  write_script w = [] ->
  exists query' w',
    modbus_send mb query query_size w
    = (Some (query_size + checksum_size mb, query'), w')
    /\ incoming w' = incoming w
    /\ stack_garbage w' = stack_garbage w
    /\ forall j, header_length mb <= j < query_size ->
                 load query' j = load query j.
Proof.
  intros Hmb Hlo Hhi Hws. unfold modbus_send, modbus_send_envelope.
  assert (Hfin : forall (q : list Z) (size : Z),
             0 <= size <= len q ->
             exists w',
               (write_ret <- sys_write q size ;;
                if (write_ret =? -1) || negb (write_ret =? size)
                then error_treat mb ;; ret (PORT_SOCKET_FAILURE, q)
                else ret (write_ret, q)) w = (Some (size, q), w')
               /\ incoming w' = incoming w
               /\ stack_garbage w' = stack_garbage w).
  { intros q size Hs. unfold bind at 1, sys_write.
    destruct (Z.leb_spec 0 size); [| lia].
    destruct (Z.leb_spec size (len q)); [| lia]. cbn [andb].
    rewrite Hws. rewrite Z.eqb_refl.
    destruct (Z.eqb_spec size (-1)); [lia |]. cbn [orb negb].
    eexists. split; [reflexivity | split; reflexivity]. }
  destruct (initialised_cases mb Hmb) as [(Ht & Hh & Hc) | (Ht & Hh & Hc)];
    rewrite Ht; rewrite Hh in *; rewrite Hc in *.
  - unfold store8.
    destruct (store_ok query query_size
                (u8 (Z.shiftr (crc16 query query_size) 8)) ltac:(lia))
      as [q1 E1].
    pose proof (store_len _ _ _ _ E1) as L1.
    destruct (store_ok q1 (query_size + 1)
                (u8 (Z.land (crc16 query query_size) 255)) ltac:(lia))
      as [q2 E2].
    pose proof (store_len _ _ _ _ E2) as L2.
    unfold bind at 1, lift. rewrite E1. cbn [obind]. rewrite E2. cbn [obind].
    destruct (Hfin q2 (query_size + 2) ltac:(lia)) as (w' & E & Hi & Hg).
    exists q2, w'. split; [exact E | split; [exact Hi | split; [exact Hg |]]].
    intros j Hj. rewrite (store_load_other _ _ _ j _ E2) by lia.
    apply (store_load_other _ _ _ j _ E1). lia.
  - destruct (set_packet_length_tcp_fields query query_size ltac:(lia))
      as (q1 & E1 & L1 & K1).
    unfold bind at 1, lift. rewrite E1. cbn [obind].
    destruct (Hfin q1 query_size ltac:(lia)) as (w' & E & Hi & Hg).
    exists q1, w'. rewrite Z.add_0_r.
    split; [exact E | split; [exact Hi | split; [exact Hg |]]].
    intros j Hj. apply K1. lia.
Qed.

(** The exception response to a Read Holding Registers request, seen from
    the caller of [read_holding_registers]: the call returns [- k] and
    leaves the destination as it was. *)
Corollary read_holding_registers_exception (mb : modbus_param_t)
    (slave start_addr count : Z) (data_dest : list Z) (unit k : Z)
    (mbap : list Z) (chunks : list (list Z)) (rest : list io_event)
    (w : world) :
  initialised mb ->
  1 <= count ->
  write_script w = [] ->
  0 <= k <= 0x0B ->
  len mbap = 6 ->
  concat chunks = exception_reply mb mbap unit FC_READ_HOLDING_REGISTERS k ->
  Forall nonempty chunks ->
  incoming w = map Chunk chunks ++ rest ->
  quiet rest ->
  fst (read_holding_registers mb slave start_addr count data_dest w)
  = Some (- k, data_dest).
Proof.
  intros Hmb Hcount Hws Hk Hmbap Hreply Hne Hin Hquiet.
  unfold read_holding_registers, read_registers.
  set (n := if count >? MAX_READ_HOLD_REGS then MAX_READ_HOLD_REGS
            else count).
  assert (Hn : 1 <= n <= 125).
  { subst n. unfold MAX_READ_HOLD_REGS.
    destruct (Z.gtb_spec count 125); lia. }
  assert (Hh : 0 <= header_length mb /\ 0 <= checksum_size mb
               /\ header_length mb + 6 + checksum_size mb <= 12).
  { destruct (initialised_cases mb Hmb) as [(_ & -> & ->) | (_ & -> & ->)];
      lia. }
  unfold bind at 1, local_array.
  pose proof (build_query_packet_io mb slave FC_READ_HOLDING_REGISTERS
                start_addr n
                (uninit (stack_garbage w) (Z.to_nat MIN_QUERY_SIZE)) w)
    as [Hi1 Hw1].
  destruct (build_query_packet_fields mb slave FC_READ_HOLDING_REGISTERS
              start_addr n
              (uninit (stack_garbage w) (Z.to_nat MIN_QUERY_SIZE)) w Hmb)
    as (q & w1 & E1 & T1 & G1 & L1 & F1 & F4 & F5).
  { rewrite len_uninit. cbv. discriminate. }
  rewrite E1 in Hi1, Hw1. cbn [snd] in Hi1, Hw1.
  unfold bind at 1. rewrite E1. rewrite len_uninit in L1.
  change (Z.of_nat (Z.to_nat MIN_QUERY_SIZE)) with 12 in L1.
  destruct (modbus_send_ok mb q (header_length mb + 6) w1 Hmb)
    as (q' & w2 & E2 & Hi2 & G2 & K2); try lia.
  { rewrite Hw1. exact Hws. }
  unfold bind at 1. rewrite E2.
  destruct (Z.gtb_spec (header_length mb + 6 + checksum_size mb) 0); [| lia].
  unfold read_reg_response. unfold bind at 1, local_array.
  assert (Hwf : well_formed_request mb q' FC_READ_HOLDING_REGISTERS).
  { unfold well_formed_request. rewrite !K2 by lia.
    split; [exact F1 | split; [cbv; split; congruence |]].
    intros _. exists (Z.shiftr (u16 n) 8), (Z.land (u16 n) 255).
    rewrite u16_small by lia.
    split; [rewrite F4, u16_small by lia; reflexivity |].
    split; [rewrite F5, u16_small by lia; reflexivity |].
    split; [apply shiftr8_byte; lia |].
    split; [apply land255_byte; lia |].
    rewrite word_of_split by lia. lia. }
  destruct (modbus_check_response_exception mb q'
              (uninit (stack_garbage w2) (Z.to_nat MAX_PACKET_SIZE))
              FC_READ_HOLDING_REGISTERS unit k mbap chunks rest w2 Hmb Hwf Hk
              Hmbap)
    as [response' Ex]; try assumption.
  { rewrite len_uninit. reflexivity. }
  { rewrite Hi2, Hi1. exact Hin. }
  unfold bind at 1.
  destruct (modbus_check_response mb q' _ w2) as [[[r resp] |] w3];
    cbn [fst] in Ex; [| discriminate].
  injection Ex as -> ->.
  replace (Z.to_nat (- k)) with O by lia.
  reflexivity.
Qed.

End PublicOperation.

(** ** Server dispatch *)

(** C5.  [manage_query] checks no address ("FIXME address illegal used in
    mb_mapping->tab_X").  On a map of sixteen coils, a Write Single Coil
    request for coil 16 stores outside the table and a Read Coils request
    for one coil at 16 loads outside it; neither sends an exception
    response.  A Read Holding Registers request for zero registers at
    address 100 accesses nothing and gets the ordinary response with
    function code 0x03, which is the only frame sent. *)
Theorem manage_query_no_address_check :
  forall hdr : modbus_h,
    let w := idle_world [] in
    let write_16 := [0; 1; 0; 0; 0; 6; 0x11; 0x05; 0x00; 0x10; 0xFF; 0x00] in
    let read_16 := [0; 2; 0; 0; 0; 6; 0x11; 0x01; 0x00; 0x10; 0x00; 0x01] in
    let read_100 := [0; 3; 0; 0; 0; 6; 0x11; 0x03; 0x00; 0x64; 0x00; 0x00] in
    (fst (manage_query modbus_init_tcp write_16 12 small_map w) = None
     /\ writes (trace (snd (manage_query modbus_init_tcp write_16 12
                              small_map w))) = [])
    /\ (fst (manage_query modbus_init_tcp read_16 12 small_map w) = None
        /\ writes (trace (snd (manage_query modbus_init_tcp read_16 12
                                 small_map w))) = [])
    /\ (fst (manage_query modbus_init_tcp read_100 12 small_map w)
        = Some small_map
        /\ writes (trace (snd (manage_query modbus_init_tcp read_100 12
                                 small_map w)))
           = [[0; 1; 0; 0; 0; 3; 0x11; 0x03; 0x00]]).
Proof.
  intros hdr w write_16 read_16 read_100.
  repeat split; vm_compute; reflexivity.
Qed.

(** Write Single Coil in general, for a coil that exists: the table is
    changed for the values 0xFF00 and 0x0000 only, and whatever the value
    the one frame sent carries the function code 0x05 of the request. *)
Lemma manage_query_force_single_coil {hdr : modbus_h} (mb : modbus_param_t)
    (query : list Z) (query_size : Z) (mb_mapping : modbus_mapping_t)
    (slave a_hi a_lo d_hi d_lo : Z) (w : world) :
  initialised mb ->
  load query (header_length mb) = Some slave ->
  load query (header_length mb + 1) = Some FC_FORCE_SINGLE_COIL ->
  load query (header_length mb + 2) = Some a_hi ->
  load query (header_length mb + 3) = Some a_lo ->
  load query (header_length mb + 4) = Some d_hi ->
  load query (header_length mb + 5) = Some d_lo ->
  is_byte a_hi -> is_byte a_lo -> is_byte d_hi -> is_byte d_lo ->
  word_of a_hi a_lo < len (tab_coil_status mb_mapping) ->
  header_length mb + 6 <= query_size <= len query ->
  query_size + checksum_size mb <= MAX_PACKET_SIZE ->
  exists tab frame w',
    manage_query mb query query_size mb_mapping w
    = (Some (if (word_of d_hi d_lo =? 0xFF00) || (word_of d_hi d_lo =? 0)
             then set_tab_coil_status tab mb_mapping else mb_mapping), w')
    /\ store (tab_coil_status mb_mapping) (word_of a_hi a_lo)
             (if word_of d_hi d_lo =? 0xFF00 then ON else OFF) = Some tab
    /\ writes (trace w') = writes (trace w) ++ [frame]
    /\ load frame (header_length mb + 1) = Some FC_FORCE_SINGLE_COIL.
Proof.
  intros Hmb L0 L1 L2 L3 L4 L5 Bah Bal Bdh Bdl Haddr Hqs Hmax.
  assert (Hh : 0 <= header_length mb /\ 0 <= checksum_size mb).
  { destruct (initialised_cases mb Hmb) as [(_ & -> & ->) | (_ & -> & ->)];
      lia. }
  pose proof (word_of_range a_hi a_lo Bah Bal) as Ha.
  assert (Eaddr : Z.shiftl a_hi 8 + a_lo = word_of a_hi a_lo).
  { unfold word_of. rewrite Z.shiftl_mul_pow2 by lia.
    change (2 ^ 8) with 256. lia. }
  assert (Edata : Z.shiftl d_hi 8 + d_lo = word_of d_hi d_lo).
  { unfold word_of. rewrite Z.shiftl_mul_pow2 by lia.
    change (2 ^ 8) with 256. lia. }
  destruct (store_ok (tab_coil_status mb_mapping) (word_of a_hi a_lo)
              (if word_of d_hi d_lo =? 0xFF00 then ON else OFF)
              ltac:(lia)) as [tab Etab].
  unfold manage_query.
  unfold bind at 1, lift. rewrite L0.
  unfold bind at 1. rewrite L1.
  unfold bind at 1. rewrite L2.
  unfold bind at 1. rewrite L3.
  unfold bind at 1, local_array.
  cbv beta iota zeta.
  change (FC_FORCE_SINGLE_COIL =? FC_READ_COIL_STATUS) with false.
  change (FC_FORCE_SINGLE_COIL =? FC_READ_INPUT_STATUS) with false.
  change (FC_FORCE_SINGLE_COIL =? FC_READ_HOLDING_REGISTERS) with false.
  change (FC_FORCE_SINGLE_COIL =? FC_READ_INPUT_REGISTERS) with false.
  change (FC_FORCE_SINGLE_COIL =? FC_FORCE_SINGLE_COIL) with true.
  cbv iota.
  set (response := uninit (stack_garbage w) (Z.to_nat MAX_PACKET_SIZE)).
  assert (Lr : len response = MAX_PACKET_SIZE)
    by (subst response; rewrite len_uninit; reflexivity).
  set (data := firstn (Z.to_nat query_size) query).
  assert (Ld : len data = query_size).
  { subst data. unfold len in *. rewrite length_firstn. lia. }
  assert (Eblit : blit response 0 data
                  = Some (data ++ skipn (length data) response)).
  { apply (blit_app [] response data). lia. }
  set (mapping' := if (word_of d_hi d_lo =? 0xFF00) || (word_of d_hi d_lo =? 0)
                   then set_tab_coil_status tab mb_mapping else mb_mapping).
  destruct (modbus_send_frame mb (data ++ skipn (length data) response)
              query_size w Hmb ltac:(lia))
    as (r & q' & w' & frame & Es & Tw & _ & _ & Kf).
  { rewrite len_app. unfold len at 2. rewrite length_skipn. fold (len data).
    unfold len in *. lia. }
  exists tab, frame, w'. split; [| split; [exact Etab | split; [exact Tw |]]].
  - unfold bind at 1. unfold bind at 1. unfold bind at 1, lift.
    rewrite L4, L5. cbn [obind]. rewrite Edata, Eaddr.
    unfold bind at 1, store8.
    assert (Emap : (if word_of d_hi d_lo =? 0xFF00
                    then do t <- store (tab_coil_status mb_mapping)
                                       (word_of a_hi a_lo) (u8 ON);
                         Some (set_tab_coil_status t mb_mapping)
                    else if word_of d_hi d_lo =? 0
                         then do t <- store (tab_coil_status mb_mapping)
                                            (word_of a_hi a_lo) (u8 OFF);
                              Some (set_tab_coil_status t mb_mapping)
                         else Some mb_mapping) = Some mapping').
    { subst mapping'. change (u8 ON) with ON. change (u8 OFF) with OFF.
      destruct (Z.eqb_spec (word_of d_hi d_lo) 0xFF00) as [E1 | N1];
        cbn [orb].
      - rewrite Etab. reflexivity.
      - destruct (Z.eqb_spec (word_of d_hi d_lo) 0) as [E0 | N0].
        + rewrite Etab. reflexivity.
        + reflexivity. }
    rewrite Emap. unfold bind at 1.
    destruct (Z.leb_spec 0 query_size); [| lia].
    destruct (Z.leb_spec query_size (len query)); [| lia]. cbn [andb].
    fold data. rewrite Eblit.
    unfold ret at 1. cbv beta iota. rewrite Es. reflexivity.
  - rewrite Kf by lia. rewrite load_app_l by lia.
    subst data. rewrite load_firstn by lia. exact L1.
Qed.

(** C6.  A Write Single Coil request whose value is neither 0xFF00 nor
    0x0000 (here 0x1234, for coil 3 of sixteen) leaves the coils as they
    were, and the server answers with the echo of the request, function
    code 0x05, as it does for a valid value ("FIXME Error"): no exception
    response 0x03 is sent.  The values 0xFF00 and 0x0000 set the coil to
    ON and to OFF. *)
Theorem manage_query_force_single_coil_value :
  forall hdr : modbus_h,
    let w := idle_world [] in
    let request v_hi v_lo :=
      [0; 1; 0; 0; 0; 6; 0x11; 0x05; 0x00; 0x03; v_hi; v_lo] in
    (fst (manage_query modbus_init_tcp (request 0x12 0x34) 12 small_map w)
     = Some small_map
     /\ writes (trace (snd (manage_query modbus_init_tcp (request 0x12 0x34)
                              12 small_map w)))
        = [request 0x12 0x34])
    /\ (exists m,
          fst (manage_query modbus_init_tcp (request 0xFF 0x00) 12
                            small_map w) = Some m
          /\ load (tab_coil_status m) 3 = Some ON
          /\ fst (manage_query modbus_init_tcp (request 0x00 0x00) 12 m w)
             = Some small_map).
Proof.
  intros hdr w request. split.
  - split; vm_compute; reflexivity.
  - eexists. split; [vm_compute; reflexivity |].
    split; vm_compute; reflexivity.
Qed.

(** * Further properties of the code *)

(** ** The receive loop fills the buffer from any segmentation *)

Section Fill.

Context {hdr : modbus_h}.

Lemma drop_bytes_0 (chunks : list (list Z)) : drop_bytes 0 chunks = chunks.
Proof. destruct chunks; reflexivity. Qed.

Lemma drop_bytes_concat :
  forall (chunks : list (list Z)) (n : nat),
    concat (drop_bytes n chunks) = skipn n (concat chunks).
Proof.
  induction chunks as [| c cs IH]; intros n; cbn [drop_bytes concat].
  - now rewrite skipn_nil.
  - destruct (Nat.eqb_spec n 0) as [-> | Hn]; [reflexivity |].
    destruct (Nat.leb_spec (length c) n).
    + rewrite IH, skipn_app, (skipn_all2 c) by lia. reflexivity.
    + cbn [concat]. rewrite skipn_app.
      replace (n - length c)%nat with 0%nat by lia. reflexivity.
Qed.

Lemma drop_bytes_nonempty :
  forall (chunks : list (list Z)) (n : nat),
    Forall nonempty chunks -> Forall nonempty (drop_bytes n chunks).
Proof.
  induction chunks as [| c cs IH]; intros n H; cbn [drop_bytes];
    [constructor |].
  destruct (Nat.eqb_spec n 0); [exact H |].
  inversion H; subst.
  destruct (Nat.leb_spec (length c) n).
  - apply IH; assumption.
  - constructor; [| assumption]. unfold nonempty. intros E.
    apply (f_equal (@length Z)) in E. rewrite length_skipn in E.
    cbn [length] in E. lia.
Qed.

Lemma drop_bytes_pending (rest : list io_event) :
  forall (chunks : list (list Z)) (n : nat),
    (pending (map Chunk (drop_bytes n chunks) ++ rest)
     <= pending (map Chunk chunks ++ rest))%nat.
Proof.
  induction chunks as [| c cs IH]; intros n; cbn [drop_bytes];
    [apply Nat.le_refl |].
  destruct (Nat.eqb_spec n 0); [apply Nat.le_refl |].
  destruct (Nat.leb_spec (length c) n).
  - specialize (IH (n - length c)%nat). cbn [map app pending]. lia.
  - cbn [map app pending]. rewrite length_skipn. lia.
Qed.

(** While bytes are on their way the wait reports data at once. *)
Lemma wait_data_chunks (mb : modbus_param_t) (chunks : list (list Z))
    (rest : list io_event) (w : world) :
  incoming w = map Chunk chunks ++ rest ->
  0 < len (concat chunks) ->
  wait_data mb w = (Some None, w).
Proof.
  intros Hin Hpos. destruct chunks as [| c cs].
  - cbn in Hpos. lia.
  - unfold wait_data. rewrite Hin. reflexivity.
Qed.

(** One turn that takes a whole segment and leaves the frame short of the
    expected size, whatever the state. *)
Lemma receive_loop_part (mb : modbus_param_t) (state : receive_state)
    (msg_size_computed : Z) (fuel : nat) (c done room : list Z)
    (l : list io_event) (w : world) :
  incoming w = Chunk c :: l ->
  nonempty c ->
  len done + len c < msg_size_computed ->
  len done + len c <= MAX_PACKET_SIZE ->
  len c <= len room ->
  receive_loop (S fuel) mb state msg_size_computed
               (msg_size_computed - len done) (done ++ room)
               (len done) (len done) w
  = (r <- wait_data mb ;;
     match r with
     | Some code =>
         ret (code, done ++ c ++ skipn (length c) room, len done + len c)
     | None =>
         receive_loop fuel mb state msg_size_computed
                      (msg_size_computed - (len done + len c))
                      (done ++ c ++ skipn (length c) room)
                      (len done + len c) (len done + len c)
     end) (set_incoming l w).
Proof.
  intros Hin Hc Hlt Hmax Hroom.
  pose proof (len_nonneg done) as Hd0.
  assert (Hc1 : 0 < len c).
  { unfold len. destruct c; [exfalso; apply Hc; reflexivity |].
    cbn [length]. lia. }
  cbn [receive_loop]. unfold bind at 1. unfold sys_read. rewrite Hin.
  destruct (Z.ltb_spec (msg_size_computed - len done) 0); [lia |].
  replace (Nat.min (Z.to_nat (msg_size_computed - len done)) (length c))
    with (length c) by (unfold len in *; lia).
  rewrite firstn_all, skipn_all, blit_app by lia.
  fold (len c).
  destruct (Z.eqb_spec (len c) (-1)); [lia |].
  destruct (Z.eqb_spec (len c) 0); [lia |].
  destruct (Z.gtb_spec (len done + len c) MAX_PACKET_SIZE); [lia |].
  destruct (Z.ltb_spec (len done + len c) msg_size_computed); [| lia].
  unfold bind at 1, lift.
  destruct (Z.gtb_spec (msg_size_computed - (len done + len c)) 0); [| lia].
  reflexivity.
Qed.

(** The turn in which the frame reaches the expected size: no more than
    what was asked for is taken off the segment. *)
Lemma receive_loop_last (mb : modbus_param_t) (state : receive_state)
    (msg_size_computed : Z) (fuel : nat) (c done room : list Z)
    (l : list io_event) (w : world) :
  incoming w = Chunk c :: l ->
  0 < msg_size_computed - len done ->
  msg_size_computed - len done <= len c ->
  msg_size_computed <= MAX_PACKET_SIZE ->
  msg_size_computed - len done <= len room ->
  let n := Z.to_nat (msg_size_computed - len done) in
  receive_loop (S fuel) mb state msg_size_computed
               (msg_size_computed - len done) (done ++ room)
               (len done) (len done) w
  = receive_resume fuel mb state msg_size_computed
      (done ++ firstn n c ++ skipn n room)
      (set_incoming (match skipn n c with
                     | [] => l
                     | _ => Chunk (skipn n c) :: l
                     end) w).
Proof.
  intros Hin Hpos Hc Hmax Hroom n.
  pose proof (len_nonneg done) as Hd0.
  cbn [receive_loop]. unfold bind at 1. unfold sys_read. rewrite Hin.
  destruct (Z.ltb_spec (msg_size_computed - len done) 0); [lia |].
  replace (Nat.min (Z.to_nat (msg_size_computed - len done)) (length c))
    with n by (unfold len in *; lia).
  assert (Hn : length (firstn n c) = n).
  { rewrite length_firstn. unfold len in *. lia. }
  assert (Hzn : Z.of_nat n = msg_size_computed - len done) by lia.
  pose proof (blit_app done room (firstn n c)) as Hb.
  rewrite Hn in Hb. rewrite Hb by (unfold len at 1; rewrite Hn; lia).
  assert (Hl : match skipn n c with
               | [] => l
               | _ :: _ => Chunk (skipn n c) :: l
               end
               = match skipn n c with
                 | [] => l
                 | _ => Chunk (skipn n c) :: l
                 end) by (destruct (skipn n c); reflexivity).
  rewrite Hzn.
  destruct (Z.eqb_spec (msg_size_computed - len done) (-1)); [lia |].
  destruct (Z.eqb_spec (msg_size_computed - len done) 0); [lia |].
  replace (len done + (msg_size_computed - len done))
    with msg_size_computed by lia.
  destruct (Z.gtb_spec msg_size_computed MAX_PACKET_SIZE); [lia |].
  rewrite Z.ltb_irrefl.
  unfold receive_resume, receive_step.
  destruct (skipn n c); reflexivity.
Qed.

(** The loop reads on, segment after segment, until the frame has the
    expected size, and takes no byte beyond it. *)
Lemma receive_loop_fill (mb : modbus_param_t) (rest : list io_event) :
  forall (chunks : list (list Z)) (fuel fuel' : nat)
         (state : receive_state) (msg_size_computed : Z)
         (done room : list Z) (w : world),
    Forall nonempty chunks ->
    incoming w = map Chunk chunks ++ rest ->
    0 < msg_size_computed - len done ->
    msg_size_computed - len done <= len (concat chunks) ->
    msg_size_computed - len done <= len room ->
    msg_size_computed <= MAX_PACKET_SIZE ->
    (pending (incoming w) < fuel)%nat ->
    let n := Z.to_nat (msg_size_computed - len done) in
    (pending (map Chunk (drop_bytes n chunks) ++ rest) < fuel')%nat ->
    receive_loop fuel mb state msg_size_computed
                 (msg_size_computed - len done) (done ++ room)
                 (len done) (len done) w
    = receive_resume fuel' mb state msg_size_computed
        (done ++ firstn n (concat chunks) ++ skipn n room)
        (set_incoming (map Chunk (drop_bytes n chunks) ++ rest) w).
Proof.
  induction chunks as [| c cs IH];
    intros fuel fuel' state msc done room w Hne Hin Hpos Havail Hroom Hmax
           Hfuel n Hfuel'.
  - cbn in Havail. lia.
  - inversion Hne as [| ? ? Hc Hne']; subst.
    destruct fuel as [| fuel]; [lia |].
    pose proof (len_nonneg done) as Hd0.
    pose proof (len_nonneg c) as Hc0.
    cbn [concat map app] in *. rewrite len_app in Havail.
    assert (Hn0 : n <> 0%nat) by lia.
    destruct (Z.ltb_spec (len c) (msc - len done)) as [Hlt | Hge].
    + (* the segment is taken whole and the frame is still short *)
      rewrite (receive_loop_part mb state msc fuel c done room
                 (map Chunk cs ++ rest) w) by (try assumption; lia).
      unfold bind.
      rewrite (wait_data_chunks mb cs rest) by (first [reflexivity | lia]).
      assert (Hroom' : len (skipn (length c) room) = len room - len c).
      { unfold len in *. rewrite length_skipn. lia. }
      assert (Hdrop : drop_bytes n (c :: cs) = drop_bytes (n - length c) cs).
      { cbn [drop_bytes].
        destruct (Nat.eqb_spec n 0); [lia |].
        destruct (Nat.leb_spec (length c) n); [| unfold len in *; lia].
        reflexivity. }
      rewrite Hdrop in *.
      pose proof (IH fuel fuel' state msc (done ++ c)
                    (skipn (length c) room)
                    (set_incoming (map Chunk cs ++ rest) w) Hne' eq_refl)
        as IH'.
      rewrite len_app in IH'.
      replace (Z.to_nat (msc - (len done + len c)))
        with (n - length c)%nat in IH' by (unfold len in *; lia).
      rewrite Hin in Hfuel. cbn [pending incoming set_incoming] in *.
      rewrite app_assoc.
      rewrite IH' by (try assumption; lia).
      f_equal.
      rewrite <- app_assoc. f_equal.
      rewrite firstn_app, (firstn_all2 c), skipn_skipn
        by (unfold len in *; lia).
      rewrite <- app_assoc. f_equal. f_equal. f_equal.
      unfold len in *; lia.
    + (* the frame is completed inside this segment *)
      rewrite (receive_loop_last mb state msc fuel c done room
                 (map Chunk cs ++ rest) w) by (try assumption; lia).
      fold n.
      assert (Hfirst : firstn n (c ++ concat cs) = firstn n c).
      { rewrite firstn_app.
        replace (n - length c)%nat with 0%nat by (unfold len in *; lia).
        cbn [firstn]. apply app_nil_r. }
      rewrite Hfirst.
      assert (Hdrop : map Chunk (drop_bytes n (c :: cs)) ++ rest
                      = match skipn n c with
                        | [] => map Chunk cs ++ rest
                        | _ => Chunk (skipn n c) :: map Chunk cs ++ rest
                        end).
      { cbn [drop_bytes].
        destruct (Nat.eqb_spec n 0); [lia |].
        destruct (Nat.leb_spec (length c) n) as [Hle | Hgt].
        - replace (n - length c)%nat with 0%nat by (unfold len in *; lia).
          rewrite drop_bytes_0, skipn_all2 by lia. reflexivity.
        - pose proof (length_skipn n c) as Hs.
          destruct (skipn n c) eqn:Es; [cbn [length] in Hs; lia |].
          reflexivity. }
      rewrite <- Hdrop.
      unfold receive_resume.
      apply bind_ext_on. intros [[st' msc'] str'] w1 El.
      assert (w1 = set_incoming (map Chunk (drop_bytes n (c :: cs)) ++ rest)
                                w)
        by (unfold lift in El; congruence).
      subst w1.
      destruct (str' >? 0); [| reflexivity].
      apply bind_ext_on. intros [code |] w2 Ew; [reflexivity |].
      apply wait_data_pending in Ew. subst w2.
      apply receive_loop_fuel; cbn [incoming set_incoming]; [| assumption].
      pose proof (drop_bytes_pending rest (c :: cs) n) as Hp.
      rewrite Hdrop in *. rewrite Hin in Hfuel. cbn [map app pending] in *.
      pose proof (length_skipn n c) as Hs.
      destruct (skipn n c) eqn:Es; cbn [pending length] in *; lia.
Qed.

End Fill.

(** ** What the receive loop returns, whatever arrives *)

Section ReceiveTotal.

Context {hdr : modbus_h}.

Lemma blit_ok (buf data : list Z) (pos : Z) :
  0 <= pos -> pos + len data <= len buf ->
  exists buf', blit buf pos data = Some buf' /\ len buf' = len buf.
Proof.
  intros H0 H1. unfold blit.
  destruct (Z.leb_spec 0 pos); [| lia].
  destruct (Z.leb_spec (pos + len data) (len buf)); [| lia].
  cbn [andb]. eexists; split; [reflexivity |].
  unfold len in *. rewrite !length_app, length_firstn, length_skipn. lia.
Qed.

(** A read that stays inside the buffer brings an error, nothing, or at
    most what was asked for. *)
Lemma sys_read_cases (msg : list Z) (p_msg size_to_read : Z) (w : world) :
  0 < size_to_read -> 0 <= p_msg -> p_msg + size_to_read <= len msg ->
  exists read_ret msg' w',
    sys_read msg p_msg size_to_read w = (Some (read_ret, msg'), w')
    /\ len msg' = len msg
    /\ (read_ret = -1 \/ read_ret = 0 \/ 0 < read_ret <= size_to_read).
Proof.
  intros Hs Hp Hfit. unfold sys_read.
  destruct (incoming w) as [| [data | | | |] rest];
    try (do 3 eexists; split; [reflexivity | split; [reflexivity | lia]]).
  destruct (Z.ltb_spec size_to_read 0); [lia |].
  remember (Nat.min (Z.to_nat size_to_read) (length data)) as n eqn:Hn.
  destruct (blit_ok msg (firstn n data) p_msg) as (msg' & E & L);
    [lia | unfold len in *; rewrite length_firstn; lia |].
  rewrite E. do 3 eexists. split; [reflexivity |]. split; [exact L |]. lia.
Qed.

Lemma wait_data_cases (mb : modbus_param_t) (w : world) :
  exists r w',
    wait_data mb w = (Some r, w')
    /\ (r = None -> w' = w)
    /\ (forall code, r = Some code ->
                     code = COMM_TIME_OUT \/ code = SELECT_FAILURE).
Proof.
  unfold wait_data.
  destruct (incoming w) as [| [data | | | |] rest].
  6: { unfold bind, ret.
       pose proof (error_treat_total mb (set_incoming rest w)) as Ht.
       destruct (error_treat mb (set_incoming rest w)) as [[[] |] w1];
         [| discriminate].
       do 2 eexists; split; [reflexivity |]; split; [discriminate |].
       intros code [= <-]; auto. }
  all: do 2 eexists; split; [reflexivity |];
    split; [intros; first [reflexivity | discriminate] |];
    intros code E; first [discriminate E | injection E as <-; auto].
Qed.

Lemma error_then_ret (A : Type) (mb : modbus_param_t) (a : A) (w : world) :
  exists w', (error_treat mb ;; ret a) w = (Some a, w').
Proof.
  unfold bind, ret. pose proof (error_treat_total mb w) as Ht.
  destruct (error_treat mb w) as [[[] |] w1]; [| discriminate].
  eexists. reflexivity.
Qed.

Lemma receive_codes_nonzero (code : Z) :
  In code [PORT_SOCKET_FAILURE; CONNECTION_CLOSED; TOO_MANY_DATAS;
           COMM_TIME_OUT; SELECT_FAILURE] ->
  In code receive_codes /\ code <> 0.
Proof.
  intros H. pose proof error_codes_below. split.
  - right. exact H.
  - cbn [In] in H. intuition lia.
Qed.

(** The loop never leaves the buffer and never ends without a result; a
    result of 0 comes with a frame of the size the loop had come to
    expect. *)
Lemma receive_loop_total (mb : modbus_param_t) (cap : Z) :
  forall (fuel : nat) (state : receive_state)
         (msg_size_computed size_to_read : Z) (msg : list Z) (msg_size : Z)
         (w : world),
    (pending (incoming w) < fuel)%nat ->
    0 <= msg_size ->
    size_to_read = msg_size_computed - msg_size ->
    0 < size_to_read ->
    cap <= len msg ->
    match state with
    | FUNCTION => msg_size_computed = header_length mb + 2
                  /\ 0 <= header_length mb /\ request_room mb <= cap
    | BYTE => msg_size_computed <= header_length mb + 7
              /\ 0 <= header_length mb /\ request_room mb <= cap
    | COMPLETE => msg_size_computed <= cap
    end ->
    exists code msg' size' w',
      receive_loop fuel mb state msg_size_computed size_to_read msg
                   msg_size msg_size w
      = (Some (code, msg', size'), w')
      /\ len msg' = len msg
      /\ In code receive_codes
      /\ (code = 0 ->
          msg_size_computed <= size' <= MAX_PACKET_SIZE
          /\ (state = COMPLETE -> size' = msg_size_computed)).
Proof.
  unfold request_room.
  induction fuel as [| fuel IH];
    intros st msc str msg msg_size w Hfuel H0 Hstr Hpos Hcap Hst; [lia |].
  assert (Hmsc : msc <= cap) by (destruct st; lia).
  destruct (sys_read_cases msg msg_size str w) as (r & msg1 & w1 & Er & L1 & Hr);
    [lia | lia | lia |].
  cbn [receive_loop]. unfold bind at 1. rewrite Er.
  destruct (Z.eqb_spec r (-1)) as [-> | Hn1].
  { destruct (error_then_ret _ mb (PORT_SOCKET_FAILURE, msg1, msg_size) w1)
      as (w2 & E).
    rewrite E. do 4 eexists. split; [reflexivity |]. split; [exact L1 |].
    destruct (receive_codes_nonzero PORT_SOCKET_FAILURE) as [? ?];
      [cbn; auto |].
    split; [assumption | intros; contradiction]. }
  destruct (Z.eqb_spec r 0) as [-> | Hn0].
  { unfold ret. do 4 eexists. split; [reflexivity |]. split; [exact L1 |].
    destruct (receive_codes_nonzero CONNECTION_CLOSED) as [? ?];
      [cbn; auto |].
    split; [assumption | intros; contradiction]. }
  assert (Hr' : 0 < r <= str) by lia.
  pose proof (sys_read_pending _ _ _ _ _ _ _ Er Hn1 Hn0) as Hdec.
  destruct (Z.gtb_spec (msg_size + r) MAX_PACKET_SIZE) as [Hbig | Hsmall].
  { destruct (error_then_ret _ mb (TOO_MANY_DATAS, msg1, msg_size + r) w1)
      as (w2 & E).
    rewrite E. do 4 eexists. split; [reflexivity |]. split; [exact L1 |].
    destruct (receive_codes_nonzero TOO_MANY_DATAS) as [? ?];
      [cbn; auto |].
    split; [assumption | intros; contradiction]. }
  (* the wait and the next turn, common to all the branches that go on *)
  assert (Hnext :
    forall st' msc' str',
      str' = msc' - (msg_size + r) -> 0 < str' -> msc <= msc' ->
      (st = COMPLETE -> st' = COMPLETE /\ msc' = msc) ->
      match st' with
      | FUNCTION => msc' = header_length mb + 2
                    /\ 0 <= header_length mb
                    /\ header_length mb + 2 + 5 + 255 <= cap
      | BYTE => msc' <= header_length mb + 7
                /\ 0 <= header_length mb
                /\ header_length mb + 2 + 5 + 255 <= cap
      | COMPLETE => msc' <= cap
      end ->
      exists code msg' size' w',
        (r0 <- wait_data mb ;;
         match r0 with
         | Some code => ret (code, msg1, msg_size + r)
         | None => receive_loop fuel mb st' msc' str' msg1 (msg_size + r)
                                (msg_size + r)
         end) w1 = (Some (code, msg', size'), w')
        /\ len msg' = len msg
        /\ In code receive_codes
        /\ (code = 0 ->
            msc <= size' <= MAX_PACKET_SIZE
            /\ (st = COMPLETE -> size' = msc))).
  { intros st' msc' str' Hstr' Hpos' Hgrow Hkeep Hst'.
    unfold bind.
    destruct (wait_data_cases mb w1) as (rw & w2 & Ew & Hnone & Hsome).
    rewrite Ew. destruct rw as [code |].
    - unfold ret. do 4 eexists. split; [reflexivity |]. split; [exact L1 |].
      destruct (receive_codes_nonzero code) as [? ?];
        [destruct (Hsome code eq_refl) as [-> | ->]; cbn; auto 10 |].
      split; [assumption | intros; contradiction].
    - rewrite (Hnone eq_refl).
      destruct (IH st' msc' str' msg1 (msg_size + r) w1)
        as (code & msg' & size' & w' & E & L & Hin & Hz);
        [lia | lia | assumption | assumption | rewrite L1; assumption
        | assumption |].
      rewrite E. do 4 eexists. split; [reflexivity |].
      split; [congruence |]. split; [assumption |].
      intros Hc. destruct (Hz Hc) as [Hb Hs]. split; [lia |].
      intros Ec. destruct (Hkeep Ec) as [-> ->]. apply Hs. reflexivity. }
  destruct (Z.ltb_spec (msg_size + r) msc) as [Hshort | Hfull].
  { unfold bind at 1, lift.
    destruct (Z.gtb_spec (msc - (msg_size + r)) 0); [| lia].
    apply Hnext; try lia; [auto | assumption]. }
  assert (Hsize : msg_size + r = msc) by lia.
  destruct st.
  - (* FUNCTION *)
    destruct (load_ok msg1 (header_length mb + 1)) as (fc & Efc); [lia |].
    unfold bind at 1, lift. rewrite Efc. cbn [obind].
    assert (Hh : 0 <= compute_query_size_header fc <= 5).
    { unfold compute_query_size_header.
      destruct (fc <=? FC_FORCE_SINGLE_COIL); [lia |].
      destruct ((fc =? FC_FORCE_MULTIPLE_COILS)
                || (fc =? FC_PRESET_MULTIPLE_REGISTERS)); lia. }
    destruct (Z.gtb_spec (compute_query_size_header fc) 0).
    + apply Hnext; try lia. discriminate.
    + unfold ret. do 4 eexists. split; [reflexivity |]. split; [exact L1 |].
      split; [left; reflexivity |]. intros _. split; [lia | discriminate].
  - (* BYTE *)
    assert (Hd : exists d, compute_query_size_data mb msg1 = Some d
                           /\ 0 <= d <= 255).
    { unfold compute_query_size_data.
      destruct (load_ok msg1 (header_length mb + 1)) as (fc & Efc); [lia |].
      destruct (load_ok msg1 (header_length mb + 6)) as (bc & Ebc); [lia |].
      rewrite Efc. cbn [obind].
      destruct ((fc =? FC_FORCE_MULTIPLE_COILS)
                || (fc =? FC_PRESET_MULTIPLE_REGISTERS));
        [rewrite Ebc |]; cbn [obind]; eexists; (split; [reflexivity |]);
        match goal with
        | |- 0 <= u8 ?z <= 255 =>
            pose proof (is_byte_u8 z) as Hb; unfold is_byte in Hb; lia
        end. }
    destruct Hd as (d & Ed & Hd).
    unfold bind at 1, lift. rewrite Ed. cbn [obind].
    destruct (Z.gtb_spec d 0).
    + apply Hnext; try lia. discriminate.
    + unfold ret. do 4 eexists. split; [reflexivity |]. split; [exact L1 |].
      split; [left; reflexivity |]. intros _. split; [lia | discriminate].
  - (* COMPLETE *)
    unfold bind at 1, lift. cbn [Z.gtb Z.compare].
    unfold ret. do 4 eexists. split; [reflexivity |]. split; [exact L1 |].
    split; [left; reflexivity |]. intros _. split; [lia | intros _; lia].
Qed.

End ReceiveTotal.

(** ** Receiving a frame of known size *)

Section ReceiveKnown.

Context {hdr : modbus_h}.

Lemma drop_bytes_add :
  forall (chunks : list (list Z)) (a b : nat),
    drop_bytes b (drop_bytes a chunks) = drop_bytes (a + b) chunks.
Proof.
  induction chunks as [| c cs IH]; intros a b; [reflexivity |].
  cbn [drop_bytes].
  destruct (Nat.eqb_spec a 0) as [-> | Ha]; [reflexivity |].
  destruct (Nat.eqb_spec (a + b) 0); [lia |].
  destruct (Nat.leb_spec (length c) a).
  - destruct (Nat.leb_spec (length c) (a + b)); [| lia].
    rewrite IH. f_equal. lia.
  - cbn [drop_bytes]. rewrite length_skipn.
    destruct (Nat.eqb_spec b 0) as [-> | Hb].
    + destruct (Nat.leb_spec (length c) (a + 0)); [lia |].
      now rewrite Nat.add_0_r.
    + destruct (Nat.leb_spec (length c - a) b);
        destruct (Nat.leb_spec (length c) (a + b)); try lia.
      * f_equal. lia.
      * rewrite skipn_skipn. f_equal. f_equal. lia.
Qed.

Lemma firstn_add (A : Type) (a b : nat) :
  forall l : list A,
    firstn (a + b) l = firstn a l ++ firstn b (skipn a l).
Proof.
  induction a as [| a IH]; intros l; [reflexivity |].
  destruct l as [| x l]; cbn [Nat.add firstn skipn app].
  - now rewrite firstn_nil.
  - now rewrite IH.
Qed.

(** From [k] bytes to [msg_size_computed] bytes of the stream. *)
Lemma receive_loop_phase (mb : modbus_param_t) (rest : list io_event)
    (chunks : list (list Z)) (buf : list Z) (w : world) (fuel fuel' : nat)
    (state : receive_state) (k msg_size_computed : Z) :
  Forall nonempty chunks ->
  0 <= k < msg_size_computed ->
  msg_size_computed <= len (concat chunks) ->
  msg_size_computed <= len buf ->
  msg_size_computed <= MAX_PACKET_SIZE ->
  (pending (map Chunk (drop_bytes (Z.to_nat k) chunks) ++ rest) < fuel)%nat ->
  (pending (map Chunk (drop_bytes (Z.to_nat msg_size_computed) chunks)
            ++ rest) < fuel')%nat ->
  receive_loop fuel mb state msg_size_computed (msg_size_computed - k)
    (firstn (Z.to_nat k) (concat chunks) ++ skipn (Z.to_nat k) buf) k k
    (set_incoming (map Chunk (drop_bytes (Z.to_nat k) chunks) ++ rest) w)
  = receive_resume fuel' mb state msg_size_computed
      (firstn (Z.to_nat msg_size_computed) (concat chunks)
       ++ skipn (Z.to_nat msg_size_computed) buf)
      (set_incoming
         (map Chunk (drop_bytes (Z.to_nat msg_size_computed) chunks) ++ rest)
         w).
Proof.
  intros Hne Hk Havail Hbuf Hmax Hfuel Hfuel'.
  set (stream := concat chunks) in *.
  assert (Hdone : len (firstn (Z.to_nat k) stream) = k).
  { unfold len in *. rewrite length_firstn. lia. }
  assert (Hsplit : Z.to_nat msg_size_computed
                   = (Z.to_nat k + Z.to_nat (msg_size_computed - k))%nat)
    by lia.
  pose proof (receive_loop_fill mb rest (drop_bytes (Z.to_nat k) chunks)
                fuel fuel' state msg_size_computed
                (firstn (Z.to_nat k) stream) (skipn (Z.to_nat k) buf)
                (set_incoming
                   (map Chunk (drop_bytes (Z.to_nat k) chunks) ++ rest) w))
    as F.
  rewrite Hdone in F. cbv zeta in F.
  rewrite drop_bytes_add, drop_bytes_concat, skipn_skipn in F.
  fold stream in F.
  replace (Z.to_nat (msg_size_computed - k) + Z.to_nat k)%nat
    with (Z.to_nat msg_size_computed) in F by lia.
  rewrite <- Hsplit in F.
  replace (firstn (Z.to_nat msg_size_computed) stream)
    with (firstn (Z.to_nat k) stream
          ++ firstn (Z.to_nat (msg_size_computed - k))
                    (skipn (Z.to_nat k) stream))
    by (rewrite Hsplit; symmetry; apply firstn_add).
  rewrite <- app_assoc.
  apply F; try assumption; try lia.
  - apply drop_bytes_nonempty. assumption.
  - reflexivity.
  - unfold len in *. rewrite length_skipn. lia.
  - unfold len in *. rewrite length_skipn. lia.
Qed.

Lemma load_stream (frame extra buf : list Z) (k j : Z) :
  0 <= j < k -> k <= len frame ->
  load (firstn (Z.to_nat k) (frame ++ extra) ++ skipn (Z.to_nat k) buf) j
  = load frame j.
Proof.
  intros Hj Hk.
  rewrite firstn_app.
  replace (Z.to_nat k - length frame)%nat with 0%nat
    by (unfold len in *; lia).
  cbn [firstn]. rewrite app_nil_r.
  rewrite load_app_l
    by (unfold len in *; rewrite length_firstn; lia).
  apply load_firstn. lia.
Qed.

Lemma firstn_stream (frame extra : list Z) :
  firstn (Z.to_nat (len frame)) (frame ++ extra) = frame.
Proof.
  unfold len. rewrite Nat2Z.id, firstn_app, firstn_all, Nat.sub_diag.
  cbn [firstn]. apply app_nil_r.
Qed.

(** A frame of known size is read in full, whatever the segments it
    comes in, and no byte that follows it is taken. *)
Lemma receive_msg_known (mb : modbus_param_t) (c : Z) (buf : list Z)
    (g : Z) (chunks : list (list Z)) (rest : list io_event) (w : world) :
  0 < c <= MAX_PACKET_SIZE ->
  c <= len buf ->
  Forall nonempty chunks ->
  incoming w = map Chunk chunks ++ rest ->
  c <= len (concat chunks) ->
  receive_msg mb c buf g w
  = (Some (0, firstn (Z.to_nat c) (concat chunks) ++ skipn (Z.to_nat c) buf,
           c),
     set_incoming (map Chunk (drop_bytes (Z.to_nat c) chunks) ++ rest) w).
Proof.
  intros Hc Hbuf Hne Hin Havail.
  unfold receive_msg.
  pose proof MSG_SIZE_UNDEFINED_sentinel as Hsent.
  destruct (Z.eqb_spec c MSG_SIZE_UNDEFINED); [lia |].
  unfold bind. rewrite (wait_data_chunks mb chunks rest) by (assumption || lia).
  pose proof (receive_loop_fill mb rest chunks (S (pending (incoming w)))
                (S (pending (incoming w))) COMPLETE c [] buf w Hne Hin) as F.
  change (len (@nil Z)) with 0 in F. cbn [app] in F.
  rewrite Z.sub_0_r in F. cbv zeta in F.
  rewrite F; try lia.
  - reflexivity.
  - pose proof (drop_bytes_pending rest chunks (Z.to_nat c)) as Hp.
    rewrite Hin. lia.
Qed.

Lemma compute_query_size_header_range (fc : Z) :
  0 <= compute_query_size_header fc <= 5.
Proof.
  unfold compute_query_size_header.
  destruct (fc <=? FC_FORCE_SINGLE_COIL); [lia |].
  destruct ((fc =? FC_FORCE_MULTIPLE_COILS)
            || (fc =? FC_PRESET_MULTIPLE_REGISTERS)); lia.
Qed.

Lemma compute_query_size_data_range (mb : modbus_param_t) (msg : list Z)
    (d : Z) :
  compute_query_size_data mb msg = Some d -> 0 <= d <= 255.
Proof.
  unfold compute_query_size_data. intros E.
  destruct (load msg (header_length mb + 1)) as [fc |]; [| discriminate].
  cbn [obind] in E.
  destruct (if (fc =? FC_FORCE_MULTIPLE_COILS)
               || (fc =? FC_PRESET_MULTIPLE_REGISTERS)
            then load msg (header_length mb + 6) else Some 0) as [b |];
    [| discriminate].
  cbn [obind] in E. injection E as <-.
  pose proof (is_byte_u8 (b + checksum_size mb)) as Hb.
  unfold is_byte in Hb. lia.
Qed.

(** The size of the data only depends on the bytes read so far. *)
Lemma compute_query_size_data_prefix (mb : modbus_param_t)
    (msg frame : list Z) (fc : Z) :
  0 <= header_length mb ->
  load frame (header_length mb + 1) = Some fc ->
  (forall j, 0 <= j < header_length mb + 2 + compute_query_size_header fc ->
             load msg j = load frame j) ->
  compute_query_size_data mb msg = compute_query_size_data mb frame.
Proof.
  intros Hhl Efc Hsame. unfold compute_query_size_data.
  pose proof (compute_query_size_header_range fc) as Hh.
  rewrite (Hsame (header_length mb + 1)) by lia. rewrite Efc. cbn [obind].
  destruct ((fc =? FC_FORCE_MULTIPLE_COILS)
            || (fc =? FC_PRESET_MULTIPLE_REGISTERS)) eqn:Em; [| reflexivity].
  rewrite Hsame; [reflexivity |].
  unfold compute_query_size_header. rewrite Em.
  apply orb_true_iff in Em.
  unfold FC_FORCE_MULTIPLE_COILS, FC_PRESET_MULTIPLE_REGISTERS,
    FC_FORCE_SINGLE_COIL in *.
  destruct (Z.leb_spec fc 5); lia.
Qed.

(** A request is read in three steps, up to the function code, up to the
    end of its header and up to its end, whatever the segments it comes
    in; what follows it is left for the next call. *)
Lemma receive_msg_request (mb : modbus_param_t) (frame extra buf : list Z)
    (g fc d : Z) (chunks : list (list Z)) (rest : list io_event)
    (w : world) :
  0 <= header_length mb ->
  load frame (header_length mb + 1) = Some fc ->
  0 < compute_query_size_header fc ->
  compute_query_size_data mb frame = Some d ->
  len frame = header_length mb + 2 + compute_query_size_header fc + d ->
  len frame <= MAX_PACKET_SIZE ->
  len frame <= len buf ->
  Forall nonempty chunks ->
  concat chunks = frame ++ extra ->
  incoming w = map Chunk chunks ++ rest ->
  receive_msg mb MSG_SIZE_UNDEFINED buf g w
  = (Some (0, frame ++ skipn (length frame) buf, len frame),
     set_incoming (map Chunk (drop_bytes (length frame) chunks) ++ rest) w).
Proof.
  intros Hhl Efc Hh Ed Hlen Hmax Hbuf Hne Hcat Hin.
  pose proof (compute_query_size_data_range _ _ _ Ed) as Hd.
  pose proof (compute_query_size_header_range fc) as Hh5.
  set (h := compute_query_size_header fc) in *.
  set (hl := header_length mb) in *.
  assert (Hstream : len (concat chunks) = len frame + len extra)
    by (rewrite Hcat; apply len_app).
  pose proof (len_nonneg extra) as Hex.
  set (fuel := S (pending (incoming w))).
  assert (Hp : forall n,
             (pending (map Chunk (drop_bytes n chunks) ++ rest) < fuel)%nat).
  { intros n. pose proof (drop_bytes_pending rest chunks n).
    subst fuel. rewrite Hin. lia. }
  assert (Hwait : forall k,
             0 <= k < len frame ->
             wait_data mb (set_incoming
                             (map Chunk (drop_bytes (Z.to_nat k) chunks)
                              ++ rest) w)
             = (Some None,
                set_incoming (map Chunk (drop_bytes (Z.to_nat k) chunks)
                              ++ rest) w)).
  { intros k Hk.
    apply (wait_data_chunks mb (drop_bytes (Z.to_nat k) chunks) rest);
      [reflexivity |].
    rewrite drop_bytes_concat. unfold len in *. rewrite length_skipn. lia. }
  unfold receive_msg. rewrite Z.eqb_refl.
  unfold bind at 1.
  rewrite (wait_data_chunks mb chunks rest) by (assumption || lia).
  (* up to the function code *)
  pose proof (receive_loop_fill mb rest chunks fuel fuel FUNCTION (hl + 2)
                [] buf w Hne Hin) as F.
  change (len (@nil Z)) with 0 in F. cbn [app] in F.
  rewrite Z.sub_0_r in F. cbv zeta in F.
  fold hl. fold fuel.
  rewrite F by (try apply Hp; subst fuel; lia). clear F.
  unfold receive_resume at 1, receive_step.
  rewrite Hcat. fold hl.
  rewrite (load_stream frame extra buf (hl + 2) (hl + 1)) by lia.
  rewrite Efc. cbn [obind]. fold h.
  unfold bind at 1, lift.
  destruct (Z.gtb_spec h 0) as [_ | ?]; [| lia].
  unfold bind at 1. rewrite Hwait by lia.
  (* up to the end of the header *)
  replace h with (hl + 2 + h - (hl + 2)) at 2 by lia.
  rewrite <- Hcat.
  rewrite (receive_loop_phase mb rest chunks buf w fuel fuel BYTE (hl + 2)
             (hl + 2 + h)) by (try apply Hp; try assumption; lia).
  unfold receive_resume at 1, receive_step.
  rewrite (compute_query_size_data_prefix mb _ frame fc Hhl Efc)
    by (intros j Hj; rewrite Hcat; apply load_stream; fold hl h; lia).
  rewrite Ed. cbn [obind].
  unfold bind at 1, lift.
  assert (Hfinal : forall m,
             m = len frame ->
             firstn (Z.to_nat m) (concat chunks) ++ skipn (Z.to_nat m) buf
             = frame ++ skipn (length frame) buf).
  { intros m ->. rewrite Hcat, firstn_stream. unfold len.
    now rewrite Nat2Z.id. }
  destruct (Z.gtb_spec d 0) as [Hdpos | Hd0].
  - unfold bind at 1. rewrite Hwait by lia.
    (* up to the end of the frame *)
    replace d with (hl + 2 + h + d - (hl + 2 + h)) at 2 by lia.
    rewrite (receive_loop_phase mb rest chunks buf w fuel fuel COMPLETE
               (hl + 2 + h) (hl + 2 + h + d))
      by (try apply Hp; try assumption; lia).
    unfold receive_resume, receive_step, bind, lift, ret.
    cbn [Z.gtb Z.compare].
    rewrite Hfinal by lia.
    replace (Z.to_nat (hl + 2 + h + d)) with (length frame)
      by (unfold len in *; lia).
    rewrite Hlen. reflexivity.
  - unfold ret.
    rewrite Hfinal by lia.
    replace (Z.to_nat (hl + 2 + h)) with (length frame)
      by (unfold len in *; lia).
    replace (hl + 2 + h) with (len frame) by lia.
    reflexivity.
Qed.

End ReceiveKnown.

(** ** Properties of [receive_msg] and [modbus_listen] *)

(** X1. When at least the [c] expected bytes are on their way,
    [receive_msg] returns 0 with exactly the first [c] of them at the
    start of the buffer, whatever the segments they come in; the rest of the
    buffer is untouched and the bytes after the first [c] stay unread. *)
Theorem receive_msg_reads_expected {hdr : modbus_h} (mb : modbus_param_t) (c : Z)
    (buf : list Z) (g : Z) (chunks : list (list Z)) (rest : list io_event)
    (w : world) :
  0 < c <= MAX_PACKET_SIZE ->
  c <= len buf ->
  Forall nonempty chunks ->
  incoming w = map Chunk chunks ++ rest ->
  c <= len (concat chunks) ->
  receive_msg mb c buf g w
  = (Some (0, firstn (Z.to_nat c) (concat chunks) ++ skipn (Z.to_nat c) buf,
           c),
     set_incoming (map Chunk (drop_bytes (Z.to_nat c) chunks) ++ rest) w).
Proof. apply receive_msg_known. Qed.

Lemma receive_msg_reads_expected_witness :
  @receive_msg example_h modbus_init_rtu 5 (repeat 0 8) 0
    (idle_world [Chunk [1; 2]; Chunk [3; 4; 5; 6]; Silence])
  = (Some (0, [1; 2; 3; 4; 5; 0; 0; 0], 5),
     idle_world [Chunk [6]; Silence]).
Proof.
  apply (@receive_msg_reads_expected example_h modbus_init_rtu 5
           (repeat 0 8) 0 [[1; 2]; [3; 4; 5; 6]] [Silence]
           (idle_world [Chunk [1; 2]; Chunk [3; 4; 5; 6]; Silence])).
  - vm_compute. split; [reflexivity | discriminate].
  - vm_compute. discriminate.
  - repeat constructor; discriminate.
  - reflexivity.
  - vm_compute. discriminate.
Defined.

(** The outcome of [receive_msg] when the loop starts in a state that
    keeps it inside the buffer. *)
Lemma receive_msg_total {hdr : modbus_h} (mb : modbus_param_t) (c : Z) (buf : list Z)
    (g : Z) (w : world) :
  (if c =? MSG_SIZE_UNDEFINED
   then 0 <= header_length mb /\ request_room mb <= len buf
   else 0 < c <= len buf) ->
  exists code msg' size' w',
    receive_msg mb c buf g w = (Some (code, msg', size'), w')
    /\ len msg' = len buf
    /\ In code receive_codes
    /\ (code = 0 ->
        (if c =? MSG_SIZE_UNDEFINED then header_length mb + 2 <= size'
         else size' = c)
        /\ size' <= MAX_PACKET_SIZE).
Proof.
  intros Hc. unfold receive_msg.
  set (start := if c =? MSG_SIZE_UNDEFINED
                then (header_length mb + 2, FUNCTION) else (c, COMPLETE)).
  assert (Hstart : exists msc st, start = (msc, st)
            /\ 0 < msc
            /\ match st with
               | FUNCTION => msc = header_length mb + 2
                             /\ 0 <= header_length mb
                             /\ request_room mb <= len buf
                             /\ c = MSG_SIZE_UNDEFINED
               | BYTE => False
               | COMPLETE => msc <= len buf /\ c <> MSG_SIZE_UNDEFINED
                             /\ msc = c
               end).
  { subst start. destruct (Z.eqb_spec c MSG_SIZE_UNDEFINED).
    - do 2 eexists. split; [reflexivity |]. lia.
    - do 2 eexists. split; [reflexivity |]. lia. }
  destruct Hstart as (msc & st & -> & Hpos & Hst). cbv beta iota.
  unfold bind.
  destruct (wait_data_cases mb w) as (rw & w1 & Ew & Hnone & Hsome).
  rewrite Ew. destruct rw as [code |].
  - unfold ret. do 4 eexists. split; [reflexivity |]. split; [reflexivity |].
    destruct (receive_codes_nonzero code) as [? ?];
      [destruct (Hsome code eq_refl) as [-> | ->]; cbn; auto 10 |].
    split; [assumption | intros; contradiction].
  - rewrite (Hnone eq_refl).
    destruct (receive_loop_total mb (len buf) (S (pending (incoming w))) st
                msc msc buf 0 w)
      as (code & msg' & size' & w' & E & L & Hin & Hz);
      [lia | lia | lia | lia | lia | destruct st; tauto |].
    rewrite E. do 4 eexists. split; [reflexivity |]. split; [exact L |].
    split; [exact Hin |]. intros Hcode. destruct (Hz Hcode) as [Hb Hs].
    destruct st; try contradiction.
    + destruct Hst as (-> & _ & _ & ->).
      rewrite Z.eqb_refl. lia.
    + destruct Hst as (_ & Hne & ->).
      destruct (Z.eqb_spec c MSG_SIZE_UNDEFINED); [contradiction |].
      rewrite (Hs eq_refl). lia.
Qed.

(** X2. Whatever arrives, and whether or not anything does, [receive_msg]
    called for [c] bytes on a buffer that holds as many never writes
    outside the buffer and returns 0 or one of five error codes; it
    returns 0 only with exactly [c] bytes received, and [c] is then at most
    [MAX_PACKET_SIZE]. *)
Theorem receive_msg_outcome {hdr : modbus_h} (mb : modbus_param_t) (c : Z) (buf : list Z)
    (g : Z) (w : world) :
  0 < c <= len buf ->
  exists code msg' size' w',
    receive_msg mb c buf g w = (Some (code, msg', size'), w')
    /\ len msg' = len buf
    /\ In code receive_codes
    /\ (code = 0 -> size' = c /\ c <= MAX_PACKET_SIZE).
Proof.
  intros Hc. pose proof MSG_SIZE_UNDEFINED_sentinel as Hsent.
  destruct (receive_msg_total mb c buf g w)
    as (code & msg' & size' & w' & E & L & Hin & Hz).
  { destruct (Z.eqb_spec c MSG_SIZE_UNDEFINED); lia. }
  exists code, msg', size', w'. repeat split; try assumption.
  - destruct (Hz H) as [Hs _].
    destruct (Z.eqb_spec c MSG_SIZE_UNDEFINED); [lia | exact Hs].
  - destruct (Hz H) as [Hs Hm].
    destruct (Z.eqb_spec c MSG_SIZE_UNDEFINED); lia.
Qed.

Lemma receive_msg_outcome_witness :
  exists code msg' size' w',
    @receive_msg example_h modbus_init_tcp 9 (repeat 0 260) 0
      (idle_world [Chunk [0; 1; 0; 0]; ReadError])
    = (Some (code, msg', size'), w')
    /\ len msg' = len (repeat 0 260)
    /\ In code (@receive_codes example_h)
    /\ (code = 0 -> size' = 9 /\ 9 <= MAX_PACKET_SIZE).
Proof.
  apply (@receive_msg_outcome example_h modbus_init_tcp 9 (repeat 0 260) 0
           (idle_world [Chunk [0; 1; 0; 0]; ReadError])).
  vm_compute. split; [reflexivity | discriminate].
Defined.

(** X3. A server that listens with a buffer of [header_length + 262] bytes
    is never made to write outside it, whatever arrives: [receive_msg]
    returns 0 or one of five error codes, and 0 only with a frame of at
    least [header_length + 2] and at most [MAX_PACKET_SIZE] bytes. *)
Theorem receive_msg_request_outcome {hdr : modbus_h} (mb : modbus_param_t) (buf : list Z)
    (g : Z) (w : world) :
  0 <= header_length mb ->
  request_room mb <= len buf ->
  exists code msg' size' w',
    receive_msg mb MSG_SIZE_UNDEFINED buf g w
    = (Some (code, msg', size'), w')
    /\ len msg' = len buf
    /\ In code receive_codes
    /\ (code = 0 -> header_length mb + 2 <= size' <= MAX_PACKET_SIZE).
Proof.
  intros Hhl Hroom.
  destruct (receive_msg_total mb MSG_SIZE_UNDEFINED buf g w)
    as (code & msg' & size' & w' & E & L & Hin & Hz).
  { rewrite Z.eqb_refl. split; assumption. }
  rewrite Z.eqb_refl in Hz.
  exists code, msg', size', w'. repeat split; try assumption;
    destruct (Hz H); lia.
Qed.

Lemma receive_msg_request_outcome_witness :
  exists code msg' size' w',
    @receive_msg example_h modbus_init_tcp (@MSG_SIZE_UNDEFINED example_h)
      (repeat 0 268) 0
      (idle_world [Chunk [0; 1; 0; 0; 0; 6; 0x11; 0x10]; Eof])
    = (Some (code, msg', size'), w')
    /\ len msg' = len (repeat 0 268)
    /\ In code (@receive_codes example_h)
    /\ (code = 0 ->
        header_length modbus_init_tcp + 2 <= size' <= MAX_PACKET_SIZE).
Proof.
  apply (@receive_msg_request_outcome example_h modbus_init_tcp
           (repeat 0 268) 0
           (idle_world [Chunk [0; 1; 0; 0; 0; 6; 0x11; 0x10]; Eof])).
  - vm_compute. discriminate.
  - vm_compute. discriminate.
Defined.

(** ** Listening for a request *)

Lemma len_rtu_frame (s : list Z) : len (rtu_frame s) = len s + 2.
Proof. unfold rtu_frame. rewrite len_app. reflexivity. Qed.

Lemma load_rtu_frame (s : list Z) (j : Z) :
  j < len s -> load (rtu_frame s) j = load s j.
Proof. intros H. unfold rtu_frame. apply load_app_l. exact H. Qed.

Lemma load_mbap (mbap pdu : list Z) (j : Z) :
  len mbap = 6 -> 0 <= j -> load (mbap ++ pdu) (6 + j) = load pdu j.
Proof. intros <- Hj. apply load_app_r. exact Hj. Qed.

(** The frame on the wire holds the PDU after the header. *)
Lemma load_adu {hdr : modbus_h} (mb : modbus_param_t) (mbap pdu : list Z)
    (j : Z) :
  initialised mb -> len mbap = 6 -> 0 <= j < len pdu ->
  load (adu mb mbap pdu) (header_length mb + j) = load pdu j.
Proof.
  intros Hinit Hm Hj. unfold adu.
  destruct (initialised_cases mb Hinit) as [(-> & -> & _) | (-> & -> & _)].
  - apply load_rtu_frame. lia.
  - apply load_mbap; [assumption | lia].
Qed.

Lemma len_adu {hdr : modbus_h} (mb : modbus_param_t) (mbap pdu : list Z) :
  initialised mb -> len mbap = 6 ->
  len (adu mb mbap pdu) = header_length mb + len pdu + checksum_size mb.
Proof.
  intros Hinit Hm. unfold adu.
  destruct (initialised_cases mb Hinit) as [(-> & -> & ->) | (-> & -> & ->)].
  - rewrite len_rtu_frame. lia.
  - rewrite len_app. lia.
Qed.

(** A frame as the peer sends it passes the check of [modbus_listen] and
    of [modbus_check_response]. *)
Lemma check_crc16_adu {hdr : modbus_h} (mb : modbus_param_t)
    (mbap pdu rest : list Z) :
  initialised mb -> len mbap = 6 -> len pdu < 65536 ->
  check_crc16 mb (adu mb mbap pdu ++ rest) (len (adu mb mbap pdu)) = ret 0.
Proof.
  intros Hinit Hm Hp. unfold adu.
  destruct (initialised_cases mb Hinit) as [(E & _ & _) | (E & _ & _)];
    rewrite E.
  - rewrite len_rtu_frame. apply check_crc16_accepts; assumption.
  - unfold check_crc16. rewrite E. reflexivity.
Qed.

(** A request whose size the receive loop works out from its function
    code and byte count is accepted by [modbus_listen]. *)
Lemma modbus_listen_adu {hdr : modbus_h} (mb : modbus_param_t)
    (mbap pdu extra buf : list Z) (g fc d : Z) (chunks : list (list Z))
    (rest : list io_event) (w : world) :
  initialised mb ->
  len mbap = 6 ->
  load pdu 1 = Some fc ->
  0 < compute_query_size_header fc ->
  compute_query_size_data mb (adu mb mbap pdu) = Some d ->
  len pdu + checksum_size mb = 2 + compute_query_size_header fc + d ->
  len (adu mb mbap pdu) <= MAX_PACKET_SIZE ->
  len (adu mb mbap pdu) <= len buf ->
  Forall nonempty chunks ->
  concat chunks = adu mb mbap pdu ++ extra ->
  incoming w = map Chunk chunks ++ rest ->
  modbus_listen mb buf g w
  = (Some (0, adu mb mbap pdu ++ skipn (length (adu mb mbap pdu)) buf,
           len (adu mb mbap pdu)),
     set_incoming
       (map Chunk (drop_bytes (length (adu mb mbap pdu)) chunks) ++ rest) w).
Proof.
  intros Hinit Hm Efc Hh Ed Hlen Hmax Hbuf Hne Hcat Hin.
  pose proof (compute_query_size_header_range fc) as Hh5.
  pose proof (compute_query_size_data_range _ _ _ Ed) as Hd.
  pose proof (load_Some_range _ _ _ Efc) as Hr.
  assert (Hhl : 0 <= header_length mb).
  { destruct (initialised_cases mb Hinit) as [(_ & -> & _) | (_ & -> & _)];
      lia. }
  assert (Hcs : 0 <= checksum_size mb).
  { destruct (initialised_cases mb Hinit) as [(_ & _ & ->) | (_ & _ & ->)];
      lia. }
  unfold modbus_listen. unfold bind at 1.
  rewrite (receive_msg_request mb (adu mb mbap pdu) extra buf g fc d chunks
             rest w); try assumption.
  - rewrite Z.eqb_refl. unfold bind at 1.
    rewrite check_crc16_adu by (assumption || lia).
    reflexivity.
  - rewrite load_adu by (assumption || lia). exact Efc.
  - rewrite len_adu by assumption. lia.
Qed.

(** X4. A request for one of the function codes up to 0x05, six bytes
    after the header and closed by its CRC on a serial line, is received
    whole by [modbus_listen] whatever the segments it arrives in:
    the call returns 0, the frame is at the start of the buffer, its size
    is [header_length + 6 + checksum_size], and the bytes that follow the
    request stay unread. *)
Theorem modbus_listen_request {hdr : modbus_h} (mb : modbus_param_t)
    (mbap : list Z) (slave fc a_hi a_lo q_hi q_lo : Z)
    (extra buf : list Z) (g : Z) (chunks : list (list Z))
    (rest : list io_event) (w : world) :
  initialised mb ->
  len mbap = 6 ->
  fc <= FC_FORCE_SINGLE_COIL ->
  let frame := adu mb mbap [slave; fc; a_hi; a_lo; q_hi; q_lo] in
  len frame <= len buf ->
  Forall nonempty chunks ->
  concat chunks = frame ++ extra ->
  incoming w = map Chunk chunks ++ rest ->
  modbus_listen mb buf g w
  = (Some (0, frame ++ skipn (length frame) buf,
           header_length mb + 6 + checksum_size mb),
     set_incoming (map Chunk (drop_bytes (length frame) chunks) ++ rest) w).
Proof.
  intros Hinit Hm Hfc frame Hbuf Hne Hcat Hin. subst frame.
  set (pdu := [slave; fc; a_hi; a_lo; q_hi; q_lo]) in *.
  assert (Hh : compute_query_size_header fc = 4).
  { unfold compute_query_size_header.
    destruct (Z.leb_spec fc FC_FORCE_SINGLE_COIL); [reflexivity | lia]. }
  assert (Hlen : len (adu mb mbap pdu)
                 = header_length mb + 6 + checksum_size mb).
  { rewrite len_adu by assumption. reflexivity. }
  assert (Hcs : u8 (0 + checksum_size mb) = checksum_size mb
                /\ header_length mb + 6 + checksum_size mb <= 12).
  { destruct (initialised_cases mb Hinit) as [(_ & -> & ->) | (_ & -> & ->)];
      split; (reflexivity || lia). }
  rewrite <- Hlen.
  apply (modbus_listen_adu mb mbap pdu extra buf g fc (checksum_size mb));
    try assumption.
  - reflexivity.
  - lia.
  - unfold compute_query_size_data.
    rewrite (load_adu mb mbap pdu 1) by (assumption || (cbn; lia)).
    change (load pdu 1) with (Some fc). cbn [obind].
    unfold FC_FORCE_SINGLE_COIL, FC_FORCE_MULTIPLE_COILS,
      FC_PRESET_MULTIPLE_REGISTERS in *.
    destruct (Z.eqb_spec fc 15); [lia |].
    destruct (Z.eqb_spec fc 16); [lia |].
    cbn [orb obind]. f_equal. apply Hcs.
  - rewrite Hh. change (len pdu) with 6. lia.
  - unfold MAX_PACKET_SIZE. lia.
Qed.

Lemma modbus_listen_request_witness :
  @modbus_listen example_h modbus_init_rtu (repeat 0 260) 0
    (idle_world [Chunk [0x11; 0x03; 0x00]; Chunk [0x6B; 0x00; 0x03; 0x76];
                 Chunk [0x87; 0x11; 0x01]])
  = (Some (0, [0x11; 0x03; 0x00; 0x6B; 0x00; 0x03; 0x76; 0x87]
              ++ repeat 0 252, 8),
     idle_world [Chunk [0x11; 0x01]]).
Proof.
  apply (@modbus_listen_request example_h modbus_init_rtu [0; 0; 0; 0; 0; 0]
           0x11 0x03 0x00 0x6B 0x00 0x03 [0x11; 0x01] (repeat 0 260) 0
           [[0x11; 0x03; 0x00]; [0x6B; 0x00; 0x03; 0x76]; [0x87; 0x11; 0x01]]
           []).
  - split; reflexivity.
  - reflexivity.
  - vm_compute. discriminate.
  - vm_compute. discriminate.
  - repeat constructor; discriminate.
  - vm_compute. reflexivity.
  - reflexivity.
Defined.

(** X5. A Force Multiple Coils or Preset Multiple Registers request
    announces its size in its byte count; [modbus_listen] receives the
    header, the byte count and then exactly that many bytes (and the CRC),
    whatever the segments, and returns 0 with
    [header_length + 7 + byte count + checksum_size] as the size.  The sum of
    byte count and checksum size is kept in a byte, hence the bound on
    it. *)
Theorem modbus_listen_multiple_write {hdr : modbus_h} (mb : modbus_param_t)
    (mbap : list Z) (slave fc a_hi a_lo q_hi q_lo bc : Z)
    (data extra buf : list Z) (g : Z) (chunks : list (list Z))
    (rest : list io_event) (w : world) :
  initialised mb ->
  len mbap = 6 ->
  fc = FC_FORCE_MULTIPLE_COILS \/ fc = FC_PRESET_MULTIPLE_REGISTERS ->
  len data = bc ->
  bc + checksum_size mb <= 255 ->
  let frame :=
    adu mb mbap (slave :: fc :: a_hi :: a_lo :: q_hi :: q_lo :: bc :: data) in
  len frame <= MAX_PACKET_SIZE ->
  len frame <= len buf ->
  Forall nonempty chunks ->
  concat chunks = frame ++ extra ->
  incoming w = map Chunk chunks ++ rest ->
  modbus_listen mb buf g w
  = (Some (0, frame ++ skipn (length frame) buf,
           header_length mb + 7 + bc + checksum_size mb),
     set_incoming (map Chunk (drop_bytes (length frame) chunks) ++ rest) w).
Proof.
  intros Hinit Hm Hfc Hdata Hwrap frame Hmax Hbuf Hne Hcat Hin. subst frame.
  set (pdu := slave :: fc :: a_hi :: a_lo :: q_hi :: q_lo :: bc :: data) in *.
  pose proof (len_nonneg data) as Hd0.
  assert (Hpdu : len pdu = 7 + bc).
  { subst pdu. rewrite !len_cons. lia. }
  assert (Hh : compute_query_size_header fc = 5).
  { unfold compute_query_size_header, FC_FORCE_SINGLE_COIL,
      FC_FORCE_MULTIPLE_COILS, FC_PRESET_MULTIPLE_REGISTERS in *.
    destruct Hfc as [-> | ->]; reflexivity. }
  assert (Hlen : len (adu mb mbap pdu)
                 = header_length mb + 7 + bc + checksum_size mb).
  { rewrite len_adu by assumption. lia. }
  assert (Hcs : 0 <= checksum_size mb).
  { destruct (initialised_cases mb Hinit) as [(_ & _ & ->) | (_ & _ & ->)];
      lia. }
  rewrite <- Hlen.
  apply (modbus_listen_adu mb mbap pdu extra buf g fc
           (bc + checksum_size mb)); try assumption.
  - reflexivity.
  - lia.
  - unfold compute_query_size_data.
    rewrite (load_adu mb mbap pdu 1), (load_adu mb mbap pdu 6)
      by (assumption || lia).
    change (load pdu 1) with (Some fc). change (load pdu 6) with (Some bc).
    cbn [obind].
    replace ((fc =? FC_FORCE_MULTIPLE_COILS)
             || (fc =? FC_PRESET_MULTIPLE_REGISTERS)) with true
      by (destruct Hfc as [-> | ->]; reflexivity).
    cbn [obind]. f_equal. apply u8_byte. unfold is_byte. lia.
  - lia.
Qed.

Lemma modbus_listen_multiple_write_witness :
  @modbus_listen example_h modbus_init_tcp (repeat 0 260) 0
    (idle_world [Chunk [0; 1; 0; 0; 0; 9; 0x11; 0x10; 0x00];
                 Chunk [0x01; 0x00; 0x01; 0x02; 0x12]; Chunk [0x34; 0x77]])
  = (Some (0, [0; 1; 0; 0; 0; 9; 0x11; 0x10; 0x00; 0x01; 0x00; 0x01; 0x02;
               0x12; 0x34] ++ repeat 0 245, 15),
     idle_world [Chunk [0x77]]).
Proof.
  apply (@modbus_listen_multiple_write example_h modbus_init_tcp
           [0; 1; 0; 0; 0; 9] 0x11 0x10 0x00 0x01 0x00 0x01 2 [0x12; 0x34]
           [0x77] (repeat 0 260) 0
           [[0; 1; 0; 0; 0; 9; 0x11; 0x10; 0x00];
            [0x01; 0x00; 0x01; 0x02; 0x12]; [0x34; 0x77]] []).
  - split; reflexivity.
  - reflexivity.
  - right. reflexivity.
  - reflexivity.
  - vm_compute. discriminate.
  - vm_compute. discriminate.
  - vm_compute. discriminate.
  - repeat constructor; discriminate.
  - reflexivity.
  - reflexivity.
Defined.

(** X6. For a function code above 0x05 other than 0x0F and 0x10 (Preset
    Single Register among them) the receive loop expects nothing after the
    function code: [modbus_listen] stops after [header_length + 2] bytes.
    On a serial line it then takes the unit and function bytes for the CRC
    of an empty frame: unless both are 0xFF, which is that CRC, it
    returns [INVALID_CRC] and flushes the port, so that what had arrived
    of the rest of the request is lost.  On TCP it returns 0 for these two
    bytes and the rest of the request stays unread. *)
Theorem modbus_listen_short_header {hdr : modbus_h} (mb : modbus_param_t)
    (head : list Z) (slave fc : Z) (extra buf : list Z) (g : Z)
    (chunks : list (list Z)) (rest : list io_event) (w : world) :
  initialised mb ->
  len head = header_length mb ->
  is_byte slave -> is_byte fc ->
  FC_FORCE_SINGLE_COIL < fc ->
  fc <> FC_FORCE_MULTIPLE_COILS ->
  fc <> FC_PRESET_MULTIPLE_REGISTERS ->
  ~ (slave = 0xFF /\ fc = 0xFF) ->
  header_length mb + 2 <= len buf ->
  Forall nonempty chunks ->
  concat chunks = head ++ slave :: fc :: extra ->
  incoming w = map Chunk chunks ++ rest ->
  fst (modbus_listen mb buf g w)
  = Some (match type_com mb with RTU => INVALID_CRC | TCP => 0 end,
          head ++ slave :: fc :: skipn (length head + 2) buf,
          header_length mb + 2)
  /\ incoming (snd (modbus_listen mb buf g w))
     = match type_com mb with
       | RTU => input_after_reset w
                  (map Chunk (drop_bytes (length head + 2) chunks) ++ rest)
       | TCP => map Chunk (drop_bytes (length head + 2) chunks) ++ rest
       end.
Proof.
  intros Hinit Hhead Hs Hf Hfc H15 H16 Hff Hbuf Hne Hcat Hin.
  assert (Hh : compute_query_size_header fc = 0).
  { unfold compute_query_size_header.
    destruct (Z.leb_spec fc FC_FORCE_SINGLE_COIL); [lia |].
    destruct (Z.eqb_spec fc FC_FORCE_MULTIPLE_COILS); [contradiction |].
    destruct (Z.eqb_spec fc FC_PRESET_MULTIPLE_REGISTERS);
      [contradiction | reflexivity]. }
  pose proof (len_nonneg head) as Hh0.
  pose proof (len_nonneg extra) as He0.
  assert (Hhl6 : header_length mb <= 6).
  { destruct (initialised_cases mb Hinit) as [(_ & -> & _) | (_ & -> & _)];
      lia. }
  assert (Hcat' : concat chunks = (head ++ [slave; fc]) ++ extra)
    by (rewrite Hcat, <- app_assoc; reflexivity).
  assert (Hframe : len (head ++ [slave; fc]) = header_length mb + 2)
    by (rewrite len_app, Hhead; reflexivity).
  assert (Havail : header_length mb + 2 <= len (concat chunks))
    by (rewrite Hcat', len_app; lia).
  set (fuel := S (pending (incoming w))).
  assert (Hmsg : firstn (Z.to_nat (header_length mb + 2)) (concat chunks)
                 ++ skipn (Z.to_nat (header_length mb + 2)) buf
                 = head ++ slave :: fc :: skipn (length head + 2) buf).
  { rewrite Hcat', <- Hframe, firstn_stream, <- app_assoc.
    cbn [app]. do 3 f_equal. unfold len. rewrite Nat2Z.id, length_app.
    reflexivity. }
  assert (Efc : load (head ++ slave :: fc :: skipn (length head + 2) buf)
                     (header_length mb + 1) = Some fc).
  { rewrite <- Hhead. rewrite load_app_r by lia. reflexivity. }
  assert (Hrecv :
    receive_msg mb MSG_SIZE_UNDEFINED buf g w
    = (Some (0, head ++ slave :: fc :: skipn (length head + 2) buf,
             header_length mb + 2),
       set_incoming
         (map Chunk (drop_bytes (length head + 2) chunks) ++ rest) w)).
  { unfold receive_msg. rewrite Z.eqb_refl.
    unfold bind at 1.
    rewrite (wait_data_chunks mb chunks rest) by (assumption || lia).
    pose proof (receive_loop_fill mb rest chunks fuel fuel FUNCTION
                  (header_length mb + 2) [] buf w Hne Hin) as F.
    change (len (@nil Z)) with 0 in F. cbn [app] in F.
    rewrite Z.sub_0_r in F. cbv zeta in F.
    fold fuel.
    rewrite F; [| lia | lia | lia | unfold MAX_PACKET_SIZE; lia
               | subst fuel; lia
               | pose proof (drop_bytes_pending rest chunks
                               (Z.to_nat (header_length mb + 2)));
                 subst fuel; rewrite Hin; lia].
    rewrite Hmsg.
    replace (Z.to_nat (header_length mb + 2)) with (length head + 2)%nat
      by (unfold len in *; lia).
    unfold receive_resume, receive_step. rewrite Efc. cbn [obind].
    rewrite Hh. reflexivity. }
  assert (Hall : exists w',
             modbus_listen mb buf g w
             = (Some (match type_com mb with
                      | RTU => INVALID_CRC
                      | TCP => 0
                      end,
                      head ++ slave :: fc :: skipn (length head + 2) buf,
                      header_length mb + 2), w')
             /\ incoming w'
                = match type_com mb with
                  | RTU => input_after_reset w
                             (map Chunk (drop_bytes (length head + 2) chunks)
                              ++ rest)
                  | TCP => map Chunk (drop_bytes (length head + 2) chunks)
                           ++ rest
                  end).
  { unfold modbus_listen, bind at 1. rewrite Hrecv. cbn [Z.eqb].
    destruct (initialised_cases mb Hinit) as [(Et & El & _) | (Et & El & _)];
      rewrite Et.
    - (* serial line: the two bytes are read as the CRC of nothing *)
      assert (head = []) as ->.
      { destruct head; [reflexivity |].
        rewrite El, len_cons in Hhead. pose proof (len_nonneg head). lia. }
      rewrite El. cbn [app length Nat.add].
      change (check_crc16 mb (slave :: fc :: skipn 2 buf) (0 + 2))
        with (check_crc16 mb ([] ++ slave :: fc :: skipn 2 buf)
                          (len [] + 2)).
      unfold bind at 1.
      rewrite check_crc16_rtu by (assumption || (cbn; lia)).
      change (crc16 [] (len [])) with 65535.
      unfold is_byte, word_of in *.
      destruct (Z.eqb_spec 65535 (256 * slave + fc)); [exfalso; lia |].
      unfold bind at 1.
      pose proof (error_treat_total mb
                    (set_incoming
                       (map Chunk (drop_bytes 2 chunks) ++ rest) w)) as Ht.
      pose proof (incoming_error_treat mb
                    (set_incoming
                       (map Chunk (drop_bytes 2 chunks) ++ rest) w)) as Hi.
      rewrite Et in Hi. cbn [input_after_reset incoming set_incoming] in Hi.
      destruct (error_treat mb _) as [[[] |] w2]; [| discriminate].
      eexists. split; [reflexivity | exact Hi].
    - unfold check_crc16. rewrite Et. unfold bind, ret.
      eexists. split; reflexivity. }
  destruct Hall as (w' & E & Hi). rewrite E. split; [reflexivity | exact Hi].
Qed.

Lemma modbus_listen_short_header_witness :
  fst (@modbus_listen example_h modbus_init_rtu (repeat 0 260) 0
         (idle_world [Chunk [0x11; 0x06; 0x00; 0x01; 0x00; 0x03; 0x9A;
                             0x9B]]))
  = Some (-0x10, [0x11; 0x06] ++ repeat 0 258, 2)
  /\ incoming
       (snd (@modbus_listen example_h modbus_init_rtu (repeat 0 260) 0
               (idle_world [Chunk [0x11; 0x06; 0x00; 0x01; 0x00; 0x03; 0x9A;
                                   0x9B]])))
     = [].
Proof.
  apply (@modbus_listen_short_header example_h modbus_init_rtu [] 0x11 0x06
           [0x00; 0x01; 0x00; 0x03; 0x9A; 0x9B] (repeat 0 260) 0
           [[0x11; 0x06; 0x00; 0x01; 0x00; 0x03; 0x9A; 0x9B]] []).
  - split; reflexivity.
  - reflexivity.
  - split; vm_compute; [discriminate | reflexivity].
  - split; vm_compute; [discriminate | reflexivity].
  - reflexivity.
  - discriminate.
  - discriminate.
  - intros [_ H]. discriminate H.
  - vm_compute. discriminate.
  - repeat constructor; discriminate.
  - reflexivity.
  - reflexivity.
Defined.

(** ** A request that asks for more than the buffer holds *)

Lemma blit_out (buf data : list Z) (pos : Z) :
  len buf < pos + len data -> blit buf pos data = None.
Proof.
  intros H. unfold blit.
  destruct (Z.leb_spec (pos + len data) (len buf)); [lia |].
  now rewrite andb_false_r.
Qed.

(** When more is expected than the buffer has room for and more than that
    is on its way, a read ends up past the end of the buffer: the size is
    only compared with [MAX_PACKET_SIZE] after the read. *)
Lemma receive_loop_overflow {hdr : modbus_h} (mb : modbus_param_t)
    (rest : list io_event) :
  forall (chunks : list (list Z)) (fuel : nat) (state : receive_state)
         (msg_size_computed : Z) (done room : list Z) (w : world),
    Forall nonempty chunks ->
    incoming w = map Chunk chunks ++ rest ->
    len room < msg_size_computed - len done ->
    len room < len (concat chunks) ->
    len (done ++ room) <= MAX_PACKET_SIZE ->
    (pending (incoming w) < fuel)%nat ->
    fst (receive_loop fuel mb state msg_size_computed
                      (msg_size_computed - len done) (done ++ room)
                      (len done) (len done) w) = None.
Proof.
  induction chunks as [| c cs IH];
    intros fuel state msc done room w Hne Hin Hroom Havail Hmax Hfuel.
  - cbn in Havail. pose proof (len_nonneg room). lia.
  - inversion Hne as [| ? ? Hc Hne']; subst.
    destruct fuel as [| fuel]; [lia |].
    pose proof (len_nonneg done) as Hd0.
    pose proof (len_nonneg room) as Hr0.
    pose proof (len_nonneg c) as Hc0.
    cbn [concat map app] in *. rewrite len_app in Havail, Hmax.
    destruct (Z.leb_spec (len c) (len room)) as [Hfit | Hout].
    + (* the segment fits: the loop goes on *)
      rewrite (receive_loop_part mb state msc fuel c done room
                 (map Chunk cs ++ rest) w) by (try assumption; lia).
      unfold bind.
      rewrite (wait_data_chunks mb cs rest) by (first [reflexivity | lia]).
      rewrite app_assoc, <- len_app.
      apply IH.
      * assumption.
      * reflexivity.
      * unfold len in *. rewrite length_skipn, length_app. lia.
      * unfold len in *. rewrite length_skipn. lia.
      * unfold len in *. rewrite !length_app, length_skipn. lia.
      * rewrite Hin in Hfuel. cbn [incoming set_incoming pending] in *. lia.
    + (* the segment does not fit: the read runs past the buffer *)
      cbn [receive_loop]. unfold bind at 1. unfold sys_read. rewrite Hin.
      destruct (Z.ltb_spec (msc - len done) 0); [lia |].
      rewrite blit_out; [reflexivity |].
      rewrite len_app. unfold len in *. rewrite length_firstn. lia.
Qed.

(** The first two steps of the reception of a request. *)
Lemma receive_msg_header {hdr : modbus_h} (mb : modbus_param_t)
    (prefix extra buf : list Z) (g fc : Z) (chunks : list (list Z))
    (rest : list io_event) (w : world) :
  0 <= header_length mb ->
  load prefix (header_length mb + 1) = Some fc ->
  0 < compute_query_size_header fc ->
  len prefix = header_length mb + 2 + compute_query_size_header fc ->
  len prefix <= MAX_PACKET_SIZE ->
  len prefix <= len buf ->
  Forall nonempty chunks ->
  concat chunks = prefix ++ extra ->
  incoming w = map Chunk chunks ++ rest ->
  receive_msg mb MSG_SIZE_UNDEFINED buf g w
  = receive_resume (S (pending (incoming w))) mb BYTE (len prefix)
      (prefix ++ skipn (length prefix) buf)
      (set_incoming (map Chunk (drop_bytes (length prefix) chunks) ++ rest)
                    w).
Proof.
  intros Hhl Efc Hh Hlen Hmax Hbuf Hne Hcat Hin.
  pose proof (compute_query_size_header_range fc) as Hh5.
  set (h := compute_query_size_header fc) in *.
  set (hl := header_length mb) in *.
  assert (Hstream : len (concat chunks) = len prefix + len extra)
    by (rewrite Hcat; apply len_app).
  pose proof (len_nonneg extra) as Hex.
  set (fuel := S (pending (incoming w))).
  assert (Hp : forall n,
             (pending (map Chunk (drop_bytes n chunks) ++ rest) < fuel)%nat).
  { intros n. pose proof (drop_bytes_pending rest chunks n).
    subst fuel. rewrite Hin. lia. }
  unfold receive_msg. rewrite Z.eqb_refl.
  unfold bind at 1.
  rewrite (wait_data_chunks mb chunks rest) by (assumption || lia).
  pose proof (receive_loop_fill mb rest chunks fuel fuel FUNCTION (hl + 2)
                [] buf w Hne Hin) as F.
  change (len (@nil Z)) with 0 in F. cbn [app] in F.
  rewrite Z.sub_0_r in F. cbv zeta in F.
  fold hl. fold fuel.
  rewrite F by (try apply Hp; subst fuel; lia). clear F.
  unfold receive_resume at 1, receive_step.
  rewrite Hcat. fold hl.
  rewrite (load_stream prefix extra buf (hl + 2) (hl + 1)) by lia.
  rewrite Efc. cbn [obind]. fold h.
  unfold bind at 1, lift.
  destruct (Z.gtb_spec h 0) as [_ | ?]; [| lia].
  unfold bind at 1.
  rewrite <- Hcat.
  rewrite (wait_data_chunks mb (drop_bytes (Z.to_nat (hl + 2)) chunks) rest)
    by (first [reflexivity
              | rewrite drop_bytes_concat; unfold len in *;
                rewrite length_skipn; lia]).
  replace h with (hl + 2 + h - (hl + 2)) at 2 by lia.
  rewrite (receive_loop_phase mb rest chunks buf w fuel fuel BYTE (hl + 2)
             (hl + 2 + h)) by (try apply Hp; try assumption; lia).
  rewrite <- Hlen, Hcat, firstn_stream.
  unfold len. rewrite Nat2Z.id. reflexivity.
Qed.

(** X7. A buffer of [MAX_PACKET_SIZE] bytes is not enough for
    [modbus_listen].  When a Force Multiple Coils or Preset Multiple
    Registers request announces, with its byte count, a frame longer than
    [MAX_PACKET_SIZE] and more than [MAX_PACKET_SIZE] bytes arrive, the
    loop of [receive_msg] reads past the end of the buffer before it
    compares the size with [MAX_PACKET_SIZE]; in the embedding the call
    faults. *)
Theorem modbus_listen_overflow {hdr : modbus_h} (mb : modbus_param_t)
    (head : list Z) (slave fc a_hi a_lo q_hi q_lo bc : Z)
    (payload buf : list Z) (g : Z) (chunks : list (list Z))
    (rest : list io_event) (w : world) :
  initialised mb ->
  len head = header_length mb ->
  fc = FC_FORCE_MULTIPLE_COILS \/ fc = FC_PRESET_MULTIPLE_REGISTERS ->
  len buf = MAX_PACKET_SIZE ->
  MAX_PACKET_SIZE < header_length mb + 7 + u8 (bc + checksum_size mb) ->
  MAX_PACKET_SIZE < header_length mb + 7 + len payload ->
  Forall nonempty chunks ->
  concat chunks
  = head ++ slave :: fc :: a_hi :: a_lo :: q_hi :: q_lo :: bc :: payload ->
  incoming w = map Chunk chunks ++ rest ->
  fst (modbus_listen mb buf g w) = None.
Proof.
  intros Hinit Hhead Hfc Hbuf Hbig Hlong Hne Hcat Hin.
  set (prefix := head ++ [slave; fc; a_hi; a_lo; q_hi; q_lo; bc]).
  assert (Hcat' : concat chunks = prefix ++ payload)
    by (subst prefix; rewrite Hcat, <- app_assoc; reflexivity).
  assert (Hhl : 0 <= header_length mb <= 6).
  { destruct (initialised_cases mb Hinit) as [(_ & -> & _) | (_ & -> & _)];
      lia. }
  assert (Hh : compute_query_size_header fc = 5).
  { unfold compute_query_size_header, FC_FORCE_SINGLE_COIL,
      FC_FORCE_MULTIPLE_COILS, FC_PRESET_MULTIPLE_REGISTERS in *.
    destruct Hfc as [-> | ->]; reflexivity. }
  assert (Hlen : len prefix = header_length mb + 7).
  { subst prefix. rewrite len_app, Hhead. reflexivity. }
  assert (Efc : load prefix (header_length mb + 1) = Some fc).
  { subst prefix. rewrite <- Hhead, load_app_r by lia. reflexivity. }
  assert (Ebc : load prefix (header_length mb + 6) = Some bc).
  { subst prefix. rewrite <- Hhead, load_app_r by lia. reflexivity. }
  unfold MAX_PACKET_SIZE in *.
  unfold modbus_listen, bind at 1.
  rewrite (receive_msg_header mb prefix payload buf g fc chunks rest w)
    by (try assumption; unfold MAX_PACKET_SIZE; lia).
  set (msg := prefix ++ skipn (length prefix) buf).
  set (w1 := set_incoming _ w).
  assert (Ed : compute_query_size_data mb msg
               = Some (u8 (bc + checksum_size mb))).
  { unfold compute_query_size_data, msg.
    rewrite !load_app_l by lia. rewrite Efc, Ebc. cbn [obind].
    replace ((fc =? FC_FORCE_MULTIPLE_COILS)
             || (fc =? FC_PRESET_MULTIPLE_REGISTERS)) with true
      by (destruct Hfc as [-> | ->]; reflexivity).
    reflexivity. }
  unfold receive_resume, receive_step. rewrite Ed. cbn [obind].
  unfold bind at 1, lift.
  destruct (Z.gtb_spec (u8 (bc + checksum_size mb)) 0); [| lia].
  unfold bind at 1.
  assert (Hlast : len (skipn (length prefix) buf) = 253 - header_length mb).
  { unfold len in *. rewrite length_skipn. lia. }
  rewrite (wait_data_chunks mb (drop_bytes (length prefix) chunks) rest)
    by (first [reflexivity
              | rewrite drop_bytes_concat, Hcat'; unfold len in *;
                rewrite length_skipn, length_app; lia]).
  assert (O : fst (receive_loop (S (pending (incoming w))) mb COMPLETE
                     (len prefix + u8 (bc + checksum_size mb))
                     (len prefix + u8 (bc + checksum_size mb) - len prefix)
                     (prefix ++ skipn (length prefix) buf)
                     (len prefix) (len prefix) w1) = None).
  { apply (receive_loop_overflow mb rest
             (drop_bytes (length prefix) chunks)).
    - apply drop_bytes_nonempty. assumption.
    - reflexivity.
    - lia.
    - rewrite drop_bytes_concat, Hcat'. unfold len in *.
      rewrite !length_skipn, length_app. lia.
    - rewrite len_app. unfold MAX_PACKET_SIZE. lia.
    - pose proof (drop_bytes_pending rest chunks (length prefix)).
      subst w1. cbn [incoming set_incoming]. rewrite Hin. lia. }
  replace (len prefix + u8 (bc + checksum_size mb) - len prefix)
    with (u8 (bc + checksum_size mb)) in O by lia.
  fold msg in O.
  destruct (receive_loop _ mb COMPLETE _ _ msg _ _ w1) as [[res |] w2];
    [discriminate O | reflexivity].
Qed.

Lemma modbus_listen_overflow_witness :
  fst (@modbus_listen example_h modbus_init_tcp (repeat 0 260) 0
         (idle_world [Chunk ([0; 1; 0; 0; 0; 0xFF; 0x11; 0x10; 0x00; 0x00;
                              0x00; 0x7C; 0xF8] ++ repeat 0x55 248)]))
  = None.
Proof.
  apply (@modbus_listen_overflow example_h modbus_init_tcp
           [0; 1; 0; 0; 0; 0xFF] 0x11 0x10 0x00 0x00 0x00 0x7C 0xF8
           (repeat 0x55 248) (repeat 0 260) 0
           [[0; 1; 0; 0; 0; 0xFF; 0x11; 0x10; 0x00; 0x00; 0x00; 0x7C; 0xF8]
            ++ repeat 0x55 248] []).
  - split; reflexivity.
  - reflexivity.
  - right. reflexivity.
  - reflexivity.
  - vm_compute. reflexivity.
  - vm_compute. reflexivity.
  - repeat constructor. discriminate.
  - vm_compute. reflexivity.
  - reflexivity.
Defined.

(** ** A response that arrives whole *)

(** The response is received in full, passes the check and goes to the
    [switch] on its function code. *)
Lemma modbus_check_response_whole {hdr : modbus_h} (mb : modbus_param_t)
    (query response mbap pdu extra : list Z) (c : Z)
    (chunks : list (list Z)) (rest : list io_event) (w : world) :
  initialised mb ->
  len mbap = 6 ->
  compute_response_size mb query = Some c ->
  len (adu mb mbap pdu) = c ->
  0 < c <= MAX_PACKET_SIZE ->
  c <= len response ->
  Forall nonempty chunks ->
  concat chunks = adu mb mbap pdu ++ extra ->
  incoming w = map Chunk chunks ++ rest ->
  modbus_check_response mb query response w
  = good_response mb
      (adu mb mbap pdu ++ skipn (length (adu mb mbap pdu)) response) c
      (set_incoming
         (map Chunk (drop_bytes (length (adu mb mbap pdu)) chunks) ++ rest)
         w).
Proof.
  intros Hinit Hm Ec Hlen Hc Hresp Hne Hcat Hin.
  pose proof (len_nonneg extra) as Hex.
  assert (Hpdu : len pdu < 65536).
  { rewrite len_adu in Hlen by assumption.
    destruct (initialised_cases mb Hinit) as [(_ & Hh & Hs) | (_ & Hh & Hs)];
      rewrite Hh, Hs in Hlen; unfold MAX_PACKET_SIZE in *; lia. }
  unfold modbus_check_response.
  unfold bind at 1, local_int. unfold bind at 1, lift. rewrite Ec.
  unfold bind at 1.
  rewrite (receive_msg_known mb c response _ chunks rest w)
    by (try assumption; try lia; rewrite Hcat, len_app; lia).
  rewrite Z.eqb_refl.
  replace (firstn (Z.to_nat c) (concat chunks))
    with (adu mb mbap pdu)
    by (rewrite Hcat, <- Hlen, firstn_stream; reflexivity).
  replace (Z.to_nat c) with (length (adu mb mbap pdu))
    by (unfold len in *; lia).
  unfold bind at 1. rewrite <- Hlen at 1.
  rewrite check_crc16_adu by assumption.
  unfold ret at 1. cbn [Z.eqb negb].
  reflexivity.
Qed.

(** ** Requests as the master sends them *)

(** A request that fits in twelve bytes is built and sent whole when the
    transport takes it. *)
Lemma query_sent {hdr : modbus_h} (mb : modbus_param_t)
    (slave function start_addr count : Z) (packet : list Z) (w : world) :
  initialised mb ->
  12 <= len packet ->
  write_script w = [] ->
  exists q1 w1 q2 w2,
    build_query_packet mb slave function start_addr count packet w
    = (Some (header_length mb + 6, q1), w1)
    /\ modbus_send mb q1 (header_length mb + 6) w1
       = (Some (header_length mb + 6 + checksum_size mb, q2), w2)
    /\ incoming w2 = incoming w
    /\ stack_garbage w2 = stack_garbage w
    /\ load q2 (header_length mb + 1) = Some (u8 function)
    /\ load q2 (header_length mb + 4) = Some (Z.shiftr (u16 count) 8)
    /\ load q2 (header_length mb + 5) = Some (Z.land (u16 count) 255).
Proof.
  intros Hmb Hlen Hws.
  assert (Hh : 0 <= header_length mb /\ 0 <= checksum_size mb
               /\ header_length mb + 6 + checksum_size mb <= 12).
  { destruct (initialised_cases mb Hmb) as [(_ & -> & ->) | (_ & -> & ->)];
      lia. }
  pose proof (build_query_packet_io mb slave function start_addr count
                packet w) as [Hi1 Hw1].
  destruct (build_query_packet_fields mb slave function start_addr count
              packet w Hmb Hlen)
    as (q & w1 & E1 & T1 & G1 & L1 & F1 & F4 & F5).
  rewrite E1 in Hi1, Hw1. cbn [snd] in Hi1, Hw1.
  destruct (modbus_send_ok mb q (header_length mb + 6) w1 Hmb)
    as (q' & w2 & E2 & Hi2 & G2 & K2); try lia.
  { rewrite Hw1. exact Hws. }
  exists q, w1, q', w2.
  rewrite !K2 by lia.
  repeat split; try assumption; congruence.
Qed.

Lemma compute_response_size_registers {hdr : modbus_h} (mb : modbus_param_t)
    (query : list Z) (fc n : Z) :
  fc = FC_READ_HOLDING_REGISTERS \/ fc = FC_READ_INPUT_REGISTERS ->
  0 <= n < 65536 ->
  load query (header_length mb + 1) = Some fc ->
  load query (header_length mb + 4) = Some (Z.shiftr n 8) ->
  load query (header_length mb + 5) = Some (Z.land n 255) ->
  compute_response_size mb query
  = Some (3 + 2 * n + header_length mb + checksum_size mb).
Proof.
  intros Hfc Hn E1 E4 E5. unfold compute_response_size.
  rewrite E1. cbn [obind].
  replace ((fc =? FC_READ_COIL_STATUS) || (fc =? FC_READ_INPUT_STATUS))
    with false by (destruct Hfc as [-> | ->]; reflexivity).
  replace ((fc =? FC_READ_HOLDING_REGISTERS)
           || (fc =? FC_READ_INPUT_REGISTERS))
    with true by (destruct Hfc as [-> | ->]; reflexivity).
  rewrite E4, E5. cbn [obind].
  rewrite lor_shiftl_byte by (apply land255_byte; lia).
  rewrite word_of_split by lia. reflexivity.
Qed.

(** ** Registers off the wire *)

Lemma len_registers_bytes (regs : list Z) :
  len (registers_bytes regs) = 2 * len regs.
Proof.
  unfold registers_bytes.
  induction regs as [| v regs IH]; [reflexivity |].
  cbn [flat_map]. rewrite len_app, IH, len_cons.
  change (len (be16 v)) with 2. lia.
Qed.

Lemma load_registers_bytes :
  forall (regs : list Z) (j : nat),
    (j < length regs)%nat ->
    load (registers_bytes regs) (2 * Z.of_nat j)
    = Some (Z.shiftr (nth j regs 0) 8)
    /\ load (registers_bytes regs) (2 * Z.of_nat j + 1)
       = Some (Z.land (nth j regs 0) 255).
Proof.
  induction regs as [| v regs IH]; intros j Hj; [cbn in Hj; lia |].
  destruct j as [| j].
  - split; reflexivity.
  - cbn [length] in Hj. destruct (IH j ltac:(lia)) as [E0 E1].
    cbn [registers_bytes flat_map nth].
    change (be16 v ++ flat_map be16 regs)
      with (be16 v ++ registers_bytes regs).
    replace (2 * Z.of_nat (S j)) with (len (be16 v) + 2 * Z.of_nat j)
      by (change (len (be16 v)) with 2; lia).
    rewrite <- Z.add_assoc, !load_app_r by lia.
    split; assumption.
Qed.

(** The loop of [read_reg_response] on the bytes of [todo]. *)
Lemma read_reg_response_loop_decodes (offset : Z) (response : list Z) :
  forall (todo : list Z) (i : Z) (d1 d2 : list Z),
    (forall j, (j < length todo)%nat ->
       load response (offset + 3 + 2 * (i + Z.of_nat j))
       = Some (Z.shiftr (nth j todo 0) 8)
       /\ load response (offset + 4 + 2 * (i + Z.of_nat j))
          = Some (Z.land (nth j todo 0) 255)) ->
    Forall is_word todo ->
    len d1 = i ->
    (length todo <= length d2)%nat ->
    read_reg_response_loop (length todo) i offset response (d1 ++ d2)
    = Some (d1 ++ todo ++ skipn (length todo) d2).
Proof.
  induction todo as [| v todo IH]; intros i d1 d2 Hload Hw Hi Hroom.
  - reflexivity.
  - inversion Hw as [| ? ? Hv Hw']; subst.
    destruct d2 as [| x d2]; [cbn in Hroom; lia |].
    cbn [length read_reg_response_loop].
    destruct (Hload O ltac:(cbn; lia)) as [E0 E1].
    cbn [nth] in E0, E1. rewrite Z.add_0_r in E0, E1.
    pose proof (len_nonneg d1) as Hd1.
    rewrite Z.shiftl_mul_pow2 by lia. change (2 ^ 1) with 2.
    rewrite (Z.mul_comm (len d1) 2), E0, E1. cbn [obind].
    unfold store16.
    unfold is_word in Hv.
    rewrite lor_shiftl_byte by (apply land255_byte; lia).
    rewrite word_of_split, u16_small by lia.
    rewrite store_app. cbn [obind].
    replace (d1 ++ v :: d2) with ((d1 ++ [v]) ++ d2)
      by (rewrite <- app_assoc; reflexivity).
    rewrite IH.
    + rewrite <- app_assoc. reflexivity.
    + intros j Hj. destruct (Hload (S j) ltac:(cbn; lia)) as [F0 F1].
      cbn [nth] in F0, F1.
      replace (len d1 + 1 + Z.of_nat j) with (len d1 + Z.of_nat (S j))
        by lia.
      split; assumption.
    + assumption.
    + rewrite len_app. reflexivity.
    + cbn [length] in Hroom. lia.
Qed.

(** A turn of the loop past the end of the destination is a fault. *)
Lemma read_reg_response_loop_out (offset : Z) (response : list Z) :
  forall (n : nat) (i : Z) (data_dest : list Z),
    0 <= i <= len data_dest ->
    len data_dest < i + Z.of_nat n ->
    read_reg_response_loop n i offset response data_dest = None.
Proof.
  induction n as [| n IH]; intros i d Hi Hout; [lia |].
  cbn [read_reg_response_loop].
  destruct (load response (offset + 3 + Z.shiftl i 1)); [| reflexivity].
  destruct (load response (offset + 4 + Z.shiftl i 1)); [| reflexivity].
  cbn [obind].
  destruct (store16 d i _) as [d' |] eqn:Es; [| reflexivity].
  cbn [obind]. unfold store16 in Es.
  pose proof (load_Some_range _ _ _ (store_load_same _ _ _ _ Es)) as Hr.
  pose proof (store_len _ _ _ _ Es) as Hl.
  apply IH; lia.
Qed.

(** ** Reading registers *)

(** What [read_registers] makes of a response of the expected size: the
    number of registers it decodes is read off the response. *)
Lemma read_registers_reply {hdr : modbus_h} (mb : modbus_param_t)
    (slave function start_addr n : Z) (data_dest mbap : list Z)
    (unit rfc b : Z) (payload extra : list Z) (chunks : list (list Z))
    (rest : list io_event) (w : world) :
  initialised mb ->
  write_script w = [] ->
  len mbap = 6 ->
  function = FC_READ_HOLDING_REGISTERS \/ function = FC_READ_INPUT_REGISTERS ->
  rfc = FC_READ_HOLDING_REGISTERS \/ rfc = FC_READ_INPUT_REGISTERS ->
  0 <= n <= 125 ->
  len payload = 2 * n ->
  let reply := adu mb mbap (unit :: rfc :: b :: payload) in
  Forall nonempty chunks ->
  concat chunks = reply ++ extra ->
  incoming w = map Chunk chunks ++ rest ->
  fst (read_registers mb slave function start_addr n data_dest w)
  = option_map (fun d => (Z.quot b 2, d))
      (read_reg_response_loop (Z.to_nat (Z.quot b 2)) 0 (header_length mb)
         (reply ++ skipn (length reply)
                         (uninit (stack_garbage w)
                                 (Z.to_nat MAX_PACKET_SIZE)))
         data_dest).
Proof.
  intros Hmb Hws Hm Hfn Hrfc Hn Hpay reply Hne Hcat Hin.
  set (pdu := unit :: rfc :: b :: payload) in *.
  assert (Hh : 0 <= header_length mb /\ 0 <= checksum_size mb
               /\ header_length mb + 6 + checksum_size mb <= 12
               /\ header_length mb + checksum_size mb <= 6).
  { destruct (initialised_cases mb Hmb) as [(_ & -> & ->) | (_ & -> & ->)];
      lia. }
  assert (Hpdu : len pdu = 3 + 2 * n).
  { subst pdu. rewrite !len_cons. lia. }
  assert (Hreply : len reply
                   = 3 + 2 * n + header_length mb + checksum_size mb).
  { subst reply. rewrite len_adu by assumption. lia. }
  unfold read_registers. unfold bind at 1, local_array.
  destruct (query_sent mb slave function start_addr n
              (uninit (stack_garbage w) (Z.to_nat MIN_QUERY_SIZE)) w Hmb)
    as (q1 & w1 & q2 & w2 & E1 & E2 & Hi & Hg & F1 & F4 & F5);
    [rewrite len_uninit; cbv; discriminate | exact Hws |].
  unfold bind at 1. rewrite E1. unfold bind at 1. rewrite E2.
  destruct (Z.gtb_spec (header_length mb + 6 + checksum_size mb) 0); [| lia].
  unfold read_reg_response. unfold bind at 1, local_array. rewrite Hg.
  rewrite u16_small in F4, F5 by lia.
  rewrite u8_byte in F1 by (destruct Hfn as [-> | ->]; cbv; split; congruence).
  pose proof (compute_response_size_registers mb q2 function n Hfn
                ltac:(lia) F1 F4 F5) as Ec.
  unfold bind at 1.
  rewrite (modbus_check_response_whole mb q2 _ mbap pdu extra _ chunks rest
             w2 Hmb Hm Ec)
    by (try assumption; try (rewrite len_uninit); fold reply;
        unfold MAX_PACKET_SIZE; try lia; congruence).
  fold reply.
  set (response := reply ++ skipn (length reply) _).
  assert (L1 : load response (header_length mb + 1) = Some rfc).
  { unfold response. rewrite load_app_l by lia. unfold reply.
    rewrite load_adu by (assumption || lia). reflexivity. }
  assert (L2 : load response (header_length mb + 2) = Some b).
  { unfold response. rewrite load_app_l by lia. unfold reply.
    rewrite load_adu by (assumption || lia). reflexivity. }
  unfold good_response. unfold bind at 1, lift. rewrite L1.
  replace ((rfc =? FC_READ_COIL_STATUS) || (rfc =? FC_READ_INPUT_STATUS))
    with false by (destruct Hrfc as [-> | ->]; reflexivity).
  replace ((rfc =? FC_READ_HOLDING_REGISTERS)
           || (rfc =? FC_READ_INPUT_REGISTERS))
    with true by (destruct Hrfc as [-> | ->]; reflexivity).
  unfold bind at 1. rewrite L2. unfold ret at 1.
  unfold bind, ret.
  destruct (read_reg_response_loop _ 0 _ response data_dest); reflexivity.
Qed.

Lemma read_registers_ok {hdr : modbus_h} (mb : modbus_param_t)
    (slave function start_addr n : Z) (data_dest mbap : list Z)
    (unit : Z) (regs extra : list Z) (chunks : list (list Z))
    (rest : list io_event) (w : world) :
  initialised mb ->
  write_script w = [] ->
  len mbap = 6 ->
  function = FC_READ_HOLDING_REGISTERS \/ function = FC_READ_INPUT_REGISTERS ->
  0 <= n <= 125 ->
  len regs = n ->
  Forall is_word regs ->
  n <= len data_dest ->
  Forall nonempty chunks ->
  concat chunks
  = adu mb mbap (unit :: function :: 2 * n :: registers_bytes regs) ++ extra ->
  incoming w = map Chunk chunks ++ rest ->
  fst (read_registers mb slave function start_addr n data_dest w)
  = Some (n, regs ++ skipn (length regs) data_dest).
Proof.
  intros Hmb Hws Hm Hfn Hn Hregs Hw Hroom Hne Hcat Hin.
  assert (Hh : 0 <= header_length mb).
  { destruct (initialised_cases mb Hmb) as [(_ & -> & _) | (_ & -> & _)];
      lia. }
  pose proof (len_registers_bytes regs) as Hb.
  rewrite (read_registers_reply mb slave function start_addr n data_dest mbap
             unit function (2 * n) (registers_bytes regs) extra chunks rest w)
    by (try assumption; lia).
  rewrite (Z.mul_comm 2 n), Z.quot_mul by lia.
  replace (Z.to_nat n) with (length regs) by (unfold len in *; lia).
  set (pdu := unit :: function :: n * 2 :: registers_bytes regs).
  set (response := adu mb mbap pdu ++ _).
  assert (Hpdu : len pdu = 3 + 2 * n).
  { subst pdu. rewrite !len_cons. lia. }
  assert (Hload : forall x, 0 <= x < 2 * n ->
                    load response (header_length mb + (3 + x))
                    = load (registers_bytes regs) x).
  { intros x Hx. unfold response.
    rewrite load_app_l by (rewrite len_adu by assumption;
      destruct (initialised_cases mb Hmb) as [(_ & _ & ->) | (_ & _ & ->)];
      lia).
    rewrite load_adu by (assumption || lia).
    subst pdu.
    change (unit :: function :: n * 2 :: registers_bytes regs)
      with ([unit; function; n * 2] ++ registers_bytes regs).
    apply (load_app_r [unit; function; n * 2]). lia. }
  pose proof (read_reg_response_loop_decodes (header_length mb) response
                regs 0 [] data_dest) as D.
  cbn [app] in D. rewrite D; try assumption.
  - reflexivity.
  - intros j Hj. destruct (load_registers_bytes regs j Hj) as [E0 E1].
    rewrite <- E0, <- E1. rewrite <- !Hload by (unfold len in *; lia).
    split; f_equal; lia.
  - reflexivity.
  - unfold len in *. lia.
Qed.

(** X11. Reading registers: whatever the segments the response arrives in,
    and whatever its unit byte and MBAP header, [read_holding_registers]
    and [read_input_registers] return the number of registers asked for,
    capped at 125, and leave their values, decoded high byte first, at the
    start of the destination; the rest of the destination is untouched. *)
Theorem read_registers_decodes {hdr : modbus_h} (mb : modbus_param_t)
    (slave start_addr count : Z) (data_dest mbap : list Z)
    (unit : Z) (regs extra : list Z) (chunks : list (list Z))
    (rest : list io_event) (w : world) :
  initialised mb ->
  write_script w = [] ->
  len mbap = 6 ->
  0 <= count ->
  let n := if count >? 125 then 125 else count in
  len regs = n ->
  Forall is_word regs ->
  n <= len data_dest ->
  Forall nonempty chunks ->
  incoming w = map Chunk chunks ++ rest ->
  (concat chunks
   = adu mb mbap (unit :: FC_READ_HOLDING_REGISTERS :: 2 * n
                    :: registers_bytes regs) ++ extra ->
   fst (read_holding_registers mb slave start_addr count data_dest w)
   = Some (n, regs ++ skipn (length regs) data_dest))
  /\ (concat chunks
      = adu mb mbap (unit :: FC_READ_INPUT_REGISTERS :: 2 * n
                       :: registers_bytes regs) ++ extra ->
      fst (read_input_registers mb slave start_addr count data_dest w)
      = Some (n, regs ++ skipn (length regs) data_dest)).
Proof.
  intros Hmb Hws Hm Hcount n Hregs Hw Hroom Hne Hin.
  assert (Hn : 0 <= n <= 125) by (subst n; destruct (Z.gtb_spec count 125); lia).
  split; intros Hcat.
  - unfold read_holding_registers. change MAX_READ_HOLD_REGS with 125.
    fold n.
    apply (read_registers_ok mb slave FC_READ_HOLDING_REGISTERS start_addr n
             data_dest mbap unit regs extra chunks rest w);
      try assumption. left; reflexivity.
  - unfold read_input_registers. change MAX_READ_INPUT_REGS with 125.
    fold n.
    apply (read_registers_ok mb slave FC_READ_INPUT_REGISTERS start_addr n
             data_dest mbap unit regs extra chunks rest w);
      try assumption. right; reflexivity.
Qed.

Lemma read_registers_decodes_witness :
  fst (@read_holding_registers example_h modbus_init_rtu 0x11 0x6B 3
         [0; 0; 0; 7]
         (idle_world [Chunk [0x11; 0x03; 0x06; 0xAE];
                      Chunk [0x41; 0x56; 0x52; 0x43; 0x40; 0x49; 0xAD]]))
  = Some (3, [0xAE41; 0x5652; 0x4340; 7]).
Proof.
  apply (proj1 (@read_registers_decodes example_h modbus_init_rtu 0x11 0x6B 3
                  [0; 0; 0; 7] [0; 0; 0; 0; 0; 0] 0x11
                  [0xAE41; 0x5652; 0x4340] []
                  [[0x11; 0x03; 0x06; 0xAE];
                   [0x41; 0x56; 0x52; 0x43; 0x40; 0x49; 0xAD]] []
                  (idle_world [Chunk [0x11; 0x03; 0x06; 0xAE];
                               Chunk [0x41; 0x56; 0x52; 0x43; 0x40; 0x49;
                                      0xAD]])
                  ltac:(split; reflexivity) eq_refl eq_refl
                  ltac:(discriminate) eq_refl
                  ltac:(repeat constructor; discriminate)
                  ltac:(vm_compute; discriminate)
                  ltac:(repeat constructor; discriminate) eq_refl)).
  vm_compute. reflexivity.
Defined.

(** X12. The number of registers that [read_holding_registers] stores is
    not the number it asked for but half the byte count of the response:
    when a response of the expected size carries a byte count above twice
    the room in the destination, the decoding loop runs past the end of an
    array; in the embedding the call faults. *)
Theorem read_registers_trusts_byte_count {hdr : modbus_h}
    (mb : modbus_param_t) (slave start_addr count : Z)
    (data_dest mbap : list Z) (unit b : Z) (payload extra : list Z)
    (chunks : list (list Z)) (rest : list io_event) (w : world) :
  initialised mb ->
  write_script w = [] ->
  len mbap = 6 ->
  0 <= count <= 125 ->
  len payload = 2 * count ->
  len data_dest < Z.quot b 2 ->
  Forall nonempty chunks ->
  concat chunks
  = adu mb mbap (unit :: FC_READ_HOLDING_REGISTERS :: b :: payload)
    ++ extra ->
  incoming w = map Chunk chunks ++ rest ->
  fst (read_holding_registers mb slave start_addr count data_dest w) = None.
Proof.
  intros Hmb Hws Hm Hcount Hpay Hsmall Hne Hcat Hin.
  unfold read_holding_registers. change MAX_READ_HOLD_REGS with 125.
  destruct (Z.gtb_spec count 125); [lia |].
  rewrite (read_registers_reply mb slave FC_READ_HOLDING_REGISTERS start_addr
             count data_dest mbap unit FC_READ_HOLDING_REGISTERS b payload
             extra chunks rest w)
    by (try assumption; auto).
  pose proof (len_nonneg data_dest).
  rewrite read_reg_response_loop_out by lia.
  reflexivity.
Qed.

Lemma read_registers_trusts_byte_count_witness :
  fst (@read_holding_registers example_h modbus_init_tcp 0x11 0x6B 1 [0]
         (idle_world [Chunk [0; 1; 0; 0; 0; 5; 0x11; 0x03; 0x04; 0xAE; 0x41]]))
  = None.
Proof.
  apply (@read_registers_trusts_byte_count example_h modbus_init_tcp 0x11
           0x6B 1 [0] [0; 1; 0; 0; 0; 5] 0x11 0x04 [0xAE; 0x41] []
           [[0; 1; 0; 0; 0; 5; 0x11; 0x03; 0x04; 0xAE; 0x41]] []).
  - split; reflexivity.
  - reflexivity.
  - reflexivity.
  - split; discriminate.
  - reflexivity.
  - vm_compute. reflexivity.
  - repeat constructor; discriminate.
  - reflexivity.
  - reflexivity.
Defined.

(** ** What [modbus_send] hands to the transport *)

Lemma modbus_send_envelope_rtu (mb : modbus_param_t) (s : list Z)
    (r0 r1 : Z) (room : list Z) :
  type_com mb = RTU -> len s < 65536 ->
  modbus_send_envelope mb (s ++ r0 :: r1 :: room) (len s)
  = Some (rtu_frame s ++ room, len s + 2).
Proof.
  intros Ht Hs. destruct (crc16_trailer_bytes s) as (Hhi & Hlo & _).
  unfold modbus_send_envelope, store8. rewrite Ht.
  rewrite crc16_app by lia. rewrite store_app. cbn [obind].
  replace (s ++ u8 (Z.shiftr (crc16 s (len s)) 8) :: r1 :: room)
    with ((s ++ [u8 (Z.shiftr (crc16 s (len s)) 8)]) ++ r1 :: room)
    by (rewrite <- app_assoc; reflexivity).
  replace (len s + 1) with (len (s ++ [u8 (Z.shiftr (crc16 s (len s)) 8)]))
    by (rewrite len_app; reflexivity).
  rewrite store_app. cbn [obind]. rewrite !u8_byte by assumption.
  unfold rtu_frame. rewrite <- !app_assoc. reflexivity.
Qed.

Lemma modbus_send_envelope_tcp (mb : modbus_param_t) (body room : list Z) :
  type_com mb = TCP -> 6 <= len body ->
  modbus_send_envelope mb (body ++ room) (len body)
  = Some (sent_frame mb body ++ room, len body).
Proof.
  intros Ht Hb. unfold modbus_send_envelope, sent_frame. rewrite Ht.
  destruct body as [| b0 [| b1 [| b2 [| b3 [| b4 [| b5 pdu]]]]]];
    try (cbn in Hb; lia).
  unfold set_packet_length_tcp, store8, store. cbn [app Z.ltb Z.compare].
  change (Z.to_nat 4) with 4%nat. change (Z.to_nat 5) with 5%nat.
  cbn [upd obind firstn skipn app be16].
  set (l := u16 (len (b0 :: b1 :: b2 :: b3 :: b4 :: b5 :: pdu) - 6)).
  assert (Hl : 0 <= l < 65536) by (apply Z.mod_pos_bound; lia).
  rewrite (u8_byte (Z.shiftr l 8)) by (apply shiftr8_byte; exact Hl).
  rewrite (u8_byte (Z.land l 255)) by (apply land255_byte; lia).
  reflexivity.
Qed.

Lemma len_sent_frame {hdr : modbus_h} (mb : modbus_param_t)
    (body : list Z) :
  initialised mb -> header_length mb <= len body ->
  len (sent_frame mb body) = len body + checksum_size mb.
Proof.
  intros Hmb Hb. unfold sent_frame.
  destruct (initialised_cases mb Hmb) as [(-> & _ & ->) | (-> & Hh & ->)].
  - apply len_rtu_frame.
  - rewrite Hh in Hb. unfold len in *.
    rewrite !length_app, length_firstn, length_skipn. cbn [length be16]. lia.
Qed.

(** The envelope is closed around the body and the frame goes to the
    transport in one call. *)
Lemma modbus_send_content {hdr : modbus_h} (mb : modbus_param_t)
    (body room : list Z) (w : world) :
  initialised mb ->
  header_length mb <= len body ->
  checksum_size mb <= len room ->
  len body < 65536 ->
  let frame := sent_frame mb body in
  let query := frame ++ skipn (Z.to_nat (checksum_size mb)) room in
  modbus_send mb (body ++ room) (len body) w
  = (write_ret <- sys_write query (len frame) ;;
     if (write_ret =? -1) || negb (write_ret =? len frame)
     then error_treat mb ;; ret (PORT_SOCKET_FAILURE, query)
     else ret (write_ret, query)) w.
Proof.
  intros Hmb Hb Hr Hs frame query. subst frame query.
  rewrite len_sent_frame by assumption.
  unfold modbus_send. unfold bind at 1, lift.
  destruct (initialised_cases mb Hmb) as [(Ht & Hh & Hc) | (Ht & Hh & Hc)];
    rewrite Hc in *.
  - destruct room as [| r0 [| r1 room]]; try (cbn in Hr; lia).
    rewrite modbus_send_envelope_rtu by assumption.
    unfold sent_frame. rewrite Ht. reflexivity.
  - rewrite modbus_send_envelope_tcp by (assumption || lia).
    rewrite Z.add_0_r. reflexivity.
Qed.

(** The one frame that goes out, and the value returned. *)
Lemma modbus_send_outcome {hdr : modbus_h} (mb : modbus_param_t)
    (body room : list Z) (w : world) :
  initialised mb ->
  header_length mb <= len body ->
  checksum_size mb <= len room ->
  len body < 65536 ->
  exists r query w',
    modbus_send mb (body ++ room) (len body) w = (Some (r, query), w')
    /\ writes (trace w') = writes (trace w) ++ [sent_frame mb body]
    /\ match write_script w with
       | [] => r = len body + checksum_size mb /\ incoming w' = incoming w
       | x :: _ =>
           if x =? len body + checksum_size mb
           then r = x /\ incoming w' = incoming w
           else r = PORT_SOCKET_FAILURE
                /\ incoming w' = input_after_error mb w
       end.
Proof.
  intros Hmb Hb Hr Hs.
  pose proof (len_sent_frame mb body Hmb Hb) as Hlen.
  pose proof (len_nonneg body) as Hb0.
  assert (Hcs : 0 <= checksum_size mb).
  { destruct (initialised_cases mb Hmb) as [(_ & _ & ->) | (_ & _ & ->)];
      lia. }
  rewrite modbus_send_content by assumption.
  set (frame := sent_frame mb body) in *.
  set (query := frame ++ skipn (Z.to_nat (checksum_size mb)) room).
  unfold bind at 1. unfold sys_write.
  destruct (Z.leb_spec 0 (len frame)); [| lia].
  destruct (Z.leb_spec (len frame) (len query));
    [| subst query; rewrite len_app in *; pose proof (len_nonneg
         (skipn (Z.to_nat (checksum_size mb)) room)); lia].
  cbn [andb].
  replace (firstn (Z.to_nat (len frame)) query) with frame
    by (subst query; unfold len; rewrite Nat2Z.id, firstn_app, firstn_all,
        Nat.sub_diag; cbn [firstn]; now rewrite app_nil_r).
  destruct (write_script w) as [| x s] eqn:Ews.
  - destruct (Z.eqb_spec (len frame) (-1)); [lia |].
    rewrite Z.eqb_refl. cbn [orb negb]. unfold ret.
    do 3 eexists. split; [reflexivity |].
    cbn [trace incoming set_trace]. rewrite writes_app.
    repeat split; try reflexivity. exact Hlen.
  - rewrite <- Hlen.
    destruct (Z.eqb_spec x (len frame)) as [-> | Hx].
    + destruct (Z.eqb_spec (len frame) (-1)); [lia |].
      cbn [orb negb]. unfold ret.
      do 3 eexists. split; [reflexivity |].
      cbn [trace incoming set_trace set_write_script]. rewrite writes_app.
      repeat split; reflexivity.
    + rewrite orb_true_r.
      unfold bind, error_treat, emit, reset_input, ret, input_after_error.
      destruct (type_com mb); destruct (error_handling mb);
        do 3 eexists; (split; [reflexivity |]);
        cbn [trace incoming set_trace set_write_script set_incoming
             input_after_reset];
        rewrite ?writes_app; cbn [writes]; rewrite ?app_nil_r;
        repeat split; reflexivity.
Qed.

(** X8. [modbus_send] makes one call to the transport, with the body it
    was given closed by its CRC on a serial line and, on TCP, with the number
    of bytes that follow the first six written in bytes 4 and 5.  When the
    transport takes that frame whole the call returns its size and the
    input is left as it was; when the transport reports an error or takes
    less, the call returns [PORT_SOCKET_FAILURE] and the error is
    treated: the input is that of a flushed port on a serial line, and
    that of a new connection on TCP when the handle asks for one. *)
Theorem modbus_send_frames {hdr : modbus_h} (mb : modbus_param_t)
    (body room : list Z) (w : world) :
  initialised mb ->
  header_length mb <= len body ->
  checksum_size mb <= len room ->
  len body < 65536 ->
  exists r query w',
    modbus_send mb (body ++ room) (len body) w = (Some (r, query), w')
    /\ writes (trace w') = writes (trace w) ++ [sent_frame mb body]
    /\ match write_script w with
       | [] => r = len body + checksum_size mb /\ incoming w' = incoming w
       | x :: _ =>
           if x =? len body + checksum_size mb
           then r = x /\ incoming w' = incoming w
           else r = PORT_SOCKET_FAILURE
                /\ incoming w' = input_after_error mb w
       end.
Proof. apply modbus_send_outcome. Qed.

Lemma modbus_send_frames_witness :
  exists r query w',
    @modbus_send example_h modbus_init_tcp
      ([0; 1; 0; 0; 0x55; 0x55; 0x11; 0x03; 0x00; 0x6B; 0x00; 0x03] ++ [])
      (len [0; 1; 0; 0; 0x55; 0x55; 0x11; 0x03; 0x00; 0x6B; 0x00; 0x03])
      (idle_world [])
    = (Some (r, query), w')
    /\ writes (trace w')
       = writes (trace (idle_world []))
         ++ [[0; 1; 0; 0; 0; 6; 0x11; 0x03; 0x00; 0x6B; 0x00; 0x03]]
    /\ match write_script (idle_world []) with
       | [] => r = 12 + 0 /\ incoming w' = incoming (idle_world [])
       | x :: _ =>
           if x =? 12 + 0
           then r = x /\ incoming w' = incoming (idle_world [])
           else r = -0x0D
                /\ incoming w'
                   = @input_after_error modbus_init_tcp (idle_world [])
       end.
Proof.
  apply (@modbus_send_frames example_h modbus_init_tcp
           [0; 1; 0; 0; 0x55; 0x55; 0x11; 0x03; 0x00; 0x6B; 0x00; 0x03] []
           (idle_world [])).
  - split; reflexivity.
  - vm_compute. discriminate.
  - vm_compute. discriminate.
  - reflexivity.
Defined.

(** ** A request that the transport does not take *)

Lemma build_query_packet_reset {hdr : modbus_h} (mb : modbus_param_t)
    (slave function start_addr count : Z) (packet : list Z) (w : world) :
  input_after_reset (snd (build_query_packet mb slave function start_addr
                                             count packet w))
  = input_after_reset w.
Proof. unfold build_query_packet. destruct (type_com mb); reflexivity. Qed.

Lemma query_not_sent {hdr : modbus_h} (mb : modbus_param_t)
    (slave function start_addr count : Z) (packet : list Z) (w : world)
    (x : Z) (s : list Z) :
  initialised mb ->
  12 <= len packet ->
  write_script w = x :: s ->
  x <> header_length mb + 6 + checksum_size mb ->
  exists q1 w1 q2 w2,
    build_query_packet mb slave function start_addr count packet w
    = (Some (header_length mb + 6, q1), w1)
    /\ modbus_send mb q1 (header_length mb + 6) w1
       = (Some (PORT_SOCKET_FAILURE, q2), w2)
    /\ incoming w2 = input_after_error mb w.
Proof.
  intros Hmb Hlen Hws Hx.
  assert (Hh : 0 <= header_length mb /\ 0 <= checksum_size mb
               /\ header_length mb + 6 + checksum_size mb <= 12).
  { destruct (initialised_cases mb Hmb) as [(_ & -> & ->) | (_ & -> & ->)];
      lia. }
  pose proof (build_query_packet_io mb slave function start_addr count
                packet w) as [Hi1 Hw1].
  pose proof (build_query_packet_reset mb slave function start_addr count
                packet w) as Hr1.
  destruct (build_query_packet_fields mb slave function start_addr count
              packet w Hmb Hlen)
    as (q & w1 & E1 & T1 & G1 & L1 & F1 & F4 & F5).
  rewrite E1 in Hi1, Hw1, Hr1. cbn [snd] in Hi1, Hw1, Hr1.
  set (body := firstn (Z.to_nat (header_length mb + 6)) q).
  set (room := skipn (Z.to_nat (header_length mb + 6)) q).
  assert (Hq : q = body ++ room) by (symmetry; apply firstn_skipn).
  assert (Hbody : len body = header_length mb + 6).
  { subst body. unfold len in *. rewrite length_firstn. lia. }
  assert (Hroom : len room = len q - (header_length mb + 6)).
  { subst room. unfold len in *. rewrite length_skipn. lia. }
  destruct (modbus_send_outcome mb body room w1 Hmb)
    as (r & q2 & w2 & E2 & _ & Hr); try lia.
  rewrite Hw1, Hws, Hbody in Hr.
  destruct (Z.eqb_spec x (header_length mb + 6 + checksum_size mb));
    [contradiction |].
  destruct Hr as [-> Hi2].
  exists q, w1, q2, w2. rewrite Hq at 2. rewrite <- Hbody at 2.
  rewrite E2. repeat split; [exact E1 |].
  rewrite Hi2. unfold input_after_error. rewrite Hi1, Hr1. reflexivity.
Qed.

(** X10. When the transport does not take the whole request, the
    operations of the master that send a six-byte request return
    [PORT_SOCKET_FAILURE], leave the destination as it was and do not wait
    for a response: after the treatment of the error the call makes no
    read, and the input is what that treatment leaves, a flushed port on
    a serial line and a new connection on TCP when the handle asks for
    one. *)
Theorem write_failure_stops_operation {hdr : modbus_h} (mb : modbus_param_t)
    (slave addr count : Z) (data_dest : list Z) (w : world) (x : Z)
    (s : list Z) :
  initialised mb ->
  write_script w = x :: s ->
  x <> header_length mb + 6 + checksum_size mb ->
  let stopped (A : Type) (m : M A) (a : A) :=
    fst (m w) = Some a /\ incoming (snd (m w)) = input_after_error mb w in
  stopped _ (read_coil_status mb slave addr count data_dest)
          (PORT_SOCKET_FAILURE, data_dest)
  /\ stopped _ (read_input_status mb slave addr count data_dest)
             (PORT_SOCKET_FAILURE, data_dest)
  /\ stopped _ (read_holding_registers mb slave addr count data_dest)
             (PORT_SOCKET_FAILURE, data_dest)
  /\ stopped _ (read_input_registers mb slave addr count data_dest)
             (PORT_SOCKET_FAILURE, data_dest)
  /\ stopped _ (force_single_coil mb slave addr count) PORT_SOCKET_FAILURE
  /\ stopped _ (preset_single_register mb slave addr count)
             PORT_SOCKET_FAILURE.
Proof.
  intros Hmb Hws Hx stopped. subst stopped. cbv beta.
  pose proof error_codes_below as (_ & _ & Hneg & _).
  assert (Hgt : (PORT_SOCKET_FAILURE >? 0) = false)
    by (destruct (Z.gtb_spec PORT_SOCKET_FAILURE 0); [lia | reflexivity]).
  assert (Hio : forall function, exists w2,
    read_io_status mb slave function addr count data_dest w
    = (Some (PORT_SOCKET_FAILURE, data_dest), w2)
    /\ incoming w2 = input_after_error mb w).
  { intros function. unfold read_io_status.
    unfold bind at 1, local_array. unfold bind at 1, local_array.
    destruct (query_not_sent mb slave function addr count
                (uninit (stack_garbage w) (Z.to_nat MIN_QUERY_SIZE)) w x s
                Hmb)
      as (q1 & w1 & q2 & w2 & E1 & E2 & Hi);
      [rewrite len_uninit; cbv; discriminate | assumption | assumption |].
    unfold bind at 1. rewrite E1. unfold bind at 1. rewrite E2.
    rewrite Hgt. exists w2. split; [reflexivity | exact Hi]. }
  assert (Hreg : forall function n, exists w2,
    read_registers mb slave function addr n data_dest w
    = (Some (PORT_SOCKET_FAILURE, data_dest), w2)
    /\ incoming w2 = input_after_error mb w).
  { intros function n. unfold read_registers.
    unfold bind at 1, local_array.
    destruct (query_not_sent mb slave function addr n
                (uninit (stack_garbage w) (Z.to_nat MIN_QUERY_SIZE)) w x s
                Hmb)
      as (q1 & w1 & q2 & w2 & E1 & E2 & Hi);
      [rewrite len_uninit; cbv; discriminate | assumption | assumption |].
    unfold bind at 1. rewrite E1. unfold bind at 1. rewrite E2.
    rewrite Hgt. exists w2. split; [reflexivity | exact Hi]. }
  assert (Hset : forall function value, exists w2,
    set_single mb slave function addr value w
    = (Some PORT_SOCKET_FAILURE, w2)
    /\ incoming w2 = input_after_error mb w).
  { intros function value. unfold set_single.
    unfold bind at 1, local_array.
    destruct (query_not_sent mb slave function addr value
                (uninit (stack_garbage w) (Z.to_nat MAX_PACKET_SIZE)) w x s
                Hmb)
      as (q1 & w1 & q2 & w2 & E1 & E2 & Hi);
      [rewrite len_uninit; cbv; discriminate | assumption | assumption |].
    unfold bind at 1. rewrite E1. unfold bind at 1. rewrite E2.
    rewrite Hgt. exists w2. split; [reflexivity | exact Hi]. }
  unfold read_coil_status, read_input_status, read_holding_registers,
    read_input_registers, force_single_coil, preset_single_register, bind.
  destruct (Hio FC_READ_COIL_STATUS) as (w1 & -> & Hi1).
  destruct (Hio FC_READ_INPUT_STATUS) as (w2 & -> & Hi2).
  destruct (Hreg FC_READ_HOLDING_REGISTERS
              (if count >? MAX_READ_HOLD_REGS then MAX_READ_HOLD_REGS
               else count)) as (w3 & -> & Hi3).
  destruct (Hreg FC_READ_INPUT_REGISTERS
              (if count >? MAX_READ_INPUT_REGS then MAX_READ_INPUT_REGS
               else count)) as (w4 & -> & Hi4).
  destruct (Hset FC_FORCE_SINGLE_COIL
              (if negb (count =? 0) then 0xFF00 else count))
    as (w5 & -> & Hi5).
  destruct (Hset FC_PRESET_SINGLE_REGISTER count) as (w6 & -> & Hi6).
  rewrite Hgt. cbn [fst snd ret]. repeat split; assumption.
Qed.

Lemma write_failure_stops_operation_witness :
  let w := mkWorld 0 0 [Chunk [0x11; 0x03]] [-1] [] (fun _ => 0)
                   (fun _ => []) in
  fst (@read_holding_registers example_h modbus_init_rtu 0x11 0x6B 3
         [7; 7; 7] w) = Some (-0x0D, [7; 7; 7])
  /\ incoming (snd (@read_holding_registers example_h modbus_init_rtu 0x11
                      0x6B 3 [7; 7; 7] w)) = [].
Proof.
  intros w.
  apply (@write_failure_stops_operation example_h modbus_init_rtu 0x11 0x6B
           3 [7; 7; 7] w (-1) []).
  - split; reflexivity.
  - reflexivity.
  - discriminate.
Defined.

(** ** The server reads registers *)

(** The loop of the two register reads of [manage_query]. *)
Lemma response_registers_loop_ok (tab : list Z) :
  forall (n : nat) (i : Z) (pre room : list Z),
    Forall is_word tab ->
    0 <= i -> i + Z.of_nat n <= len tab ->
    2 * Z.of_nat n <= len room ->
    response_registers_loop n i tab (pre ++ room) (len pre)
    = Some (len pre + 2 * Z.of_nat n,
            pre ++ registers_bytes (firstn n (skipn (Z.to_nat i) tab))
            ++ skipn (2 * n) room).
Proof.
  induction n as [| n IH]; intros i pre room Hw Hi Htab Hroom.
  - cbn [response_registers_loop firstn registers_bytes flat_map app skipn
         Nat.mul].
    rewrite Z.add_0_r. reflexivity.
  - cbn [response_registers_loop].
    destruct (load_ok tab i ltac:(lia)) as (v & Ev). rewrite Ev. cbn [obind].
    assert (Hskip : skipn (Z.to_nat i) tab
                    = v :: skipn (Z.to_nat (i + 1)) tab).
    { unfold load in Ev. destruct (Z.ltb_spec i 0); [lia |].
      replace (Z.to_nat (i + 1)) with (S (Z.to_nat i)) by lia.
      revert Ev. generalize (Z.to_nat i). clear.
      induction tab as [| x tab IH]; intros [| k] E; try discriminate.
      - injection E as ->. reflexivity.
      - cbn [nth_error] in E. cbn [skipn]. rewrite (IH k E). reflexivity. }
    assert (Hv : is_word v).
    { rewrite Forall_forall in Hw. apply Hw.
      unfold load in Ev. destruct (i <? 0); [discriminate |].
      eapply nth_error_In. exact Ev. }
    unfold is_word in Hv.
    destruct room as [| r0 [| r1 room]];
      try (unfold len in Hroom; cbn [length] in Hroom; lia).
    unfold store8.
    rewrite (u8_byte (Z.shiftr v 8)) by (apply shiftr8_byte; exact Hv).
    rewrite (u8_byte (Z.land v 255)) by (apply land255_byte; lia).
    rewrite store_app. cbn [obind].
    replace (pre ++ Z.shiftr v 8 :: r1 :: room)
      with ((pre ++ [Z.shiftr v 8]) ++ r1 :: room)
      by (rewrite <- app_assoc; reflexivity).
    replace (len pre + 1) with (len (pre ++ [Z.shiftr v 8]))
      by (rewrite len_app; reflexivity).
    rewrite store_app. cbn [obind].
    replace ((pre ++ [Z.shiftr v 8]) ++ Z.land v 255 :: room)
      with ((pre ++ be16 v) ++ room)
      by (unfold be16; rewrite <- !app_assoc; reflexivity).
    replace (len pre + 2) with (len (pre ++ be16 v))
      by (rewrite !len_app; unfold be16, len; cbn [length]; lia).
    rewrite IH; try assumption; try lia.
    + rewrite Hskip. cbn [firstn registers_bytes flat_map].
      rewrite len_app. change (len (be16 v)) with 2.
      f_equal. f_equal; [lia |].
      rewrite <- !app_assoc. f_equal. f_equal. f_equal.
      replace (2 * S n)%nat with (S (S (2 * n))) by lia. reflexivity.
    + unfold len in *. cbn [length] in Hroom. lia.
Qed.

(** The start of a response: the buffer is cut at its three (serial line)
    or nine (TCP) first bytes. *)
Lemma build_response_packet_ok {hdr : modbus_h} (mb : modbus_param_t)
    (slave function byte_count : Z) (packet : list Z) (w : world) :
  initialised mb ->
  header_length mb + 3 <= len packet ->
  exists head w',
    build_response_packet mb slave function byte_count packet w
    = (Some (header_length mb + 3,
             head ++ [u8 slave; u8 function; u8 byte_count]
             ++ skipn (Z.to_nat (header_length mb + 3)) packet), w')
    /\ len head = header_length mb
    /\ (type_com mb = TCP ->
        firstn 4 head
        = [u8 (Z.shiftr (next_response_t_id w) 8);
           u8 (Z.land (next_response_t_id w) 255); 0; 0])
    /\ trace w' = trace w
    /\ write_script w' = write_script w
    /\ incoming w' = incoming w.
Proof.
  intros Hmb Hlen. unfold build_response_packet.
  destruct (initialised_cases mb Hmb) as [(Ht & Hh & _) | (Ht & Hh & _)];
    rewrite Ht, Hh in *.
  - destruct packet as [| p0 [| p1 [| p2 packet]]];
      try (unfold len in Hlen; cbn [length] in Hlen; lia).
    exists [], w. split; [reflexivity |].
    repeat split; try reflexivity. discriminate.
  - destruct packet
      as [| p0 [| p1 [| p2 [| p3 [| p4 [| p5 [| p6 [| p7 [| p8 packet]]]]]]]]];
      try (unfold len in Hlen; cbn [length] in Hlen; lia).
    exists [u8 (Z.shiftr (next_response_t_id w) 8);
            u8 (Z.land (next_response_t_id w) 255); 0; 0; p4; p5],
      (set_t_id_response (next_response_t_id w) w).
    split; [reflexivity |]. repeat split; reflexivity.
Qed.

Lemma load_bytes (l : list Z) (i v : Z) :
  bytes l -> load l i = Some v -> is_byte v.
Proof.
  unfold bytes, load. intros Hb E. destruct (i <? 0); [discriminate |].
  rewrite Forall_forall in Hb. apply Hb. eapply nth_error_In. exact E.
Qed.

Lemma shiftl8_add (hi lo : Z) : Z.shiftl hi 8 + lo = word_of hi lo.
Proof. unfold word_of. rewrite Z.shiftl_mul_pow2 by lia. lia. Qed.

(** The frame that answers a read of registers. *)
Lemma sent_frame_response {hdr : modbus_h} (mb : modbus_param_t)
    (head pdu : list Z) (t_id : Z) :
  initialised mb ->
  len head = header_length mb ->
  (type_com mb = TCP ->
   firstn 4 head = [u8 (Z.shiftr t_id 8); u8 (Z.land t_id 255); 0; 0]) ->
  sent_frame mb (head ++ pdu) = adu mb (mbap_of t_id (len pdu)) pdu.
Proof.
  intros Hmb Hlen Hhead. unfold sent_frame, adu.
  destruct (initialised_cases mb Hmb) as [(Ht & Hh & _) | (Ht & Hh & _)];
    rewrite Ht, Hh in *.
  - destruct head; [reflexivity |].
    rewrite len_cons in Hlen. pose proof (len_nonneg head). lia.
  - specialize (Hhead eq_refl).
    destruct head as [| h0 [| h1 [| h2 [| h3 [| h4 [| h5 [| h6 head]]]]]]];
      try (unfold len in Hlen; cbn [length] in Hlen; lia).
    cbn [firstn] in Hhead. injection Hhead as -> -> -> ->.
    cbn [app firstn skipn]. unfold mbap_of. cbn [app].
    rewrite len_cons, !len_cons.
    replace (1 + (1 + (1 + (1 + (1 + (1 + len pdu))))) - 6) with (len pdu)
      by lia.
    reflexivity.
Qed.

(** The answer of the server to a read of registers. *)
Lemma manage_query_registers {hdr : modbus_h} (mb : modbus_param_t)
    (query : list Z) (query_size : Z) (mb_mapping : modbus_mapping_t)
    (slave fc a_hi a_lo q_hi q_lo : Z) (w : world) :
  initialised mb ->
  load query (header_length mb) = Some slave ->
  load query (header_length mb + 1) = Some fc ->
  load query (header_length mb + 2) = Some a_hi ->
  load query (header_length mb + 3) = Some a_lo ->
  load query (header_length mb + 4) = Some q_hi ->
  load query (header_length mb + 5) = Some q_lo ->
  is_byte slave -> is_byte a_hi -> is_byte a_lo ->
  is_byte q_hi -> is_byte q_lo ->
  fc = FC_READ_HOLDING_REGISTERS \/ fc = FC_READ_INPUT_REGISTERS ->
  let tab := if fc =? FC_READ_HOLDING_REGISTERS
             then tab_holding_registers mb_mapping
             else tab_input_registers mb_mapping in
  let address := word_of a_hi a_lo in
  let n := word_of q_hi q_lo in
  Forall is_word tab ->
  address + n <= len tab ->
  header_length mb + 3 + 2 * n + checksum_size mb <= MAX_PACKET_SIZE ->
  exists w',
    manage_query mb query query_size mb_mapping w = (Some mb_mapping, w')
    /\ writes (trace w')
       = writes (trace w)
         ++ [adu mb (mbap_of (next_response_t_id w) (3 + 2 * n))
               (slave :: fc :: 2 * n
                  :: registers_bytes
                       (firstn (Z.to_nat n) (skipn (Z.to_nat address) tab)))]
    /\ (write_script w = [] -> incoming w' = incoming w).
Proof.
  intros Hmb E0 E1 E2 E3 E4 E5 B0 B2 B3 B4 B5 Hfc tab address n Hw Htab
         Hmax.
  assert (Hh : 0 <= header_length mb /\ 0 <= checksum_size mb
               /\ 2 <= header_length mb + checksum_size mb).
  { destruct (initialised_cases mb Hmb) as [(_ & -> & ->) | (_ & -> & ->)];
      lia. }
  pose proof (word_of_range a_hi a_lo B2 B3) as Ha.
  pose proof (word_of_range q_hi q_lo B4 B5) as Hn.
  fold address in Ha. fold n in Hn. unfold MAX_PACKET_SIZE in Hmax.
  set (regs := firstn (Z.to_nat n) (skipn (Z.to_nat address) tab)).
  assert (Hregs : len regs = n).
  { subst regs. unfold len in *. rewrite length_firstn, length_skipn. lia. }
  unfold manage_query.
  unfold bind at 1, lift. rewrite E0.
  unfold bind at 1. rewrite E1.
  unfold bind at 1. rewrite E2.
  unfold bind at 1. rewrite E3.
  unfold bind at 1, local_array.
  rewrite E4, E5. cbn [obind]. rewrite !shiftl8_add.
  fold address. fold n.
  set (buf := uninit (stack_garbage w) (Z.to_nat MAX_PACKET_SIZE)).
  assert (Hbuf : len buf = 260) by (subst buf; apply len_uninit).
  assert (Hroom : len (skipn (Z.to_nat (header_length mb + 3)) buf)
                  = 257 - header_length mb).
  { unfold len in *. rewrite length_skipn. lia. }
  destruct (build_response_packet_ok mb slave fc (2 * n) buf w Hmb
              ltac:(lia))
    as (head & w1 & Eb & Hhead & Htid & Tr1 & Ws1 & In1).
  set (pre := head ++ [u8 slave; u8 fc; u8 (2 * n)]).
  set (room := skipn (Z.to_nat (header_length mb + 3)) buf) in *.
  assert (Hpre : len pre = header_length mb + 3).
  { subst pre. rewrite len_app, Hhead. reflexivity. }
  assert (Eb' : build_response_packet mb slave fc (2 * n) buf w
                = (Some (len pre, pre ++ room), w1)).
  { rewrite Eb, Hpre. subst pre. rewrite <- app_assoc. reflexivity. }
  clear Eb.
  pose proof (response_registers_loop_ok tab (Z.to_nat n) address pre room
                Hw ltac:(lia) ltac:(lia) ltac:(lia)) as El.
  fold regs in El.
  set (body := pre ++ registers_bytes regs).
  set (room' := skipn (2 * Z.to_nat n) room) in *.
  assert (Hbody : len body = len pre + 2 * Z.of_nat (Z.to_nat n)).
  { subst body. rewrite len_app, len_registers_bytes, Hregs. lia. }
  assert (El' : response_registers_loop (Z.to_nat n) address tab
                  (pre ++ room) (len pre)
                = Some (len body, body ++ room')).
  { rewrite El, Hbody. subst body. rewrite <- app_assoc. reflexivity. }
  clear El.
  destruct (modbus_send_outcome mb body room' w1 Hmb)
    as (r & q' & w2 & Es & Hwr & Hsent).
  { lia. }
  { subst room'. unfold len in *. rewrite length_skipn. lia. }
  { lia. }
  assert (Hframe : sent_frame mb body
                   = adu mb (mbap_of (next_response_t_id w) (3 + 2 * n))
                         (slave :: fc :: 2 * n :: registers_bytes regs)).
  { subst body pre. rewrite <- app_assoc.
    rewrite (sent_frame_response mb head _ (next_response_t_id w))
      by assumption.
    cbn [app]. rewrite !len_cons, len_registers_bytes, Hregs.
    rewrite (u8_byte slave) by assumption.
    rewrite (u8_byte fc)
      by (destruct Hfc as [-> | ->]; cbv; split; congruence).
    rewrite (u8_byte (2 * n)) by (unfold is_byte; lia).
    replace (1 + (1 + (1 + 2 * n))) with (3 + 2 * n) by lia.
    reflexivity. }
  exists w2. split; [| split; [rewrite Hwr, Tr1, Hframe; reflexivity |]].
  2: { intros Hws. rewrite Ws1, Hws in Hsent. destruct Hsent as [_ Hi].
       congruence. }
  subst tab.
  destruct Hfc as [-> | ->];
    cbn [Z.eqb Pos.eqb FC_READ_COIL_STATUS FC_READ_INPUT_STATUS
         FC_READ_HOLDING_REGISTERS FC_READ_INPUT_REGISTERS] in *;
    unfold bind at 1; unfold bind at 1;
    unfold bind at 1; rewrite Eb';
    unfold bind at 1; rewrite El';
    unfold ret at 1; unfold bind at 1; rewrite Es; reflexivity.
Qed.

(** X13. The server answers a Read Holding Registers or Read Input
    Registers request with the unit and function code of the request,
    twice the quantity as byte count, and the registers from the address
    on, high byte first, closed by the CRC on a serial line; on TCP the
    MBAP header carries the server's own transaction counter, not the
    transaction id of the request, and the length of the PDU.  The map is
    left as it was, and so is the input when the transport takes the
    response. *)
Theorem manage_query_read_registers {hdr : modbus_h} (mb : modbus_param_t)
    (query : list Z) (query_size : Z) (mb_mapping : modbus_mapping_t)
    (slave fc a_hi a_lo q_hi q_lo : Z) (w : world) :
  initialised mb ->
  load query (header_length mb) = Some slave ->
  load query (header_length mb + 1) = Some fc ->
  load query (header_length mb + 2) = Some a_hi ->
  load query (header_length mb + 3) = Some a_lo ->
  load query (header_length mb + 4) = Some q_hi ->
  load query (header_length mb + 5) = Some q_lo ->
  is_byte slave -> is_byte a_hi -> is_byte a_lo ->
  is_byte q_hi -> is_byte q_lo ->
  fc = FC_READ_HOLDING_REGISTERS \/ fc = FC_READ_INPUT_REGISTERS ->
  let tab := if fc =? FC_READ_HOLDING_REGISTERS
             then tab_holding_registers mb_mapping
             else tab_input_registers mb_mapping in
  let address := word_of a_hi a_lo in
  let n := word_of q_hi q_lo in
  Forall is_word tab ->
  address + n <= len tab ->
  header_length mb + 3 + 2 * n + checksum_size mb <= MAX_PACKET_SIZE ->
  exists w',
    manage_query mb query query_size mb_mapping w = (Some mb_mapping, w')
    /\ writes (trace w')
       = writes (trace w)
         ++ [adu mb (mbap_of (next_response_t_id w) (3 + 2 * n))
               (slave :: fc :: 2 * n
                  :: registers_bytes
                       (firstn (Z.to_nat n) (skipn (Z.to_nat address) tab)))]
    /\ (write_script w = [] -> incoming w' = incoming w).
Proof. apply manage_query_registers. Qed.

Lemma manage_query_read_registers_witness :
  let m := mkMapping 0 0 0 4 [] [] [] [0x1111; 0xAE41; 0x5652; 0x4340] in
  exists w',
    @manage_query example_h modbus_init_tcp
      [0; 7; 0; 0; 0; 6; 0x11; 0x03; 0x00; 0x01; 0x00; 0x03] 12 m
      (idle_world [])
    = (Some m, w')
    /\ writes (trace w')
       = [[0; 1; 0; 0; 0; 9; 0x11; 0x03; 0x06; 0xAE; 0x41; 0x56; 0x52; 0x43;
           0x40]]
    /\ (write_script (idle_world []) = [] -> incoming w' = []).
Proof.
  intros m.
  apply (@manage_query_read_registers example_h modbus_init_tcp
           [0; 7; 0; 0; 0; 6; 0x11; 0x03; 0x00; 0x01; 0x00; 0x03] 12 m
           0x11 0x03 0x00 0x01 0x00 0x03 (idle_world []));
    try reflexivity; try (split; cbv; congruence);
    try (left; reflexivity); try (repeat constructor; cbv; congruence);
    cbv; discriminate.
Defined.

(** ** A read of more registers than a response can hold *)

Lemma store_out (buf : list Z) (i v : Z) :
  len buf <= i -> store buf i v = None.
Proof.
  intros H. destruct (store buf i v) as [buf' |] eqn:E; [| reflexivity].
  pose proof (load_Some_range _ _ _ (store_load_same _ _ _ _ E)) as Hr.
  pose proof (store_len _ _ _ _ E). lia.
Qed.

Lemma response_registers_loop_shape (tab : list Z) :
  forall (n : nat) (i : Z) (response : list Z) (offset : Z),
    0 <= offset <= len response ->
    match response_registers_loop n i tab response offset with
    | Some (offset', response') =>
        offset' = offset + 2 * Z.of_nat n
        /\ len response' = len response
        /\ offset' <= len response
    | None => True
    end.
Proof.
  induction n as [| n IH]; intros i response offset Hoff.
  - cbn [response_registers_loop]. lia.
  - cbn [response_registers_loop].
    destruct (load tab i) as [v |]; [| exact I]. cbn [obind].
    unfold store8.
    destruct (store response offset _) as [r1 |] eqn:E1; [| exact I].
    cbn [obind].
    destruct (store r1 (offset + 1) _) as [r2 |] eqn:E2; [| exact I].
    cbn [obind].
    pose proof (store_len _ _ _ _ E1) as L1.
    pose proof (store_len _ _ _ _ E2) as L2.
    pose proof (load_Some_range _ _ _ (store_load_same _ _ _ _ E2)) as R2.
    specialize (IH (i + 1) r2 (offset + 2) ltac:(lia)).
    destruct (response_registers_loop n (i + 1) tab r2 (offset + 2))
      as [[o' r'] |]; [| exact I].
    lia.
Qed.

(** On a serial line the CRC needs two bytes after the body. *)
Lemma modbus_send_out {hdr : modbus_h} (mb : modbus_param_t)
    (query : list Z) (query_size : Z) (w : world) :
  initialised mb ->
  0 <= query_size <= len query ->
  len query < query_size + checksum_size mb ->
  modbus_send mb query query_size w = (None, w).
Proof.
  intros Hmb Hs Hout. unfold modbus_send, modbus_send_envelope.
  destruct (initialised_cases mb Hmb) as [(Ht & _ & Hc) | (Ht & _ & Hc)];
    rewrite Ht; rewrite Hc in Hout; [| lia].
  unfold store8, bind, lift.
  destruct (store query query_size _) as [q1 |] eqn:E1; [| reflexivity].
  cbn [obind]. pose proof (store_len _ _ _ _ E1) as L1.
  rewrite store_out by lia. reflexivity.
Qed.

(** X14. The quantity of a Read Holding Registers or Read Input Registers
    request is not checked against the size of the response: when
    [header_length + 3 + 2 * quantity + checksum_size] exceeds
    [MAX_PACKET_SIZE], whatever the size of the register table,
    [manage_query] accesses [response] or the table past its end while it
    builds or closes the response.  The embedding faults at the first such
    access; what the program does from there on is undefined. *)
Theorem manage_query_read_registers_overflow {hdr : modbus_h}
    (mb : modbus_param_t) (query : list Z) (query_size : Z)
    (mb_mapping : modbus_mapping_t) (slave fc a_hi a_lo q_hi q_lo : Z)
    (w : world) :
  initialised mb ->
  load query (header_length mb) = Some slave ->
  load query (header_length mb + 1) = Some fc ->
  load query (header_length mb + 2) = Some a_hi ->
  load query (header_length mb + 3) = Some a_lo ->
  load query (header_length mb + 4) = Some q_hi ->
  load query (header_length mb + 5) = Some q_lo ->
  is_byte q_hi -> is_byte q_lo ->
  fc = FC_READ_HOLDING_REGISTERS \/ fc = FC_READ_INPUT_REGISTERS ->
  MAX_PACKET_SIZE
  < header_length mb + 3 + 2 * word_of q_hi q_lo + checksum_size mb ->
  fst (manage_query mb query query_size mb_mapping w) = None.
Proof.
  intros Hmb E0 E1 E2 E3 E4 E5 B4 B5 Hfc Hbig.
  assert (Hh : 0 <= header_length mb <= 6 /\ 0 <= checksum_size mb).
  { destruct (initialised_cases mb Hmb) as [(_ & -> & ->) | (_ & -> & ->)];
      lia. }
  pose proof (word_of_range q_hi q_lo B4 B5) as Hn.
  set (n := word_of q_hi q_lo) in *. unfold MAX_PACKET_SIZE in Hbig.
  set (address := word_of a_hi a_lo).
  set (buf := uninit (stack_garbage w) (Z.to_nat MAX_PACKET_SIZE)).
  assert (Hbuf : len buf = 260) by (subst buf; apply len_uninit).
  destruct (build_response_packet_ok mb slave fc (2 * n) buf w Hmb
              ltac:(lia))
    as (head & w1 & Eb & Hhead & _ & Tr1 & _ & _).
  set (response := head ++ [u8 slave; u8 fc; u8 (2 * n)]
                   ++ skipn (Z.to_nat (header_length mb + 3)) buf) in *.
  assert (Hresp : len response = 260).
  { subst response. unfold len in *.
    rewrite !length_app, length_skipn. cbn [length]. lia. }
  assert (Hall : exists w',
             manage_query mb query query_size mb_mapping w = (None, w')
             /\ trace w' = trace w).
  { unfold manage_query.
    unfold bind at 1, lift. rewrite E0.
    unfold bind at 1. rewrite E1.
    unfold bind at 1. rewrite E2.
    unfold bind at 1. rewrite E3.
    unfold bind at 1, local_array.
    rewrite E4, E5. cbn [obind]. rewrite !shiftl8_add.
    fold address. fold n. fold buf.
    assert (Hsend : forall tab,
      match response_registers_loop (Z.to_nat n) address tab response
                                    (header_length mb + 3) with
      | Some (o, r) => modbus_send mb r o w1 = (None, w1)
      | None => True
      end).
    { intros tab.
      pose proof (response_registers_loop_shape tab (Z.to_nat n) address
                    response (header_length mb + 3) ltac:(lia)) as Hs.
      destruct (response_registers_loop _ _ _ _ _) as [[o r] |]; [| exact I].
      apply modbus_send_out; [assumption | lia | lia]. }
    destruct Hfc as [-> | ->];
      cbn [Z.eqb Pos.eqb FC_READ_COIL_STATUS FC_READ_INPUT_STATUS
           FC_READ_HOLDING_REGISTERS FC_READ_INPUT_REGISTERS] in *;
      unfold bind at 1; unfold bind at 1;
      unfold bind at 1; rewrite Eb;
      unfold bind at 1;
      [specialize (Hsend (tab_holding_registers mb_mapping))
      | specialize (Hsend (tab_input_registers mb_mapping))];
      destruct (response_registers_loop _ _ _ _ _) as [[o r] |];
      try (unfold ret at 1; unfold bind at 1; rewrite Hsend);
      exists w1; split; (reflexivity || assumption). }
  destruct Hall as (w' & E & _). rewrite E. reflexivity.
Qed.

Lemma manage_query_read_registers_overflow_witness :
  fst (@manage_query example_h modbus_init_rtu
         [0x11; 0x03; 0x00; 0x00; 0x00; 0x80; 0x46; 0xFA] 8
         (modbus_mapping_new 0 0 200 200) (idle_world [])) = None.
Proof.
  apply (@manage_query_read_registers_overflow example_h modbus_init_rtu
           [0x11; 0x03; 0x00; 0x00; 0x00; 0x80; 0x46; 0xFA] 8
           (modbus_mapping_new 0 0 200 200) 0x11 0x03 0x00 0x00 0x00 0x80
           (idle_world []));
    try reflexivity; try (split; cbv; congruence);
    try (left; reflexivity).
Defined.

(** ** A request as the master builds it *)

Lemma build_query_packet_content {hdr : modbus_h} (mb : modbus_param_t)
    (slave function start_addr count : Z) (packet : list Z) (w : world) :
  initialised mb ->
  header_length mb + 6 <= len packet ->
  exists head w',
    build_query_packet mb slave function start_addr count packet w
    = (Some (header_length mb + 6,
             head ++ ([u8 slave; u8 function] ++ be16 (u16 start_addr)
                      ++ be16 (u16 count))
             ++ skipn (Z.to_nat (header_length mb + 6)) packet), w')
    /\ len head = header_length mb
    /\ (type_com mb = TCP ->
        firstn 4 head
        = [u8 (Z.shiftr (next_t_id (t_id_query w)) 8);
           u8 (Z.land (next_t_id (t_id_query w)) 255); 0; 0])
    /\ trace w' = trace w
    /\ write_script w' = write_script w
    /\ incoming w' = incoming w
    /\ stack_garbage w' = stack_garbage w.
Proof.
  intros Hmb Hlen. unfold build_query_packet.
  assert (Ha : 0 <= u16 start_addr < 65536)
    by (apply Z.mod_pos_bound; lia).
  assert (Hc : 0 <= u16 count < 65536) by (apply Z.mod_pos_bound; lia).
  assert (Hu : forall z, 0 <= z < 65536 ->
                 u8 (Z.shiftr z 8) = Z.shiftr z 8
                 /\ u8 (Z.land z 255) = Z.land z 255).
  { intros z Hz. split; apply u8_byte;
      [apply shiftr8_byte; exact Hz | apply land255_byte; lia]. }
  destruct (Hu _ Ha) as [Ha1 Ha2]. destruct (Hu _ Hc) as [Hc1 Hc2].
  destruct (initialised_cases mb Hmb) as [(Ht & Hh & _) | (Ht & Hh & _)];
    rewrite Ht, Hh in *.
  - destruct packet as [| p0 [| p1 [| p2 [| p3 [| p4 [| p5 packet]]]]]];
      try (unfold len in Hlen; cbn [length] in Hlen; lia).
    exists [], w. split; [| repeat split; try reflexivity; discriminate].
    unfold lift, build_query_packet_rtu, store8, store.
    cbn [Z.ltb Z.compare]. change (Z.to_nat 0) with 0%nat.
    change (Z.to_nat 1) with 1%nat. change (Z.to_nat 2) with 2%nat.
    change (Z.to_nat 3) with 3%nat. change (Z.to_nat 4) with 4%nat.
    change (Z.to_nat 5) with 5%nat.
    cbn [upd obind app be16 skipn Z.add Z.to_nat Pos.to_nat Pos.iter_op
         Nat.add].
    rewrite !u8_u8, Ha1, Ha2, Hc1, Hc2. reflexivity.
  - destruct packet
      as [| p0 [| p1 [| p2 [| p3 [| p4 [| p5 [| p6 [| p7 [| p8 [| p9
            [| p10 [| p11 packet]]]]]]]]]]]];
      try (unfold len in Hlen; cbn [length] in Hlen; lia).
    exists [u8 (Z.shiftr (next_t_id (t_id_query w)) 8);
            u8 (Z.land (next_t_id (t_id_query w)) 255); 0; 0; p4; p5],
      (set_t_id_query (next_t_id (t_id_query w)) w).
    split; [| repeat split; reflexivity].
    unfold build_query_packet_tcp, store8, store.
    cbn [Z.ltb Z.compare].
    change (Z.to_nat 0) with 0%nat.
    change (Z.to_nat 1) with 1%nat. change (Z.to_nat 2) with 2%nat.
    change (Z.to_nat 3) with 3%nat. change (Z.to_nat 6) with 6%nat.
    change (Z.to_nat 7) with 7%nat. change (Z.to_nat 8) with 8%nat.
    change (Z.to_nat 9) with 9%nat. change (Z.to_nat 10) with 10%nat.
    change (Z.to_nat 11) with 11%nat.
    cbn [upd obind app be16].
    rewrite !u8_u8, Ha1, Ha2, Hc1, Hc2. reflexivity.
Qed.

(** The request is built, closed and handed to the transport. *)
Lemma query_phase {hdr : modbus_h} (mb : modbus_param_t)
    (slave function start_addr count : Z) (packet : list Z) (w : world) :
  initialised mb ->
  12 <= len packet ->
  exists q1 w1 r q2 w2,
    build_query_packet mb slave function start_addr count packet w
    = (Some (header_length mb + 6, q1), w1)
    /\ modbus_send mb q1 (header_length mb + 6) w1 = (Some (r, q2), w2)
    /\ writes (trace w2)
       = writes (trace w)
         ++ [request_frame mb w slave function start_addr count].
Proof.
  intros Hmb Hlen.
  assert (Hh : 0 <= header_length mb /\ 0 <= checksum_size mb
               /\ header_length mb + 6 + checksum_size mb <= 12).
  { destruct (initialised_cases mb Hmb) as [(_ & -> & ->) | (_ & -> & ->)];
      lia. }
  destruct (build_query_packet_content mb slave function start_addr count
              packet w Hmb ltac:(lia))
    as (head & w1 & E1 & Hhead & Htid & T1 & _).
  set (pdu := [u8 slave; u8 function] ++ be16 (u16 start_addr)
              ++ be16 (u16 count)) in *.
  set (room := skipn (Z.to_nat (header_length mb + 6)) packet) in *.
  assert (Hbody : len (head ++ pdu) = header_length mb + 6).
  { rewrite len_app, Hhead. reflexivity. }
  destruct (modbus_send_outcome mb (head ++ pdu) room w1 Hmb)
    as (r & q2 & w2 & E2 & Hwr & _); try lia.
  { subst room. unfold len in *. rewrite length_skipn. lia. }
  exists ((head ++ pdu) ++ room), w1, r, q2, w2.
  split; [rewrite E1, <- app_assoc; reflexivity |].
  split; [rewrite <- Hbody; exact E2 |].
  rewrite Hwr, T1.
  rewrite (sent_frame_response mb head pdu (next_t_id (t_id_query w)))
    by assumption.
  reflexivity.
Qed.

Lemma read_registers_request {hdr : modbus_h} (mb : modbus_param_t)
    (slave function start_addr count : Z) (data_dest : list Z) (w : world) :
  initialised mb ->
  writes (trace (snd (read_registers mb slave function start_addr count
                                     data_dest w)))
  = writes (trace w) ++ [request_frame mb w slave function start_addr count].
Proof.
  intros Hmb. unfold read_registers. unfold bind at 1, local_array.
  destruct (query_phase mb slave function start_addr count
              (uninit (stack_garbage w) (Z.to_nat MIN_QUERY_SIZE)) w Hmb)
    as (q1 & w1 & r & q2 & w2 & E1 & E2 & Hw);
    [rewrite len_uninit; cbv; discriminate |].
  unfold bind at 1. rewrite E1. unfold bind at 1. rewrite E2.
  rewrite <- Hw.
  destruct (r >? 0); [apply keeps_read_reg_response | reflexivity].
Qed.

Lemma read_io_status_request {hdr : modbus_h} (mb : modbus_param_t)
    (slave function start_addr count : Z) (data_dest : list Z) (w : world) :
  initialised mb ->
  writes (trace (snd (read_io_status mb slave function start_addr count
                                     data_dest w)))
  = writes (trace w) ++ [request_frame mb w slave function start_addr count].
Proof.
  intros Hmb. unfold read_io_status.
  unfold bind at 1, local_array. unfold bind at 1, local_array.
  destruct (query_phase mb slave function start_addr count
              (uninit (stack_garbage w) (Z.to_nat MIN_QUERY_SIZE)) w Hmb)
    as (q1 & w1 & r & q2 & w2 & E1 & E2 & Hw);
    [rewrite len_uninit; cbv; discriminate |].
  unfold bind at 1. rewrite E1. unfold bind at 1. rewrite E2.
  rewrite <- Hw.
  destruct (r >? 0); [| reflexivity].
  apply keeps_bind; [apply keeps_modbus_check_response |].
  intros [ret_ response].
  apply keeps_bind; [apply keeps_lift | intros; apply keeps_ret].
Qed.

Lemma set_single_request {hdr : modbus_h} (mb : modbus_param_t)
    (slave function addr value : Z) (w : world) :
  initialised mb ->
  writes (trace (snd (set_single mb slave function addr value w)))
  = writes (trace w) ++ [request_frame mb w slave function addr value].
Proof.
  intros Hmb. unfold set_single. unfold bind at 1, local_array.
  destruct (query_phase mb slave function addr value
              (uninit (stack_garbage w) (Z.to_nat MAX_PACKET_SIZE)) w Hmb)
    as (q1 & w1 & r & q2 & w2 & E1 & E2 & Hw);
    [rewrite len_uninit; cbv; discriminate |].
  unfold bind at 1. rewrite E1. unfold bind at 1. rewrite E2.
  rewrite <- Hw.
  destruct (r >? 0); [apply keeps_preset_response | reflexivity].
Qed.

(** X9. The frame that each operation with a six-byte request hands to
    the transport: unit, function code, address and quantity (or value),
    the last two high byte first; on a serial line followed by the CRC, on
    TCP preceded by the next transaction id, protocol 0 and length 6.
    Quantities of registers are capped at 125 first, and the value of
    [force_single_coil] is 0xFF00 for any state other than 0. *)
Theorem request_frames {hdr : modbus_h} (mb : modbus_param_t)
    (slave addr count : Z) (data_dest : list Z) (w : world) :
  initialised mb ->
  let sent (A : Type) (m : M A) (function value : Z) :=
    writes (trace (snd (m w)))
    = writes (trace w) ++ [request_frame mb w slave function addr value] in
  sent _ (read_coil_status mb slave addr count data_dest)
       FC_READ_COIL_STATUS count
  /\ sent _ (read_input_status mb slave addr count data_dest)
          FC_READ_INPUT_STATUS count
  /\ sent _ (read_holding_registers mb slave addr count data_dest)
          FC_READ_HOLDING_REGISTERS (if count >? 125 then 125 else count)
  /\ sent _ (read_input_registers mb slave addr count data_dest)
          FC_READ_INPUT_REGISTERS (if count >? 125 then 125 else count)
  /\ sent _ (force_single_coil mb slave addr count)
          FC_FORCE_SINGLE_COIL (if count =? 0 then 0 else 0xFF00)
  /\ sent _ (preset_single_register mb slave addr count)
          FC_PRESET_SINGLE_REGISTER count.
Proof.
  intros Hmb sent. subst sent. cbv beta.
  assert (Hio : forall function,
    writes (trace (snd ((' (status, data_dest0) <-
                           read_io_status mb slave function addr count
                                          data_dest ;;
                         ret (if status >? 0 then count else status,
                              data_dest0)) w)))
    = writes (trace w) ++ [request_frame mb w slave function addr count]).
  { intros function.
    rewrite <- (read_io_status_request mb slave function addr count
                  data_dest w Hmb).
    unfold bind, ret.
    destruct (read_io_status mb slave function addr count data_dest w)
      as [[[st d] |] w1]; reflexivity. }
  repeat split.
  - apply Hio.
  - apply Hio.
  - apply read_registers_request. assumption.
  - apply read_registers_request. assumption.
  - unfold force_single_coil.
    rewrite set_single_request by assumption.
    destruct (Z.eqb_spec count 0) as [-> | _]; reflexivity.
  - apply set_single_request. assumption.
Qed.

Lemma request_frames_witness :
  writes (trace (snd (@read_holding_registers example_h modbus_init_rtu
                        0x11 0x6B 3 [0; 0; 0] (idle_world []))))
  = [[0x11; 0x03; 0x00; 0x6B; 0x00; 0x03; 0x76; 0x87]].
Proof.
  apply (@request_frames example_h modbus_init_rtu 0x11 0x6B 3 [0; 0; 0]
           (idle_world [])).
  split; reflexivity.
Defined.

(** ** From the table of the server to the array of the master *)

Lemma Forall_slice (A : Type) (P : A -> Prop) (l : list A) (a n : nat) :
  Forall P l -> Forall P (firstn n (skipn a l)).
Proof.
  intros H. rewrite <- (firstn_skipn a l) in H.
  apply Forall_app in H as [_ H].
  rewrite <- (firstn_skipn n (skipn a l)) in H.
  apply Forall_app in H as [H _]. exact H.
Qed.

Lemma last_frame (l : list (list Z)) (a b : list Z) :
  l ++ [a] = l ++ [b] -> a = b.
Proof. intros H. apply app_inv_head in H. congruence. Qed.

(** X15. The master and the server agree on Read Holding Registers.  Take
    the request that [read_holding_registers] sends and the response that
    [manage_query] writes to it from a table that holds the registers
    asked for; when that response arrives at the master, in whatever
    segments, [read_holding_registers] returns the quantity, capped at
    125, and the destination starts with the registers of the table from
    the address on. *)
Theorem read_holding_registers_round_trip {hdr : modbus_h}
    (mb : modbus_param_t) (slave addr count : Z) (data_dest : list Z)
    (mb_mapping : modbus_mapping_t) (wm ws : world) (q r extra : list Z)
    (chunks : list (list Z)) (rest : list io_event) :
  initialised mb ->
  write_script wm = [] ->
  0 <= addr < 65536 ->
  0 <= count ->
  let n := if count >? 125 then 125 else count in
  let tab := tab_holding_registers mb_mapping in
  Forall is_word tab ->
  addr + n <= len tab ->
  n <= len data_dest ->
  writes (trace (snd (read_holding_registers mb slave addr count data_dest
                                             wm)))
  = writes (trace wm) ++ [q] ->
  writes (trace (snd (manage_query mb q (len q) mb_mapping ws)))
  = writes (trace ws) ++ [r] ->
  Forall nonempty chunks ->
  concat chunks = r ++ extra ->
  incoming wm = map Chunk chunks ++ rest ->
  fst (read_holding_registers mb slave addr count data_dest wm)
  = Some (n, firstn (Z.to_nat n) (skipn (Z.to_nat addr) tab)
             ++ skipn (Z.to_nat n) data_dest).
Proof.
  intros Hmb Hws Haddr Hcount n tab Hw Htab Hroom Hq Hr Hne Hcat Hin.
  assert (Hn : 0 <= n <= 125)
    by (subst n; destruct (Z.gtb_spec count 125); lia).
  assert (Hh : 0 <= header_length mb /\ 0 <= checksum_size mb
               /\ header_length mb + checksum_size mb <= 6).
  { destruct (initialised_cases mb Hmb) as [(_ & -> & ->) | (_ & -> & ->)];
      lia. }
  unfold read_holding_registers in *.
  change MAX_READ_HOLD_REGS with 125 in *. fold n in Hq |- *.
  (* the request *)
  rewrite read_registers_request in Hq by assumption.
  apply last_frame in Hq. subst q.
  unfold request_frame, request_pdu in Hr.
  rewrite !u16_small in Hr by lia.
  set (mbap := mbap_of (next_t_id (t_id_query wm)) 6) in *.
  set (pdu := [u8 slave; u8 FC_READ_HOLDING_REGISTERS] ++ be16 addr
              ++ be16 n) in *.
  assert (Hfield : forall j v, load pdu j = Some v -> 0 <= j < 6 ->
                     load (adu mb mbap pdu) (header_length mb + j) = Some v).
  { intros j v E Hj. rewrite load_adu; [exact E | assumption | reflexivity |].
    exact Hj. }
  (* the response *)
  assert (L0 : load (adu mb mbap pdu) (header_length mb) = Some (u8 slave)).
  { rewrite <- (Z.add_0_r (header_length mb)).
    apply Hfield; [reflexivity | lia]. }
  pose proof (Hfield 1 _ eq_refl ltac:(lia)) as L1.
  pose proof (Hfield 2 _ eq_refl ltac:(lia)) as L2.
  pose proof (Hfield 3 _ eq_refl ltac:(lia)) as L3.
  pose proof (Hfield 4 _ eq_refl ltac:(lia)) as L4.
  pose proof (Hfield 5 _ eq_refl ltac:(lia)) as L5.
  pose proof (manage_query_registers mb (adu mb mbap pdu)
                (len (adu mb mbap pdu)) mb_mapping (u8 slave)
                FC_READ_HOLDING_REGISTERS (Z.shiftr addr 8)
                (Z.land addr 255) (Z.shiftr n 8) (Z.land n 255) ws Hmb
                L0 L1 L2 L3 L4 L5 (is_byte_u8 slave)
                (shiftr8_byte addr Haddr)
                (land255_byte addr ltac:(lia))
                (shiftr8_byte n ltac:(lia))
                (land255_byte n ltac:(lia))
                (or_introl eq_refl)) as Hserver.
  cbv zeta in Hserver.
  rewrite !word_of_split in Hserver by lia.
  change (FC_READ_HOLDING_REGISTERS =? FC_READ_HOLDING_REGISTERS)
    with true in Hserver.
  cbv iota in Hserver.
  destruct (Hserver Hw Htab ltac:(unfold MAX_PACKET_SIZE; lia))
    as (w' & Eserver & Hsent & _).
  rewrite Eserver in Hr. cbn [snd] in Hr.
  rewrite Hsent in Hr. apply last_frame in Hr. subst r.
  (* the decoding *)
  set (regs := firstn (Z.to_nat n) (skipn (Z.to_nat addr) tab)) in *.
  assert (Hregs : len regs = n).
  { subst regs. unfold len in *. rewrite length_firstn, length_skipn. lia. }
  replace (Z.to_nat n) with (length regs) by (unfold len in *; lia).
  apply (read_registers_ok mb slave FC_READ_HOLDING_REGISTERS addr n
           data_dest (mbap_of (next_response_t_id ws) (3 + 2 * n))
           (u8 slave) regs extra chunks rest wm);
    try assumption; try reflexivity.
  - left. reflexivity.
  - apply Forall_slice. assumption.
Qed.

Lemma read_holding_registers_round_trip_witness :
  let m := mkMapping 0 0 0 4 [] [] [] [0x1111; 0xAE41; 0x5652; 0x4340] in
  let r := [0; 1; 0; 0; 0; 9; 0x11; 0x03; 0x06; 0xAE; 0x41; 0x56; 0x52;
            0x43; 0x40] in
  fst (@read_holding_registers example_h modbus_init_tcp 0x11 1 3
         [0; 0; 0; 9] (idle_world [Chunk (firstn 7 r); Chunk (skipn 7 r)]))
  = Some (3, [0xAE41; 0x5652; 0x4340; 9]).
Proof.
  intros m r.
  apply (@read_holding_registers_round_trip example_h modbus_init_tcp 0x11 1
           3 [0; 0; 0; 9] m
           (idle_world [Chunk (firstn 7 r); Chunk (skipn 7 r)])
           (idle_world [])
           [0; 1; 0; 0; 0; 6; 0x11; 0x03; 0x00; 0x01; 0x00; 0x03] r []
           [firstn 7 r; skipn 7 r] []).
  - split; reflexivity.
  - reflexivity.
  - split; [discriminate | reflexivity].
  - discriminate.
  - repeat constructor; cbv; congruence.
  - vm_compute. discriminate.
  - vm_compute. discriminate.
  - vm_compute. reflexivity.
  - vm_compute. reflexivity.
  - repeat constructor; discriminate.
  - reflexivity.
  - reflexivity.
Defined.

(** ** Coils from a byte and back *)

Lemma store_app_r (pre l : list Z) (i v : Z) :
  0 <= i ->
  store (pre ++ l) (len pre + i) v = option_map (app pre) (store l i v).
Proof.
  intros Hi. unfold store. pose proof (len_nonneg pre) as Hp.
  destruct (Z.ltb_spec (len pre + i) 0); [lia |].
  destruct (Z.ltb_spec i 0); [lia |].
  replace (Z.to_nat (len pre + i)) with (length pre + Z.to_nat i)%nat
    by (unfold len; lia).
  generalize (Z.to_nat i). clear. intros n.
  induction pre as [| x pre IH]; cbn [length Nat.add app upd].
  - destruct (upd n v l); reflexivity.
  - rewrite IH. destruct (upd n v l); reflexivity.
Qed.

Lemma set_bits_fold (value : Z) (pre post : list Z) :
  forall (todo done : list Z) (start : Z),
    len done = start ->
    fold_left
      (fun d i =>
         do dest <- d;
         store8 dest (len pre + i)
                (if Z.land value (Z.shiftl 1 i) =? 0 then OFF else ON))
      (zseq start (length todo)) (Some (pre ++ done ++ todo ++ post))
    = Some (pre ++ done
            ++ map (fun i => if Z.land value (Z.shiftl 1 i) =? 0
                             then OFF else ON)
                   (zseq start (length todo))
            ++ post).
Proof.
  induction todo as [| d todo IH]; intros done start Hdone; [reflexivity |].
  cbn [length zseq fold_left map obind app].
  unfold store8 at 2.
  replace (len pre + start) with (len (pre ++ done))
    by (rewrite len_app; lia).
  rewrite (app_assoc pre done), store_app.
  set (b := if Z.land value (Z.shiftl 1 start) =? 0 then OFF else ON).
  assert (Hb : u8 b = b) by (subst b; destruct (_ =? _); reflexivity).
  rewrite Hb.
  replace ((pre ++ done) ++ b :: todo ++ post)
    with (pre ++ (done ++ [b]) ++ todo ++ post)
    by (rewrite <- !app_assoc; reflexivity).
  rewrite IH by (rewrite len_app; change (len [b]) with 1; lia).
  rewrite <- !app_assoc. reflexivity.
Qed.

Lemma set_bits_from_byte_at (pre post : list Z) (d0 d1 d2 d3 d4 d5 d6 d7 : Z)
    (value : Z) :
  len pre < 65536 ->
  set_bits_from_byte (pre ++ [d0; d1; d2; d3; d4; d5; d6; d7] ++ post)
                     (len pre) value
  = Some (pre ++ byte_bits (u8 value) ++ post).
Proof.
  intros Hp. pose proof (len_nonneg pre) as Hp0.
  unfold set_bits_from_byte. rewrite u16_small by lia.
  apply (set_bits_fold (u8 value) pre post [d0; d1; d2; d3; d4; d5; d6; d7]
           [] 0).
  reflexivity.
Qed.

Lemma get_byte_from_bits_loop_at (pre l post : list Z) :
  forall (n : nat) (i value : Z),
    0 <= i -> i + Z.of_nat n <= len l ->
    get_byte_from_bits_loop n i (pre ++ l ++ post) (len pre) value
    = get_byte_from_bits_loop n i l 0 value.
Proof.
  induction n as [| n IH]; intros i value Hi Hn; [reflexivity |].
  cbn [get_byte_from_bits_loop].
  rewrite load_app_r, load_app_l by lia. rewrite Z.add_0_l.
  destruct (load l i); [| reflexivity]. cbn [obind].
  apply IH; lia.
Qed.

Lemma byte_bits_read_back_all :
  forallb byte_bits_read_back (zseq 0 (Z.to_nat 256)) = true.
Proof. vm_compute. reflexivity. Qed.

Lemma get_byte_from_bits_loop_byte_bits (value k : Z) :
  is_byte value -> 0 <= k <= 8 ->
  get_byte_from_bits_loop (Z.to_nat k) 0 (byte_bits value) 0 0
  = Some (Z.land value (Z.ones k)).
Proof.
  intros Hv Hk.
  pose proof (forallb_zseq byte_bits_read_back 256 byte_bits_read_back_all
                value Hv) as H.
  unfold byte_bits_read_back in H.
  pose proof (forallb_zseq _ 9 H k ltac:(lia)) as Hk'. cbv beta in Hk'.
  destruct (get_byte_from_bits_loop (Z.to_nat k) 0 (byte_bits value) 0 0)
    as [r |]; [| discriminate].
  apply Z.eqb_eq in Hk'. congruence.
Qed.

Lemma load_byte_bits (value i : Z) :
  0 <= i < 8 ->
  load (byte_bits value) i = Some (if Z.testbit value i then ON else OFF).
Proof.
  intros Hi.
  assert (Hb : forall s, 0 <= s ->
            (if Z.land value (Z.shiftl 1 s) =? 0 then OFF else ON)
            = (if Z.testbit value s then ON else OFF)).
  { intros s Hs. rewrite land_bit by exact Hs.
    destruct (Z.testbit value s); reflexivity. }
  assert (Hc : i = 0 \/ i = 1 \/ i = 2 \/ i = 3 \/ i = 4 \/ i = 5
               \/ i = 6 \/ i = 7) by lia.
  unfold byte_bits. cbn [map]. rewrite !Hb by lia.
  repeat (destruct Hc as [-> | Hc]; [reflexivity |]).
  subst i. reflexivity.
Qed.

(** X16. [set_bits_from_byte] writes the eight bits of a byte, least
    significant first, into eight consecutive coils, ON for a bit that is
    set and OFF for one that is not, and touches nothing else;
    [get_byte_from_bits] on the same address then gives back the low
    [nb_bits] bits of the byte, and the whole byte for 8 or more. *)
Theorem bits_of_byte_round_trip (dest : list Z) (address value nb_bits : Z) :
  0 <= address ->
  address + 8 <= len dest ->
  address < 65536 ->
  0 <= nb_bits ->
  exists dest',
    set_bits_from_byte dest address value = Some dest'
    /\ len dest' = len dest
    /\ (forall i, 0 <= i < 8 ->
                  load dest' (address + i)
                  = Some (if Z.testbit (u8 value) i then ON else OFF))
    /\ (forall j, j < address \/ address + 8 <= j ->
                  load dest' j = load dest j)
    /\ get_byte_from_bits dest' address nb_bits
       = Some (Z.land (u8 value) (Z.ones (Z.min nb_bits 8))).
Proof.
  intros Ha Hroom Ha16 Hk.
  set (pre := firstn (Z.to_nat address) dest).
  set (tail := skipn (Z.to_nat address) dest).
  assert (Hdest : dest = pre ++ tail) by (symmetry; apply firstn_skipn).
  assert (Hpre : len pre = address).
  { subst pre. unfold len in *. rewrite length_firstn. lia. }
  assert (Htail : 8 <= len tail).
  { subst tail. unfold len in *. rewrite length_skipn. lia. }
  destruct tail as [| d0 [| d1 [| d2 [| d3 [| d4 [| d5 [| d6 [| d7 post]]]]]]]];
    try (unfold len in Htail; cbn [length] in Htail; lia).
  change (d0 :: d1 :: d2 :: d3 :: d4 :: d5 :: d6 :: d7 :: post)
    with ([d0; d1; d2; d3; d4; d5; d6; d7] ++ post) in Hdest.
  exists (pre ++ byte_bits (u8 value) ++ post).
  rewrite Hdest at 1. rewrite <- Hpre at 1.
  rewrite set_bits_from_byte_at by lia.
  split; [reflexivity |]. split; [| split; [| split]].
  - rewrite Hdest. rewrite !len_app. reflexivity.
  - intros i Hi. rewrite <- Hpre.
    rewrite load_app_r by lia.
    rewrite load_app_l by (change (len (byte_bits (u8 value))) with 8; lia).
    apply load_byte_bits. exact Hi.
  - intros j Hj. rewrite Hdest.
    destruct Hj as [Hj | Hj].
    + rewrite !load_app_l by lia. reflexivity.
    + replace j with (len pre + (j - len pre)) by lia.
      rewrite !load_app_r by lia.
      replace (j - len pre) with (len (byte_bits (u8 value)) + (j - address - 8))
        by (change (len (byte_bits (u8 value))) with 8; lia).
      rewrite load_app_r by lia.
      replace (len (byte_bits (u8 value)) + (j - address - 8))
        with (len [d0; d1; d2; d3; d4; d5; d6; d7] + (j - address - 8))
        by reflexivity.
      rewrite load_app_r by lia. reflexivity.
  - unfold get_byte_from_bits. rewrite u16_small by lia.
    rewrite <- Hpre.
    set (k := if nb_bits >? 8 then 8 else nb_bits).
    assert (Hkk : k = Z.min nb_bits 8)
      by (subst k; destruct (Z.gtb_spec nb_bits 8); lia).
    rewrite get_byte_from_bits_loop_at
      by (change (len (byte_bits (u8 value))) with 8; lia).
    rewrite get_byte_from_bits_loop_byte_bits
      by (try apply is_byte_u8; lia).
    rewrite Hkk. reflexivity.
Qed.

Lemma bits_of_byte_round_trip_witness :
  exists dest',
    set_bits_from_byte (repeat 7 12) 2 0xA5 = Some dest'
    /\ len dest' = len (repeat 7 12)
    /\ (forall i, 0 <= i < 8 ->
                  load dest' (2 + i)
                  = Some (if Z.testbit (u8 0xA5) i then ON else OFF))
    /\ (forall j, j < 2 \/ 2 + 8 <= j ->
                  load dest' j = load (repeat 7 12) j)
    /\ get_byte_from_bits dest' 2 8
       = Some (Z.land (u8 0xA5) (Z.ones (Z.min 8 8))).
Proof.
  apply (bits_of_byte_round_trip (repeat 7 12) 2 0xA5 8);
    vm_compute; (reflexivity || discriminate).
Defined.

(** ** Responses that do not come, or come short *)

Lemma wait_data_quiet {hdr : modbus_h} (mb : modbus_param_t) (w : world) :
  quiet (incoming w) ->
  exists w', wait_data mb w = (Some (Some COMM_TIME_OUT), w')
             /\ trace w' = trace w
             /\ stack_garbage w' = stack_garbage w.
Proof.
  unfold quiet, wait_data. intros Hq.
  destruct (incoming w) as [| [] l]; try contradiction;
    eexists; repeat split; reflexivity.
Qed.

(** X17. A response that stops short of the expected size, at a size other
    than that of an exception response, or that does not come at all while
    the uninitialised [response_size] differs from the size of an exception
    response, makes [modbus_check_response] return [COMM_TIME_OUT]; nothing
    is handed to the transport. *)
Theorem modbus_check_response_timeout {hdr : modbus_h} (mb : modbus_param_t)
    (query response : list Z) (c : Z) (chunks : list (list Z))
    (rest : list io_event) (w : world) :
  initialised mb ->
  compute_response_size mb query = Some c ->
  Forall nonempty chunks ->
  incoming w = map Chunk chunks ++ rest ->
  quiet rest ->
  len (concat chunks) < c ->
  len (concat chunks) <= len response ->
  len (concat chunks) <= MAX_PACKET_SIZE ->
  (if len (concat chunks) =? 0 then stack_garbage w O
   else len (concat chunks))
  <> header_length mb + 3 + checksum_size mb ->
  fst (modbus_check_response mb query response w)
  = Some (COMM_TIME_OUT,
          concat chunks ++ skipn (length (concat chunks)) response)
  /\ writes (trace (snd (modbus_check_response mb query response w)))
     = writes (trace w).
Proof.
  intros Hmb Ec Hne Hin Hquiet Hshort Hroom Hmax Hsize.
  split; [| apply keeps_modbus_check_response].
  pose proof error_codes_below as (_ & Hto & _).
  unfold modbus_check_response.
  unfold bind at 1, local_int. unfold bind at 1, lift. rewrite Ec.
  unfold bind at 1.
  destruct chunks as [| c0 chunks].
  - (* nothing comes *)
    cbn [concat map app] in *. change (len []) with 0 in *.
    rewrite Z.eqb_refl in Hsize. cbn [length skipn app].
    unfold receive_msg.
    destruct (c =? MSG_SIZE_UNDEFINED); unfold bind at 1;
      (destruct (wait_data_quiet mb w) as (w1 & Ew & _);
       [rewrite Hin; exact Hquiet |]);
      rewrite Ew; unfold ret at 1;
      (destruct (Z.eqb_spec COMM_TIME_OUT 0); [lia |]);
      rewrite Z.eqb_refl;
      (destruct (Z.eqb_spec (stack_garbage w 0)
                            (header_length mb + 3 + checksum_size mb));
       [contradiction |]);
      cbn [andb];
      (destruct (error_then_ret _ mb (COMM_TIME_OUT, response) w1)
         as (w2 & E2));
      rewrite E2; reflexivity.
  - inversion Hne as [| ? ? Hc0 _]; subst.
    assert (Hpos : 0 < len (concat (c0 :: chunks))).
    { cbn [concat]. rewrite len_app. pose proof (len_nonneg (concat chunks)).
      destruct c0; [exfalso; apply Hc0; reflexivity |].
      rewrite len_cons. pose proof (len_nonneg c0). lia. }
    destruct (Z.eqb_spec (len (concat (c0 :: chunks))) 0); [lia |].
    destruct (receive_msg_short mb c response (stack_garbage w O)
                (c0 :: chunks) rest w) as (w1 & Er); try assumption.
    { intros E. rewrite E in Hpos. cbn in Hpos. lia. }
    rewrite Er.
    destruct (Z.eqb_spec COMM_TIME_OUT 0); [lia |].
    rewrite Z.eqb_refl.
    destruct (Z.eqb_spec (len (concat (c0 :: chunks)))
                         (header_length mb + 3 + checksum_size mb));
      [contradiction |].
    cbn [andb].
    destruct (error_then_ret _ mb
                (COMM_TIME_OUT,
                 concat (c0 :: chunks)
                 ++ skipn (length (concat (c0 :: chunks))) response) w1)
      as (w2 & E2).
    rewrite E2. reflexivity.
Qed.

Lemma modbus_check_response_timeout_witness :
  fst (@modbus_check_response example_h modbus_init_rtu
         [0x11; 0x03; 0x00; 0x6B; 0x00; 0x03; 0x76; 0x87] (repeat 0 260)
         (idle_world [Chunk [0x11; 0x03; 0x06]; Silence]))
  = Some (-0x0C, [0x11; 0x03; 0x06] ++ repeat 0 257)
  /\ writes (trace (snd (@modbus_check_response example_h modbus_init_rtu
                           [0x11; 0x03; 0x00; 0x6B; 0x00; 0x03; 0x76; 0x87]
                           (repeat 0 260)
                           (idle_world [Chunk [0x11; 0x03; 0x06]; Silence]))))
     = [].
Proof.
  apply (@modbus_check_response_timeout example_h modbus_init_rtu
           [0x11; 0x03; 0x00; 0x6B; 0x00; 0x03; 0x76; 0x87] (repeat 0 260)
           11 [[0x11; 0x03; 0x06]] [Silence]
           (idle_world [Chunk [0x11; 0x03; 0x06]; Silence])).
  - split; reflexivity.
  - reflexivity.
  - repeat constructor; discriminate.
  - reflexivity.
  - exact I.
  - reflexivity.
  - vm_compute. discriminate.
  - vm_compute. discriminate.
  - vm_compute. discriminate.
Defined.

(** X18. A frame of the size of an exception response whose function byte
    is not 0x80 plus the function code of the request is not an error for
    [modbus_check_response]: after the timeout the call returns the size of
    the frame, [header_length + 3 + checksum_size], a positive value that
    the callers take for a count. *)
Theorem modbus_check_response_foreign_exception {hdr : modbus_h}
    (mb : modbus_param_t) (query response : list Z) (fc unit rfc k : Z)
    (mbap : list Z) (chunks : list (list Z)) (rest : list io_event)
    (w : world) :
  initialised mb ->
  well_formed_request mb query fc ->
  0x80 + fc <> rfc ->
  len mbap = 6 ->
  len response = MAX_PACKET_SIZE ->
  concat chunks = adu mb mbap [unit; rfc; k] ->
  Forall nonempty chunks ->
  incoming w = map Chunk chunks ++ rest ->
  quiet rest ->
  fst (modbus_check_response mb query response w)
  = Some (header_length mb + 3 + checksum_size mb,
          adu mb mbap [unit; rfc; k]
          ++ skipn (length (adu mb mbap [unit; rfc; k])) response).
Proof.
  intros Hmb Hwf Hrfc Hm Hresp Hreply Hne Hin Hquiet.
  destruct (compute_response_size_longer mb query fc Hwf) as (c & Ec & Hc).
  destruct Hwf as (Hfc & _ & _).
  pose proof error_codes_below as (_ & Hto & _).
  set (reply := adu mb mbap [unit; rfc; k]) in *.
  assert (Hlen : len reply = header_length mb + 3 + checksum_size mb).
  { subst reply. rewrite len_adu by assumption. reflexivity. }
  assert (Hh : 0 <= header_length mb /\ 0 <= checksum_size mb
               /\ header_length mb + 3 + checksum_size mb <= 9).
  { destruct (initialised_cases mb Hmb) as [(_ & -> & ->) | (_ & -> & ->)];
      lia. }
  destruct (receive_msg_short mb c response (stack_garbage w O) chunks rest w)
    as (w1 & Er); try assumption;
    try (rewrite Hreply; unfold MAX_PACKET_SIZE in *; lia).
  { rewrite Hreply. intros E. rewrite E in Hlen. change (len []) with 0 in Hlen.
    lia. }
  rewrite Hreply in Er.
  unfold modbus_check_response.
  unfold bind at 1, local_int. unfold bind at 1, lift. rewrite Ec.
  unfold bind at 1. rewrite Er.
  destruct (Z.eqb_spec COMM_TIME_OUT 0); [lia |].
  rewrite Z.eqb_refl, Hlen, Z.eqb_refl. cbn [andb].
  unfold bind at 1. rewrite <- Hlen.
  unfold reply at 1 3. rewrite check_crc16_adu by (assumption || reflexivity).
  fold reply. unfold ret at 1. cbn [Z.eqb negb].
  unfold bind at 1. rewrite Hfc.
  assert (L1 : load (reply ++ skipn (length reply) response)
                    (header_length mb + 1) = Some rfc).
  { rewrite load_app_l by lia. unfold reply.
    rewrite load_adu by (assumption || (cbn; lia)). reflexivity. }
  unfold bind at 1. rewrite L1.
  destruct (Z.eqb_spec (128 + fc) rfc); [contradiction |].
  rewrite Hlen. reflexivity.
Qed.

Lemma modbus_check_response_foreign_exception_witness :
  fst (@modbus_check_response example_h modbus_init_tcp
         [0; 1; 0; 0; 0; 6; 0x11; 0x03; 0x00; 0x6B; 0x00; 0x03]
         (repeat 0 260)
         (idle_world [Chunk [0; 1; 0; 0; 0; 3; 0x11; 0x81; 0x02]; Silence]))
  = Some (9, [0; 1; 0; 0; 0; 3; 0x11; 0x81; 0x02] ++ repeat 0 251).
Proof.
  apply (@modbus_check_response_foreign_exception example_h modbus_init_tcp
           [0; 1; 0; 0; 0; 6; 0x11; 0x03; 0x00; 0x6B; 0x00; 0x03]
           (repeat 0 260) 0x03 0x11 0x81 0x02 [0; 1; 0; 0; 0; 3]
           [[0; 1; 0; 0; 0; 3; 0x11; 0x81; 0x02]] [Silence]).
  - split; reflexivity.
  - split; [reflexivity | split; [split; cbv; congruence |]].
    intros _. exists 0, 3. repeat split; cbv; congruence.
  - discriminate.
  - reflexivity.
  - reflexivity.
  - reflexivity.
  - repeat constructor; discriminate.
  - reflexivity.
  - exact I.
Defined.

(** X19. [response_size] is read before it has been written when nothing
    arrives: the first wait of [receive_msg] returns before [*msg_size] is
    set.  On TCP, when that uninitialised value happens to be 9 and the
    uninitialised response does not look like an exception to the request,
    [modbus_check_response] returns 9 although no byte was received. *)
Theorem modbus_check_response_uninitialised_size {hdr : modbus_h}
    (mb : modbus_param_t) (query response : list Z) (c qfc rfc : Z)
    (w : world) :
  initialised mb ->
  type_com mb = TCP ->
  compute_response_size mb query = Some c ->
  quiet (incoming w) ->
  stack_garbage w O = 9 ->
  load query 7 = Some qfc ->
  load response 7 = Some rfc ->
  0x80 + qfc <> rfc ->
  fst (modbus_check_response mb query response w) = Some (9, response).
Proof.
  intros Hmb Ht Ec Hquiet Hg Hq Hr Hne.
  destruct (initialised_cases mb Hmb) as [(Ht' & _) | (_ & Hh & Hs)];
    [congruence |].
  pose proof error_codes_below as (_ & Hto & _).
  unfold modbus_check_response.
  unfold bind at 1, local_int. unfold bind at 1, lift. rewrite Ec.
  unfold bind at 1. unfold receive_msg.
  destruct (wait_data_quiet mb w Hquiet) as (w1 & Ew & _).
  destruct (c =? MSG_SIZE_UNDEFINED); unfold bind at 1; rewrite Ew;
    unfold ret at 1;
    (destruct (Z.eqb_spec COMM_TIME_OUT 0); [lia |]);
    rewrite Z.eqb_refl, Hg, Hh, Hs;
    change (9 =? 6 + 3 + 0) with true; change (6 + 1) with 7;
    cbn [andb];
    unfold check_crc16; rewrite Ht;
    unfold bind at 1, ret at 1; cbn [Z.eqb negb];
    unfold bind at 1, lift; rewrite Hq;
    unfold bind at 1; rewrite Hr;
    (destruct (Z.eqb_spec (128 + qfc) rfc); [contradiction |]);
    reflexivity.
Qed.

Lemma modbus_check_response_uninitialised_size_witness :
  fst (@modbus_check_response example_h modbus_init_tcp
         [0; 1; 0; 0; 0; 6; 0x11; 0x03; 0x00; 0x6B; 0x00; 0x03]
         (repeat 0 260) (mkWorld 0 0 [] [] [] (fun _ => 9) (fun _ => [])))
  = Some (9, repeat 0 260).
Proof.
  apply (@modbus_check_response_uninitialised_size example_h modbus_init_tcp
           [0; 1; 0; 0; 0; 6; 0x11; 0x03; 0x00; 0x6B; 0x00; 0x03]
           (repeat 0 260) 15 0x03 0 (mkWorld 0 0 [] [] [] (fun _ => 9) (fun _ => []))).
  - split; reflexivity.
  - reflexivity.
  - reflexivity.
  - exact I.
  - reflexivity.
  - reflexivity.
  - reflexivity.
  - discriminate.
Defined.

(** ** The other branches of [manage_query] *)

(** X20. The answer of the server to Force Single Coil is the request as it
    was received, [query_size] bytes of it, handed to [modbus_send]: on
    TCP an echo of the request, MBAP header included; on a serial line,
    where [query_size] counts the CRC of the request, the request with its
    CRC followed by a second CRC, two bytes more than the echo that the
    master expects. *)
Theorem manage_query_force_single_coil_reply {hdr : modbus_h}
    (mb : modbus_param_t) (query : list Z) (query_size : Z)
    (mb_mapping : modbus_mapping_t) (slave a_hi a_lo d_hi d_lo : Z)
    (w : world) :
  initialised mb ->
  load query (header_length mb) = Some slave ->
  load query (header_length mb + 1) = Some FC_FORCE_SINGLE_COIL ->
  load query (header_length mb + 2) = Some a_hi ->
  load query (header_length mb + 3) = Some a_lo ->
  load query (header_length mb + 4) = Some d_hi ->
  load query (header_length mb + 5) = Some d_lo ->
  is_byte a_hi -> is_byte a_lo ->
  word_of a_hi a_lo < len (tab_coil_status mb_mapping) ->
  header_length mb + 6 <= query_size <= len query ->
  query_size + checksum_size mb <= MAX_PACKET_SIZE ->
  let frame := sent_frame mb (firstn (Z.to_nat query_size) query) in
  writes (trace (snd (manage_query mb query query_size mb_mapping w)))
  = writes (trace w) ++ [frame]
  /\ len frame = query_size + checksum_size mb
  /\ fst (manage_query mb query query_size mb_mapping w) <> None.
Proof.
  intros Hmb L0 L1 L2 L3 L4 L5 Bah Bal Haddr Hqs Hmax frame.
  assert (Hh : 0 <= header_length mb /\ 0 <= checksum_size mb).
  { destruct (initialised_cases mb Hmb) as [(_ & -> & ->) | (_ & -> & ->)];
      lia. }
  pose proof (word_of_range a_hi a_lo Bah Bal) as Ha.
  unfold MAX_PACKET_SIZE in Hmax.
  set (response := uninit (stack_garbage w) (Z.to_nat MAX_PACKET_SIZE)).
  assert (Lr : len response = 260)
    by (subst response; rewrite len_uninit; reflexivity).
  set (data := firstn (Z.to_nat query_size) query) in *.
  assert (Ld : len data = query_size).
  { subst data. unfold len in *. rewrite length_firstn. lia. }
  assert (Eblit : blit response 0 data
                  = Some (data ++ skipn (length data) response)).
  { apply (blit_app [] response data). lia. }
  assert (Hframe : len frame = query_size + checksum_size mb).
  { subst frame. rewrite len_sent_frame by (assumption || lia). lia. }
  destruct (modbus_send_outcome mb data (skipn (length data) response) w Hmb)
    as (r & q' & w' & Es & Tw & _); try lia.
  { unfold len in *. rewrite length_skipn. lia. }
  rewrite Ld in Es.
  assert (Hall : exists m,
             manage_query mb query query_size mb_mapping w = (Some m, w')).
  { unfold manage_query.
    unfold bind at 1, lift. rewrite L0.
    unfold bind at 1. rewrite L1.
    unfold bind at 1. rewrite L2.
    unfold bind at 1. rewrite L3.
    unfold bind at 1, local_array.
    cbv beta iota zeta.
    change (FC_FORCE_SINGLE_COIL =? FC_READ_COIL_STATUS) with false.
    change (FC_FORCE_SINGLE_COIL =? FC_READ_INPUT_STATUS) with false.
    change (FC_FORCE_SINGLE_COIL =? FC_READ_HOLDING_REGISTERS) with false.
    change (FC_FORCE_SINGLE_COIL =? FC_READ_INPUT_REGISTERS) with false.
    change (FC_FORCE_SINGLE_COIL =? FC_FORCE_SINGLE_COIL) with true.
    cbv iota. fold response.
    unfold bind at 1. unfold bind at 1. unfold bind at 1.
    rewrite L4, L5. cbn [obind]. rewrite !shiftl8_add.
    unfold bind at 1, store8.
    destruct (store_ok (tab_coil_status mb_mapping) (word_of a_hi a_lo)
                (u8 ON) ltac:(lia)) as [t1 E1].
    destruct (store_ok (tab_coil_status mb_mapping) (word_of a_hi a_lo)
                (u8 OFF) ltac:(lia)) as [t0 E0].
    rewrite E1, E0. cbn [obind].
    destruct (Z.leb_spec 0 query_size); [| lia].
    destruct (Z.leb_spec query_size (len query)); [| lia]. cbn [andb].
    fold data. rewrite Eblit.
    destruct (word_of d_hi d_lo =? 65280);
      [| destruct (word_of d_hi d_lo =? 0)];
      unfold bind at 1; unfold ret at 1; cbv beta iota;
      rewrite Es; eexists; reflexivity. }
  destruct Hall as (m & E). rewrite E. cbn [fst snd].
  split; [exact Tw | split; [exact Hframe | discriminate]].
Qed.

Lemma manage_query_force_single_coil_reply_witness :
  let request := [0x11; 0x05; 0x00; 0x03; 0xFF; 0x00; 0x7E; 0xAA] in
  writes (trace (snd (@manage_query example_h modbus_init_rtu request 8
                        small_map (idle_world []))))
  = [request ++ [0x00; 0x00]]
  /\ len (sent_frame modbus_init_rtu (firstn (Z.to_nat 8) request)) = 8 + 2
  /\ fst (@manage_query example_h modbus_init_rtu request 8 small_map
            (idle_world [])) <> None.
Proof.
  intros request.
  assert (E : sent_frame modbus_init_rtu (firstn (Z.to_nat 8) request)
              = request ++ [0x00; 0x00]) by (vm_compute; reflexivity).
  rewrite <- E.
  apply (@manage_query_force_single_coil_reply example_h modbus_init_rtu
           request 8 small_map 0x11 0x00 0x03 0xFF 0x00 (idle_world []));
    try reflexivity; try (split; cbv; congruence);
    try (vm_compute; reflexivity); try (vm_compute; discriminate);
    split; vm_compute; discriminate.
Defined.

(** X21. For any function code other than 0x01 to 0x05 (the writes 0x06,
    0x0F and 0x10 among them) [manage_query] leaves the map as it was and
    still calls [modbus_send] with an empty body: the peer receives the
    first [header_length] bytes of the uninitialised response buffer with
    the MBAP length set to 0 on TCP, and the two bytes of the CRC of
    nothing on a serial line. *)
Theorem manage_query_not_implemented {hdr : modbus_h} (mb : modbus_param_t)
    (query : list Z) (query_size : Z) (mb_mapping : modbus_mapping_t)
    (slave fc a_hi a_lo : Z) (w : world) :
  initialised mb ->
  load query (header_length mb) = Some slave ->
  load query (header_length mb + 1) = Some fc ->
  load query (header_length mb + 2) = Some a_hi ->
  load query (header_length mb + 3) = Some a_lo ->
  ~ In fc [FC_READ_COIL_STATUS; FC_READ_INPUT_STATUS;
           FC_READ_HOLDING_REGISTERS; FC_READ_INPUT_REGISTERS;
           FC_FORCE_SINGLE_COIL] ->
  let frame :=
    sent_frame mb (firstn (Z.to_nat (header_length mb))
                          (uninit (stack_garbage w)
                                  (Z.to_nat MAX_PACKET_SIZE))) in
  exists w',
    manage_query mb query query_size mb_mapping w = (Some mb_mapping, w')
    /\ writes (trace w') = writes (trace w) ++ [frame]
    /\ len frame = header_length mb + checksum_size mb.
Proof.
  intros Hmb L0 L1 L2 L3 Hfc frame.
  assert (Hh : 0 <= header_length mb <= 6 /\ 0 <= checksum_size mb <= 2).
  { destruct (initialised_cases mb Hmb) as [(_ & -> & ->) | (_ & -> & ->)];
      lia. }
  set (response := uninit (stack_garbage w) (Z.to_nat MAX_PACKET_SIZE)) in *.
  assert (Lr : len response = 260)
    by (subst response; rewrite len_uninit; reflexivity).
  set (body := firstn (Z.to_nat (header_length mb)) response) in *.
  set (room := skipn (Z.to_nat (header_length mb)) response).
  assert (Hresp : response = body ++ room)
    by (symmetry; apply firstn_skipn).
  assert (Hbody : len body = header_length mb).
  { subst body. unfold len in *. rewrite length_firstn. lia. }
  destruct (modbus_send_outcome mb body room w Hmb)
    as (r & q' & w' & Es & Tw & _); try lia.
  { subst room. unfold len in *. rewrite length_skipn. lia. }
  rewrite <- Hresp, Hbody in Es.
  exists w'. split; [| split; [exact Tw |]].
  - unfold manage_query.
    unfold bind at 1, lift. rewrite L0.
    unfold bind at 1. rewrite L1.
    unfold bind at 1. rewrite L2.
    unfold bind at 1. rewrite L3.
    unfold bind at 1, local_array.
    cbv beta iota zeta. fold response.
    cbn [In] in Hfc.
    destruct (Z.eqb_spec fc FC_READ_COIL_STATUS) as [-> | _];
      [exfalso; apply Hfc; auto 10 |].
    destruct (Z.eqb_spec fc FC_READ_INPUT_STATUS) as [-> | _];
      [exfalso; apply Hfc; auto 10 |].
    destruct (Z.eqb_spec fc FC_READ_HOLDING_REGISTERS) as [-> | _];
      [exfalso; apply Hfc; auto 10 |].
    destruct (Z.eqb_spec fc FC_READ_INPUT_REGISTERS) as [-> | _];
      [exfalso; apply Hfc; auto 10 |].
    destruct (Z.eqb_spec fc FC_FORCE_SINGLE_COIL) as [-> | _];
      [exfalso; apply Hfc; auto 10 |].
    unfold bind at 1, ret at 1. cbv beta iota.
    unfold bind at 1. rewrite Es. reflexivity.
  - subst frame. rewrite len_sent_frame by (assumption || lia). lia.
Qed.

Lemma manage_query_not_implemented_witness :
  let m := mkMapping 0 0 0 2 [] [] [] [0x1234; 0x5678] in
  exists w',
    @manage_query example_h modbus_init_rtu
      [0x11; 0x06; 0x00; 0x01; 0x00; 0x03; 0x9A; 0x9B] 8 m (idle_world [])
    = (Some m, w')
    /\ writes (trace w') = [[0xFF; 0xFF]]
    /\ len (sent_frame modbus_init_rtu []) = 0 + 2.
Proof.
  intros m.
  apply (@manage_query_not_implemented example_h modbus_init_rtu
           [0x11; 0x06; 0x00; 0x01; 0x00; 0x03; 0x9A; 0x9B] 8 m
           0x11 0x06 0x00 0x01 (idle_world [])); try reflexivity.
  - split; reflexivity.
  - cbv. intuition discriminate.
Defined.

(** ** The server reads coils and discrete inputs *)

Lemma response_io_status_loop_keeps (tab : list Z) :
  forall (n : nat) (i : Z) (resp : list Z) (off s b : Z)
         (resp' : list Z) (off' s' b' : Z),
    response_io_status_loop n i tab resp off s b
    = Some (resp', off', s', b') ->
    off <= off'
    /\ forall j, j < off -> load resp' j = load resp j.
Proof.
  induction n as [| n IH]; intros i resp off s b resp' off' s' b' E.
  - cbn [response_io_status_loop] in E. injection E as <- <- _ _.
    split; [lia | reflexivity].
  - cbn [response_io_status_loop] in E.
    destruct (load tab i) as [v |]; [| discriminate]. cbn [obind] in E.
    destruct (s =? 7).
    + unfold store8 in E.
      destruct (store resp off _) as [r1 |] eqn:E1; [| discriminate].
      cbn [obind] in E. apply IH in E as [Hle Hk].
      split; [lia |]. intros j Hj. rewrite Hk by lia.
      apply (store_load_other _ _ _ _ _ E1). lia.
    + apply IH in E. exact E.
Qed.

(** What [response_io_status] leaves in the response, from an address
    that it takes as a [uint8_t]. *)
Lemma response_io_status_packed_at (f : Z -> bool) (tab response : list Z)
    (address n offset : Z) :
  0 <= n < 65536 ->
  (forall k, 0 <= k < n -> load tab (u8 address + k) = Some (Z.b2z (f k))) ->
  0 <= offset ->
  offset + ceil_div8 n <= len response ->
  exists response',
    response_io_status address n tab response offset
    = Some (offset + ceil_div8 n, response')
    /\ packed_upto f response' offset n
    /\ len response' = len response
    /\ forall j, j < offset -> load response' j = load response j.
Proof.
  intros HN Htab Hoff Hroom.
  unfold response_io_status. rewrite u16_small by lia.
  destruct (response_io_status_loop_inv f tab (u8 address) offset
              (Z.to_nat n) 0 0 response 0)
    as (r' & j' & s' & b' & E & Hsum & Hj' & Hs' & Hb' & Hp' & Hl');
    try lia.
  { intros k Hk. apply Htab. lia. }
  { intros q Hq. rewrite Z.bits_0.
    destruct (Z.ltb_spec q 0); [lia | reflexivity]. }
  { intros p Hp. lia. }
  { replace ((8 * 0 + 0 + Z.of_nat (Z.to_nat n) + 7) / 8) with (ceil_div8 n)
      by (unfold ceil_div8; f_equal; lia).
    exact Hroom. }
  replace (u8 address + (8 * 0 + 0)) with (u8 address) in E by lia.
  rewrite Z.add_0_r in E.
  pose proof (response_io_status_loop_keeps _ _ _ _ _ _ _ _ _ _ _ E)
    as [_ Hkeep].
  rewrite E. cbn [obind].
  assert (HN' : n = 8 * j' + s') by lia.
  pose proof (ceil_div8_split j' s' Hs') as Hceil. rewrite <- HN' in Hceil.
  destruct (Z.eqb_spec s' 0) as [-> | Hnz]; cbn [negb].
  - exists r'. rewrite Hceil, Z.add_0_r.
    split; [reflexivity | split; [| split; [exact Hl' | exact Hkeep]]].
    replace n with (8 * j') by lia. exact Hp'.
  - unfold store8.
    destruct (store_ok r' (offset + j') (u8 b') ltac:(lia)) as [r2 E2].
    rewrite E2. cbn [obind]. exists r2. rewrite Hceil.
    split; [f_equal; f_equal; lia | split; [| split]].
    + intros p Hp.
      destruct (Z.ltb_spec p (8 * j')) as [Hold | Hnew].
      * destruct (Hp' p ltac:(lia)) as (B & HB & Ht).
        exists B. split; [| exact Ht].
        rewrite (store_load_other _ _ _ _ _ E2); [exact HB |].
        assert (p / 8 < j') by (apply Z.div_lt_upper_bound; lia). lia.
      * exists (u8 b').
        assert (Hd : p / 8 = j')
          by (symmetry; apply Z.div_unique with (r := p - 8 * j'); lia).
        assert (Hm : p mod 8 = p - 8 * j')
          by (symmetry; apply Z.mod_unique with (q := j'); lia).
        rewrite Hd, Hm. split; [apply (store_load_same _ _ _ _ E2) |].
        unfold u8. change 256 with (2 ^ 8).
        rewrite Z.mod_pow2_bits_low by lia.
        rewrite (Hb' (p - 8 * j')) by lia.
        destruct (Z.ltb_spec (p - 8 * j') s'); [| lia].
        cbn [andb]. f_equal. lia.
    + rewrite (store_len _ _ _ _ E2). exact Hl'.
    + intros j Hj. rewrite (store_load_other _ _ _ _ _ E2) by lia.
      apply Hkeep. exact Hj.
Qed.

(** After the header the frame holds the body. *)
Lemma load_sent_frame {hdr : modbus_h} (mb : modbus_param_t)
    (body : list Z) (j : Z) :
  initialised mb -> header_length mb <= j < len body ->
  load (sent_frame mb body) j = load body j.
Proof.
  intros Hmb Hj. unfold sent_frame.
  destruct (initialised_cases mb Hmb) as [(-> & Hh & _) | (-> & Hh & _)];
    rewrite Hh in Hj.
  - apply load_rtu_frame. lia.
  - replace j with (len (firstn 4 body ++ be16 (u16 (len body - 6)))
                    + (j - 6)).
    2: { rewrite len_app. unfold len in *. rewrite length_firstn.
         cbn [length be16]. lia. }
    rewrite app_assoc, load_app_r by lia.
    change 6%nat with (Z.to_nat 6). rewrite load_skipn by lia.
    f_equal. rewrite len_app. unfold len in *. rewrite length_firstn.
    cbn [length be16]. lia.
Qed.

Lemma firstn_load_ext (a b : list Z) (n : nat) :
  (n <= length a)%nat -> (n <= length b)%nat ->
  (forall j, 0 <= j < Z.of_nat n -> load a j = load b j) ->
  firstn n a = firstn n b.
Proof.
  intros Ha Hb H. apply nth_error_ext. intros k.
  rewrite !nth_error_firstn.
  destruct (Nat.ltb_spec k n); [| reflexivity].
  rewrite <- !load_of_nat. apply H. lia.
Qed.

(** The answer of the server to a read of statuses. *)
Lemma manage_query_status {hdr : modbus_h} (mb : modbus_param_t)
    (query : list Z) (query_size : Z) (mb_mapping : modbus_mapping_t)
    (slave fc a_hi a_lo q_hi q_lo : Z) (f : Z -> bool) (w : world) :
  initialised mb ->
  load query (header_length mb) = Some slave ->
  load query (header_length mb + 1) = Some fc ->
  load query (header_length mb + 2) = Some a_hi ->
  load query (header_length mb + 3) = Some a_lo ->
  load query (header_length mb + 4) = Some q_hi ->
  load query (header_length mb + 5) = Some q_lo ->
  is_byte slave -> is_byte q_hi -> is_byte q_lo ->
  fc = FC_READ_COIL_STATUS \/ fc = FC_READ_INPUT_STATUS ->
  let tab := if fc =? FC_READ_COIL_STATUS
             then tab_coil_status mb_mapping
             else tab_input_status mb_mapping in
  let address := word_of a_hi a_lo in
  let n := word_of q_hi q_lo in
  (forall k, 0 <= k < n ->
             load tab (address mod 256 + k) = Some (Z.b2z (f k))) ->
  header_length mb + 3 + ceil_div8 n + checksum_size mb <= MAX_PACKET_SIZE ->
  exists pdu w',
    manage_query mb query query_size mb_mapping w = (Some mb_mapping, w')
    /\ writes (trace w')
       = writes (trace w)
         ++ [adu mb (mbap_of (next_response_t_id w) (len pdu)) pdu]
    /\ len pdu = 3 + ceil_div8 n
    /\ load pdu 0 = Some slave
    /\ load pdu 1 = Some fc
    /\ load pdu 2 = Some (ceil_div8 n)
    /\ packed_upto f pdu 3 n.
Proof.
  intros Hmb E0 E1 E2 E3 E4 E5 B0 B4 B5 Hfc tab address n Htab Hmax.
  assert (Hh : 0 <= header_length mb /\ 0 <= checksum_size mb
               /\ 2 <= header_length mb + checksum_size mb).
  { destruct (initialised_cases mb Hmb) as [(_ & -> & ->) | (_ & -> & ->)];
      lia. }
  pose proof (word_of_range q_hi q_lo B4 B5) as Hn. fold n in Hn.
  unfold MAX_PACKET_SIZE in Hmax.
  assert (Hceil : 0 <= ceil_div8 n).
  { unfold ceil_div8. apply Z.div_pos; lia. }
  set (bc := ceil_div8 n) in *.
  set (buf := uninit (stack_garbage w) (Z.to_nat MAX_PACKET_SIZE)).
  assert (Hbuf : len buf = 260) by (subst buf; apply len_uninit).
  destruct (build_response_packet_ok mb slave fc bc buf w Hmb ltac:(lia))
    as (head & w1 & Eb & Hhead & Htid & Tr1 & _ & _).
  set (resp1 := head ++ [u8 slave; u8 fc; u8 bc]
                ++ skipn (Z.to_nat (header_length mb + 3)) buf) in *.
  assert (Hresp1 : len resp1 = 260).
  { subst resp1. unfold len in *. rewrite !length_app, length_skipn.
    cbn [length]. lia. }
  assert (Hfc8 : u8 fc = fc)
    by (apply u8_byte; destruct Hfc as [-> | ->]; cbv; split; congruence).
  assert (Hpre : load resp1 (header_length mb) = Some slave
                 /\ load resp1 (header_length mb + 1) = Some fc
                 /\ load resp1 (header_length mb + 2) = Some bc).
  { pose proof (fun j => load_app_r head
                  ([u8 slave; u8 fc; u8 bc]
                   ++ skipn (Z.to_nat (header_length mb + 3)) buf) j) as L.
    rewrite Hhead in L. fold resp1 in L.
    rewrite <- (Z.add_0_r (header_length mb)) at 1.
    rewrite !L by lia.
    rewrite (u8_byte slave), Hfc8, (u8_byte bc)
      by (assumption || (unfold is_byte; lia)).
    repeat split; reflexivity. }
  destruct Hpre as (P0 & P1 & P2).
  destruct (response_io_status_packed_at f tab resp1 address n
              (header_length mb + 3))
    as (resp2 & Es & Hpacked & Hlen2 & Hkeep); try lia.
  { intros k Hk. apply Htab. exact Hk. }
  set (size := header_length mb + 3 + bc) in *.
  set (body := firstn (Z.to_nat size) resp2).
  set (room := skipn (Z.to_nat size) resp2).
  assert (Hresp2 : resp2 = body ++ room) by (symmetry; apply firstn_skipn).
  assert (Hbody : len body = size).
  { subst body. unfold len in *. rewrite length_firstn. lia. }
  destruct (modbus_send_outcome mb body room w1 Hmb)
    as (r & q' & w2 & Esend & Hwr & _); try lia.
  { subst room. unfold len in *. rewrite length_skipn. lia. }
  rewrite <- Hresp2, Hbody in Esend.
  (* the body is the header that [build_response_packet] wrote, then
     the PDU *)
  set (pdu := skipn (Z.to_nat (header_length mb)) body).
  assert (Hsplit : body = head ++ pdu).
  { rewrite <- (firstn_skipn (Z.to_nat (header_length mb)) body).
    fold pdu. f_equal.
    replace head with (firstn (Z.to_nat (header_length mb)) resp1)
      by (subst resp1; rewrite <- Hhead; unfold len;
          rewrite Nat2Z.id, firstn_app, firstn_all, Nat.sub_diag;
          cbn [firstn]; apply app_nil_r).
    apply firstn_load_ext; unfold len in *; try lia.
    intros j Hj. subst body. rewrite load_firstn by lia.
    apply Hkeep. lia. }
  assert (Hpdu : len pdu = 3 + bc).
  { subst pdu. unfold len in *. rewrite length_skipn. lia. }
  assert (Hpduload : forall j, 0 <= j < 3 + bc ->
            load pdu j = load resp2 (header_length mb + j)).
  { intros j Hj. subst pdu. rewrite load_skipn by lia.
    subst body. apply load_firstn. lia. }
  exists pdu, w2.
  split; [| split; [| split; [exact Hpdu | split; [| split; [| split]]]]].
  - unfold manage_query.
    unfold bind at 1, lift. rewrite E0.
    unfold bind at 1. rewrite E1.
    unfold bind at 1. rewrite E2.
    unfold bind at 1. rewrite E3.
    unfold bind at 1, local_array.
    rewrite E4, E5. cbn [obind]. rewrite !shiftl8_add.
    fold address. fold n. fold buf.
    subst tab. unfold size, bc in Esend.
    destruct Hfc as [-> | ->];
      cbn [Z.eqb Pos.eqb FC_READ_COIL_STATUS FC_READ_INPUT_STATUS] in *;
      unfold bind at 1; unfold bind at 1; cbv zeta;
      rewrite (quot_rem_ceil_div8 n) by lia; fold bc;
      unfold bind at 1; rewrite Eb;
      unfold bind at 1; rewrite Es;
      unfold ret at 1; unfold bind at 1; rewrite Esend; reflexivity.
  - rewrite Hwr, Tr1, Hsplit.
    rewrite (sent_frame_response mb head pdu (next_response_t_id w))
      by assumption.
    reflexivity.
  - rewrite Hpduload, Z.add_0_r, Hkeep by lia. exact P0.
  - rewrite Hpduload, Hkeep by lia. exact P1.
  - rewrite Hpduload, Hkeep by lia. exact P2.
  - intros p Hp. destruct (Hpacked p Hp) as (B & HB & Ht).
    exists B. split; [| exact Ht].
    pose proof (div8_lt_ceil p n Hp) as Hd. fold bc in Hd.
    assert (0 <= p / 8) by (apply Z.div_pos; lia).
    rewrite Hpduload by lia. rewrite <- HB. f_equal. lia.
Qed.

(** X22. The server answers Read Coil Status and Read Input Status with
    the unit and function code of the request, the number of data bytes
    and the statuses packed eight to a byte, least significant bit first,
    closed by the CRC on a serial line and under the server's own
    transaction counter on TCP.  The statuses are those of the table from
    the address of the request taken modulo 256 on: [response_io_status]
    receives the address as a [uint8_t]. *)
Theorem manage_query_read_status {hdr : modbus_h} (mb : modbus_param_t)
    (query : list Z) (query_size : Z) (mb_mapping : modbus_mapping_t)
    (slave fc a_hi a_lo q_hi q_lo : Z) (f : Z -> bool) (w : world) :
  initialised mb ->
  load query (header_length mb) = Some slave ->
  load query (header_length mb + 1) = Some fc ->
  load query (header_length mb + 2) = Some a_hi ->
  load query (header_length mb + 3) = Some a_lo ->
  load query (header_length mb + 4) = Some q_hi ->
  load query (header_length mb + 5) = Some q_lo ->
  is_byte slave -> is_byte q_hi -> is_byte q_lo ->
  fc = FC_READ_COIL_STATUS \/ fc = FC_READ_INPUT_STATUS ->
  let tab := if fc =? FC_READ_COIL_STATUS
             then tab_coil_status mb_mapping
             else tab_input_status mb_mapping in
  let address := word_of a_hi a_lo in
  let n := word_of q_hi q_lo in
  (forall k, 0 <= k < n ->
             load tab (address mod 256 + k) = Some (Z.b2z (f k))) ->
  header_length mb + 3 + ceil_div8 n + checksum_size mb <= MAX_PACKET_SIZE ->
  exists pdu w',
    manage_query mb query query_size mb_mapping w = (Some mb_mapping, w')
    /\ writes (trace w')
       = writes (trace w)
         ++ [adu mb (mbap_of (next_response_t_id w) (len pdu)) pdu]
    /\ len pdu = 3 + ceil_div8 n
    /\ load pdu 0 = Some slave
    /\ load pdu 1 = Some fc
    /\ load pdu 2 = Some (ceil_div8 n)
    /\ packed_upto f pdu 3 n.
Proof. apply manage_query_status. Qed.

Lemma manage_query_read_status_witness :
  let bits := [true; false; true; true; false; false; true; true; true] in
  let m := mkMapping 9 0 0 0 (map Z.b2z bits) [] [] [] in
  exists pdu w',
    @manage_query example_h modbus_init_rtu
      [0x11; 0x01; 0x01; 0x00; 0x00; 0x09; 0x00; 0x00] 8 m (idle_world [])
    = (Some m, w')
    /\ writes (trace w')
       = writes (trace (idle_world []))
         ++ [adu modbus_init_rtu
               (mbap_of (next_response_t_id (idle_world [])) (len pdu)) pdu]
    /\ len pdu = 3 + ceil_div8 (word_of 0x00 0x09)
    /\ load pdu 0 = Some 0x11
    /\ load pdu 1 = Some 0x01
    /\ load pdu 2 = Some (ceil_div8 (word_of 0x00 0x09))
    /\ packed_upto (bit_at bits) pdu 3 (word_of 0x00 0x09).
Proof.
  intros bits m.
  apply (@manage_query_read_status example_h modbus_init_rtu
           [0x11; 0x01; 0x01; 0x00; 0x00; 0x09; 0x00; 0x00] 8 m
           0x11 0x01 0x01 0x00 0x00 0x09 (bit_at bits) (idle_world []));
    try reflexivity; try (split; cbv; congruence);
    try (left; reflexivity); try (vm_compute; discriminate).
  intros k Hk. change (word_of 0 9) with 9 in Hk.
  change (word_of 1 0 mod 256) with 0.
  apply load_map_bits. unfold bits. cbn [length]. lia.
Defined.

(** ** Statuses off the wire *)

(** The inner loop of [read_io_status] on the bits from [s] on of the
    byte [temp]: it stops at the quantity asked for. *)
Lemma read_io_status_bits_ok (temp count : Z) :
  forall (m : nat) (s : Z) (dest : list Z) (pos : Z),
    0 <= s -> 0 <= pos <= count -> count <= len dest ->
    exists dest',
      read_io_status_bits (map (Z.shiftl 1) (zseq s m)) temp count dest
                          pos pos
      = Some (dest', Z.min (pos + Z.of_nat m) count,
              Z.min (pos + Z.of_nat m) count)
      /\ len dest' = len dest
      /\ (forall k, pos <= k < Z.min (pos + Z.of_nat m) count ->
            load dest' k = Some (Z.b2z (Z.testbit temp (s + (k - pos)))))
      /\ (forall k, k < pos \/ Z.min (pos + Z.of_nat m) count <= k ->
            load dest' k = load dest k).
Proof.
  induction m as [| m IH]; intros s dest pos Hs Hpos Hroom.
  - exists dest. cbn [zseq map read_io_status_bits].
    replace (Z.min (pos + Z.of_nat 0) count) with pos by lia.
    repeat split; intros; try reflexivity; lia.
  - cbn [zseq map read_io_status_bits].
    destruct (Z.ltb_spec pos count) as [Hlt | Hge].
    + rewrite land_bit by exact Hs.
      set (v := Z.b2z (Z.testbit temp s)).
      assert (Hv : (if negb (Z.testbit temp s) then FALSE else TRUE) = v)
        by (subst v; destruct (Z.testbit temp s); reflexivity).
      rewrite Hv. unfold store8.
      assert (Hu : u8 v = v)
        by (subst v; destruct (Z.testbit temp s); reflexivity).
      rewrite Hu.
      destruct (store_ok dest pos v ltac:(lia)) as (dest1 & E1).
      rewrite E1. cbn [obind].
      pose proof (store_len _ _ _ _ E1) as Hl1.
      destruct (IH (s + 1) dest1 (pos + 1) ltac:(lia) ltac:(lia)
                  ltac:(lia))
        as (dest' & E & Hl & Hin & Hout).
      exists dest'.
      replace (Z.min (pos + Z.of_nat (S m)) count)
        with (Z.min (pos + 1 + Z.of_nat m) count) by lia.
      split; [exact E | split; [lia | split]].
      * intros k Hk. destruct (Z.eq_dec k pos) as [-> | Hne].
        -- rewrite Hout by lia.
           rewrite (store_load_same _ _ _ _ E1).
           subst v. do 3 f_equal. lia.
        -- rewrite Hin by lia. do 3 f_equal. lia.
      * intros k Hk. rewrite Hout by lia.
        apply (store_load_other _ _ _ _ _ E1). lia.
    + exists dest.
      replace (Z.min (pos + Z.of_nat (S m)) count) with pos by lia.
      repeat split; intros; try reflexivity; lia.
Qed.

(** The loop of [read_io_status] over the bytes of the response from the
    [j0]-th on. *)
Lemma read_io_status_loop_ok (f : Z -> bool) (response : list Z)
    (offset count : Z) :
  packed_upto f response (3 + offset) count ->
  forall (n : nat) (j0 : Z) (dest : list Z),
    0 <= j0 -> j0 + Z.of_nat n <= ceil_div8 count ->
    count <= len dest ->
    (forall k, 0 <= k < Z.min (8 * j0) count ->
               load dest k = Some (Z.b2z (f k))) ->
    exists dest',
      read_io_status_loop n (offset + j0) count response dest
                          (Z.min (8 * j0) count) (Z.min (8 * j0) count)
      = Some dest'
      /\ len dest' = len dest
      /\ (forall k, 0 <= k < Z.min (8 * (j0 + Z.of_nat n)) count ->
                    load dest' k = Some (Z.b2z (f k)))
      /\ (forall k, count <= k -> load dest' k = load dest k).
Proof.
  intros Hpacked.
  induction n as [| n IH]; intros j0 dest Hj0 Hn Hroom Hdone.
  - exists dest. cbn [read_io_status_loop].
    rewrite Z.add_0_r. repeat split; try assumption; reflexivity.
  - assert (Hlt : 8 * j0 < count).
    { unfold ceil_div8 in Hn.
      pose proof (Z.mul_div_le (count + 7) 8 ltac:(lia)). lia. }
    replace (Z.min (8 * j0) count) with (8 * j0) in * by lia.
    destruct (Hpacked (8 * j0) ltac:(lia)) as (B & EB & _).
    rewrite (Z.mul_comm 8 j0), Z.div_mul in EB by lia.
    cbn [read_io_status_loop].
    rewrite Z.add_assoc, EB. cbn [obind].
    change bit_masks with (map (Z.shiftl 1) (zseq 0 8)).
    destruct (read_io_status_bits_ok B count 8 0 dest (8 * j0) ltac:(lia)
                ltac:(lia) Hroom)
      as (dest1 & E1 & Hl1 & Hin1 & Hout1).
    rewrite E1. cbn [obind].
    replace (8 * j0 + Z.of_nat 8) with (8 * (j0 + 1)) in * by lia.
    destruct (IH (j0 + 1) dest1 ltac:(lia) ltac:(lia) ltac:(lia))
      as (dest' & E & Hl & Hin & Hout).
    { intros k Hk. destruct (Z.lt_ge_cases k (8 * j0)) as [Hk0 | Hk0].
      - rewrite Hout1 by lia. apply Hdone. lia.
      - rewrite Hin1 by lia.
        destruct (Hpacked k ltac:(lia)) as (B' & EB' & HB').
        assert (Hq : k / 8 = j0)
          by (symmetry; apply (Z.div_unique k 8 j0 (k - 8 * j0)); lia).
        assert (Hr : k mod 8 = k - 8 * j0)
          by (symmetry; apply (Z.mod_unique k 8 j0 (k - 8 * j0)); lia).
        rewrite Hq, EB in EB'. injection EB' as <-.
        rewrite Hr in HB'. cbn [Z.add]. rewrite HB'. reflexivity. }
    exists dest'.
    rewrite <- Z.add_assoc. rewrite E.
    replace (j0 + Z.of_nat (S n)) with (j0 + 1 + Z.of_nat n) by lia.
    split; [reflexivity | split; [lia | split; [exact Hin |]]].
    intros k Hk. rewrite Hout by exact Hk. apply Hout1. lia.
Qed.

Lemma compute_response_size_status {hdr : modbus_h} (mb : modbus_param_t)
    (query : list Z) (fc n : Z) :
  fc = FC_READ_COIL_STATUS \/ fc = FC_READ_INPUT_STATUS ->
  0 <= n < 65536 ->
  load query (header_length mb + 1) = Some fc ->
  load query (header_length mb + 4) = Some (Z.shiftr n 8) ->
  load query (header_length mb + 5) = Some (Z.land n 255) ->
  compute_response_size mb query
  = Some (3 + ceil_div8 n + header_length mb + checksum_size mb).
Proof.
  intros Hfc Hn E1 E4 E5. unfold compute_response_size.
  rewrite E1. cbn [obind].
  replace ((fc =? FC_READ_COIL_STATUS) || (fc =? FC_READ_INPUT_STATUS))
    with true by (destruct Hfc as [-> | ->]; reflexivity).
  rewrite E4, E5. cbn [obind].
  rewrite lor_shiftl_byte by (apply land255_byte; lia).
  rewrite word_of_split by lia.
  rewrite <- (Z.add_assoc 3), quot_rem_ceil_div8 by lia. reflexivity.
Qed.

(** What [read_io_status] makes of a response that carries the statuses
    asked for. *)
Lemma read_io_status_ok {hdr : modbus_h} (mb : modbus_param_t)
    (slave function start_addr count : Z) (data_dest mbap pdu extra : list Z)
    (rfc : Z) (f : Z -> bool) (chunks : list (list Z))
    (rest : list io_event) (w : world) :
  initialised mb ->
  write_script w = [] ->
  len mbap = 6 ->
  function = FC_READ_COIL_STATUS \/ function = FC_READ_INPUT_STATUS ->
  rfc = FC_READ_COIL_STATUS \/ rfc = FC_READ_INPUT_STATUS ->
  0 <= count < 65536 ->
  header_length mb + 3 + ceil_div8 count + checksum_size mb
  <= MAX_PACKET_SIZE ->
  len pdu = 3 + ceil_div8 count ->
  load pdu 1 = Some rfc ->
  load pdu 2 = Some (ceil_div8 count) ->
  packed_upto f pdu 3 count ->
  count <= len data_dest ->
  Forall nonempty chunks ->
  concat chunks = adu mb mbap pdu ++ extra ->
  incoming w = map Chunk chunks ++ rest ->
  exists d w',
    read_io_status mb slave function start_addr count data_dest w
    = (Some (ceil_div8 count, d), w')
    /\ len d = len data_dest
    /\ (forall k, 0 <= k < count -> load d k = Some (Z.b2z (f k)))
    /\ (forall k, count <= k -> load d k = load data_dest k).
Proof.
  intros Hmb Hws Hm Hfn Hrfc Hn Hmax Hpdu R1 R2 Hpacked Hroom Hne Hcat Hin.
  assert (Hh : 0 <= header_length mb /\ 0 <= checksum_size mb
               /\ header_length mb + 6 + checksum_size mb <= 12
               /\ header_length mb + checksum_size mb <= 6).
  { destruct (initialised_cases mb Hmb) as [(_ & -> & ->) | (_ & -> & ->)];
      lia. }
  assert (Hceil : 0 <= ceil_div8 count).
  { unfold ceil_div8. apply Z.div_pos; lia. }
  set (bc := ceil_div8 count) in *.
  set (reply := adu mb mbap pdu) in *.
  assert (Hreply : len reply
                   = 3 + bc + header_length mb + checksum_size mb).
  { subst reply. rewrite len_adu by assumption. lia. }
  unfold read_io_status.
  unfold bind at 1, local_array. unfold bind at 1, local_array.
  destruct (query_sent mb slave function start_addr count
              (uninit (stack_garbage w) (Z.to_nat MIN_QUERY_SIZE)) w Hmb)
    as (q1 & w1 & q2 & w2 & E1 & E2 & Hi & Hg & F1 & F4 & F5);
    [rewrite len_uninit; cbv; discriminate | exact Hws |].
  unfold bind at 1. rewrite E1. unfold bind at 1. rewrite E2.
  destruct (Z.gtb_spec (header_length mb + 6 + checksum_size mb) 0); [| lia].
  rewrite u16_small in F4, F5 by lia.
  rewrite u8_byte in F1 by (destruct Hfn as [-> | ->]; cbv; split; congruence).
  pose proof (compute_response_size_status mb q2 function count Hfn
                ltac:(lia) F1 F4 F5) as Ec.
  fold bc in Ec.
  unfold bind at 1.
  rewrite (modbus_check_response_whole mb q2 _ mbap pdu extra _ chunks rest
             w2 Hmb Hm Ec)
    by (try assumption; try (rewrite len_uninit); fold reply;
        unfold MAX_PACKET_SIZE in *; try lia; congruence).
  fold reply.
  set (response := reply ++ skipn (length reply) _).
  assert (Hload : forall j, 0 <= j < 3 + bc ->
            load response (header_length mb + j) = load pdu j).
  { intros j Hj. unfold response. rewrite load_app_l by lia. unfold reply.
    apply load_adu; (assumption || lia). }
  unfold good_response. unfold bind at 1, lift.
  rewrite Hload, R1 by lia.
  replace ((rfc =? FC_READ_COIL_STATUS) || (rfc =? FC_READ_INPUT_STATUS))
    with true by (destruct Hrfc as [-> | ->]; reflexivity).
  unfold bind at 1. rewrite Hload, R2 by lia. unfold ret at 1.
  assert (Hresp : packed_upto f response (3 + header_length mb) count).
  { intros p Hp. destruct (Hpacked p Hp) as (B & EB & HB).
    exists B. split; [| exact HB].
    pose proof (div8_lt_ceil p count Hp) as Hd. fold bc in Hd.
    assert (0 <= p / 8) by (apply Z.div_pos; lia).
    replace (3 + header_length mb + p / 8)
      with (header_length mb + (3 + p / 8)) by lia.
    rewrite Hload by lia. exact EB. }
  destruct (read_io_status_loop_ok f response (header_length mb) count
              Hresp (Z.to_nat bc) 0 data_dest)
    as (d & E & Hl & Hdec & Hout);
    [lia | subst bc; lia | exact Hroom | intros k Hk; lia |].
  rewrite Z.add_0_r in E.
  replace (Z.min (8 * 0) count) with 0 in E by lia.
  exists d. eexists.
  split; [| split; [exact Hl | split; [| exact Hout]]].
  - unfold bind at 1. rewrite E. unfold ret. reflexivity.
  - intros k Hk. apply Hdec.
    assert (count <= 8 * bc).
    { subst bc. unfold ceil_div8.
      pose proof (Z.div_mod (count + 7) 8 ltac:(lia)).
      pose proof (Z.mod_pos_bound (count + 7) 8 ltac:(lia)). lia. }
    lia.
Qed.

(** X23. Reading statuses: whatever the segments the response arrives in,
    [read_coil_status] and [read_input_status] return the quantity asked
    for and leave in the destination one byte for each status, 1 for a
    status that is set and 0 for one that is not, taken from the data
    bytes of the response least significant bit first; the destination
    past the quantity is untouched. *)
Theorem read_status_decodes {hdr : modbus_h} (mb : modbus_param_t)
    (slave start_addr count : Z) (data_dest mbap pdu extra : list Z)
    (rfc : Z) (f : Z -> bool) (chunks : list (list Z))
    (rest : list io_event) (w : world) :
  initialised mb ->
  write_script w = [] ->
  len mbap = 6 ->
  rfc = FC_READ_COIL_STATUS \/ rfc = FC_READ_INPUT_STATUS ->
  0 <= count < 65536 ->
  header_length mb + 3 + ceil_div8 count + checksum_size mb
  <= MAX_PACKET_SIZE ->
  len pdu = 3 + ceil_div8 count ->
  load pdu 1 = Some rfc ->
  load pdu 2 = Some (ceil_div8 count) ->
  packed_upto f pdu 3 count ->
  count <= len data_dest ->
  Forall nonempty chunks ->
  concat chunks = adu mb mbap pdu ++ extra ->
  incoming w = map Chunk chunks ++ rest ->
  forall read,
    read = read_coil_status \/ read = read_input_status ->
    exists d,
      fst (read mb slave start_addr count data_dest w) = Some (count, d)
      /\ len d = len data_dest
      /\ (forall k, 0 <= k < count -> load d k = Some (Z.b2z (f k)))
      /\ (forall k, count <= k -> load d k = load data_dest k).
Proof.
  intros Hmb Hws Hm Hrfc Hn Hmax Hpdu R1 R2 Hpacked Hroom Hne Hcat Hin
         read Hread.
  assert (Hret : (if ceil_div8 count >? 0 then count else ceil_div8 count)
                 = count).
  { destruct (Z.gtb_spec (ceil_div8 count) 0) as [| Hz]; [reflexivity |].
    unfold ceil_div8 in *.
    pose proof (Z.div_mod (count + 7) 8 ltac:(lia)).
    pose proof (Z.mod_pos_bound (count + 7) 8 ltac:(lia)).
    assert (0 <= (count + 7) / 8) by (apply Z.div_pos; lia). lia. }
  destruct Hread as [-> | ->].
  - destruct (read_io_status_ok mb slave FC_READ_COIL_STATUS start_addr
                count data_dest mbap pdu extra rfc f chunks rest w)
      as (d & w' & E & H); try assumption; [left; reflexivity |].
    exists d. split; [| exact H].
    unfold read_coil_status, bind. rewrite E. unfold ret. cbn [fst].
    rewrite Hret. reflexivity.
  - destruct (read_io_status_ok mb slave FC_READ_INPUT_STATUS start_addr
                count data_dest mbap pdu extra rfc f chunks rest w)
      as (d & w' & E & H); try assumption; [right; reflexivity |].
    exists d. split; [| exact H].
    unfold read_input_status, bind. rewrite E. unfold ret. cbn [fst].
    rewrite Hret. reflexivity.
Qed.

Lemma read_status_decodes_witness :
  let bits := [true; false; true; true; false; false; true; true; true] in
  let r := [0; 1; 0; 0; 0; 5; 0x11; 0x01; 0x02; 0xCD; 0x01] in
  let dest := [7; 7; 7; 7; 7; 7; 7; 7; 7; 7] in
  exists d,
    fst (@read_coil_status example_h modbus_init_tcp 0x11 0x13 9 dest
           (idle_world [Chunk (firstn 8 r); Chunk (skipn 8 r)]))
    = Some (9, d)
    /\ len d = len dest
    /\ (forall k, 0 <= k < 9 -> load d k = Some (Z.b2z (bit_at bits k)))
    /\ (forall k, 9 <= k -> load d k = load dest k).
Proof.
  intros bits r dest.
  apply (@read_status_decodes example_h modbus_init_tcp 0x11 0x13 9 dest
           [0; 1; 0; 0; 0; 5] [0x11; 0x01; 0x02; 0xCD; 0x01] []
           FC_READ_COIL_STATUS (bit_at bits)
           [firstn 8 r; skipn 8 r] []
           (idle_world [Chunk (firstn 8 r); Chunk (skipn 8 r)]));
    try reflexivity; try (left; reflexivity);
    try (vm_compute; discriminate);
    try (split; [discriminate | reflexivity]);
    try (repeat constructor; discriminate).
  intros p Hp.
  assert (Hc : p = 0 \/ p = 1 \/ p = 2 \/ p = 3 \/ p = 4 \/ p = 5 \/ p = 6
               \/ p = 7 \/ p = 8) by lia.
  repeat (destruct Hc as [-> | Hc]; [eexists; split; reflexivity |]).
  subst p. eexists; split; reflexivity.
Defined.

(** ** From the coils of the server to the array of the master *)

Lemma read_coil_status_request {hdr : modbus_h} (mb : modbus_param_t)
    (slave start_addr count : Z) (data_dest : list Z) (w : world) :
  initialised mb ->
  writes (trace (snd (read_coil_status mb slave start_addr count data_dest
                                       w)))
  = writes (trace w)
    ++ [request_frame mb w slave FC_READ_COIL_STATUS start_addr count].
Proof.
  intros Hmb.
  rewrite <- (read_io_status_request mb slave FC_READ_COIL_STATUS start_addr
                count data_dest w Hmb).
  unfold read_coil_status, bind.
  destruct (read_io_status mb slave FC_READ_COIL_STATUS start_addr count
              data_dest w) as [[[s d] |] w']; reflexivity.
Qed.

(** X24. The master and the server on Read Coil Status.  Take the request
    that [read_coil_status] sends and the response that [manage_query]
    writes to it from a table of coils that hold 0 or 1; when that
    response arrives at the master, in whatever segments,
    [read_coil_status] returns the quantity and the destination starts
    with the coils of the table, from the address taken modulo 256 on:
    for an address of 256 or more these are not the coils asked for. *)
Theorem read_coil_status_round_trip {hdr : modbus_h}
    (mb : modbus_param_t) (slave addr count : Z) (data_dest : list Z)
    (mb_mapping : modbus_mapping_t) (wm ws : world) (q r extra : list Z)
    (chunks : list (list Z)) (rest : list io_event) :
  initialised mb ->
  write_script wm = [] ->
  0 <= addr < 65536 ->
  0 <= count < 65536 ->
  header_length mb + 3 + ceil_div8 count + checksum_size mb
  <= MAX_PACKET_SIZE ->
  let tab := tab_coil_status mb_mapping in
  Forall (fun v => v = FALSE \/ v = TRUE) tab ->
  addr mod 256 + count <= len tab ->
  count <= len data_dest ->
  writes (trace (snd (read_coil_status mb slave addr count data_dest wm)))
  = writes (trace wm) ++ [q] ->
  writes (trace (snd (manage_query mb q (len q) mb_mapping ws)))
  = writes (trace ws) ++ [r] ->
  Forall nonempty chunks ->
  concat chunks = r ++ extra ->
  incoming wm = map Chunk chunks ++ rest ->
  exists d,
    fst (read_coil_status mb slave addr count data_dest wm) = Some (count, d)
    /\ len d = len data_dest
    /\ (forall k, 0 <= k < count -> load d k = load tab (addr mod 256 + k))
    /\ (forall k, count <= k -> load d k = load data_dest k).
Proof.
  intros Hmb Hws Haddr Hcount Hmax tab Hbits Htab Hroom Hq Hr Hne Hcat Hin.
  assert (Hh : 0 <= header_length mb /\ 0 <= checksum_size mb
               /\ header_length mb + checksum_size mb <= 6).
  { destruct (initialised_cases mb Hmb) as [(_ & -> & ->) | (_ & -> & ->)];
      lia. }
  pose proof (Z.mod_pos_bound addr 256 ltac:(lia)) as Hmod.
  set (f := fun k => nth (Z.to_nat (addr mod 256 + k)) tab 0 =? 1).
  assert (Hf : forall k, 0 <= k < count ->
                 load tab (addr mod 256 + k) = Some (Z.b2z (f k))).
  { intros k Hk. unfold load.
    destruct (Z.ltb_spec (addr mod 256 + k) 0); [lia |].
    rewrite (nth_error_nth' tab 0) by (unfold len in *; lia).
    f_equal. subst f. cbv beta.
    assert (Hv : In (nth (Z.to_nat (addr mod 256 + k)) tab 0) tab)
      by (apply nth_In; unfold len in *; lia).
    rewrite Forall_forall in Hbits.
    destruct (Hbits _ Hv) as [-> | ->]; reflexivity. }
  (* the request *)
  rewrite read_coil_status_request in Hq by assumption.
  apply last_frame in Hq. subst q.
  unfold request_frame, request_pdu in Hr.
  rewrite !u16_small in Hr by lia.
  set (mbap := mbap_of (next_t_id (t_id_query wm)) 6) in *.
  set (pdu := [u8 slave; u8 FC_READ_COIL_STATUS] ++ be16 addr
              ++ be16 count) in *.
  assert (Hfield : forall j v, load pdu j = Some v -> 0 <= j < 6 ->
                     load (adu mb mbap pdu) (header_length mb + j) = Some v).
  { intros j v E Hj. rewrite load_adu; [exact E | assumption | reflexivity |].
    exact Hj. }
  (* the response *)
  assert (L0 : load (adu mb mbap pdu) (header_length mb) = Some (u8 slave)).
  { rewrite <- (Z.add_0_r (header_length mb)).
    apply Hfield; [reflexivity | lia]. }
  pose proof (Hfield 1 _ eq_refl ltac:(lia)) as L1.
  pose proof (Hfield 2 _ eq_refl ltac:(lia)) as L2.
  pose proof (Hfield 3 _ eq_refl ltac:(lia)) as L3.
  pose proof (Hfield 4 _ eq_refl ltac:(lia)) as L4.
  pose proof (Hfield 5 _ eq_refl ltac:(lia)) as L5.
  pose proof (manage_query_status mb (adu mb mbap pdu)
                (len (adu mb mbap pdu)) mb_mapping (u8 slave)
                FC_READ_COIL_STATUS (Z.shiftr addr 8)
                (Z.land addr 255) (Z.shiftr count 8) (Z.land count 255)
                f ws Hmb
                L0 L1 L2 L3 L4 L5 (is_byte_u8 slave)
                (shiftr8_byte count ltac:(lia))
                (land255_byte count ltac:(lia))
                (or_introl eq_refl)) as Hserver.
  cbv zeta in Hserver.
  rewrite !word_of_split in Hserver by lia.
  change (FC_READ_COIL_STATUS =? FC_READ_COIL_STATUS)
    with true in Hserver.
  cbv iota in Hserver.
  destruct (Hserver Hf Hmax)
    as (rpdu & w' & Eserver & Hsent & Hlen & R0 & R1 & R2 & Hpacked).
  rewrite Eserver in Hr. cbn [snd] in Hr.
  rewrite Hsent in Hr. apply last_frame in Hr. subst r.
  (* the decoding *)
  destruct (read_io_status_ok mb slave FC_READ_COIL_STATUS addr count
              data_dest (mbap_of (next_response_t_id ws) (len rpdu)) rpdu
              extra FC_READ_COIL_STATUS f chunks rest wm)
    as (d & wm' & E & Hl & Hdec & Hout);
    try assumption; try reflexivity; try (left; reflexivity).
  exists d. split; [| split; [exact Hl | split; [| exact Hout]]].
  - unfold read_coil_status, bind. rewrite E. unfold ret. cbn [fst].
    destruct (Z.gtb_spec (ceil_div8 count) 0) as [| Hz]; [reflexivity |].
    unfold ceil_div8 in *.
    pose proof (Z.div_mod (count + 7) 8 ltac:(lia)).
    pose proof (Z.mod_pos_bound (count + 7) 8 ltac:(lia)).
    assert (0 <= (count + 7) / 8) by (apply Z.div_pos; lia).
    do 2 f_equal. lia.
  - intros k Hk. rewrite Hdec, Hf by exact Hk. reflexivity.
Qed.

Lemma read_coil_status_round_trip_witness :
  let coils := [1; 0; 1; 1; 0; 0; 1; 1; 1; 0] in
  let m := mkMapping 10 0 0 0 coils [] [] [] in
  let r := [0; 1; 0; 0; 0; 5; 0x11; 0x01; 0x02; 0xE6; 0x00] in
  let dest := [7; 7; 7; 7; 7; 7; 7; 7; 7; 7] in
  exists d,
    fst (@read_coil_status example_h modbus_init_tcp 0x11 0x0101 9 dest
           (idle_world [Chunk (firstn 8 r); Chunk (skipn 8 r)]))
    = Some (9, d)
    /\ len d = len dest
    /\ (forall k, 0 <= k < 9 ->
          load d k = load (tab_coil_status m) (0x0101 mod 256 + k))
    /\ (forall k, 9 <= k -> load d k = load dest k).
Proof.
  intros coils m r dest.
  apply (@read_coil_status_round_trip example_h modbus_init_tcp 0x11 0x0101
           9 dest m
           (idle_world [Chunk (firstn 8 r); Chunk (skipn 8 r)])
           (idle_world [])
           [0; 1; 0; 0; 0; 6; 0x11; 0x01; 0x01; 0x01; 0x00; 0x09] r []
           [firstn 8 r; skipn 8 r] []).
  - split; reflexivity.
  - reflexivity.
  - split; [discriminate | reflexivity].
  - split; [discriminate | reflexivity].
  - vm_compute. discriminate.
  - repeat constructor; cbv; congruence.
  - vm_compute. discriminate.
  - vm_compute. discriminate.
  - vm_compute. reflexivity.
  - vm_compute. reflexivity.
  - repeat constructor; discriminate.
  - reflexivity.
  - reflexivity.
Defined.

(** ** Report Slave ID *)

Lemma load_uninit (g : nat -> Z) (n : nat) (k : Z) :
  0 <= k < Z.of_nat n ->
  load (uninit g n) k = Some (u8 (g (Z.to_nat k))).
Proof.
  intros Hk. unfold load, uninit.
  destruct (Z.ltb_spec k 0); [lia |].
  rewrite nth_error_map, (nth_error_nth' (seq 0 n) O)
    by (rewrite length_seq; lia).
  rewrite seq_nth by lia. reflexivity.
Qed.

(** The copy loop of [report_slave_id]. *)
Lemma report_slave_id_loop_ok (response : list Z) :
  forall (n : nat) (i : Z) (dest : list Z),
    0 <= i ->
    i + Z.of_nat n <= len response ->
    i + Z.of_nat n <= len dest ->
    exists d,
      report_slave_id_loop n i response dest = Some d
      /\ len d = len dest
      /\ (forall k, i <= k < i + Z.of_nat n ->
            load d k = option_map u8 (load response k))
      /\ (forall k, k < i \/ i + Z.of_nat n <= k -> load d k = load dest k).
Proof.
  induction n as [| n IH]; intros i dest Hi Hr Hd.
  - exists dest. cbn [report_slave_id_loop].
    repeat split; intros; try reflexivity; lia.
  - cbn [report_slave_id_loop].
    destruct (load_ok response i ltac:(lia)) as (v & Ev).
    rewrite Ev. cbn [obind]. unfold store8.
    destruct (store_ok dest i (u8 v) ltac:(lia)) as (dest1 & E1).
    rewrite E1. cbn [obind].
    pose proof (store_len _ _ _ _ E1) as Hl1.
    destruct (IH (i + 1) dest1 ltac:(lia) ltac:(lia) ltac:(lia))
      as (d & E & Hl & Hin & Hout).
    exists d. split; [exact E | split; [lia | split]].
    + intros k Hk. destruct (Z.eq_dec k i) as [-> | Hne].
      * rewrite Hout by lia. rewrite (store_load_same _ _ _ _ E1), Ev.
        reflexivity.
      * apply Hin. lia.
    + intros k Hk. rewrite Hout by lia.
      apply (store_load_other _ _ _ _ _ E1). lia.
Qed.

Lemma FC_REPORT_SLAVE_ID_other {hdr : modbus_h} :
  is_byte FC_REPORT_SLAVE_ID
  /\ (FC_REPORT_SLAVE_ID =? FC_READ_COIL_STATUS) = false
  /\ (FC_REPORT_SLAVE_ID =? FC_READ_INPUT_STATUS) = false
  /\ (FC_REPORT_SLAVE_ID =? FC_READ_HOLDING_REGISTERS) = false
  /\ (FC_REPORT_SLAVE_ID =? FC_READ_INPUT_REGISTERS) = false
  /\ (FC_REPORT_SLAVE_ID =? FC_READ_EXCEPTION_STATUS) = false
  /\ (FC_REPORT_SLAVE_ID =? FC_FORCE_MULTIPLE_COILS) = false
  /\ (FC_REPORT_SLAVE_ID =? FC_PRESET_MULTIPLE_REGISTERS) = false.
Proof.
  destruct FC_REPORT_SLAVE_ID_own as [Hr Hn].
  split; [unfold is_byte; lia |].
  repeat split; apply Z.eqb_neq; intros E; apply Hn; rewrite E;
    cbn [In]; auto 12.
Qed.

(** X25. Report Slave ID.  The request is the unit and the function code
    alone.  The response is expected to have a PDU of six bytes, and
    [report_slave_id] returns six plus the lengths of the header and of
    the checksum.  It copies that many bytes of the response, from the
    header length on, to the same place of the destination: what comes
    before stays as it was, the PDU and CRC of the response follow, and
    on TCP six more bytes come from the part of the local array that the
    response never reached. *)
Theorem report_slave_id_copies {hdr : modbus_h} (mb : modbus_param_t)
    (slave : Z) (data_dest mbap pdu extra : list Z)
    (chunks : list (list Z)) (rest : list io_event) (w : world) :
  initialised mb ->
  write_script w = [] ->
  len mbap = 6 ->
  len pdu = 6 ->
  load pdu 1 = Some FC_REPORT_SLAVE_ID ->
  let c := header_length mb + 6 + checksum_size mb in
  header_length mb + c <= len data_dest ->
  Forall nonempty chunks ->
  concat chunks = adu mb mbap pdu ++ extra ->
  incoming w = map Chunk chunks ++ rest ->
  exists d w',
    report_slave_id mb slave data_dest w = (Some (c, d), w')
    /\ writes (trace w')
       = writes (trace w)
         ++ [adu mb (mbap_of (next_t_id (t_id_query w)) 2)
               [u8 slave; FC_REPORT_SLAVE_ID]]
    /\ len d = len data_dest
    /\ (forall k, header_length mb <= k < c ->
          load d k = option_map u8 (load (adu mb mbap pdu) k))
    /\ (forall k, c <= k < header_length mb + c ->
          load d k = Some (u8 (stack_garbage w (Z.to_nat k))))
    /\ (forall k, k < header_length mb \/ header_length mb + c <= k ->
          load d k = load data_dest k).
Proof.
  intros Hmb Hws Hm Hpdu R1 c Hroom Hne Hcat Hin.
  assert (Hh : 0 <= header_length mb /\ 0 <= checksum_size mb
               /\ header_length mb + 6 + checksum_size mb <= 12
               /\ header_length mb + checksum_size mb <= 6).
  { destruct (initialised_cases mb Hmb) as [(_ & -> & ->) | (_ & -> & ->)];
      lia. }
  destruct FC_REPORT_SLAVE_ID_other
    as (Hb & N1 & N2 & N3 & N4 & N7 & N15 & N16).
  set (reply := adu mb mbap pdu) in *.
  assert (Hreply : len reply = c).
  { subst reply c. rewrite len_adu by assumption. lia. }
  set (g := stack_garbage w) in *.
  set (response0 := uninit g (Z.to_nat MAX_PACKET_SIZE)).
  set (query := uninit g (Z.to_nat MIN_QUERY_SIZE)).
  assert (Hquery : len query = 12) by (subst query; apply len_uninit).
  (* the request *)
  destruct (build_query_packet_content mb slave FC_REPORT_SLAVE_ID 0 0
              query w Hmb ltac:(lia))
    as (head & w1 & E1 & Hhead & Htid & T1 & S1 & I1 & G1).
  rewrite (u8_byte FC_REPORT_SLAVE_ID) in E1 by exact Hb.
  set (body := head ++ [u8 slave; FC_REPORT_SLAVE_ID]).
  set (room := (be16 (u16 0) ++ be16 (u16 0))
               ++ skipn (Z.to_nat (header_length mb + 6)) query).
  assert (Hq1 : head ++ ([u8 slave; FC_REPORT_SLAVE_ID] ++ be16 (u16 0)
                         ++ be16 (u16 0))
                ++ skipn (Z.to_nat (header_length mb + 6)) query
                = body ++ room).
  { subst body room. rewrite <- !app_assoc. reflexivity. }
  rewrite Hq1 in E1.
  assert (Hbody : len body = header_length mb + 2).
  { subst body. rewrite len_app, Hhead. reflexivity. }
  assert (Hroomlen : len room = 10 - header_length mb).
  { subst room. unfold len in *. rewrite length_app, length_skipn.
    cbn [length be16 app]. lia. }
  destruct (modbus_send_outcome mb body room w1 Hmb)
    as (r & q2 & w2 & E2 & Hwr & _); try lia.
  destruct (modbus_send_ok mb (body ++ room) (header_length mb + 2) w1 Hmb)
    as (q2' & w2' & E2' & Hi2 & Hg2 & K2); try lia.
  { rewrite len_app. lia. }
  { rewrite S1. exact Hws. }
  rewrite Hbody in E2. rewrite E2 in E2'.
  injection E2' as -> <- <-.
  assert (F1 : load q2 (header_length mb + 1) = Some FC_REPORT_SLAVE_ID).
  { rewrite K2 by lia. rewrite load_app_l by lia.
    subst body. rewrite <- Hhead. apply (load_app_r head). lia. }
  assert (Ec : compute_response_size mb q2 = Some c).
  { unfold compute_response_size. rewrite F1. cbn [obind].
    rewrite N1, N2, N3, N4, N7. cbn [orb obind]. subst c. f_equal. lia. }
  (* the response *)
  set (response := reply ++ skipn (length reply) response0).
  assert (Hresp0 : len response0 = 260) by (subst response0; apply len_uninit).
  assert (Hresponse : len response = 260).
  { subst response. unfold len in *. rewrite length_app, length_skipn. lia. }
  assert (Hin_reply : forall k, k < c -> load response k = load reply k).
  { intros k Hk. subst response. apply load_app_l. lia. }
  assert (Hin_rest : forall k, c <= k < 260 ->
            load response k = Some (u8 (g (Z.to_nat k)))).
  { intros k Hk. subst response.
    replace k with (len reply + (k - c)) at 1 by lia.
    rewrite load_app_r by lia.
    replace (length reply) with (Z.to_nat c) by (unfold len in *; lia).
    rewrite load_skipn by lia.
    replace (c + (k - c)) with k by lia.
    subst response0. apply load_uninit. unfold MAX_PACKET_SIZE. lia. }
  assert (R1' : load response (header_length mb + 1)
                = Some FC_REPORT_SLAVE_ID).
  { rewrite Hin_reply by lia. subst reply.
    rewrite load_adu by (assumption || lia). exact R1. }
  destruct (report_slave_id_loop_ok response (Z.to_nat c) (header_length mb)
              data_dest)
    as (d & Ed & Hl & Hcopy & Hout); try lia.
  exists d. eexists.
  split; [| split; [| split; [exact Hl | split; [| split]]]].
  - unfold report_slave_id.
    unfold bind at 1, local_array. unfold bind at 1, local_array.
    fold g. fold query. fold response0.
    unfold bind at 1. rewrite E1.
    replace (header_length mb + 6 - 4) with (header_length mb + 2) by lia.
    unfold bind at 1. rewrite E2.
    destruct (Z.gtb_spec (header_length mb + 2 + checksum_size mb) 0);
      [| lia].
    unfold bind at 1.
    rewrite (modbus_check_response_whole mb q2 response0 mbap pdu extra c
               chunks rest w2 Hmb Hm Ec)
      by (try assumption; fold reply; unfold MAX_PACKET_SIZE in *;
          try lia; congruence).
    fold reply. fold response.
    unfold good_response. unfold bind at 1, lift. rewrite R1'.
    rewrite N1, N2, N3, N4, N15, N16, Z.eqb_refl. cbn [orb].
    unfold ret at 1. unfold bind at 1. rewrite Ed.
    unfold ret. reflexivity.
  - cbn [trace set_incoming]. rewrite Hwr, T1. subst body.
    rewrite (sent_frame_response mb head [u8 slave; FC_REPORT_SLAVE_ID]
               (next_t_id (t_id_query w))) by assumption.
    reflexivity.
  - intros k Hk. rewrite Hcopy by lia. rewrite Hin_reply by lia.
    reflexivity.
  - intros k Hk. rewrite Hcopy by lia. rewrite Hin_rest by lia.
    cbn [option_map]. rewrite u8_u8. reflexivity.
  - intros k Hk. apply Hout. lia.
Qed.

Lemma report_slave_id_copies_witness :
  let r := [0; 1; 0; 0; 0; 6; 0x11; 0x11; 0x02; 0x09; 0xFF; 0x00] in
  let dest := [7; 7; 7; 7; 7; 7; 7; 7; 7; 7; 7; 7; 7; 7; 7; 7; 7; 7; 7; 7] in
  let w := mkWorld 0 0 [Chunk r] [] [] (fun i => 0xA0 + Z.of_nat i)
                   (fun _ => []) in
  exists d w',
    @report_slave_id example_h modbus_init_tcp 0x11 dest w
    = (Some (12, d), w')
    /\ writes (trace w')
       = writes (trace w)
         ++ [adu modbus_init_tcp (mbap_of (next_t_id (t_id_query w)) 2)
               [u8 0x11; @FC_REPORT_SLAVE_ID example_h]]
    /\ len d = len dest
    /\ (forall k, 6 <= k < 12 ->
          load d k
          = option_map u8
              (load (adu modbus_init_tcp [0; 1; 0; 0; 0; 6]
                         [0x11; 0x11; 0x02; 0x09; 0xFF; 0x00]) k))
    /\ (forall k, 12 <= k < 6 + 12 ->
          load d k = Some (u8 (stack_garbage w (Z.to_nat k))))
    /\ (forall k, k < 6 \/ 6 + 12 <= k -> load d k = load dest k).
Proof.
  intros r dest w.
  apply (@report_slave_id_copies example_h modbus_init_tcp 0x11 dest
           [0; 1; 0; 0; 0; 6] [0x11; 0x11; 0x02; 0x09; 0xFF; 0x00] []
           [r] [] w).
  - split; reflexivity.
  - reflexivity.
  - reflexivity.
  - reflexivity.
  - reflexivity.
  - vm_compute. discriminate.
  - repeat constructor; discriminate.
  - reflexivity.
  - reflexivity.
Defined.

(** ** Writing several registers *)

(** The loop of [preset_multiple_registers]. *)
Lemma preset_multiple_registers_loop_bytes (data_src : list Z) :
  forall (n : nat) (i : Z) (pre room : list Z),
    Forall is_word data_src ->
    0 <= i -> i + Z.of_nat n <= len data_src ->
    2 * Z.of_nat n <= len room ->
    preset_multiple_registers_loop n i data_src (pre ++ room) (len pre)
    = Some (pre ++ registers_bytes (firstn n (skipn (Z.to_nat i) data_src))
            ++ skipn (2 * n) room,
            len pre + 2 * Z.of_nat n).
Proof.
  induction n as [| n IH]; intros i pre room Hw Hi Htab Hroom.
  - cbn [preset_multiple_registers_loop firstn registers_bytes flat_map app
         skipn Nat.mul].
    rewrite Z.add_0_r. reflexivity.
  - cbn [preset_multiple_registers_loop].
    destruct (load_ok data_src i ltac:(lia)) as (v & Ev).
    rewrite Ev. cbn [obind].
    assert (Hskip : skipn (Z.to_nat i) data_src
                    = v :: skipn (Z.to_nat (i + 1)) data_src).
    { unfold load in Ev. destruct (Z.ltb_spec i 0); [lia |].
      replace (Z.to_nat (i + 1)) with (S (Z.to_nat i)) by lia.
      revert Ev. generalize (Z.to_nat i). clear.
      induction data_src as [| x tab IH]; intros [| k] E; try discriminate.
      - injection E as ->. reflexivity.
      - cbn [nth_error] in E. cbn [skipn]. rewrite (IH k E). reflexivity. }
    assert (Hv : is_word v).
    { rewrite Forall_forall in Hw. apply Hw.
      unfold load in Ev. destruct (i <? 0); [discriminate |].
      eapply nth_error_In. exact Ev. }
    unfold is_word in Hv.
    destruct room as [| r0 [| r1 room]];
      try (unfold len in Hroom; cbn [length] in Hroom; lia).
    unfold store8.
    rewrite (u8_byte (Z.shiftr v 8)) by (apply shiftr8_byte; exact Hv).
    rewrite (u8_byte (Z.land v 255)) by (apply land255_byte; lia).
    rewrite store_app. cbn [obind].
    replace (pre ++ Z.shiftr v 8 :: r1 :: room)
      with ((pre ++ [Z.shiftr v 8]) ++ r1 :: room)
      by (rewrite <- app_assoc; reflexivity).
    replace (len pre + 1) with (len (pre ++ [Z.shiftr v 8]))
      by (rewrite len_app; reflexivity).
    rewrite store_app. cbn [obind].
    replace ((pre ++ [Z.shiftr v 8]) ++ Z.land v 255 :: room)
      with ((pre ++ be16 v) ++ room)
      by (unfold be16; rewrite <- !app_assoc; reflexivity).
    replace (len pre + 2) with (len (pre ++ be16 v))
      by (rewrite !len_app; unfold be16, len; cbn [length]; lia).
    rewrite IH; try assumption; try lia.
    + rewrite Hskip. cbn [firstn registers_bytes flat_map].
      rewrite len_app. change (len (be16 v)) with 2.
      f_equal. f_equal; [| lia].
      rewrite <- !app_assoc. f_equal. f_equal. f_equal.
      replace (2 * S n)%nat with (S (S (2 * n))) by lia. reflexivity.
    + unfold len in *. cbn [length] in Hroom. lia.
Qed.

(** [preset_multiple_registers] up to the moment the request goes out. *)
Lemma preset_multiple_registers_built {hdr : modbus_h} (mb : modbus_param_t)
    (slave start_addr reg_count : Z) (data_src : list Z) (w : world) :
  initialised mb ->
  0 <= reg_count ->
  let n := if reg_count >? MAX_WRITE_REGS then MAX_WRITE_REGS
           else reg_count in
  Forall is_word data_src ->
  n <= len data_src ->
  let pdu := preset_multiple_registers_pdu slave start_addr n
               (firstn (Z.to_nat n) data_src) in
  exists head room w1,
    preset_multiple_registers mb slave start_addr reg_count data_src w
    = send_and_confirm mb ((head ++ pdu) ++ room) (len (head ++ pdu)) w1
    /\ len head = header_length mb
    /\ (type_com mb = TCP ->
        firstn 4 head
        = [u8 (Z.shiftr (next_t_id (t_id_query w)) 8);
           u8 (Z.land (next_t_id (t_id_query w)) 255); 0; 0])
    /\ len pdu = 7 + 2 * n
    /\ checksum_size mb <= len room
    /\ trace w1 = trace w
    /\ write_script w1 = write_script w
    /\ incoming w1 = incoming w
    /\ stack_garbage w1 = stack_garbage w.
Proof.
  intros Hmb Hcount n Hw Hsrc pdu.
  assert (Hn : 0 <= n <= 123).
  { subst n. unfold MAX_WRITE_REGS.
    destruct (Z.gtb_spec reg_count 123); lia. }
  assert (Hh : 0 <= header_length mb /\ 0 <= checksum_size mb
               /\ header_length mb + checksum_size mb <= 6
               /\ header_length mb + 3 * checksum_size mb <= 6).
  { destruct (initialised_cases mb Hmb) as [(_ & -> & ->) | (_ & -> & ->)];
      lia. }
  set (query0 := uninit (stack_garbage w) (Z.to_nat MAX_PACKET_SIZE)).
  assert (Hq0 : len query0 = 260) by (subst query0; apply len_uninit).
  destruct (build_query_packet_content mb slave FC_PRESET_MULTIPLE_REGISTERS
              start_addr n query0 w Hmb ltac:(lia))
    as (head & w1 & E1 & Hhead & Htid & T1 & S1 & I1 & G1).
  fold (request_pdu slave FC_PRESET_MULTIPLE_REGISTERS start_addr n) in E1.
  set (req := request_pdu slave FC_PRESET_MULTIPLE_REGISTERS start_addr n)
    in *.
  assert (Hreq : len req = 6) by reflexivity.
  assert (Htail : len (skipn (Z.to_nat (header_length mb + 6)) query0)
                  = 254 - header_length mb).
  { unfold len in *. rewrite length_skipn. lia. }
  destruct (skipn (Z.to_nat (header_length mb + 6)) query0) as [| x tail];
    [unfold len in Htail; cbn [length] in Htail; lia |].
  rewrite len_cons in Htail.
  set (regs := firstn (Z.to_nat n) data_src) in *.
  assert (Hregs : len regs = n).
  { subst regs. unfold len in *. rewrite length_firstn. lia. }
  exists head, (skipn (2 * Z.to_nat n) tail), w1.
  split; [| split; [exact Hhead | split; [exact Htid |
            split; [| split; [| repeat split; assumption]]]]].
  - unfold preset_multiple_registers. unfold bind at 1, local_array.
    fold query0. cbv zeta. fold n.
    unfold bind at 1. rewrite E1.
    unfold bind at 1, lift.
    replace (head ++ req ++ x :: tail) with ((head ++ req) ++ x :: tail)
      by (rewrite <- app_assoc; reflexivity).
    replace (header_length mb + 6) with (len (head ++ req))
      by (rewrite len_app; lia).
    unfold store8. rewrite store_app.
    rewrite (u8_byte (n * 2)) by (unfold is_byte; lia).
    unfold bind at 1.
    replace ((head ++ req) ++ n * 2 :: tail)
      with (((head ++ req) ++ [n * 2]) ++ tail)
      by (rewrite <- !app_assoc; reflexivity).
    replace (len (head ++ req) + 1) with (len ((head ++ req) ++ [n * 2]))
      by (rewrite (len_app _ [n * 2]); reflexivity).
    rewrite (preset_multiple_registers_loop_bytes data_src (Z.to_nat n) 0
               ((head ++ req) ++ [n * 2]) tail Hw)
      by (unfold len in *; lia).
    change (skipn (Z.to_nat 0) data_src) with data_src. fold regs.
    unfold send_and_confirm.
    replace (((head ++ req) ++ [n * 2]) ++ registers_bytes regs
             ++ skipn (2 * Z.to_nat n) tail)
      with ((head ++ pdu) ++ skipn (2 * Z.to_nat n) tail).
    2: { subst pdu. unfold preset_multiple_registers_pdu. fold req.
         rewrite (Z.mul_comm 2 n), <- !app_assoc. reflexivity. }
    replace (len ((head ++ req) ++ [n * 2]) + 2 * Z.of_nat (Z.to_nat n))
      with (len (head ++ pdu)).
    2: { subst pdu. unfold preset_multiple_registers_pdu. fold req.
         rewrite !len_app, len_registers_bytes, Hregs.
         change (len [n * 2]) with 1. change (len [2 * n]) with 1. lia. }
    reflexivity.
  - subst pdu. unfold preset_multiple_registers_pdu. fold req.
    rewrite !len_app, len_registers_bytes, Hregs, Hreq.
    change (len [2 * n]) with 1. lia.
  - unfold len in *. rewrite length_skipn. lia.
Qed.

(** What goes out when a write is sent. *)
Lemma send_and_confirm_frame {hdr : modbus_h} (mb : modbus_param_t)
    (head pdu room : list Z) (t_id : Z) (w : world) :
  initialised mb ->
  len head = header_length mb ->
  (type_com mb = TCP ->
   firstn 4 head = [u8 (Z.shiftr t_id 8); u8 (Z.land t_id 255); 0; 0]) ->
  checksum_size mb <= len room ->
  len pdu < 65000 ->
  writes (trace (snd (send_and_confirm mb ((head ++ pdu) ++ room)
                                       (len (head ++ pdu)) w)))
  = writes (trace w) ++ [adu mb (mbap_of t_id (len pdu)) pdu].
Proof.
  intros Hmb Hhead Htid Hroom Hpdu.
  pose proof (len_nonneg pdu) as Hp0.
  assert (Hh : 0 <= header_length mb <= 6).
  { destruct (initialised_cases mb Hmb) as [(_ & -> & _) | (_ & -> & _)];
      lia. }
  destruct (modbus_send_outcome mb (head ++ pdu) room w Hmb)
    as (r & q2 & w2 & E2 & Hwr & _);
    try (rewrite len_app; lia); [exact Hroom |].
  unfold send_and_confirm. unfold bind at 1. rewrite E2.
  rewrite <- (sent_frame_response mb head pdu t_id) by assumption.
  rewrite <- Hwr.
  destruct (r >? 0); [apply keeps_preset_response | reflexivity].
Qed.

(** X26. Preset Multiple Registers on the wire.  The quantity is capped at
    123; the frame that [preset_multiple_registers] hands to the
    transport is the unit, function code 0x10, the address and the
    quantity high byte first, twice the quantity as the number of data
    bytes and the values of the source high byte first, closed by the CRC
    on a serial line and preceded on TCP by the next transaction id,
    protocol 0 and the length of all that. *)
Theorem preset_multiple_registers_payload {hdr : modbus_h}
    (mb : modbus_param_t) (slave start_addr reg_count : Z)
    (data_src : list Z) (w : world) :
  initialised mb ->
  0 <= reg_count ->
  let n := if reg_count >? 123 then 123 else reg_count in
  Forall is_word data_src ->
  n <= len data_src ->
  writes (trace (snd (preset_multiple_registers mb slave start_addr
                        reg_count data_src w)))
  = writes (trace w)
    ++ [adu mb (mbap_of (next_t_id (t_id_query w)) (7 + 2 * n))
          ([u8 slave; 0x10] ++ be16 (u16 start_addr) ++ be16 n
           ++ [2 * n] ++ registers_bytes (firstn (Z.to_nat n) data_src))].
Proof.
  intros Hmb Hcount n Hw Hsrc.
  assert (Hn : 0 <= n <= 123) by (subst n; destruct (Z.gtb_spec reg_count 123); lia).
  destruct (preset_multiple_registers_built mb slave start_addr reg_count
              data_src w Hmb Hcount Hw Hsrc)
    as (head & room & w1 & E & Hhead & Htid & Hlen & Hroom & T1 & _).
  change MAX_WRITE_REGS with 123 in *. fold n in E, Hlen.
  rewrite E.
  rewrite (send_and_confirm_frame mb head _ room (next_t_id (t_id_query w)))
    by (try assumption; lia).
  rewrite T1, Hlen.
  unfold preset_multiple_registers_pdu, request_pdu.
  rewrite (u16_small n) by lia.
  rewrite <- !app_assoc. reflexivity.
Qed.

Lemma preset_multiple_registers_payload_witness :
  writes (trace (snd (@preset_multiple_registers example_h modbus_init_rtu
                        0x11 0x0001 2 [0x000A; 0x0102; 0xFFFF]
                        (idle_world []))))
  = [[0x11; 0x10; 0x00; 0x01; 0x00; 0x02; 0x04; 0x00; 0x0A; 0x01; 0x02;
      0xC6; 0xF0]].
Proof.
  apply (@preset_multiple_registers_payload example_h modbus_init_rtu
           0x11 0x0001 2 [0x000A; 0x0102; 0xFFFF] (idle_world [])).
  - split; reflexivity.
  - discriminate.
  - repeat constructor; cbv; congruence.
  - vm_compute. discriminate.
Defined.

(** ** Writing several coils *)

Lemma testbit_small (cur s : Z) :
  0 <= s -> 0 <= cur < 2 ^ s -> Z.testbit cur s = false.
Proof.
  intros Hs Hc. rewrite Z.testbit_eqb by exact Hs.
  rewrite Z.div_small by exact Hc. reflexivity.
Qed.

Lemma lor_pow2_small (cur s : Z) :
  0 <= s -> 0 <= cur < 2 ^ s -> Z.lor cur (2 ^ s) = cur + 2 ^ s.
Proof.
  intros Hs Hc.
  assert (H0 : Z.land cur (2 ^ s) = 0).
  { apply Z.bits_inj'. intros q Hq.
    rewrite Z.land_spec, Z.bits_0, Z.pow2_bits_eqb by exact Hs.
    destruct (Z.eqb_spec s q) as [<- | _].
    - rewrite testbit_small by assumption. reflexivity.
    - apply andb_false_r. }
  rewrite <- Z.lxor_lor by exact H0.
  rewrite <- Z.add_nocarry_lxor by exact H0. reflexivity.
Qed.

Lemma land_lnot_pow2_small (cur s : Z) :
  0 <= s -> 0 <= cur < 2 ^ s -> Z.land cur (Z.lnot (2 ^ s)) = cur.
Proof.
  intros Hs Hc. apply Z.bits_inj'. intros q Hq.
  rewrite Z.land_spec, Z.lnot_spec, Z.pow2_bits_eqb by assumption.
  destruct (Z.eqb_spec s q) as [<- | _]; cbn [negb].
  - rewrite testbit_small by assumption. reflexivity.
  - apply andb_true_r.
Qed.

Lemma bits_value_zero (g : Z -> bool) :
  forall (m : nat) (s : Z),
    (forall i, s <= i -> g i = false) ->
    bits_value (map g (zseq s m)) = 0.
Proof.
  induction m as [| m IH]; intros s H; [reflexivity |].
  cbn [zseq map bits_value].
  rewrite (H s) by lia. rewrite IH by (intros i Hi; apply H; lia).
  reflexivity.
Qed.

Lemma bits_value_bound (bits : list bool) :
  0 <= bits_value bits < 2 ^ Z.of_nat (length bits).
Proof.
  induction bits as [| b bits IH]; [cbn; lia |].
  cbn [bits_value length]. rewrite Nat2Z.inj_succ, Z.pow_succ_r by lia.
  destruct b; cbn [Z.b2z]; lia.
Qed.

(** The inner loop of [force_multiple_coils] on the bits from [s] on of
    the byte whose first coil is [base]. *)
Lemma force_multiple_coils_bits_value (coil_count : Z) (data_src : list Z)
    (base : Z) :
  0 <= base -> coil_count <= len data_src ->
  forall (m : nat) (s cur : Z),
    0 <= s -> s + Z.of_nat m <= 8 -> 0 <= cur < 2 ^ s ->
    base + s <= coil_count ->
    exists coil_check' pos',
      force_multiple_coils_bits (map (Z.shiftl 1) (zseq s m)) coil_count
                                data_src cur (base + s) (base + s)
      = Some (cur + 2 ^ s
                    * bits_value
                        (map (fun i => coil_set data_src coil_count (base + i))
                             (zseq s m)),
              coil_check', pos')
      /\ (base + s + Z.of_nat m <= coil_count ->
          coil_check' = base + s + Z.of_nat m
          /\ pos' = base + s + Z.of_nat m).
Proof.
  intros Hbase Hsrc.
  induction m as [| m IH]; intros s cur Hs Hm Hcur Hpos.
  - exists (base + s), (base + s).
    cbn [zseq map force_multiple_coils_bits bits_value].
    split; [do 3 f_equal; lia | lia].
  - cbn [zseq map force_multiple_coils_bits bits_value].
    destruct (Z.ltb_spec (base + s) coil_count) as [Hlt | Hge].
    + destruct (load_ok data_src (base + s) ltac:(lia)) as (v & Ev).
      rewrite Ev. cbn [obind].
      assert (Hv : nth (Z.to_nat (base + s)) data_src 0 = v).
      { unfold load in Ev. destruct (Z.ltb_spec (base + s) 0); [lia |].
        apply nth_error_nth. exact Ev. }
      assert (Hg : coil_set data_src coil_count (base + s) = negb (v =? 0)).
      { unfold coil_set. rewrite Hv.
        destruct (Z.ltb_spec (base + s) coil_count); [reflexivity | lia]. }
      rewrite Hg. rewrite Z.shiftl_1_l.
      assert (Hp : 0 < 2 ^ s) by (apply Z.pow_pos_nonneg; lia).
      assert (Hp8 : 2 ^ (s + 1) <= 256).
      { change 256 with (2 ^ 8). apply Z.pow_le_mono_r; lia. }
      assert (Hsucc : 2 ^ (s + 1) = 2 * 2 ^ s)
        by (rewrite Z.pow_add_r by lia; lia).
      set (cur1 := if negb (v =? 0) then u8 (Z.lor cur (2 ^ s))
                   else u8 (Z.land cur (Z.lnot (2 ^ s)))).
      assert (Hcur1 : cur1 = cur + 2 ^ s * Z.b2z (negb (v =? 0))).
      { subst cur1. destruct (negb (v =? 0)); cbn [Z.b2z].
        - rewrite lor_pow2_small by assumption.
          rewrite u8_byte by (unfold is_byte; lia). lia.
        - rewrite land_lnot_pow2_small by assumption.
          rewrite u8_byte by (unfold is_byte; lia). lia. }
      replace (base + s + 1) with (base + (s + 1)) by lia.
      destruct (IH (s + 1) cur1 ltac:(lia) ltac:(lia)) as (cc & pp & E & H).
      { rewrite Hcur1. destruct (negb (v =? 0)); cbn [Z.b2z]; lia. }
      { lia. }
      exists cc, pp. split.
      * rewrite E. do 3 f_equal. rewrite Hcur1, Hsucc. ring.
      * intros Hall. destruct (H ltac:(lia)) as [-> ->]. lia.
    + exists (base + s + 1), (base + s).
      split; [| lia].
      do 3 f_equal.
      assert (Hoff : forall i, s <= i ->
                coil_set data_src coil_count (base + i) = false).
      { intros i Hi. unfold coil_set.
        destruct (Z.ltb_spec (base + i) coil_count); [lia | reflexivity]. }
      rewrite (Hoff s) by lia.
      rewrite bits_value_zero by (intros i Hi; apply Hoff; lia).
      cbn [Z.b2z]. lia.
Qed.

(** The loop of [force_multiple_coils] from data byte [j0] on. *)
Lemma force_multiple_coils_loop_bytes (coil_count : Z) (data_src : list Z) :
  coil_count <= len data_src ->
  forall (n : nat) (j0 : Z) (pre room : list Z) (coil_check pos : Z),
    0 <= j0 ->
    j0 + Z.of_nat n <= ceil_div8 coil_count ->
    Z.of_nat n <= len room ->
    (n <> O -> coil_check = 8 * j0 /\ pos = 8 * j0) ->
    force_multiple_coils_loop n coil_count data_src (pre ++ room) (len pre)
                              coil_check pos
    = Some (pre ++ map (coil_byte data_src coil_count) (zseq j0 n)
            ++ skipn n room,
            len pre + Z.of_nat n).
Proof.
  intros Hsrc.
  induction n as [| n IH]; intros j0 pre room cc pos Hj0 Hn Hroom Hstate.
  - cbn [force_multiple_coils_loop zseq map app skipn].
    rewrite Z.add_0_r. reflexivity.
  - destruct (Hstate ltac:(discriminate)) as [-> ->].
    assert (Hlt : 8 * j0 < coil_count).
    { unfold ceil_div8 in Hn.
      pose proof (Z.mul_div_le (coil_count + 7) 8 ltac:(lia)). lia. }
    destruct room as [| x room];
      [unfold len in Hroom; cbn [length] in Hroom; lia |].
    cbn [force_multiple_coils_loop].
    unfold store8. rewrite store_app. cbn [obind].
    change (u8 0) with 0.
    change bit_masks with (map (Z.shiftl 1) (zseq 0 8)).
    destruct (force_multiple_coils_bits_value coil_count data_src (8 * j0)
                ltac:(lia) Hsrc 8 0 0 ltac:(lia) ltac:(lia) ltac:(lia)
                ltac:(lia))
      as (cc' & pos' & E & Hfull).
    rewrite Z.add_0_r in E. rewrite E. cbn [obind].
    fold (coil_byte data_src coil_count j0).
    change (0 + 2 ^ 0 * coil_byte data_src coil_count j0)
      with (0 + 1 * coil_byte data_src coil_count j0).
    replace (0 + 1 * coil_byte data_src coil_count j0)
      with (coil_byte data_src coil_count j0) by lia.
    pose proof (bits_value_bound
                  (map (fun i => coil_set data_src coil_count (8 * j0 + i))
                       (zseq 0 8))) as Hb.
    fold (coil_byte data_src coil_count j0) in Hb.
    rewrite length_map in Hb. cbn [zseq length] in Hb.
    change (2 ^ Z.of_nat 8) with 256 in Hb.
    rewrite u8_byte by exact Hb.
    rewrite store_app. cbn [obind].
    set (V := coil_byte data_src coil_count j0).
    replace (pre ++ V :: room) with ((pre ++ [V]) ++ room)
      by (rewrite <- app_assoc; reflexivity).
    replace (len pre + 1) with (len (pre ++ [V]))
      by (rewrite len_app; reflexivity).
    rewrite (IH (j0 + 1) (pre ++ [V]) room cc' pos').
    + cbn [zseq map skipn]. rewrite len_app. change (len [V]) with 1.
      rewrite <- app_assoc. do 2 f_equal. lia.
    + lia.
    + lia.
    + unfold len in *. cbn [length] in Hroom. lia.
    + intros Hn0.
      assert (8 * j0 + 0 + Z.of_nat 8 <= coil_count).
      { assert (Hn1 : 1 <= Z.of_nat n) by lia.
        unfold ceil_div8 in Hn.
        pose proof (Z.mul_div_le (coil_count + 7) 8 ltac:(lia)). lia. }
      destruct (Hfull ltac:(assumption)) as [-> ->]. lia.
Qed.

Lemma len_coils_bytes (data_src : list Z) (n : Z) :
  0 <= n -> len (coils_bytes data_src n) = ceil_div8 n.
Proof.
  intros Hn. unfold coils_bytes, len. rewrite length_map.
  assert (Hz : forall m s, length (zseq s m) = m).
  { induction m as [| m IH]; intros s; [reflexivity |].
    cbn [zseq length]. rewrite IH. reflexivity. }
  rewrite Hz. unfold ceil_div8.
  assert (0 <= (n + 7) / 8) by (apply Z.div_pos; lia). lia.
Qed.

(** [force_multiple_coils] up to the moment the request goes out. *)
Lemma force_multiple_coils_built {hdr : modbus_h} (mb : modbus_param_t)
    (slave start_addr coil_count : Z) (data_src : list Z) (w : world) :
  initialised mb ->
  0 <= coil_count ->
  let n := if coil_count >? MAX_WRITE_COILS then MAX_WRITE_COILS
           else coil_count in
  n <= len data_src ->
  let pdu := force_multiple_coils_pdu slave start_addr n data_src in
  exists head room w1,
    force_multiple_coils mb slave start_addr coil_count data_src w
    = send_and_confirm mb ((head ++ pdu) ++ room) (len (head ++ pdu)) w1
    /\ len head = header_length mb
    /\ (type_com mb = TCP ->
        firstn 4 head
        = [u8 (Z.shiftr (next_t_id (t_id_query w)) 8);
           u8 (Z.land (next_t_id (t_id_query w)) 255); 0; 0])
    /\ len pdu = 7 + ceil_div8 n
    /\ checksum_size mb <= len room
    /\ trace w1 = trace w
    /\ write_script w1 = write_script w
    /\ incoming w1 = incoming w
    /\ stack_garbage w1 = stack_garbage w.
Proof.
  intros Hmb Hcount n Hsrc pdu.
  assert (Hn : 0 <= n <= 1968).
  { subst n. unfold MAX_WRITE_COILS.
    destruct (Z.gtb_spec coil_count 1968); lia. }
  assert (Hbc : 0 <= ceil_div8 n <= 246).
  { unfold ceil_div8. split; [apply Z.div_pos; lia |].
    apply Z.lt_succ_r. apply Z.div_lt_upper_bound; lia. }
  assert (Hh : 0 <= header_length mb /\ 0 <= checksum_size mb
               /\ header_length mb + checksum_size mb <= 6
               /\ header_length mb + 3 * checksum_size mb <= 6).
  { destruct (initialised_cases mb Hmb) as [(_ & -> & ->) | (_ & -> & ->)];
      lia. }
  set (query0 := uninit (stack_garbage w) (Z.to_nat MAX_PACKET_SIZE)).
  assert (Hq0 : len query0 = 260) by (subst query0; apply len_uninit).
  destruct (build_query_packet_content mb slave FC_FORCE_MULTIPLE_COILS
              start_addr n query0 w Hmb ltac:(lia))
    as (head & w1 & E1 & Hhead & Htid & T1 & S1 & I1 & G1).
  fold (request_pdu slave FC_FORCE_MULTIPLE_COILS start_addr n) in E1.
  set (req := request_pdu slave FC_FORCE_MULTIPLE_COILS start_addr n) in *.
  assert (Hreq : len req = 6) by reflexivity.
  assert (Htail : len (skipn (Z.to_nat (header_length mb + 6)) query0)
                  = 254 - header_length mb).
  { unfold len in *. rewrite length_skipn. lia. }
  destruct (skipn (Z.to_nat (header_length mb + 6)) query0) as [| x tail];
    [unfold len in Htail; cbn [length] in Htail; lia |].
  rewrite len_cons in Htail.
  set (bc := ceil_div8 n) in *.
  pose proof (len_coils_bytes data_src n ltac:(lia)) as Hpay. fold bc in Hpay.
  exists head, (skipn (Z.to_nat bc) tail), w1.
  split; [| split; [exact Hhead | split; [exact Htid |
            split; [| split; [| repeat split; assumption]]]]].
  - unfold force_multiple_coils. unfold bind at 1, local_array.
    fold query0. cbv zeta. fold n.
    rewrite (quot_rem_ceil_div8 n) by lia. fold bc.
    unfold bind at 1. rewrite E1.
    unfold bind at 1, lift.
    replace (head ++ req ++ x :: tail) with ((head ++ req) ++ x :: tail)
      by (rewrite <- app_assoc; reflexivity).
    replace (header_length mb + 6) with (len (head ++ req))
      by (rewrite len_app; lia).
    unfold store8. rewrite store_app.
    rewrite (u8_byte bc) by (unfold is_byte; lia).
    unfold bind at 1.
    replace ((head ++ req) ++ bc :: tail)
      with (((head ++ req) ++ [bc]) ++ tail)
      by (rewrite <- !app_assoc; reflexivity).
    replace (len (head ++ req) + 1) with (len ((head ++ req) ++ [bc]))
      by (rewrite (len_app _ [bc]); reflexivity).
    rewrite (force_multiple_coils_loop_bytes n data_src Hsrc (Z.to_nat bc) 0
               ((head ++ req) ++ [bc]) tail 0 0)
      by (try (unfold len in *; lia); intros _; split; reflexivity).
    change (map (coil_byte data_src n) (zseq 0 (Z.to_nat bc)))
      with (coils_bytes data_src n).
    unfold send_and_confirm.
    replace (((head ++ req) ++ [bc]) ++ coils_bytes data_src n
             ++ skipn (Z.to_nat bc) tail)
      with ((head ++ pdu) ++ skipn (Z.to_nat bc) tail).
    2: { subst pdu. unfold force_multiple_coils_pdu. fold req. fold bc.
         rewrite <- !app_assoc. reflexivity. }
    replace (len ((head ++ req) ++ [bc]) + Z.of_nat (Z.to_nat bc))
      with (len (head ++ pdu)).
    2: { subst pdu. unfold force_multiple_coils_pdu. fold req. fold bc.
         rewrite !len_app, Hpay. change (len [bc]) with 1. lia. }
    reflexivity.
  - subst pdu. unfold force_multiple_coils_pdu. fold req. fold bc.
    rewrite !len_app, Hpay, Hreq. change (len [bc]) with 1. lia.
  - unfold len in *. rewrite length_skipn. lia.
Qed.

(** X27. Force Multiple Coils on the wire.  The quantity is capped at
    1968; the frame that [force_multiple_coils] hands to the transport is
    the unit, function code 0x0F, the address and the quantity high byte
    first, the number of data bytes and the coils packed eight to a byte,
    least significant bit first: a coil is set when its element of the
    source is not zero, and the bits past the last coil are zero.  The CRC
    closes it on a serial line; the next transaction id, protocol 0 and
    the length of all that precede it on TCP. *)
Theorem force_multiple_coils_payload {hdr : modbus_h}
    (mb : modbus_param_t) (slave start_addr coil_count : Z)
    (data_src : list Z) (w : world) :
  initialised mb ->
  0 <= coil_count ->
  let n := if coil_count >? 1968 then 1968 else coil_count in
  n <= len data_src ->
  writes (trace (snd (force_multiple_coils mb slave start_addr coil_count
                        data_src w)))
  = writes (trace w)
    ++ [adu mb (mbap_of (next_t_id (t_id_query w)) (7 + ceil_div8 n))
          ([u8 slave; 0x0F] ++ be16 (u16 start_addr) ++ be16 n
           ++ [ceil_div8 n] ++ coils_bytes data_src n)].
Proof.
  intros Hmb Hcount n Hsrc.
  assert (Hn : 0 <= n <= 1968)
    by (subst n; destruct (Z.gtb_spec coil_count 1968); lia).
  destruct (force_multiple_coils_built mb slave start_addr coil_count
              data_src w Hmb Hcount Hsrc)
    as (head & room & w1 & E & Hhead & Htid & Hlen & Hroom & T1 & _).
  change MAX_WRITE_COILS with 1968 in *. fold n in E, Hlen.
  assert (Hbc : 0 <= ceil_div8 n <= 246).
  { unfold ceil_div8. split; [apply Z.div_pos; lia |].
    apply Z.lt_succ_r. apply Z.div_lt_upper_bound; lia. }
  rewrite E.
  rewrite (send_and_confirm_frame mb head _ room (next_t_id (t_id_query w)))
    by (try assumption; lia).
  rewrite T1, Hlen.
  unfold force_multiple_coils_pdu, request_pdu.
  rewrite (u16_small n) by lia.
  rewrite <- !app_assoc. reflexivity.
Qed.

Lemma force_multiple_coils_payload_witness :
  writes (trace (snd (@force_multiple_coils example_h modbus_init_tcp
                        0x11 0x0013 10 [1; 0; 7; 1; 0; 0; 1; 1; 1; 0; 1]
                        (idle_world []))))
  = [[0x00; 0x01; 0x00; 0x00; 0x00; 0x09;
      0x11; 0x0F; 0x00; 0x13; 0x00; 0x0A; 0x02; 0xCD; 0x01]].
Proof.
  apply (@force_multiple_coils_payload example_h modbus_init_tcp
           0x11 0x0013 10 [1; 0; 7; 1; 0; 0; 1; 1; 1; 0; 1] (idle_world [])).
  - split; reflexivity.
  - discriminate.
  - vm_compute. discriminate.
Defined.

(** ** The confirmation of a write of several values *)

(** The value that the operation returns is read off the response. *)
Lemma send_and_confirm_echo {hdr : modbus_h} (mb : modbus_param_t)
    (head pdu room : list Z) (fc : Z) (mbap rpdu extra : list Z)
    (rfc hi lo : Z) (chunks : list (list Z)) (rest : list io_event)
    (w : world) :
  initialised mb ->
  len head = header_length mb ->
  checksum_size mb <= len room ->
  2 <= len pdu ->
  write_script w = [] ->
  load pdu 1 = Some fc ->
  fc = FC_FORCE_MULTIPLE_COILS \/ fc = FC_PRESET_MULTIPLE_REGISTERS ->
  len mbap = 6 ->
  len rpdu = 6 ->
  load rpdu 1 = Some rfc ->
  rfc = FC_FORCE_MULTIPLE_COILS \/ rfc = FC_PRESET_MULTIPLE_REGISTERS ->
  load rpdu 4 = Some hi ->
  load rpdu 5 = Some lo ->
  is_byte lo ->
  Forall nonempty chunks ->
  concat chunks = adu mb mbap rpdu ++ extra ->
  incoming w = map Chunk chunks ++ rest ->
  fst (send_and_confirm mb ((head ++ pdu) ++ room) (len (head ++ pdu)) w)
  = Some (word_of hi lo).
Proof.
  intros Hmb Hhead Hroom Hpdu Hws P1 Hfc Hm Hrpdu R1 Hrfc R4 R5 Blo
         Hne Hcat Hin.
  assert (Hh : 0 <= header_length mb /\ 0 <= checksum_size mb
               /\ header_length mb + checksum_size mb <= 6).
  { destruct (initialised_cases mb Hmb) as [(_ & -> & ->) | (_ & -> & ->)];
      lia. }
  set (body := head ++ pdu) in *.
  assert (Hbody : len body = header_length mb + len pdu)
    by (subst body; rewrite len_app; lia).
  destruct (modbus_send_ok mb (body ++ room) (len body) w Hmb)
    as (q2 & w2 & E2 & Hi2 & Hg2 & K2);
    try (rewrite ?len_app; lia); [exact Hws |].
  assert (F1 : load q2 (header_length mb + 1) = Some fc).
  { rewrite K2 by lia. rewrite load_app_l by lia.
    subst body. rewrite <- Hhead. rewrite load_app_r by lia. exact P1. }
  assert (Ec : compute_response_size mb q2
               = Some (6 + header_length mb + checksum_size mb)).
  { unfold compute_response_size. rewrite F1. cbn [obind].
    destruct Hfc as [-> | ->]; reflexivity. }
  set (reply := adu mb mbap rpdu) in *.
  assert (Hreply : len reply = 6 + header_length mb + checksum_size mb).
  { subst reply. rewrite len_adu by assumption. lia. }
  unfold send_and_confirm. unfold bind at 1. rewrite E2.
  destruct (Z.gtb_spec (len body + checksum_size mb) 0); [| lia].
  unfold preset_response. unfold bind at 1, local_array.
  unfold bind at 1.
  rewrite (modbus_check_response_whole mb q2 _ mbap rpdu extra _ chunks rest
             w2 Hmb Hm Ec)
    by (try assumption; try (rewrite len_uninit); fold reply;
        unfold MAX_PACKET_SIZE in *; try lia; congruence).
  fold reply.
  set (response := reply ++ skipn (length reply) _).
  assert (Hload : forall j, 0 <= j < 6 ->
            load response (header_length mb + j) = load rpdu j).
  { intros j Hj. unfold response. rewrite load_app_l by lia. unfold reply.
    apply load_adu; (assumption || lia). }
  unfold good_response. unfold bind at 1, lift.
  rewrite Hload, R1 by lia.
  replace ((rfc =? FC_READ_COIL_STATUS) || (rfc =? FC_READ_INPUT_STATUS))
    with false by (destruct Hrfc as [-> | ->]; reflexivity).
  replace ((rfc =? FC_READ_HOLDING_REGISTERS)
           || (rfc =? FC_READ_INPUT_REGISTERS))
    with false by (destruct Hrfc as [-> | ->]; reflexivity).
  replace ((rfc =? FC_FORCE_MULTIPLE_COILS)
           || (rfc =? FC_PRESET_MULTIPLE_REGISTERS))
    with true by (destruct Hrfc as [-> | ->]; reflexivity).
  unfold bind at 1. rewrite Hload, R4 by lia.
  unfold bind at 1. rewrite Hload, R5 by lia.
  unfold ret. cbn [fst].
  rewrite lor_shiftl_byte by exact Blo. reflexivity.
Qed.

(** X28. What a write of several values returns.  When the request went
    out and a response of the expected size arrives, in whatever
    segments, with function code 0x0F or 0x10, [force_multiple_coils] and
    [preset_multiple_registers] return the quantity that the response
    carries in its fifth and sixth bytes: it is not compared with the
    quantity, the address, the unit or the function code of the
    request. *)
Theorem multiple_write_returns_echo {hdr : modbus_h} (mb : modbus_param_t)
    (slave start_addr count : Z) (data_src mbap rpdu extra : list Z)
    (rfc hi lo : Z) (chunks : list (list Z)) (rest : list io_event)
    (w : world) :
  initialised mb ->
  write_script w = [] ->
  0 <= count ->
  len mbap = 6 ->
  len rpdu = 6 ->
  load rpdu 1 = Some rfc ->
  rfc = FC_FORCE_MULTIPLE_COILS \/ rfc = FC_PRESET_MULTIPLE_REGISTERS ->
  load rpdu 4 = Some hi ->
  load rpdu 5 = Some lo ->
  is_byte lo ->
  Forall nonempty chunks ->
  concat chunks = adu mb mbap rpdu ++ extra ->
  incoming w = map Chunk chunks ++ rest ->
  ((if count >? 1968 then 1968 else count) <= len data_src ->
   fst (force_multiple_coils mb slave start_addr count data_src w)
   = Some (word_of hi lo))
  /\ (Forall is_word data_src ->
      (if count >? 123 then 123 else count) <= len data_src ->
      fst (preset_multiple_registers mb slave start_addr count data_src w)
      = Some (word_of hi lo)).
Proof.
  intros Hmb Hws Hcount Hm Hrpdu R1 Hrfc R4 R5 Blo Hne Hcat Hin.
  split.
  - intros Hsrc.
    destruct (force_multiple_coils_built mb slave start_addr count
                data_src w Hmb Hcount Hsrc)
      as (head & room & w1 & E & Hhead & _ & Hlen & Hroom & _ & S1 & I1 & _).
    rewrite E.
    assert (0 <= ceil_div8 (if count >? MAX_WRITE_COILS
                            then MAX_WRITE_COILS else count)).
    { unfold ceil_div8. apply Z.div_pos; [| lia]. unfold MAX_WRITE_COILS.
      destruct (Z.gtb_spec count 1968); lia. }
    apply (send_and_confirm_echo mb head _ room FC_FORCE_MULTIPLE_COILS
             mbap rpdu extra rfc hi lo chunks rest w1);
      try assumption; try congruence; try lia; try reflexivity.
  - intros Hw Hsrc.
    destruct (preset_multiple_registers_built mb slave start_addr count
                data_src w Hmb Hcount Hw Hsrc)
      as (head & room & w1 & E & Hhead & _ & Hlen & Hroom & _ & S1 & I1 & _).
    rewrite E.
    assert (0 <= (if count >? MAX_WRITE_REGS then MAX_WRITE_REGS else count)).
    { unfold MAX_WRITE_REGS. destruct (Z.gtb_spec count 123); lia. }
    apply (send_and_confirm_echo mb head _ room FC_PRESET_MULTIPLE_REGISTERS
             mbap rpdu extra rfc hi lo chunks rest w1);
      try assumption; try congruence; try lia; try reflexivity.
Qed.

Lemma multiple_write_returns_echo_witness :
  fst (@force_multiple_coils example_h modbus_init_tcp 0x11 0x0013 10
         [1; 0; 1; 1; 0; 0; 1; 1; 1; 0]
         (idle_world [Chunk [0; 1; 0; 0; 0; 6; 0x22; 0x10; 0x00];
                      Chunk [0x77; 0x01; 0x02]]))
  = Some (word_of 0x01 0x02).
Proof.
  apply (proj1 (@multiple_write_returns_echo example_h modbus_init_tcp
                  0x11 0x0013 10 [1; 0; 1; 1; 0; 0; 1; 1; 1; 0]
                  [0; 1; 0; 0; 0; 6] [0x22; 0x10; 0x00; 0x77; 0x01; 0x02] []
                  0x10 0x01 0x02
                  [[0; 1; 0; 0; 0; 6; 0x22; 0x10; 0x00]; [0x77; 0x01; 0x02]]
                  []
                  (idle_world [Chunk [0; 1; 0; 0; 0; 6; 0x22; 0x10; 0x00];
                               Chunk [0x77; 0x01; 0x02]])
                  ltac:(split; reflexivity) eq_refl ltac:(discriminate)
                  eq_refl eq_refl eq_refl (or_intror eq_refl) eq_refl eq_refl
                  ltac:(split; [discriminate | reflexivity])
                  ltac:(repeat constructor; discriminate) eq_refl eq_refl)).
  vm_compute. discriminate.
Defined.

(** ** Exception responses, seen from the public operations *)

(** The request that went out is well formed. *)
Lemma well_formed_sent {hdr : modbus_h} (mb : modbus_param_t)
    (query : list Z) (function count : Z) :
  load query (header_length mb + 1) = Some (u8 function) ->
  load query (header_length mb + 4) = Some (Z.shiftr (u16 count) 8) ->
  load query (header_length mb + 5) = Some (Z.land (u16 count) 255) ->
  0 <= function < 0x80 ->
  (In function [FC_READ_COIL_STATUS; FC_READ_INPUT_STATUS;
                FC_READ_HOLDING_REGISTERS; FC_READ_INPUT_REGISTERS] ->
   1 <= count < 65536) ->
  well_formed_request mb query function.
Proof.
  intros F1 F4 F5 Hf Hq. unfold well_formed_request.
  rewrite u8_byte in F1 by (unfold is_byte; lia).
  split; [exact F1 | split; [exact Hf |]].
  intros Hin. specialize (Hq Hin).
  rewrite u16_small in F4, F5 by lia.
  exists (Z.shiftr count 8), (Z.land count 255).
  split; [exact F4 | split; [exact F5 |]].
  split; [apply shiftr8_byte; lia |].
  split; [apply land255_byte; lia |].
  rewrite word_of_split by lia. lia.
Qed.

Section Refused.

Context {hdr : modbus_h}.
Variables (mb : modbus_param_t) (unit k : Z) (mbap : list Z)
          (chunks : list (list Z)) (rest : list io_event).
Hypothesis Hmb : initialised mb.
Hypothesis Hk : 0 <= k <= 0x0B.
Hypothesis Hmbap : len mbap = 6.
Hypothesis Hne : Forall nonempty chunks.
Hypothesis Hquiet : quiet rest.

(** The exception response as the caller of [modbus_check_response] with a
    fresh response array sees it. *)
Lemma check_response_refused (query : list Z) (fc : Z) (g : nat -> Z)
    (w : world) :
  well_formed_request mb query fc ->
  concat chunks = exception_reply mb mbap unit fc k ->
  incoming w = map Chunk chunks ++ rest ->
  exists response' w',
    modbus_check_response mb query (uninit g (Z.to_nat MAX_PACKET_SIZE)) w
    = (Some (- k, response'), w').
Proof.
  intros Hwf Hreply Hin.
  destruct (modbus_check_response_exception mb query
              (uninit g (Z.to_nat MAX_PACKET_SIZE)) fc unit k mbap chunks
              rest w Hmb Hwf Hk Hmbap)
    as [response' Ex]; try assumption.
  { rewrite len_uninit. reflexivity. }
  destruct (modbus_check_response mb query _ w) as [[[r resp] |] w'];
    cbn [fst] in Ex; [| discriminate].
  injection Ex as -> ->. exists response', w'. reflexivity.
Qed.

Lemma preset_response_refused (query : list Z) (fc : Z) (w : world) :
  well_formed_request mb query fc ->
  concat chunks = exception_reply mb mbap unit fc k ->
  incoming w = map Chunk chunks ++ rest ->
  fst (preset_response mb query w) = Some (- k).
Proof.
  intros Hwf Hreply Hin. unfold preset_response.
  unfold bind at 1, local_array.
  destruct (check_response_refused query fc (stack_garbage w) w Hwf Hreply
              Hin) as (response' & w' & E).
  unfold bind at 1. rewrite E. reflexivity.
Qed.

(** The operations with a request of six bytes. *)
Lemma read_io_status_refused (slave function start_addr count : Z)
    (data_dest : list Z) (w : world) :
  function = FC_READ_COIL_STATUS \/ function = FC_READ_INPUT_STATUS ->
  1 <= count < 65536 ->
  write_script w = [] ->
  concat chunks = exception_reply mb mbap unit function k ->
  incoming w = map Chunk chunks ++ rest ->
  fst (read_io_status mb slave function start_addr count data_dest w)
  = Some (- k, data_dest).
Proof.
  intros Hf Hcount Hws Hreply Hin.
  assert (Hh : 0 <= header_length mb /\ 0 <= checksum_size mb
               /\ header_length mb + 6 + checksum_size mb <= 12).
  { destruct (initialised_cases mb Hmb) as [(_ & -> & ->) | (_ & -> & ->)];
      lia. }
  unfold read_io_status.
  unfold bind at 1, local_array. unfold bind at 1, local_array.
  destruct (query_sent mb slave function start_addr count
              (uninit (stack_garbage w) (Z.to_nat MIN_QUERY_SIZE)) w Hmb)
    as (q1 & w1 & q2 & w2 & E1 & E2 & Hi & Hg & F1 & F4 & F5);
    [rewrite len_uninit; cbv; discriminate | exact Hws |].
  unfold bind at 1. rewrite E1. unfold bind at 1. rewrite E2.
  destruct (Z.gtb_spec (header_length mb + 6 + checksum_size mb) 0); [| lia].
  assert (Hwf : well_formed_request mb q2 function).
  { apply (well_formed_sent mb q2 function count F1 F4 F5).
    - destruct Hf as [-> | ->]; cbv; split; congruence.
    - intros _. exact Hcount. }
  destruct (check_response_refused q2 function (stack_garbage w) w2 Hwf
              Hreply ltac:(rewrite Hi; exact Hin)) as (response' & w' & E).
  unfold bind at 1. rewrite E.
  replace (Z.to_nat (- k)) with O by lia.
  reflexivity.
Qed.

Lemma read_registers_refused (slave function start_addr count : Z)
    (data_dest : list Z) (w : world) :
  function = FC_READ_HOLDING_REGISTERS
  \/ function = FC_READ_INPUT_REGISTERS ->
  1 <= count < 65536 ->
  write_script w = [] ->
  concat chunks = exception_reply mb mbap unit function k ->
  incoming w = map Chunk chunks ++ rest ->
  fst (read_registers mb slave function start_addr count data_dest w)
  = Some (- k, data_dest).
Proof.
  intros Hf Hcount Hws Hreply Hin.
  assert (Hh : 0 <= header_length mb /\ 0 <= checksum_size mb
               /\ header_length mb + 6 + checksum_size mb <= 12).
  { destruct (initialised_cases mb Hmb) as [(_ & -> & ->) | (_ & -> & ->)];
      lia. }
  unfold read_registers.
  unfold bind at 1, local_array.
  destruct (query_sent mb slave function start_addr count
              (uninit (stack_garbage w) (Z.to_nat MIN_QUERY_SIZE)) w Hmb)
    as (q1 & w1 & q2 & w2 & E1 & E2 & Hi & Hg & F1 & F4 & F5);
    [rewrite len_uninit; cbv; discriminate | exact Hws |].
  unfold bind at 1. rewrite E1. unfold bind at 1. rewrite E2.
  destruct (Z.gtb_spec (header_length mb + 6 + checksum_size mb) 0); [| lia].
  assert (Hwf : well_formed_request mb q2 function).
  { apply (well_formed_sent mb q2 function count F1 F4 F5).
    - destruct Hf as [-> | ->]; cbv; split; congruence.
    - intros _. exact Hcount. }
  unfold read_reg_response. unfold bind at 1, local_array.
  destruct (check_response_refused q2 function (stack_garbage w2) w2 Hwf
              Hreply ltac:(rewrite Hi; exact Hin)) as (response' & w' & E).
  unfold bind at 1. rewrite E.
  replace (Z.to_nat (- k)) with O by lia.
  reflexivity.
Qed.

Lemma set_single_refused (slave function addr value : Z) (w : world) :
  function = FC_FORCE_SINGLE_COIL \/ function = FC_PRESET_SINGLE_REGISTER ->
  write_script w = [] ->
  concat chunks = exception_reply mb mbap unit function k ->
  incoming w = map Chunk chunks ++ rest ->
  fst (set_single mb slave function addr value w) = Some (- k).
Proof.
  intros Hf Hws Hreply Hin.
  assert (Hh : 0 <= header_length mb /\ 0 <= checksum_size mb
               /\ header_length mb + 6 + checksum_size mb <= 12).
  { destruct (initialised_cases mb Hmb) as [(_ & -> & ->) | (_ & -> & ->)];
      lia. }
  unfold set_single.
  unfold bind at 1, local_array.
  destruct (query_sent mb slave function addr value
              (uninit (stack_garbage w) (Z.to_nat MAX_PACKET_SIZE)) w Hmb)
    as (q1 & w1 & q2 & w2 & E1 & E2 & Hi & Hg & F1 & F4 & F5);
    [rewrite len_uninit; cbv; discriminate | exact Hws |].
  unfold bind at 1. rewrite E1. unfold bind at 1. rewrite E2.
  destruct (Z.gtb_spec (header_length mb + 6 + checksum_size mb) 0); [| lia].
  apply (preset_response_refused q2 function w2);
    [| exact Hreply | rewrite Hi; exact Hin].
  apply (well_formed_sent mb q2 function value F1 F4 F5).
  - destruct Hf as [-> | ->]; cbv; split; congruence.
  - intros Hr. exfalso.
    destruct Hf as [-> | ->]; cbv in Hr; intuition discriminate.
Qed.

(** The writes of several values. *)
Lemma preset_multiple_registers_refused (slave start_addr reg_count : Z)
    (data_src : list Z) (w : world) :
  (if reg_count >? MAX_WRITE_REGS then MAX_WRITE_REGS else reg_count)
  <= len data_src ->
  write_script w = [] ->
  concat chunks
  = exception_reply mb mbap unit FC_PRESET_MULTIPLE_REGISTERS k ->
  incoming w = map Chunk chunks ++ rest ->
  fst (preset_multiple_registers mb slave start_addr reg_count data_src w)
  = Some (- k).
Proof.
  intros Hsrc Hws Hreply Hin. unfold preset_multiple_registers.
  pose proof (len_nonneg data_src) as Hsrc0.
  set (n := if reg_count >? MAX_WRITE_REGS then MAX_WRITE_REGS
            else reg_count) in *.
  assert (Hn : n <= 123)
    by (subst n; unfold MAX_WRITE_REGS;
        destruct (Z.gtb_spec reg_count 123); lia).
  unfold bind at 1, local_array.
  pose proof (build_query_packet_io mb slave FC_PRESET_MULTIPLE_REGISTERS
                start_addr n
                (uninit (stack_garbage w) (Z.to_nat MAX_PACKET_SIZE)) w)
    as [Hi1 Hw1].
  destruct (build_query_packet_fields mb slave FC_PRESET_MULTIPLE_REGISTERS
              start_addr n
              (uninit (stack_garbage w) (Z.to_nat MAX_PACKET_SIZE)) w Hmb)
    as (q & w1 & E1 & T1 & G1 & L1 & F1 & F4 & F5).
  { rewrite len_uninit. cbv. discriminate. }
  rewrite E1 in Hi1, Hw1. cbn [snd] in Hi1, Hw1.
  unfold bind at 1. rewrite E1. rewrite len_uninit in L1.
  change (Z.of_nat (Z.to_nat MAX_PACKET_SIZE)) with 260 in L1.
  assert (Hh : 0 <= header_length mb <= 6 /\ 0 <= checksum_size mb /\
               header_length mb + checksum_size mb <= 6).
  { destruct (initialised_cases mb Hmb) as [(_ & -> & ->) | (_ & -> & ->)];
      lia. }
  unfold store8.
  destruct (store_ok q (header_length mb + 6) (u8 (n * 2)) ltac:(lia))
    as [q1 Es].
  pose proof (store_len _ _ _ _ Es) as Ls.
  unfold bind at 1, lift. rewrite Es.
  destruct (preset_multiple_registers_loop_ok (Z.to_nat n) 0 data_src q1
              (header_length mb + 6 + 1) ltac:(lia) ltac:(lia) ltac:(lia)
              ltac:(lia)) as (q2 & El & Ll & Kl).
  unfold bind at 1. rewrite El.
  destruct (modbus_send_ok mb q2
              (header_length mb + 6 + 1 + 2 * Z.of_nat (Z.to_nat n)) w1 Hmb
              ltac:(lia) ltac:(lia) ltac:(congruence))
    as (q' & w2 & E2 & Hi2 & G2 & K2).
  unfold bind at 1. rewrite E2.
  destruct (Z.gtb_spec (header_length mb + 6 + 1 + 2 * Z.of_nat (Z.to_nat n)
                        + checksum_size mb) 0); [| lia].
  apply (preset_response_refused q' FC_PRESET_MULTIPLE_REGISTERS w2);
    [| exact Hreply | congruence].
  split; [| split; [cbv; split; congruence |]].
  - rewrite K2 by lia. rewrite Kl by lia.
    rewrite (store_load_other _ _ _ _ _ Es) by lia. exact F1.
  - intros Hr. exfalso. cbv in Hr. intuition discriminate.
Qed.

Lemma force_multiple_coils_refused (slave start_addr coil_count : Z)
    (data_src : list Z) (w : world) :
  (if coil_count >? MAX_WRITE_COILS then MAX_WRITE_COILS else coil_count)
  <= len data_src ->
  write_script w = [] ->
  concat chunks = exception_reply mb mbap unit FC_FORCE_MULTIPLE_COILS k ->
  incoming w = map Chunk chunks ++ rest ->
  fst (force_multiple_coils mb slave start_addr coil_count data_src w)
  = Some (- k).
Proof.
  intros Hsrc Hws Hreply Hin. unfold force_multiple_coils.
  pose proof (len_nonneg data_src) as Hsrc0.
  set (n := if coil_count >? MAX_WRITE_COILS then MAX_WRITE_COILS
            else coil_count) in *.
  assert (Hn : n <= 1968)
    by (subst n; unfold MAX_WRITE_COILS;
        destruct (Z.gtb_spec coil_count 1968); lia).
  pose proof (byte_count_bound n Hn) as Hbc.
  set (bc := Z.quot n 8 + bool01 (negb (Z.rem n 8 =? 0))) in *.
  unfold bind at 1, local_array.
  pose proof (build_query_packet_io mb slave FC_FORCE_MULTIPLE_COILS
                start_addr n
                (uninit (stack_garbage w) (Z.to_nat MAX_PACKET_SIZE)) w)
    as [Hi1 Hw1].
  destruct (build_query_packet_fields mb slave FC_FORCE_MULTIPLE_COILS
              start_addr n
              (uninit (stack_garbage w) (Z.to_nat MAX_PACKET_SIZE)) w Hmb)
    as (q & w1 & E1 & T1 & G1 & L1 & F1 & F4 & F5).
  { rewrite len_uninit. cbv. discriminate. }
  rewrite E1 in Hi1, Hw1. cbn [snd] in Hi1, Hw1.
  unfold bind at 1. rewrite E1. rewrite len_uninit in L1.
  change (Z.of_nat (Z.to_nat MAX_PACKET_SIZE)) with 260 in L1.
  assert (Hh : 0 <= header_length mb <= 6 /\ 0 <= checksum_size mb /\
               header_length mb + checksum_size mb <= 6).
  { destruct (initialised_cases mb Hmb) as [(_ & -> & ->) | (_ & -> & ->)];
      lia. }
  unfold store8.
  destruct (store_ok q (header_length mb + 6) (u8 bc) ltac:(lia))
    as [q1 Es].
  pose proof (store_len _ _ _ _ Es) as Ls.
  unfold bind at 1, lift. rewrite Es.
  destruct (force_multiple_coils_loop_ok (Z.to_nat bc) n data_src q1
              (header_length mb + 6 + 1) 0 0 ltac:(lia) Hsrc ltac:(lia)
              ltac:(lia)) as (q2 & El & Ll & Kl).
  unfold bind at 1. rewrite El.
  destruct (modbus_send_ok mb q2
              (header_length mb + 6 + 1 + Z.of_nat (Z.to_nat bc)) w1 Hmb
              ltac:(lia) ltac:(lia) ltac:(congruence))
    as (q' & w2 & E2 & Hi2 & G2 & K2).
  unfold bind at 1. rewrite E2.
  destruct (Z.gtb_spec (header_length mb + 6 + 1 + Z.of_nat (Z.to_nat bc)
                        + checksum_size mb) 0); [| lia].
  apply (preset_response_refused q' FC_FORCE_MULTIPLE_COILS w2);
    [| exact Hreply | congruence].
  split; [| split; [cbv; split; congruence |]].
  - rewrite K2 by lia. rewrite Kl by lia.
    rewrite (store_load_other _ _ _ _ _ Es) by lia. exact F1.
  - intros Hr. exfalso. cbv in Hr. intuition discriminate.
Qed.

Lemma report_slave_id_refused (slave : Z) (data_dest : list Z) (w : world) :
  write_script w = [] ->
  concat chunks = exception_reply mb mbap unit FC_REPORT_SLAVE_ID k ->
  incoming w = map Chunk chunks ++ rest ->
  fst (report_slave_id mb slave data_dest w) = Some (- k, data_dest).
Proof.
  intros Hws Hreply Hin.
  assert (Hh : 0 <= header_length mb /\ 0 <= checksum_size mb
               /\ header_length mb + 6 + checksum_size mb <= 12).
  { destruct (initialised_cases mb Hmb) as [(_ & -> & ->) | (_ & -> & ->)];
      lia. }
  destruct FC_REPORT_SLAVE_ID_own as [Hr Hnot].
  unfold report_slave_id.
  unfold bind at 1, local_array. unfold bind at 1, local_array.
  pose proof (build_query_packet_io mb slave FC_REPORT_SLAVE_ID 0 0
                (uninit (stack_garbage w) (Z.to_nat MIN_QUERY_SIZE)) w)
    as [Hi1 Hw1].
  destruct (build_query_packet_fields mb slave FC_REPORT_SLAVE_ID 0 0
              (uninit (stack_garbage w) (Z.to_nat MIN_QUERY_SIZE)) w Hmb)
    as (q & w1 & E1 & T1 & G1 & L1 & F1 & F4 & F5).
  { rewrite len_uninit. cbv. discriminate. }
  rewrite E1 in Hi1, Hw1. cbn [snd] in Hi1, Hw1.
  unfold bind at 1. rewrite E1. rewrite len_uninit in L1.
  change (Z.of_nat (Z.to_nat MIN_QUERY_SIZE)) with 12 in L1.
  destruct (modbus_send_ok mb q (header_length mb + 6 - 4) w1 Hmb
              ltac:(lia) ltac:(lia) ltac:(congruence))
    as (q' & w2 & E2 & Hi2 & G2 & K2).
  unfold bind at 1. rewrite E2.
  destruct (Z.gtb_spec (header_length mb + 6 - 4 + checksum_size mb) 0);
    [| lia].
  assert (Hwf : well_formed_request mb q' FC_REPORT_SLAVE_ID).
  { split; [| split; [lia |]].
    - rewrite K2 by lia. rewrite F1. f_equal. apply u8_byte.
      unfold is_byte. lia.
    - intros Hin'. exfalso. apply Hnot. cbn [In] in *. tauto. }
  destruct (check_response_refused q' FC_REPORT_SLAVE_ID (stack_garbage w)
              w2 Hwf Hreply ltac:(congruence)) as (response' & w' & E).
  unfold bind at 1. rewrite E.
  replace (Z.to_nat (- k)) with O by lia.
  reflexivity.
Qed.

End Refused.

(** C1.  A well-formed request is one whose function code is below 0x80
    and, for the four reads, asks for at least one value.  When the peer
    answers such a request with the exception response for its function
    code and an exception code [k] between 0 and 0x0B (with its CRC on a
    serial line, after an MBAP header on TCP), in whatever segments it
    arrives, and nothing follows before the timeout,
    [modbus_check_response] returns [- k]; and so does every public
    operation whose request the transport took: the four reads, which
    leave the destination as it was, the two single writes, the two
    writes of several values, given a source that holds the values, and
    [report_slave_id]. *)
Theorem exception_capture {hdr : modbus_h} (mb : modbus_param_t)
    (unit k : Z) (mbap : list Z) (chunks : list (list Z))
    (rest : list io_event) (w : world) :
  initialised mb ->
  0 <= k <= 0x0B ->
  len mbap = 6 ->
  Forall nonempty chunks ->
  incoming w = map Chunk chunks ++ rest ->
  quiet rest ->
  let refused fc := concat chunks = exception_reply mb mbap unit fc k in
  (forall query response fc,
     well_formed_request mb query fc ->
     len response = MAX_PACKET_SIZE ->
     refused fc ->
     exists response',
       fst (modbus_check_response mb query response w)
       = Some (- k, response'))
  /\ (write_script w = [] ->
      forall (slave addr count : Z) (data_dest data_src : list Z),
        (1 <= count < 65536 ->
         refused FC_READ_COIL_STATUS ->
         fst (read_coil_status mb slave addr count data_dest w)
         = Some (- k, data_dest))
        /\ (1 <= count < 65536 ->
            refused FC_READ_INPUT_STATUS ->
            fst (read_input_status mb slave addr count data_dest w)
            = Some (- k, data_dest))
        /\ (1 <= count ->
            refused FC_READ_HOLDING_REGISTERS ->
            fst (read_holding_registers mb slave addr count data_dest w)
            = Some (- k, data_dest))
        /\ (1 <= count ->
            refused FC_READ_INPUT_REGISTERS ->
            fst (read_input_registers mb slave addr count data_dest w)
            = Some (- k, data_dest))
        /\ (refused FC_FORCE_SINGLE_COIL ->
            fst (force_single_coil mb slave addr count w) = Some (- k))
        /\ (refused FC_PRESET_SINGLE_REGISTER ->
            fst (preset_single_register mb slave addr count w)
            = Some (- k))
        /\ ((if count >? MAX_WRITE_COILS then MAX_WRITE_COILS else count)
            <= len data_src ->
            refused FC_FORCE_MULTIPLE_COILS ->
            fst (force_multiple_coils mb slave addr count data_src w)
            = Some (- k))
        /\ ((if count >? MAX_WRITE_REGS then MAX_WRITE_REGS else count)
            <= len data_src ->
            refused FC_PRESET_MULTIPLE_REGISTERS ->
            fst (preset_multiple_registers mb slave addr count data_src w)
            = Some (- k))
        /\ (refused FC_REPORT_SLAVE_ID ->
            fst (report_slave_id mb slave data_dest w)
            = Some (- k, data_dest))).
Proof.
  intros Hmb Hk Hmbap Hne Hin Hquiet refused. subst refused. cbv beta.
  assert (Hstatus : (- k >? 0) = false)
    by (destruct (Z.gtb_spec (- k) 0); [lia | reflexivity]).
  split.
  - intros query response fc Hwf Hresp Hreply.
    apply (modbus_check_response_exception mb query response fc unit k mbap
             chunks rest w); assumption.
  - intros Hws slave addr count data_dest data_src.
    repeat split.
    + intros Hcount Hreply. unfold read_coil_status, bind.
      pose proof (read_io_status_refused mb unit k mbap chunks rest Hmb Hk
                    Hmbap Hne Hquiet slave FC_READ_COIL_STATUS addr count
                    data_dest w (or_introl eq_refl) Hcount Hws Hreply Hin)
        as E.
      destruct (read_io_status mb slave _ addr count data_dest w)
        as [[[status d] |] w']; cbn [fst] in E; [| discriminate].
      injection E as -> ->. unfold ret. cbn [fst]. rewrite Hstatus.
      reflexivity.
    + intros Hcount Hreply. unfold read_input_status, bind.
      pose proof (read_io_status_refused mb unit k mbap chunks rest Hmb Hk
                    Hmbap Hne Hquiet slave FC_READ_INPUT_STATUS addr count
                    data_dest w (or_intror eq_refl) Hcount Hws Hreply Hin)
        as E.
      destruct (read_io_status mb slave _ addr count data_dest w)
        as [[[status d] |] w']; cbn [fst] in E; [| discriminate].
      injection E as -> ->. unfold ret. cbn [fst]. rewrite Hstatus.
      reflexivity.
    + intros Hcount Hreply. unfold read_holding_registers.
      apply (read_registers_refused mb unit k mbap chunks rest Hmb Hk Hmbap
               Hne Hquiet); try assumption; [left; reflexivity |].
      unfold MAX_READ_HOLD_REGS. destruct (Z.gtb_spec count 125); lia.
    + intros Hcount Hreply. unfold read_input_registers.
      apply (read_registers_refused mb unit k mbap chunks rest Hmb Hk Hmbap
               Hne Hquiet); try assumption; [right; reflexivity |].
      unfold MAX_READ_INPUT_REGS. destruct (Z.gtb_spec count 125); lia.
    + intros Hreply. unfold force_single_coil.
      apply (set_single_refused mb unit k mbap chunks rest Hmb Hk Hmbap Hne
               Hquiet); try assumption. left; reflexivity.
    + intros Hreply. unfold preset_single_register.
      apply (set_single_refused mb unit k mbap chunks rest Hmb Hk Hmbap Hne
               Hquiet); try assumption. right; reflexivity.
    + intros Hsrc Hreply.
      apply (force_multiple_coils_refused mb unit k mbap chunks rest Hmb Hk
               Hmbap Hne Hquiet); assumption.
    + intros Hsrc Hreply.
      apply (preset_multiple_registers_refused mb unit k mbap chunks rest
               Hmb Hk Hmbap Hne Hquiet); assumption.
    + intros Hreply.
      apply (report_slave_id_refused mb unit k mbap chunks rest Hmb Hk Hmbap
               Hne Hquiet); assumption.
Qed.

(** The theorem on a serial line: slave 0x11 refuses a Read Holding
    Registers request with exception 2, and its five bytes arrive in two
    segments. *)
Lemma exception_capture_witness :
  let w := idle_world [Chunk [0x11; 0x83]; Chunk [0x02; 0xC1; 0x34];
                       Silence] in
  (exists response',
     fst (@modbus_check_response example_h modbus_init_rtu
            [0x11; 0x03; 0x00; 0x6B; 0x00; 0x03; 0x76; 0x87; 0; 0; 0; 0]
            (repeat 0 260) w)
     = Some (- 2, response'))
  /\ fst (@read_holding_registers example_h modbus_init_rtu 0x11 0x6B 3
            [7; 7; 7] w)
     = Some (- 2, [7; 7; 7]).
Proof.
  intros w.
  destruct (@exception_capture example_h modbus_init_rtu 0x11 2
              (repeat 0 6) [[0x11; 0x83]; [0x02; 0xC1; 0x34]] [Silence] w)
    as [Hcheck Hops].
  - split; reflexivity.
  - split; discriminate.
  - reflexivity.
  - repeat constructor; discriminate.
  - reflexivity.
  - exact I.
  - split.
    + apply (Hcheck _ _ 0x03).
      * split; [reflexivity | split; [split; cbv; congruence |]].
        intros _. exists 0, 3. repeat split; cbv; congruence.
      * reflexivity.
      * reflexivity.
    + destruct (Hops eq_refl 0x11 0x6B 3 [7; 7; 7] [])
        as (_ & _ & Hr & _).
      apply Hr; [lia | reflexivity].
Defined.
